(* ===== verification/_CoqProject ===== *)
-Q . S2P
Prelude.v
GoStrings.v
GoNum.v
GoRunes.v
GoUrl.v
Sql.v
Statement.v
Sha256.v
GoTime.v
GoTimeParse.v
GoDuration.v
GoSort.v
Integrity.v
IntegrityProps.v
Version.v
Checksums.v
Select.v
GoPath.v
Mux.v
Effects.v
Storage.v
Tls.v
Container.v
HA.v
Branch.v
Store.v
Login.v
Json.v
JsonText.v
Disk.v
Secrets.v
Install.v
Github.v
Update.v
Gateway.v
Guarded.v
Wsl.v
Lima.v
Blackbox.v
Anchors.v
Policy.v
Impact.v
Recovery.v
Provenance.v
Documents.v
MySQL.v
Import.v
Pipeline.v
Daemon.v
Web.v
Server.v
Agents.v
Routes.v
Texts.v
Cli.v
Forward.v
Verifier.v
Injection.v
Waiting.v
Opening.v
Serving.v
