(* ===== verification/Prelude.v ===== *)
(** * OxynDB: a verification development of the engine and its servers

    OxynDB (src/) is a control plane around Postgres: branches of one database as
    copy-on-write clones, a hot standby, a wire-protocol gateway and HTTP servers in front of
    them, a tamper-evident record of every schema change (the Blackbox) with its policy gate,
    and the installer and updater of all that. It is written in Go; what it does to the world
    it does by running programs (docker, zfs, btrfs, psql, limactl, wsl.exe), by files and by
    HTTP. This development translates the Go code by hand into executable definitions, named
    as the code names them, and proves what makes each part correct.

    ** How the code is modelled

    - Strings are byte strings ([string]), int and int64 are [Z] with the ranges and
      wrap-arounds written where the code can meet them, maps are stdpp's [gmap] or lists
      where order shows, errors are values of [error] (format, arguments, what it wraps) in
      the sum [outcome] of a value, an error and a panic (Prelude, Effects).
    - A program that acts on the machine is a [prog] (Effects): a function of the history of
      actions and replies so far. The machine is the class [World], which may reply anything
      to any action after any history; theorems hold for every [World]. [runs m h o t] says
      that [m], after the history [h], ends in [o] and made the events [t]. [emits] bounds
      the actions of a program, [triple] (Guarded) says what was seen before an action.
    - Where the contents of the disk at every moment matter (installing, updating,
      downloading, the secrets), programs run on a disk of paths and are traced through all
      the disks in between; any call can be refused, a refused copy leaves a part (Disk).
    - The account store is a record of tables; a statement is a function on it that a fault
      can make fail (Store). A command of the command line is over both machine and store
      (Cli.cmd).
    - Code that is not under src/ is a parameter, with no property but documented ones:
      [Env] (the environment), [Embedded] (the embedded SQL texts), [Outside] (crypto/rand,
      the clock, bcrypt, faults of SQLite), [Provider] (an OAuth provider), [KeyStore] (the
      accounts, to the gateway), [Crypto] (MD5, PBKDF2), [ErrorText] (a failed command's
      text), [Unicode] and [IPLiterals] (tables of the standard library), [MapOrder] (the
      order a map is ranged over), [Pgx], [Console], [ResultRows] and [TableInfo] (what
      database drivers make of a result), [Stderr], [Floats], [Faults], [Archives],
      [Network], [Programs], [KeyPairs], [Random], [Build], [Host]. SHA-256 and HMAC are
      definitions (Sha256); that SHA-256 is collision-free is assumed nowhere, theorems end
      in "or here is a collision" instead.

    ** The parts

    Language and libraries: Prelude (results, tactics, the lists and numbers the files
    share), GoStrings, GoNum, GoRunes, GoUrl, GoPath, GoSort, GoTime, GoTimeParse,
    GoDuration, Mux (net/http's routing), Sha256, Json and JsonText (encoding/json, read
    and written), Sql (how Postgres reads a text), Effects, Guarded, Disk.

    The ledger (src/internal/ledger): Integrity and IntegrityProps (integrity.go: row hash,
    Merkle tree, anchors, Verify), Statement (impact.go: what a statement changes), Policy
    (policy.go). Theorems: an intact verdict commits to the anchored rows; an unbroken
    chain commits to its rows; an untouched ledger is found intact; when Verify panics; a
    destructive statement is recognised whatever its case, spaces, comments and quoting, as
    long as its first word, or its first subcommand, is the destructive one.

    The engine (src/internal/branch): Storage (storage.go, provision.go: ZFS and btrfs),
    Container (what all operations share), Branch (branch.go), HA (ha.go), Recovery
    (restore.go, branch_before.go), Blackbox and Anchors (checkpoint.go, diff.go,
    ledger_entries.go), Policy, Impact (impact.go), Provenance (provenance.go), Documents,
    MySQL and Import (import.go), Pipeline (pipeline.go), Texts (the Format functions and
    Report.Summary). Theorems: which datasets and containers an operation may touch, in
    what order, and what is undone after a failure; one primary through a failback;
    checkpoints that replace nothing and are read back; changes with their author; the
    guardrail that comes back on; Injection: the scripts made by quoting are their templates
    with each value one literal or name, and where a value escapes; Waiting: every wait ends.

    Accounts and servers: Store (auth.go, pipelines.go of src/internal/auth), Opening
    (Open, initSchema, migrate), Login (http.go, oauth.go), Gateway (src/internal/proxy),
    Web and Server (src/internal/controlplane), Agents (src/internal/agentapi and mcp),
    Routes (the muxes, from the socket to the handler), Serving (the three Serve functions
    and the keys of agents' branches), Daemon (src/internal/daemon). Theorems: the tables'
    constraints as an invariant; accounts do not reach each other's rows; scoped keys; who
    gets past the gateway; nobody reaches a handler without a session or key; every
    endpoint is reached; a server takes its port only with the store open.

    Secrets: Secrets (src/internal/secrets), Tls (src/internal/tlsutil).

    Releases (src/internal/update, src/internal/host): Version, Checksums, Select (select.go),
    Github (github.go, notice.go), Install (install.go), Update (host_update*.go, host.go,
    cmd/odb/update.go). Theorems: which release is chosen; at every moment a path holds its
    old contents or whole verified new ones, whatever call fails.

    The command line: Cli (src/cmd/odb), Forward (host.go: what runs here and what in the
    VM), Lima (macOS) and Wsl (Windows): state, forwarding and setup of the VM; Verifier
    (src/cmd/odb-verify). Theorems: exit codes; an import typed on a Mac or Windows machine
    is the same import in the guest; on Windows the engine runs only in a distro seen
    running or with its storage unit seen active; the verifier reads back what an export wrote.

    The components meet in the files that require them: Routes composes Login, Server, Web
    and Agents; Gateway's [KeyStore] is discharged by Store ([store_keys]); Cli calls the
    engine and the store; Update's engine host has one instance here for a Linux machine,
    and the pieces for the others in Lima and Wsl.

    ** Fuel and bounds

    Loops that are not structural have fuel, and running out is a panic that theorems about
    termination exclude. Merkle levels: the number of rows. sort.Search: the length. The
    JSON reader: twice the length and one; scanners, tokenizers, csv, macros and raw JSON:
    the length and one. Polls: the timeout over the pause, and three more (603 for 30 s of
    50 ms pauses; the timeout over 500 ms for pollUntil, over 2 s for the promotion, over 1 s
    for the WAL flush); 40, 60, 30, 10 and 20 turns where the code counts turns itself
    (waitRecovered, systemd, a daemon's exit, retry, the control plane's check). On a clock
    that does not run behind the sleeps ([clock_ok]) these are enough (Waiting, Opening,
    Container). The gateway's read loop, the MCP loop and the accept loop have their fuel as
    an argument, any number of turns. sort.Slice is modelled by a stable sort.

    ** Not modelled

    - The SQL and PL/pgSQL texts in src/internal/ledger, which run inside Postgres: the
      policy gate and the ledger's triggers themselves.
    - What a library does beyond the parameters above: SQLite, TLS (ServerConfig, the
      handshake), certificate contents, the byte copying of an established session.
    - The interleaving of processes: only Tls has several that interleave. Elsewhere one
      operation runs at a time, and other processes are replies of the machine that nothing
      constrains. Goroutines are actions where they are started; their turns are definitions.
      A late answer of the start-up check for releases is let finish.
    - Log lines, progress lines, console colours, the setup log, the framing of server-sent
      events, the texts of the MCP tool descriptions, the JSON of the --json reports (a
      parameter), form feeds and vertical tabs in printed tables.
    - Windows' own path separators (paths are written with slashes), the Windows process
      calls of internal/daemon, and build tags. *)

From Stdlib Require Export ZArith Lia Ascii String.
From stdpp Require Export base decidable option list strings gmap sorting.

#[global] Set Default Goal Selector "!".
#[global] Set Warnings "-clear-no-such-hyp".

(** ** Results: a Go call returns a value, an error, or panics *)

Inductive outcome (E A : Type) : Type :=
| Ok (a : A)
| Err (e : E)
| Panic (why : string).
Arguments Ok {E A} a.
Arguments Err {E A} e.
Arguments Panic {E A} why.

#[export] Instance outcome_ret {E} : MRet (outcome E) := fun _ a => Ok a.
#[export] Instance outcome_bind {E} : MBind (outcome E) :=
  fun _ _ f m => match m with Ok a => f a | Err e => Err e | Panic w => Panic w end.
#[export] Instance outcome_fmap {E} : FMap (outcome E) :=
  fun _ _ f m => match m with Ok a => Ok (f a) | Err e => Err e | Panic w => Panic w end.

Definition is_ok {E A} (m : outcome E A) : bool :=
  match m with Ok _ => true | _ => false end.
Definition panics {E A} (m : outcome E A) : bool :=
  match m with Panic _ => true | _ => false end.

(** ** Machine integers *)

Definition max_int64 : Z := 9223372036854775807.
Definition min_int64 : Z := -9223372036854775808.
Definition in_int64 (z : Z) : Prop := (min_int64 <= z <= max_int64)%Z.

(** Two's complement wrap-around of Go's int and int64. *)
Definition wrap64 (z : Z) : Z := ((z + 2 ^ 63) mod 2 ^ 64 - 2 ^ 63)%Z.
Lemma wrap64_id z : in_int64 z → wrap64 z = z.
Proof.
  unfold in_int64, min_int64, max_int64, wrap64. intros H. rewrite Z.mod_small; lia.
Qed.
(** Wrap-around of uint32. *)
Definition wrap32u (z : Z) : Z := (z mod 2 ^ 32)%Z.

(** ** Bytes: Go's strings and byte slices are byte strings *)

Definition byte_val (c : ascii) : Z := Z.of_N (N_of_ascii c).
Definition byte_of (z : Z) : ascii := ascii_of_N (Z.to_N z).

(** The double quote, which a literal cannot hold here. *)
Definition dquote : ascii := "034"%char.
Definition nl : ascii := "010"%char.
Definition tab : ascii := "009"%char.
Definition str1 (c : ascii) : string := String c EmptyString.

#[global] Arguments String.append !s1 s2 / : simpl nomatch.

Abbreviation to_bytes := String.list_ascii_of_string.
Abbreviation of_bytes := String.string_of_list_ascii.

(** Cons inversion that never evaluates the elements. *)
Lemma cons_inv {A} (x y : A) l k : x :: l = y :: k → x = y ∧ l = k.
Proof. intros H. by injection H. Qed.
