(* ===== verification/GoStrings.v ===== *)
(** * Go's [strings] package on byte strings

    The operations the engine's code uses, each on Go's own representation of
    a string (a sequence of bytes), with the lemmas the components share. *)
From S2P Require Import Prelude.

(** ** Definitions *)

(** [strip_prefix p s] is what follows [p] in [s]. *)
Fixpoint strip_prefix (p s : string) : option string :=
  match p, s with
  | EmptyString, _ => Some s
  | String c p', String d s' => if Ascii.eqb c d then strip_prefix p' s' else None
  | String _ _, EmptyString => None
  end.

Definition srev (s : string) : string := of_bytes (reverse (to_bytes s)).

Definition strip_suffix (p s : string) : option string :=
  srev <$> strip_prefix (srev p) (srev s).

Definition HasPrefix (s p : string) : bool :=
  match strip_prefix p s with Some _ => true | None => false end.
Definition HasSuffix (s p : string) : bool :=
  match strip_suffix p s with Some _ => true | None => false end.
Definition TrimPrefix (s p : string) : string := default s (strip_prefix p s).
Definition TrimSuffix (s p : string) : string := default s (strip_suffix p s).

Definition has_byte (c : ascii) (s : string) : bool :=
  existsb (Ascii.eqb c) (to_bytes s).

(** [cut_byte c s]: the text before and after the first [c] (strings.IndexByte
    and the two slices the code takes with it). *)
Fixpoint cut_byte (c : ascii) (s : string) : option (string * string) :=
  match s with
  | EmptyString => None
  | String d t =>
      if Ascii.eqb c d then Some (EmptyString, t)
      else '(a, b) ← cut_byte c t; Some (String d a, b)
  end.

(** [cut_sub p s]: the text before and after the first occurrence of [p]
    (strings.Index). *)
Fixpoint cut_sub (p s : string) : option (string * string) :=
  match strip_prefix p s with
  | Some r => Some (EmptyString, r)
  | None =>
      match s with
      | EmptyString => None
      | String d t => '(a, b) ← cut_sub p t; Some (String d a, b)
      end
  end.
Definition Contains (s p : string) : bool :=
  match cut_sub p s with Some _ => true | None => false end.

(** strings.Split with a one-byte separator. *)
Fixpoint Split (c : ascii) (s : string) : list string :=
  match s with
  | EmptyString => [EmptyString]
  | String d t =>
      if Ascii.eqb c d then EmptyString :: Split c t
      else match Split c t with
           | w :: ws => String d w :: ws
           | [] => [str1 d]
           end
  end.

(** strings.SplitN(s, c, 2). *)
Definition Split2 (c : ascii) (s : string) : list string :=
  match cut_byte c s with Some (a, b) => [a; b] | None => [s] end.

(** strings.SplitN: at most [n] parts, the last one the rest. *)
Fixpoint SplitN (c : ascii) (n : nat) (s : string) : list string :=
  match n with
  | O => []
  | S O => [s]
  | S n => match cut_byte c s with Some (a, b) => a :: SplitN c n b | None => [s] end
  end.

Fixpoint Join (sep : string) (l : list string) : string :=
  match l with
  | [] => EmptyString
  | [w] => w
  | w :: ws => w +:+ sep +:+ Join sep ws
  end.

(** strings.ReplaceAll of a one-byte pattern. *)
Fixpoint ReplaceByte (c : ascii) (r s : string) : string :=
  match s with
  | EmptyString => EmptyString
  | String d t => (if Ascii.eqb c d then r else str1 d) +:+ ReplaceByte c r t
  end.

(** strings.TrimRight / TrimLeft with a cutset of bytes. *)
Fixpoint drop_while {A} (f : A → bool) (l : list A) : list A :=
  match l with
  | [] => []
  | x :: t => if f x then drop_while f t else l
  end.
Definition trim_right_by (f : ascii → bool) (s : string) : string :=
  of_bytes (reverse (drop_while f (reverse (to_bytes s)))).
Definition trim_left_by (f : ascii → bool) (s : string) : string :=
  of_bytes (drop_while f (to_bytes s)).

(** White space: the ASCII spaces, and the UTF-8 encodings of the other
    code points unicode.IsSpace accepts. *)
Definition space1 (c : ascii) : bool :=
  let z := byte_val c in
  ((9 <=? z) && (z <=? 13) || (z =? 32))%Z.
Definition space2 (c d : ascii) : bool :=
  ((byte_val c =? 0xC2) && ((byte_val d =? 0x85) || (byte_val d =? 0xA0)))%Z.
Definition space3 (c d e : ascii) : bool :=
  let x := byte_val c in
  let y := byte_val d in
  let z := byte_val e in
  ((x =? 0xE1) && (y =? 0x9A) && (z =? 0x80)
   || (x =? 0xE2) && (y =? 0x80) &&
        ((0x80 <=? z) && (z <=? 0x8A) || (z =? 0xA8) || (z =? 0xA9) || (z =? 0xAF))
   || (x =? 0xE2) && (y =? 0x81) && (z =? 0x9F)
   || (x =? 0xE3) && (y =? 0x80) && (z =? 0x80))%Z.

(** Drops leading white space, given which one, two and three bytes form one. *)
Fixpoint drop_spaces (s2 : ascii → ascii → bool) (s3 : ascii → ascii → ascii → bool)
    (l : list ascii) : list ascii :=
  match l with
  | [] => []
  | c :: r =>
      if space1 c then drop_spaces s2 s3 r
      else match r with
           | d :: r2 =>
               if s2 c d then drop_spaces s2 s3 r2
               else match r2 with
                    | e :: r3 => if s3 c d e then drop_spaces s2 s3 r3 else l
                    | [] => l
                    end
           | [] => l
           end
  end.

Definition TrimLeftSpace (s : string) : string :=
  of_bytes (drop_spaces space2 space3 (to_bytes s)).
Definition TrimRightSpace (s : string) : string :=
  of_bytes (reverse (drop_spaces (λ d c, space2 c d) (λ e d c, space3 c d e)
                       (reverse (to_bytes s)))).
Definition TrimSpace (s : string) : string := TrimRightSpace (TrimLeftSpace s).

(** strings.Fields: the runs of text between white space. [cur] is the field being
    read, in reverse. *)
Definition flush (cur : list ascii) (fs : list string) : list string :=
  match cur with [] => fs | _ => of_bytes (reverse cur) :: fs end.
Fixpoint fields_go (cur l : list ascii) : list string :=
  match l with
  | [] => flush cur []
  | c :: r =>
      if space1 c then flush cur (fields_go [] r)
      else match r with
           | d :: r2 =>
               if space2 c d then flush cur (fields_go [] r2)
               else match r2 with
                    | e :: r3 => if space3 c d e then flush cur (fields_go [] r3) else fields_go (c :: cur) r
                    | [] => fields_go (c :: cur) r
                    end
           | [] => fields_go (c :: cur) r
           end
  end.
Definition Fields (s : string) : list string := fields_go [] (to_bytes s).

(** The text after the last [c] (strings.LastIndex and a slice). *)
Definition after_last (c : ascii) (s : string) : option string :=
  match rev (Split c s) with
  | _ :: [] | [] => None
  | w :: _ => Some w
  end.

(** ASCII case mapping (the byte-wise part of strings.ToLower/ToUpper). *)
Definition lower_byte (c : ascii) : ascii :=
  if ((65 <=? byte_val c) && (byte_val c <=? 90))%Z then byte_of (byte_val c + 32) else c.
Definition upper_byte (c : ascii) : ascii :=
  if ((97 <=? byte_val c) && (byte_val c <=? 122))%Z then byte_of (byte_val c - 32) else c.
Definition smap (f : ascii → ascii) (s : string) : string := of_bytes (f <$> to_bytes s).

(** strings.EqualFold against ASCII text: besides the two cases of a letter, the
    long s (U+017F) folds to s and the Kelvin sign (U+212A) to k. *)
Fixpoint fold_eq (p s : list ascii) : bool :=
  match p, s with
  | [], [] => true
  | c :: p', d :: s' =>
      if Ascii.eqb (lower_byte c) (lower_byte d) then fold_eq p' s'
      else match s' with
           | e :: r =>
               if Ascii.eqb (lower_byte c) "s" && (byte_val d =? 0xC5)%Z && (byte_val e =? 0xBF)%Z
               then fold_eq p' r
               else match r with
                    | f :: r' =>
                        Ascii.eqb (lower_byte c) "k" && (byte_val d =? 0xE2)%Z && (byte_val e =? 0x84)%Z
                        && (byte_val f =? 0xAA)%Z && fold_eq p' r'
                    | [] => false
                    end
           | [] => false
           end
  | _, _ => false
  end.
Definition EqualFold (s ascii_text : string) : bool := fold_eq (to_bytes ascii_text) (to_bytes s).

(** Go compares strings byte by byte. *)
Definition str_lt (a b : string) : bool := String.ltb a b.

(** ** Byte strings as lists *)

Create Rewrite HintDb gostr.

Lemma to_bytes_app a b : to_bytes (a +:+ b) = to_bytes a ++ to_bytes b.
Proof. induction a; simpl; [done | by f_equal]. Qed.

Lemma of_bytes_app l k : of_bytes (l ++ k) = of_bytes l +:+ of_bytes k.
Proof. induction l; simpl; [done | by rewrite IHl]. Qed.

Lemma of_to_bytes s : of_bytes (to_bytes s) = s.
Proof. apply String.string_of_list_ascii_of_string. Qed.

Lemma to_of_bytes l : to_bytes (of_bytes l) = l.
Proof. apply String.list_ascii_of_string_of_list_ascii. Qed.

#[export] Instance to_bytes_inj : Inj (=) (=) to_bytes.
Proof. intros a b H. by rewrite <-(of_to_bytes a), H, of_to_bytes. Qed.

#[export] Instance of_bytes_inj : Inj (=) (=) of_bytes.
Proof. intros a b H. by rewrite <-(to_of_bytes a), H, to_of_bytes. Qed.

Lemma length_to_bytes s : List.length (to_bytes s) = String.length s.
Proof. induction s; simpl; congruence. Qed.

Lemma length_of_bytes l : String.length (of_bytes l) = List.length l.
Proof. by rewrite <-length_to_bytes, to_of_bytes. Qed.

#[export] Hint Rewrite to_bytes_app of_bytes_app of_to_bytes to_of_bytes
  length_to_bytes length_of_bytes : gostr.

(** Moves a string equation to lists, where stdpp's lemmas apply. *)
Ltac as_bytes := apply (inj to_bytes); autorewrite with gostr; simpl.

Lemma sapp_nil_r s : s +:+ EmptyString = s.
Proof. as_bytes. apply app_nil_r. Qed.

Lemma sapp_assoc a b c : (a +:+ b) +:+ c = a +:+ b +:+ c.
Proof. as_bytes. symmetry. apply app_assoc. Qed.

Lemma length_sapp a b : String.length (a +:+ b) = String.length a + String.length b.
Proof. by rewrite <-!length_to_bytes, to_bytes_app, length_app. Qed.

Lemma String_inv c d x y : String c x = String d y → c = d ∧ x = y.
Proof. intros H. by injection H. Qed.

Lemma sapp_inv_head a b c : a +:+ b = a +:+ c → b = c.
Proof. induction a; simpl; intros H; [done|]. injection H. auto. Qed.

Lemma sapp_inv_tail a b c : a +:+ c = b +:+ c → a = b.
Proof.
  intros H%(f_equal to_bytes). rewrite !to_bytes_app in H.
  apply app_inv_tail in H. by apply (inj to_bytes).
Qed.

(** Two splits of one string with first parts of equal length are the same. *)
Lemma sapp_inj_length a b c d :
  String.length a = String.length b → a +:+ c = b +:+ d → a = b ∧ c = d.
Proof.
  intros Hl H%(f_equal to_bytes). rewrite !to_bytes_app in H.
  apply app_inj_1 in H as [H1 H2]; [|by rewrite !length_to_bytes].
  split; by apply (inj to_bytes).
Qed.

(** ** Prefixes, suffixes and cuts *)

Lemma strip_prefix_Some p s r : strip_prefix p s = Some r ↔ s = p +:+ r.
Proof.
  revert s. induction p as [|c p IH]; intros s; simpl; [naive_solver|].
  destruct s as [|d s]; [split; discriminate|].
  destruct (Ascii.eqb_spec c d) as [->|Hne].
  - rewrite IH. split; [by intros -> | by intros [= ->]].
  - split; [discriminate | intros [=]; congruence].
Qed.

Lemma strip_prefix_app p r : strip_prefix p (p +:+ r) = Some r.
Proof. by apply strip_prefix_Some. Qed.

Lemma HasPrefix_spec s p : HasPrefix s p = true ↔ ∃ r, s = p +:+ r.
Proof.
  unfold HasPrefix. destruct (strip_prefix p s) as [r|] eqn:E.
  - apply strip_prefix_Some in E. naive_solver.
  - split; [done|]. intros [r ->]. by rewrite strip_prefix_app in E.
Qed.

Lemma HasPrefix_app p r : HasPrefix (p +:+ r) p = true.
Proof. apply HasPrefix_spec. eauto. Qed.

Lemma TrimPrefix_app p r : TrimPrefix (p +:+ r) p = r.
Proof. unfold TrimPrefix. by rewrite strip_prefix_app. Qed.

Lemma srev_involutive s : srev (srev s) = s.
Proof. unfold srev. as_bytes. apply reverse_involutive. Qed.

Lemma srev_app a b : srev (a +:+ b) = srev b +:+ srev a.
Proof. unfold srev. as_bytes. apply reverse_app. Qed.

Lemma strip_suffix_Some p s r : strip_suffix p s = Some r ↔ s = r +:+ p.
Proof.
  unfold strip_suffix. rewrite fmap_Some. split.
  - intros (t & Ht & ->). apply strip_prefix_Some in Ht.
    rewrite <-(srev_involutive s), Ht, srev_app, srev_involutive. done.
  - intros ->. exists (srev r). rewrite srev_app, strip_prefix_app, srev_involutive. done.
Qed.

Lemma HasSuffix_spec s p : HasSuffix s p = true ↔ ∃ r, s = r +:+ p.
Proof.
  unfold HasSuffix. destruct (strip_suffix p s) as [r|] eqn:E.
  - apply strip_suffix_Some in E. naive_solver.
  - split; [done|]. intros [r ->].
    by rewrite (proj2 (strip_suffix_Some p _ r) eq_refl) in E.
Qed.

Lemma TrimSuffix_app r p : TrimSuffix (r +:+ p) p = r.
Proof. unfold TrimSuffix. by rewrite (proj2 (strip_suffix_Some p _ r) eq_refl). Qed.

Lemma has_byte_spec c s : has_byte c s = true ↔ c ∈ to_bytes s.
Proof.
  unfold has_byte. rewrite existsb_exists. setoid_rewrite Ascii.eqb_eq.
  rewrite list_elem_of_In. split; [intros (x & Hx & ->); done | eauto].
Qed.

Lemma has_byte_false c s : has_byte c s = false ↔ c ∉ to_bytes s.
Proof. rewrite <-has_byte_spec. by destruct (has_byte c s). Qed.

Lemma has_byte_app c a b : has_byte c (a +:+ b) = has_byte c a || has_byte c b.
Proof. unfold has_byte. by rewrite to_bytes_app, existsb_app. Qed.

Lemma cut_byte_Some c s a b :
  cut_byte c s = Some (a, b) ↔ s = a +:+ String c b ∧ has_byte c a = false.
Proof.
  revert a b. induction s as [|d s IH]; intros a b; simpl.
  { split; [done|]. by intros [H _]; destruct a. }
  destruct (Ascii.eqb_spec c d) as [->|Hne].
  - split.
    + injection 1 as <- <-. done.
    + intros [H Hn]. destruct a as [|x a]; simplify_eq/=; [done|].
      unfold has_byte in Hn. simpl in Hn. by rewrite Ascii.eqb_refl in Hn.
  - rewrite bind_Some. split.
    + intros ([a' b'] & H & [= <- <-]). apply IH in H as [-> Hn]. split; [done|].
      unfold has_byte in *. simpl. by rewrite (proj2 (Ascii.eqb_neq c d) Hne).
    + intros [H Hn]. destruct a as [|x a]; simplify_eq/=.
      unfold has_byte in Hn. simpl in Hn. apply orb_false_iff in Hn as [_ Hn].
      exists (a, b). split; [by apply IH | done].
Qed.

Lemma cut_byte_None c s : cut_byte c s = None ↔ has_byte c s = false.
Proof.
  induction s as [|d s IH]; simpl; [done|].
  unfold has_byte in *. simpl. destruct (Ascii.eqb_spec c d) as [->|Hne]; [done|].
  destruct (cut_byte c s) as [[a b]|]; simpl; rewrite <-IH; done.
Qed.

Lemma cut_byte_app c a b : has_byte c a = false → cut_byte c (a +:+ String c b) = Some (a, b).
Proof. intros H. by apply cut_byte_Some. Qed.

(** Two texts cut at the same separator agree on both sides. *)
Lemma cut_inj c a b x y :
  has_byte c a = false → has_byte c x = false →
  a +:+ String c b = x +:+ String c y → a = x ∧ b = y.
Proof.
  intros Ha Hx H. apply (cut_byte_app c a b) in Ha. rewrite H, cut_byte_app in Ha; naive_solver.
Qed.

(** ** Split and Join *)

Lemma Split_nonempty c s : Split c s ≠ [].
Proof. destruct s as [|d s]; simpl; [done|]. by repeat case_match. Qed.

Lemma Split_no_sep c w : has_byte c w = false → Split c w = [w].
Proof.
  induction w as [|d w IH]; simpl; [done|]. unfold has_byte in *. simpl.
  intros [H1 H2]%orb_false_iff. rewrite H1, IH; done.
Qed.

Lemma Split_app c w s : has_byte c w = false → Split c (w +:+ String c s) = w :: Split c s.
Proof.
  induction w as [|d w IH]; simpl; intros H; [by rewrite Ascii.eqb_refl|].
  unfold has_byte in *. simpl in H. apply orb_false_iff in H as [H1 H2].
  by rewrite H1, IH.
Qed.

Lemma Split_Join c l :
  l ≠ [] → Forall (λ w, has_byte c w = false) l → Split c (Join (str1 c) l) = l.
Proof.
  intros Hne Hl. induction Hl as [|w l Hw Hl IH]; [done|].
  destruct l as [|w' l]; [by apply Split_no_sep|].
  change (Join (str1 c) (w :: w' :: l)) with (w +:+ String c (Join (str1 c) (w' :: l))).
  by rewrite Split_app, IH.
Qed.

Lemma Join_Split c s : Join (str1 c) (Split c s) = s.
Proof.
  induction s as [|d s IH]; [done|]. simpl.
  pose proof (Split_nonempty c s). destruct (Split c s) as [|w ws] eqn:E; [done|].
  destruct (Ascii.eqb_spec c d) as [->|Hne].
  - by change (Join (str1 d) (EmptyString :: w :: ws)) with (String d (Join (str1 d) (w :: ws))); rewrite IH.
  - destruct ws; simpl in *; by rewrite IH.
Qed.

Lemma Split_pieces c s : Forall (λ w, has_byte c w = false) (Split c s).
Proof.
  induction s as [|d s IH]; simpl; [by repeat constructor|].
  destruct (Ascii.eqb_spec c d) as [->|Hne]; [by constructor|].
  pose proof (Split_nonempty c s).
  destruct (Split c s) as [|w ws]; [done|]. inversion_clear IH as [|?? Hw Hws]. constructor; [|done].
  - unfold has_byte in *. simpl. by rewrite (proj2 (Ascii.eqb_neq c d) Hne).
Qed.

(** Joining with a separator no part contains loses nothing. *)
Lemma Join_inj c l k :
  l ≠ [] → k ≠ [] →
  Forall (λ w, has_byte c w = false) l → Forall (λ w, has_byte c w = false) k →
  Join (str1 c) l = Join (str1 c) k → l = k.
Proof.
  intros Hl Hk Fl Fk H%(f_equal (Split c)). by rewrite !Split_Join in H.
Qed.

Lemma Join_cons sep w l : l ≠ [] → Join sep (w :: l) = w +:+ sep +:+ Join sep l.
Proof. by destruct l. Qed.

Lemma Join_app sep l k : l ≠ [] → k ≠ [] → Join sep (l ++ k) = Join sep l +:+ sep +:+ Join sep k.
Proof.
  intros Hl Hk. induction l as [|w l IH]; [done|]. destruct l as [|w' l]; [by apply Join_cons|].
  change ((w :: w' :: l) ++ k) with (w :: ((w' :: l) ++ k)). rewrite !Join_cons, IH by done. by rewrite !sapp_assoc.
Qed.

(** A part that is itself joined can be opened. *)
Lemma Join_Join sep l m k : m ≠ [] → Join sep (l ++ Join sep m :: k) = Join sep (l ++ m ++ k).
Proof.
  intros Hm. assert (Join sep (Join sep m :: k) = Join sep (m ++ k)) as H.
  { destruct k as [|w k]; [by rewrite app_nil_r|]. by rewrite Join_cons, Join_app. }
  destruct l as [|w l]; [done|]. rewrite !(Join_app sep (w :: l)), H; [done|done| |done|done]. by destruct m.
Qed.

(** One part may hold the separator, if the parts before it and after it are as many. *)
Lemma Join_inj_open c l l' m m' k k' :
  List.length l = List.length l' → List.length k = List.length k' →
  Forall (λ w, has_byte c w = false) (l ++ k) → Forall (λ w, has_byte c w = false) (l' ++ k') →
  Join (str1 c) (l ++ m :: k) = Join (str1 c) (l' ++ m' :: k') → l = l' ∧ m = m' ∧ k = k'.
Proof.
  intros Hl Hk F F' H.
  assert (∀ l m k, Forall (λ w, has_byte c w = false) (l ++ k) →
            Split c (Join (str1 c) (l ++ m :: k)) = l ++ Split c m ++ k) as Hs.
  { clear. intros l m k [Fl Fk]%Forall_app. rewrite <- (Join_Split c m) at 1.
    rewrite Join_Join, Split_Join; [done| | |apply Split_nonempty].
    - pose proof (Split_nonempty c m). destruct l; [|done]. by destruct (Split c m).
    - rewrite !Forall_app. auto using Split_pieces. }
  apply (f_equal (Split c)) in H. rewrite !Hs in H by done.
  apply app_inj_1 in H as [-> H]; [|done]. apply app_inj_2 in H as [H ->]; [|done].
  split_and!; [done| |done]. apply (f_equal (Join (str1 c))) in H. by rewrite !Join_Split in H.
Qed.

(** ** Comparison *)

Lemma compare_app_tail x y s :
  String.length x = String.length y → String.compare (x +:+ s) (y +:+ s) = String.compare x y.
Proof.
  revert y. induction x as [|c x IH]; intros [|d y] H; try done.
  - simpl. induction s as [|c s IHs]; [done|]. simpl. rewrite IHs.
    unfold Ascii.compare. by rewrite N.compare_refl.
  - simpl in *. destruct (Ascii.compare c d); [|done..]. apply IH. congruence.
Qed.

Lemma str_lt_cons c d x y :
  str_lt (String c x) (String d y) = true ↔
  (N_of_ascii c < N_of_ascii d)%N ∨ (c = d ∧ str_lt x y = true).
Proof.
  unfold str_lt, String.ltb, Ascii.compare. simpl. unfold Ascii.compare.
  destruct (N.compare_spec (N_of_ascii c) (N_of_ascii d)) as [He|Hl|Hg].
  - apply (f_equal ascii_of_N) in He. rewrite !ascii_N_embedding in He. subst d.
    split; [by right|]. intros [H|[_ H]]; [lia|done].
  - split; [by left|done].
  - split; [done|]. intros [H|[-> _]]; lia.
Qed.

Lemma str_lt_nil_r x : str_lt x EmptyString = false.
Proof. by destruct x. Qed.

Lemma str_lt_irrefl s : str_lt s s = false.
Proof.
  induction s as [|c s IH]; [done|]. apply not_true_iff_false.
  intros [H|[_ H]]%str_lt_cons; [lia|congruence].
Qed.

Lemma str_lt_trans a b c : str_lt a b = true → str_lt b c = true → str_lt a c = true.
Proof.
  revert b c. induction a as [|x a IH]; intros [|y b] [|z c]; try done.
  rewrite !str_lt_cons. intros [H1|[-> H1]] [H2|[-> H2]]; [left; lia|by left|by left|right; eauto].
Qed.

Lemma str_lt_total a b : a ≠ b → str_lt a b = negb (str_lt b a).
Proof.
  intros H. unfold str_lt, String.ltb. rewrite (String.compare_antisym a b).
  destruct (String.compare b a) eqn:Hc; simpl; [|done..].
  by apply String.compare_eq_iff in Hc as ->.
Qed.

(** ** White space *)

(** Text that starts and ends with a visible ASCII character has none to trim. *)
Definition visible (c : ascii) : bool := ((33 <=? byte_val c) && (byte_val c <=? 126))%Z.
Definition plain_ends (s : string) : bool :=
  match head (to_bytes s), last (to_bytes s) with
  | Some c, Some d => visible c && visible d
  | _, _ => false
  end.

Lemma visible_spec c : visible c = true → (33 <= byte_val c <= 126)%Z.
Proof. unfold visible. rewrite andb_true_iff, !Z.leb_le. done. Qed.

Lemma visible_space1 c : visible c = true → space1 c = false.
Proof.
  intros H%visible_spec. unfold space1. rewrite orb_false_iff, andb_false_iff, !Z.leb_gt, Z.eqb_neq. lia.
Qed.

Lemma visible_multi c d e :
  visible c = true → space2 c d = false ∧ space3 c d e = false
                     ∧ space2 d c = false ∧ space3 d e c = false.
Proof.
  intros H%visible_spec. unfold space2, space3. split_and!; lia.
Qed.

Lemma drop_spaces_id s2 s3 c l :
  space1 c = false → (∀ d, s2 c d = false) → (∀ d e, s3 c d e = false) →
  drop_spaces s2 s3 (c :: l) = c :: l.
Proof.
  intros H1 H2 H3. simpl. rewrite H1. destruct l as [|d l]; [done|]. rewrite H2.
  destruct l as [|e l]; [done|]. by rewrite H3.
Qed.

Lemma TrimSpace_plain s : plain_ends s = true → TrimSpace s = s.
Proof.
  unfold plain_ends, TrimSpace, TrimLeftSpace, TrimRightSpace.
  destruct (to_bytes s) as [|c l] eqn:Hs; [done|]. simpl head.
  destruct (last (c :: l)) as [d|] eqn:Hl; [|done]. intros [Hc Hd]%andb_true_iff.
  rewrite drop_spaces_id.
  2: by apply visible_space1. 2: intros; by apply (visible_multi c d0 d0).
  2: intros; by apply (visible_multi c d0 e).
  rewrite to_of_bytes. apply last_Some in Hl as [k Hk]. rewrite Hk, reverse_snoc.
  rewrite drop_spaces_id.
  - rewrite reverse_cons, reverse_involutive, <-Hk, <-Hs. apply of_to_bytes.
  - by apply visible_space1.
  - intros; by apply (visible_multi d d0 d0).
  - intros; by apply (visible_multi d e d0).
Qed.

Definition starts_visible (s : string) : Prop := ∃ c t, s = String c t ∧ visible c = true.
Definition ends_visible (s : string) : Prop := ∃ k d, to_bytes s = k ++ [d] ∧ visible d = true.

Lemma starts_visible_app a b : starts_visible a → starts_visible (a +:+ b).
Proof. intros (c & t & -> & H). by exists c, (t +:+ b). Qed.

Lemma ends_visible_app a b : ends_visible b → ends_visible (a +:+ b).
Proof. intros (k & d & H & Hv). exists (to_bytes a ++ k), d. by rewrite to_bytes_app, H, app_assoc. Qed.

Lemma plain_ends_intro s : starts_visible s → ends_visible s → plain_ends s = true.
Proof.
  intros (c & t & -> & Hc) (k & d & Hk & Hd). unfold plain_ends.
  assert (last (to_bytes (String c t)) = Some d) as -> by (rewrite Hk; apply last_snoc).
  simpl. by rewrite Hc, Hd.
Qed.

(** ** Prefixes of equal texts *)

Lemma sapp_eq_sapp a b c d :
  a +:+ b = c +:+ d → (∃ k, a = c +:+ k ∧ d = k +:+ b) ∨ (∃ k, c = a +:+ k ∧ b = k +:+ d).
Proof.
  revert c. induction a as [|x a IH]; intros [|y c] H.
  - left. by exists EmptyString.
  - right. by exists (String y c).
  - left. exists (String x a). by cbn in *.
  - cbn in H. apply String_inv in H as [<- H]. apply IH in H as [(k & -> & ->)|(k & -> & ->)].
    + left. by exists k.
    + right. by exists k.
Qed.

Lemma Contains_byte c s : Contains s (str1 c) = has_byte c s.
Proof.
  unfold Contains. induction s as [|d s IH]; [done|]. cbn. unfold has_byte in *. cbn.
  destruct (Ascii.eqb c d); [done|]. cbn. rewrite <-IH. by destruct (cut_sub (str1 c) s) as [[? ?]|].
Qed.
