(* ===== verification/GoNum.v ===== *)
(** * Decimal numerals: Go's strconv and fmt's %d, %0<w>d *)
From S2P Require Import Prelude GoStrings.
Open Scope N_scope.

(** ** Definitions *)

Definition is_digit (c : ascii) : bool :=
  (48 <=? N_of_ascii c) && (N_of_ascii c <=? 57).
(** ^[a-z0-9][a-z0-9-]{0,max}$ *)
Definition lower_or_digit (c : ascii) : bool := is_digit c || ((97 <=? byte_val c) && (byte_val c <=? 122))%Z.
Definition slug (max : nat) (s : string) : bool :=
  match to_bytes s with
  | c :: t => lower_or_digit c && forallb (λ d, lower_or_digit d || Ascii.eqb d "-") t && (List.length t <=? max)%nat
  | [] => false
  end.

Definition digit_val (c : ascii) : N := N_of_ascii c - 48.
Definition digit_char (d : N) : ascii := ascii_of_N (48 + d).

Fixpoint format_go (fuel : nat) (n : N) (acc : string) : string :=
  match fuel with
  | O => acc
  | S f =>
      if n <? 10 then String (digit_char n) acc
      else format_go f (n / 10) (String (digit_char (n mod 10)) acc)
  end.
Definition format_N (n : N) : string := format_go (S (N.size_nat n)) n EmptyString.

(** strconv.FormatInt(z, 10). *)
Definition format_int (z : Z) : string :=
  if (z <? 0)%Z then "-" +:+ format_N (Z.abs_N z) else format_N (Z.to_N z).

Fixpoint digits_go (acc : N) (s : string) : option N :=
  match s with
  | EmptyString => Some acc
  | String c t => if is_digit c then digits_go (10 * acc + digit_val c) t else None
  end.
(** A non-empty run of decimal digits, read as a number. *)
Definition parse_digits (s : string) : option N :=
  match s with EmptyString => None | _ => digits_go 0 s end.

(** strconv.Atoi and strconv.ParseInt(s, 10, 64): an optional sign, then digits;
    a value outside 64 bits is an error. *)
Definition atoi (s : string) : option Z :=
  match s with
  | EmptyString => None
  | String c t =>
      if Ascii.eqb c "-" then
        n ← parse_digits t;
        if (Z.of_N n <=? - min_int64)%Z then Some (- Z.of_N n)%Z else None
      else
        n ← parse_digits (if Ascii.eqb c "+" then t else s);
        if (Z.of_N n <=? max_int64)%Z then Some (Z.of_N n) else None
  end.

(** The value Atoi returns next to its error: the nearest int on overflow, else 0. *)
Definition atoi_value (s : string) : Z :=
  match atoi s with
  | Some n => n
  | None =>
      match s with
      | String "-" t => match parse_digits t with Some _ => min_int64 | None => 0%Z end
      | String "+" t => match parse_digits t with Some _ => max_int64 | None => 0%Z end
      | _ => match parse_digits s with Some _ => max_int64 | None => 0%Z end
      end
  end.

(** A hexadecimal digit, and strconv.ParseUint(s, 16, 32). *)
Definition hex_val (c : ascii) : option N :=
  let n := N_of_ascii c in
  if is_digit c then Some (n - 48)
  else if (97 <=? n) && (n <=? 102) then Some (n - 87)
  else if (65 <=? n) && (n <=? 70) then Some (n - 55)
  else None.
Fixpoint hex_go (acc : N) (s : string) : option N :=
  match s with
  | EmptyString => Some acc
  | String c t => d ← hex_val c; hex_go (16 * acc + d) t
  end.
Definition parse_hex32 (s : string) : option N :=
  match s with
  | EmptyString => None
  | _ => n ← hex_go 0 s; if n <? 2 ^ 32 then Some n else None
  end.

(** strconv.ParseUint(s, 10, 64). *)
Definition parse_uint64 (s : string) : option Z :=
  n ← parse_digits s;
  if (Z.of_N n <? 2 ^ 64)%Z then Some (Z.of_N n) else None.

(** fmt's %0<w>d on a non-negative number. *)
Definition zeros (k : nat) : string := of_bytes (repeat "0"%char k).
Definition pad0 (w : nat) (n : N) : string :=
  zeros (w - String.length (format_N n)) +:+ format_N n.

(** fmt's %0<w>d: the sign comes first and counts towards the width. *)
Definition pad0_int (w : nat) (z : Z) : string :=
  if (z <? 0)%Z then "-" +:+ pad0 (w - 1) (Z.abs_N z) else pad0 w (Z.to_N z).

(** ** Digits *)

Lemma ascii_of_N_val n : n < 256 → N_of_ascii (ascii_of_N n) = n.
Proof. apply N_ascii_embedding. Qed.

Lemma is_digit_char d : d < 10 → is_digit (digit_char d) = true.
Proof.
  intros H. unfold is_digit, digit_char. rewrite ascii_of_N_val by lia.
  apply andb_true_iff. rewrite !N.leb_le. lia.
Qed.

Lemma digit_val_char d : d < 10 → digit_val (digit_char d) = d.
Proof. intros H. unfold digit_val, digit_char. rewrite ascii_of_N_val by lia. lia. Qed.

Lemma is_digit_bounds c : is_digit c = true → 48 <= N_of_ascii c <= 57.
Proof. unfold is_digit. intros [H1%N.leb_le H2%N.leb_le]%andb_true_iff. done. Qed.

(** ** Printing and reading back *)

Lemma format_go_read fuel n acc :
  n < 10 ^ N.of_nat fuel → digits_go 0 (format_go fuel n acc) = digits_go n acc.
Proof.
  revert n acc. induction fuel as [|f IH]; intros n acc Hn.
  { change (10 ^ N.of_nat 0) with 1 in Hn. by replace n with 0 by lia. }
  simpl. destruct (N.ltb_spec n 10) as [Hlt|Hge].
  - simpl. rewrite is_digit_char, digit_val_char by lia. done.
  - assert (n mod 10 < 10) by (apply N.mod_lt; lia).
    rewrite IH.
    + simpl. rewrite is_digit_char, digit_val_char by done. f_equal.
      symmetry. apply N.div_mod. lia.
    + rewrite Nat2N.inj_succ, N.pow_succ_r' in Hn.
      apply N.Div0.div_lt_upper_bound. lia.
Qed.

Lemma size_pow2 p : N.pos p < 2 ^ N.of_nat (Pos.size_nat p).
Proof.
  induction p as [p IH|p IH|]; cbn [Pos.size_nat]; rewrite ?Nat2N.inj_succ, ?N.pow_succ_r'; lia.
Qed.

Lemma size_pow10 n : n < 10 ^ N.of_nat (S (N.size_nat n)).
Proof.
  destruct n as [|p]; [done|]. cbn [N.size_nat]. rewrite Nat2N.inj_succ, N.pow_succ_r'.
  pose proof (size_pow2 p).
  assert (2 ^ N.of_nat (Pos.size_nat p) <= 10 ^ N.of_nat (Pos.size_nat p)) by (apply N.pow_le_mono_l; lia).
  lia.
Qed.

Lemma format_go_nonempty fuel n acc : (0 < fuel)%nat → format_go fuel n acc ≠ EmptyString.
Proof.
  revert n acc. induction fuel as [|f IH]; intros n acc H; simpl; [lia|].
  destruct (n <? 10); [done|]. destruct f as [|f]; [done|]. apply IH. lia.
Qed.

Lemma format_N_nonempty n : format_N n ≠ EmptyString.
Proof. apply format_go_nonempty. lia. Qed.

Lemma parse_digits_go s : s ≠ EmptyString → parse_digits s = digits_go 0 s.
Proof. by destruct s. Qed.

Lemma parse_format_N n : parse_digits (format_N n) = Some n.
Proof.
  rewrite parse_digits_go by apply format_N_nonempty.
  unfold format_N. by rewrite format_go_read by apply size_pow10.
Qed.

#[export] Instance format_N_inj : Inj (=) (=) format_N.
Proof. intros a b H. apply (f_equal parse_digits) in H. rewrite !parse_format_N in H. congruence. Qed.

(** ** The text of a number is digits *)

Definition all_digits (s : string) : bool := forallb is_digit (to_bytes s).

Lemma digits_go_all acc s n : digits_go acc s = Some n → all_digits s = true.
Proof.
  revert acc. unfold all_digits. induction s as [|c s IH]; intros acc; simpl; [done|].
  destruct (is_digit c); [apply IH | done].
Qed.

Lemma all_digits_go acc s : all_digits s = true → ∃ n, digits_go acc s = Some n.
Proof.
  revert acc. unfold all_digits. induction s as [|c s IH]; intros acc; simpl; [eauto|].
  intros [-> H]%andb_true_iff. by apply IH.
Qed.

Lemma format_N_digits n : all_digits (format_N n) = true.
Proof.
  eapply (digits_go_all 0 _ n). rewrite <-parse_digits_go by apply format_N_nonempty.
  apply parse_format_N.
Qed.

Lemma all_digits_app a b : all_digits (a +:+ b) = all_digits a && all_digits b.
Proof. unfold all_digits. by rewrite to_bytes_app, forallb_app. Qed.

Lemma all_digits_zeros k : all_digits (zeros k) = true.
Proof. unfold all_digits, zeros. rewrite to_of_bytes. by induction k. Qed.

Lemma all_digits_pad0 w n : all_digits (pad0 w n) = true.
Proof. unfold pad0. by rewrite all_digits_app, all_digits_zeros, format_N_digits. Qed.

(** A run of digits holds no separator. *)
Lemma all_digits_no_byte c s : is_digit c = false → all_digits s = true → has_byte c s = false.
Proof.
  intros Hc Hs. apply has_byte_false. intros Hin. unfold all_digits in Hs.
  rewrite forallb_forall in Hs. apply list_elem_of_In, Hs in Hin. congruence.
Qed.

(** ** Signed numbers *)

Lemma parse_format_int z :
  parse_digits (format_N (Z.abs_N z)) = Some (Z.abs_N z).
Proof. apply parse_format_N. Qed.

Lemma format_N_head n : ∃ c t, format_N n = String c t ∧ is_digit c = true.
Proof.
  pose proof (format_N_digits n) as H. pose proof (format_N_nonempty n) as Hne.
  destruct (format_N n) as [|c t]; [done|]. unfold all_digits in H. simpl in H.
  apply andb_true_iff in H as [H _]. eauto.
Qed.

Lemma is_digit_not_sign c :
  is_digit c = true → Ascii.eqb c "-" = false ∧ Ascii.eqb c "+" = false.
Proof.
  intros Hc. split; apply Ascii.eqb_neq; intros ->; by vm_compute in Hc.
Qed.

Lemma atoi_digits s n :
  parse_digits s = Some n →
  atoi s = if (Z.of_N n <=? max_int64)%Z then Some (Z.of_N n) else None.
Proof.
  destruct s as [|c t]; [done|]. intros H. pose proof H as Hc. simpl in Hc.
  destruct (is_digit c) eqn:Hd; [|done]. apply is_digit_not_sign in Hd as [H1 H2].
  unfold atoi. by rewrite H1, H2, H.
Qed.

Lemma atoi_format_int z : in_int64 z → atoi (format_int z) = Some z.
Proof.
  intros [Hlo Hhi]. unfold format_int. destruct (Z.ltb_spec z 0).
  - change ("-" +:+ format_N (Z.abs_N z)) with (String "-" (format_N (Z.abs_N z))).
    unfold atoi. rewrite Ascii.eqb_refl, parse_format_N. simpl.
    rewrite N2Z.inj_abs_N. rewrite (proj2 (Z.leb_le _ _)) by lia. f_equal. lia.
  - erewrite atoi_digits by apply parse_format_N.
    rewrite Z2N.id by lia. by rewrite (proj2 (Z.leb_le _ _)).
Qed.

#[export] Instance format_int_inj : Inj (=) (=) format_int.
Proof.
  intros a b. unfold format_int.
  destruct (Z.ltb_spec a 0), (Z.ltb_spec b 0); intros Heq.
  - injection Heq as Heq. apply (inj format_N) in Heq. lia.
  - destruct (format_N_head (Z.to_N b)) as (c & t & Hf & Hc). rewrite Hf in Heq.
    injection Heq as <- _. by vm_compute in Hc.
  - destruct (format_N_head (Z.to_N a)) as (c & t & Hf & Hc). rewrite Hf in Heq.
    injection Heq as -> _. by vm_compute in Hc.
  - apply (inj format_N) in Heq. lia.
Qed.

(** No separator other than a minus sign occurs in a printed number. *)
Lemma format_int_no_byte c z :
  is_digit c = false → c ≠ "-"%char → has_byte c (format_int z) = false.
Proof.
  intros Hc Hm. unfold format_int. destruct (z <? 0)%Z.
  - unfold has_byte. simpl. rewrite (proj2 (Ascii.eqb_neq _ _) Hm). simpl.
    apply all_digits_no_byte; [done | apply format_N_digits].
  - apply all_digits_no_byte; [done | apply format_N_digits].
Qed.

(** ** Zero padding *)

Lemma digits_go_zeros k s : digits_go 0 (zeros k +:+ s) = digits_go 0 s.
Proof. by induction k. Qed.

Lemma digits_go_pad0 w n : digits_go 0 (pad0 w n) = Some n.
Proof.
  unfold pad0. rewrite digits_go_zeros, <-parse_digits_go by apply format_N_nonempty.
  apply parse_format_N.
Qed.

#[export] Instance pad0_inj w : Inj (=) (=) (pad0 w).
Proof. intros a b H. apply (f_equal (digits_go 0)) in H. rewrite !digits_go_pad0 in H. congruence. Qed.

Lemma format_go_length fuel k n acc :
  n < 10 ^ N.of_nat (S k) →
  (String.length (format_go fuel n acc) <= S k + String.length acc)%nat.
Proof.
  revert k n acc. induction fuel as [|f IH]; intros k n acc Hn; simpl; [lia|].
  destruct (N.ltb_spec n 10) as [Hlt|Hge]; [simpl; lia|].
  destruct k as [|k]; [change (10 ^ N.of_nat 1) with 10 in Hn; lia|].
  etrans; [apply (IH k) | simpl; lia].
  rewrite Nat2N.inj_succ, N.pow_succ_r' in Hn. apply N.Div0.div_lt_upper_bound. lia.
Qed.

Lemma length_zeros k : String.length (zeros k) = k.
Proof. unfold zeros. by rewrite length_of_bytes, repeat_length. Qed.

(** The padded text has exactly the width asked for when the number fits. *)
Lemma length_pad0 w n : n < 10 ^ N.of_nat (S w) → String.length (pad0 (S w) n) = S w.
Proof.
  intros H%(format_go_length (S (N.size_nat n)) w n EmptyString). unfold pad0.
  fold (format_N n) in H. rewrite length_sapp, length_zeros. simpl in H. lia.
Qed.

(** Texts of digits of one length compare, byte by byte, as the numbers do. *)
Lemma digits_go_bounds s acc n :
  digits_go acc s = Some n →
  acc * 10 ^ N.of_nat (String.length s) <= n < (acc + 1) * 10 ^ N.of_nat (String.length s).
Proof.
  revert acc. induction s as [|c s IH]; intros acc.
  { simpl. intros [= ->]. change (10 ^ N.of_nat 0) with 1. lia. }
  simpl digits_go. destruct (is_digit c) eqn:Hc; [|done]. intros [H1 H2]%IH.
  apply is_digit_bounds in Hc. unfold digit_val in *. cbn [String.length].
  rewrite Nat2N.inj_succ, N.pow_succ_r'. split; nia.
Qed.

Lemma digits_compare s t a b n m :
  String.length s = String.length t →
  digits_go a s = Some n → digits_go b t = Some m →
  a = b → String.compare s t = (n ?= m).
Proof.
  revert t a b. induction s as [|c s IH]; intros [|d t] a b Hl Hn Hm ->; try done.
  { simpl in *. simplify_eq. symmetry. apply N.compare_refl. }
  injection Hl as Hl. simpl in Hn, Hm |- *.
  destruct (is_digit c) eqn:Hc; [|done]. destruct (is_digit d) eqn:Hd; [|done].
  apply is_digit_bounds in Hc, Hd. unfold Ascii.compare, digit_val in *.
  destruct (N.compare_spec (N_of_ascii c) (N_of_ascii d)) as [He|Hlt|Hgt].
  - eapply IH; [done..|]. lia.
  - symmetry. apply N.compare_lt_iff. apply digits_go_bounds in Hn, Hm. rewrite Hl in Hn. nia.
  - symmetry. apply N.compare_gt_iff. apply digits_go_bounds in Hn, Hm. rewrite Hl in Hn. nia.
Qed.

Lemma pad0_compare w a b :
  a < 10 ^ N.of_nat (S w) → b < 10 ^ N.of_nat (S w) →
  String.compare (pad0 (S w) a) (pad0 (S w) b) = (a ?= b).
Proof.
  intros Ha Hb. eapply digits_compare; [by rewrite !length_pad0|apply digits_go_pad0..|done].
Qed.
