(* ===== verification/GoRunes.v ===== *)
(** * Text as code points

    Go's []rune, range over a string and string([]rune): UTF-8 decoding, in which
    a byte that starts no well-formed sequence is the replacement character, and
    encoding. What Unicode says about the characters beyond ASCII (its tables are
    data of the language's library) is the interface [Unicode]. *)
From S2P Require Import Prelude GoStrings GoNum.

Abbreviation rune := N.

(** A code point in UTF-8. *)
Definition utf8 (n : N) : list ascii :=
  (if n <? 0x80 then [ascii_of_N n]
   else if n <? 0x800 then [ascii_of_N (0xC0 + n / 64); ascii_of_N (0x80 + n mod 64)]
   else if n <? 0x10000 then [ascii_of_N (0xE0 + n / 4096); ascii_of_N (0x80 + n / 64 mod 64); ascii_of_N (0x80 + n mod 64)]
   else [ascii_of_N (0xF0 + n / 262144); ascii_of_N (0x80 + n / 4096 mod 64); ascii_of_N (0x80 + n / 64 mod 64);
         ascii_of_N (0x80 + n mod 64)])%N.

Definition RuneError : rune := 0xFFFD%N.

Definition within (lo hi n : N) : bool := ((lo <=? n) && (n <=? hi))%N.
Definition continuation (n : N) : bool := within 0x80 0xBF n.

(** The second byte's range, by the first: no overlong form, no surrogate, nothing
    beyond U+10FFFF. *)
Definition second3 (a : N) : N → bool :=
  if (a =? 0xE0)%N then within 0xA0 0xBF else if (a =? 0xED)%N then within 0x80 0x9F else continuation.
Definition second4 (a : N) : N → bool :=
  if (a =? 0xF0)%N then within 0x90 0xBF else if (a =? 0xF4)%N then within 0x80 0x8F else continuation.

(** The code points of a text, each with the bytes that stand for it. *)
Fixpoint chunks (l : list ascii) : list (rune * list ascii) :=
  match l with
  | [] => []
  | c0 :: t =>
      let a := N_of_ascii c0 in
      let bad (_ : unit) := (RuneError, [c0]) :: chunks t in
      if (a <? 0x80)%N then (a, [c0]) :: chunks t else
      match t with
      | c1 :: t1 =>
          let b := N_of_ascii c1 in
          if within 0xC2 0xDF a then
            if continuation b then (((a - 0xC0) * 64 + (b - 0x80))%N, [c0; c1]) :: chunks t1 else bad tt
          else match t1 with
          | c2 :: t2 =>
              let c := N_of_ascii c2 in
              if within 0xE0 0xEF a then
                if second3 a b && continuation c
                then (((a - 0xE0) * 4096 + (b - 0x80) * 64 + (c - 0x80))%N, [c0; c1; c2]) :: chunks t2 else bad tt
              else match t2 with
              | c3 :: t3 =>
                  let d := N_of_ascii c3 in
                  if within 0xF0 0xF4 a && second4 a b && continuation c && continuation d
                  then (((a - 0xF0) * 262144 + (b - 0x80) * 4096 + (c - 0x80) * 64 + (d - 0x80))%N, [c0; c1; c2; c3]) :: chunks t3
                  else bad tt
              | [] => bad tt
              end
          | [] => bad tt
          end
      | [] => bad tt
      end
  end.

Definition runes_of (l : list ascii) : list rune := (chunks l).*1.
Definition runes (s : string) : list rune := runes_of (to_bytes s).
Definition of_runes (l : list rune) : string := of_bytes (l ≫= utf8).

(** The scalar values: what decoding yields. *)
Definition scalar (n : rune) : bool := ((n <? 0xD800) || within 0xE000 0x10FFFF n)%N.

(** ** Character classes *)

(** unicode.IsSpace: the White_Space property. *)
Definition IsSpace (n : rune) : bool :=
  within 9 13 n || bool_decide (n ∈ [0x20; 0x85; 0xA0; 0x1680; 0x2028; 0x2029; 0x202F; 0x205F; 0x3000]%N)
  || within 0x2000 0x200A n.

(** The tables, and the one fact about them that is used: white space is neither a
    letter nor a digit. *)
Class Unicode := {
  uni_letter : rune → bool;
  uni_digit : rune → bool;
  uni_print : rune → bool;
  uni_upper : rune → rune;
  uni_lower : rune → rune;
  uni_space r : IsSpace r = true → uni_letter r = false ∧ uni_digit r = false
}.

(** Unicode without the characters beyond ASCII. *)
Definition ascii_unicode : Unicode :=
  {| uni_letter := λ _, false; uni_digit := λ _, false; uni_print := λ _, false;
     uni_upper := λ r, r; uni_lower := λ r, r; uni_space := λ _ _, conj eq_refl eq_refl |}.

Definition ascii_lower (n : rune) : bool := within 97 122 n.
Definition ascii_upper (n : rune) : bool := within 65 90 n.

Section unicode.
Context {U : Unicode}.

Definition IsLetter (n : rune) : bool := if (n <? 0x80)%N then ascii_lower n || ascii_upper n else uni_letter n.
Definition IsDigit (n : rune) : bool := if (n <? 0x80)%N then within 48 57 n else uni_digit n.
Definition IsPrint (n : rune) : bool := if (n <? 0x80)%N then within 32 126 n else uni_print n.
Definition ToUpper (n : rune) : rune := if (n <? 0x80)%N then if ascii_lower n then (n - 32)%N else n else uni_upper n.
Definition ToLower (n : rune) : rune := if (n <? 0x80)%N then if ascii_upper n then (n + 32)%N else n else uni_lower n.

(** strings.ToLower and ToUpper of well-formed text. *)
Definition string_lower (s : string) : string := of_runes (ToLower <$> runes s).
Definition string_upper (s : string) : string := of_runes (ToUpper <$> runes s).

End unicode.

(** ** Lemmas *)

Lemma within_spec lo hi n : within lo hi n = true ↔ (lo <= n <= hi)%N.
Proof. unfold within. rewrite andb_true_iff, !N.leb_le. done. Qed.

Lemma within_false lo hi n : within lo hi n = false ↔ (n < lo ∨ hi < n)%N.
Proof. unfold within. rewrite andb_false_iff, !N.leb_gt. done. Qed.

Lemma N_of_ascii_mod n : (n < 256)%N → N_of_ascii (ascii_of_N n) = n.
Proof. apply N_ascii_embedding. Qed.

Lemma runes_of_ascii c l : (N_of_ascii c < 0x80)%N → runes_of (c :: l) = N_of_ascii c :: runes_of l.
Proof. intros H. unfold runes_of. cbn [chunks]. cbv zeta. by rewrite (proj2 (N.ltb_lt _ _) H). Qed.

(** The arithmetic of the encoding: the digits in base 64 of a code point. *)
Lemma base64_digits n :
  (n = 64 * (n / 64) + n mod 64 ∧ n mod 64 < 64
   ∧ n / 64 = 64 * (n / 4096) + n / 64 mod 64 ∧ n / 64 mod 64 < 64
   ∧ n / 4096 = 64 * (n / 262144) + n / 4096 mod 64 ∧ n / 4096 mod 64 < 64)%N.
Proof.
  assert (n / 4096 = n / 64 / 64)%N as H1 by (rewrite N.Div0.div_div; f_equal).
  assert (n / 262144 = n / 64 / 64 / 64)%N as H2 by (rewrite !N.Div0.div_div; f_equal).
  rewrite H1, H2. split_and!; try (apply N.mod_lt; lia); apply N.div_mod; lia.
Qed.

Lemma runes_of_2 a b l : within 0xC2 0xDF a = true → continuation b = true →
  runes_of (ascii_of_N a :: ascii_of_N b :: l) = ((a - 0xC0) * 64 + (b - 0x80))%N :: runes_of l.
Proof.
  intros Ha Hb. pose proof (proj1 (within_spec _ _ _) Ha). pose proof (proj1 (within_spec _ _ _) Hb).
  unfold runes_of. cbn [chunks]. cbv zeta. rewrite (N_of_ascii_mod a), (N_of_ascii_mod b) by lia.
  by rewrite (proj2 (N.ltb_ge a _)), Ha, Hb by lia.
Qed.

Lemma runes_of_3 a b c l : within 0xE0 0xEF a = true → second3 a b = true → continuation b = true → continuation c = true →
  runes_of (ascii_of_N a :: ascii_of_N b :: ascii_of_N c :: l)
  = ((a - 0xE0) * 4096 + (b - 0x80) * 64 + (c - 0x80))%N :: runes_of l.
Proof.
  intros Ha H2 Hb Hc. pose proof (proj1 (within_spec _ _ _) Ha). pose proof (proj1 (within_spec _ _ _) Hb).
  pose proof (proj1 (within_spec _ _ _) Hc).
  unfold runes_of. cbn [chunks]. cbv zeta. rewrite (N_of_ascii_mod a), (N_of_ascii_mod b), (N_of_ascii_mod c) by lia.
  by rewrite (proj2 (N.ltb_ge a _)), (proj2 (within_false 0xC2 0xDF a)), Ha, H2, Hc by lia.
Qed.

Lemma runes_of_4 a b c d l :
  within 0xF0 0xF4 a = true → second4 a b = true → continuation b = true → continuation c = true → continuation d = true →
  runes_of (ascii_of_N a :: ascii_of_N b :: ascii_of_N c :: ascii_of_N d :: l)
  = ((a - 0xF0) * 262144 + (b - 0x80) * 4096 + (c - 0x80) * 64 + (d - 0x80))%N :: runes_of l.
Proof.
  intros Ha H2 Hb Hc Hd. pose proof (proj1 (within_spec _ _ _) Ha). pose proof (proj1 (within_spec _ _ _) Hb).
  pose proof (proj1 (within_spec _ _ _) Hc). pose proof (proj1 (within_spec _ _ _) Hd).
  unfold runes_of. cbn [chunks]. cbv zeta. rewrite (N_of_ascii_mod a), (N_of_ascii_mod b), (N_of_ascii_mod c), (N_of_ascii_mod d) by lia.
  by rewrite (proj2 (N.ltb_ge a _)), (proj2 (within_false 0xC2 0xDF a)), (proj2 (within_false 0xE0 0xEF a)), Ha, H2, Hc, Hd by lia.
Qed.

(** Decoding undoes encoding, whatever follows. *)
Lemma runes_of_utf8 n l : scalar n = true → runes_of (utf8 n ++ l) = n :: runes_of l.
Proof.
  intros Hs. pose proof (base64_digits n) as (E1 & B1 & E2 & B2 & E3 & B3).
  assert (n < 0xD800 ∨ 0xE000 <= n <= 0x10FFFF)%N as Hn.
  { unfold scalar in Hs. apply orb_true_iff in Hs as [H|H]; [left; by apply N.ltb_lt|right; by apply within_spec]. }
  clear Hs. unfold utf8.
  set (q1 := (n / 64)%N) in *. set (r1 := (n mod 64)%N) in *. set (q2 := (n / 4096)%N) in *.
  set (r2 := (q1 mod 64)%N) in *. set (q3 := (n / 262144)%N) in *. set (r3 := (q2 mod 64)%N) in *.
  clearbody r1 r2 r3 q1 q2 q3.
  destruct (N.ltb_spec n 0x80) as [H1|H1]; [|destruct (N.ltb_spec n 0x800) as [H2|H2];
    [|destruct (N.ltb_spec n 0x10000) as [H3|H3]]]; cbn [app].
  - rewrite runes_of_ascii; rewrite (N_of_ascii_mod n) by lia; done.
  - rewrite runes_of_2 by (apply within_spec; lia). f_equal. lia.
  - rewrite runes_of_3; [f_equal; lia|apply within_spec; lia| |apply within_spec; lia..].
    unfold second3. destruct (N.eqb_spec (0xE0 + q2) 0xE0), (N.eqb_spec (0xE0 + q2) 0xED); apply within_spec; lia.
  - rewrite runes_of_4; [f_equal; lia|apply within_spec; lia| |apply within_spec; lia..].
    unfold second4. destruct (N.eqb_spec (0xF0 + q3) 0xF0), (N.eqb_spec (0xF0 + q3) 0xF4); apply within_spec; lia.
Qed.

Lemma runes_of_app_utf8 rs l : Forall (λ n, scalar n = true) rs → runes_of ((rs ≫= utf8) ++ l) = rs ++ runes_of l.
Proof.
  induction 1 as [|n rs Hn _ IH]; [done|]. cbn [mbind list_bind]. rewrite <- app_assoc, runes_of_utf8 by done.
  cbn. by f_equal.
Qed.

(** string([]rune) and []rune are inverse on scalar values. *)
Lemma runes_of_runes rs : Forall (λ n, scalar n = true) rs → runes (of_runes rs) = rs.
Proof.
  intros H. unfold runes, of_runes. rewrite to_of_bytes, <- (app_nil_r (rs ≫= utf8)), runes_of_app_utf8 by done.
  apply app_nil_r.
Qed.

Lemma of_runes_app a b : of_runes (a ++ b) = of_runes a +:+ of_runes b.
Proof. unfold of_runes. by rewrite bind_app, of_bytes_app. Qed.

(** Well-formed text: no byte is out of place. *)
Definition ill_formed (c : rune * list ascii) : bool := (c.1 =? RuneError)%N && (List.length c.2 =? 1)%nat.
Definition well_formed (s : string) : bool := forallb (λ c, negb (ill_formed c)) (chunks (to_bytes s)).

(** The high digits of a number put together from digits in base 64. *)
Lemma div64 q r : (r < 64)%N → ((q * 64 + r) / 64 = q ∧ (q * 64 + r) mod 64 = r)%N.
Proof.
  intros Hr. split; [symmetry; apply (N.div_unique _ 64 q r); lia|symmetry; apply (N.mod_unique _ 64 q r); lia].
Qed.

Lemma utf8_2 a b : within 0xC2 0xDF a = true → continuation b = true →
  scalar ((a - 0xC0) * 64 + (b - 0x80)) = true ∧ utf8 ((a - 0xC0) * 64 + (b - 0x80)) = [ascii_of_N a; ascii_of_N b].
Proof.
  intros Ha%within_spec Hb%within_spec. destruct (div64 (a - 0xC0) (b - 0x80)) as [Hd Hm]; [lia|].
  set (n := ((a - 0xC0) * 64 + (b - 0x80))%N) in *. split.
  - unfold scalar. apply orb_true_iff. left. apply N.ltb_lt. lia.
  - unfold utf8. rewrite (proj2 (N.ltb_ge n 0x80)), (proj2 (N.ltb_lt n 0x800)) by lia. rewrite Hd, Hm. repeat f_equal; lia.
Qed.

Lemma utf8_3 a b c : within 0xE0 0xEF a = true → second3 a b = true → continuation c = true →
  let n := ((a - 0xE0) * 4096 + (b - 0x80) * 64 + (c - 0x80))%N in
  scalar n = true ∧ utf8 n = [ascii_of_N a; ascii_of_N b; ascii_of_N c] ∧ continuation b = true.
Proof.
  intros Ha%within_spec H2 Hc%within_spec n.
  assert (0x80 <= b <= 0xBF ∧ (a = 0xE0 → 0xA0 <= b) ∧ (a = 0xED → b <= 0x9F))%N as (Hb & HE0 & HED).
  { unfold second3 in H2. destruct (N.eqb_spec a 0xE0), (N.eqb_spec a 0xED); apply within_spec in H2; lia. }
  destruct (div64 ((a - 0xE0) * 64 + (b - 0x80)) (c - 0x80)) as [Hd Hm]; [lia|].
  destruct (div64 (a - 0xE0) (b - 0x80)) as [Hd2 Hm2]; [lia|].
  assert (n = ((a - 0xE0) * 64 + (b - 0x80)) * 64 + (c - 0x80))%N as Hn by (unfold n; lia).
  rewrite <- Hn in Hd, Hm. assert (n / 4096 = a - 0xE0)%N as Hd4.
  { replace 4096%N with (64 * 64)%N by done. by rewrite <- N.Div0.div_div, Hd, Hd2. }
  split_and!; [| |by apply within_spec].
  - unfold scalar. apply orb_true_iff. destruct (decide (n < 0xD800)%N); [left; by apply N.ltb_lt|right].
    apply within_spec. destruct (decide (a = 0xED)%N); lia.
  - unfold utf8. rewrite (proj2 (N.ltb_ge n 0x80)), (proj2 (N.ltb_ge n 0x800)), (proj2 (N.ltb_lt n 0x10000)) by lia.
    rewrite Hd4, Hd, Hm, Hm2. repeat f_equal; lia.
Qed.

Lemma utf8_4 a b c d : within 0xF0 0xF4 a = true → second4 a b = true → continuation c = true → continuation d = true →
  let n := ((a - 0xF0) * 262144 + (b - 0x80) * 4096 + (c - 0x80) * 64 + (d - 0x80))%N in
  scalar n = true ∧ utf8 n = [ascii_of_N a; ascii_of_N b; ascii_of_N c; ascii_of_N d] ∧ continuation b = true.
Proof.
  intros Ha%within_spec H2 Hc%within_spec Hd%within_spec n.
  assert (0x80 <= b <= 0xBF ∧ (a = 0xF0 → 0x90 <= b) ∧ (a = 0xF4 → b <= 0x8F))%N as (Hb & HF0 & HF4).
  { unfold second4 in H2. destruct (N.eqb_spec a 0xF0), (N.eqb_spec a 0xF4); apply within_spec in H2; lia. }
  set (q2 := ((a - 0xF0) * 64 + (b - 0x80))%N). set (q1 := (q2 * 64 + (c - 0x80))%N).
  destruct (div64 q1 (d - 0x80)) as [Hd1 Hm1]; [lia|]. destruct (div64 q2 (c - 0x80)) as [Hd2 Hm2]; [lia|].
  destruct (div64 (a - 0xF0) (b - 0x80)) as [Hd3 Hm3]; [lia|]. fold q2 in Hd3, Hm3. fold q1 in Hd2, Hm2.
  assert (n = q1 * 64 + (d - 0x80))%N as Hn by (unfold n, q1, q2; lia). rewrite <- Hn in Hd1, Hm1.
  assert (n / 4096 = q2)%N as H4096 by (replace 4096%N with (64 * 64)%N by done; by rewrite <- N.Div0.div_div, Hd1).
  assert (n / 262144 = a - 0xF0)%N as H262.
  { replace 262144%N with (4096 * 64)%N by done. by rewrite <- N.Div0.div_div, H4096. }
  assert (0x10000 <= n <= 0x10FFFF)%N as Hr by lia. split_and!; [| |by apply within_spec].
  - unfold scalar. apply orb_true_iff. right. apply within_spec. lia.
  - unfold utf8. rewrite (proj2 (N.ltb_ge n 0x80)), (proj2 (N.ltb_ge n 0x800)), (proj2 (N.ltb_ge n 0x10000)) by lia.
    rewrite H262, H4096, Hd1, Hm1, Hm2, Hm3. repeat f_equal; lia.
Qed.

(** A chunk is a stray byte or the encoding of its code point. *)
Definition proper (c : rune * list ascii) : Prop :=
  ill_formed c = true ∨ (scalar c.1 = true ∧ c.2 = utf8 c.1).

Lemma chunks_proper l : Forall proper (chunks l).
Proof.
  assert (∀ n l, (List.length l <= n)%nat → Forall proper (chunks l)) as H; [|by apply (H (List.length l))].
  clear l. induction n as [|n IH]; intros l Hl; [destruct l; [constructor|cbn in Hl; lia]|].
  destruct l as [|c0 t]; [constructor|]. cbn [chunks]. cbv zeta. cbn in Hl.
  assert (Forall proper ((RuneError, [c0]) :: chunks t)) as Hbad by (constructor; [by left|apply IH; lia]).
  destruct (N_of_ascii c0 <? 0x80)%N eqn:Ha.
  { constructor; [|apply IH; lia]. right. cbn. split.
    - unfold scalar. apply orb_true_iff. left. apply N.ltb_lt. apply N.ltb_lt in Ha. lia.
    - unfold utf8. by rewrite Ha, ascii_N_embedding. }
  destruct t as [|c1 t1]; [exact Hbad|]. cbn in Hl. destruct (within 0xC2 0xDF (N_of_ascii c0)) eqn:H2.
  { destruct (continuation (N_of_ascii c1)) eqn:Hb; [|exact Hbad]. constructor; [|apply IH; lia]. right.
    destruct (utf8_2 _ _ H2 Hb) as [Hs Hu]. rewrite !ascii_N_embedding in Hu. by rewrite <- Hu. }
  destruct t1 as [|c2 t2]; [exact Hbad|]. cbn in Hl. destruct (within 0xE0 0xEF (N_of_ascii c0)) eqn:H3.
  { destruct (second3 _ _ && continuation _) eqn:Hb; [|exact Hbad]. apply andb_true_iff in Hb as [Hb Hc].
    constructor; [|apply IH; lia]. right. destruct (utf8_3 _ _ _ H3 Hb Hc) as (Hs & Hu & _).
    rewrite !ascii_N_embedding in Hu. by rewrite <- Hu. }
  destruct t2 as [|c3 t3]; [exact Hbad|]. cbn in Hl.
  destruct (within _ _ _ && second4 _ _ && _ && _) eqn:Hb; [|exact Hbad]. rewrite !andb_true_iff in Hb.
  destruct Hb as [[[H4 Hb] Hc] Hd]. constructor; [|apply IH; lia]. right.
  destruct (utf8_4 _ _ _ _ H4 Hb Hc Hd) as (Hs & Hu & _). rewrite !ascii_N_embedding in Hu. by rewrite <- Hu.
Qed.

(** The chunks are the text. *)
Lemma chunks_bytes l : mjoin (chunks l).*2 = l.
Proof.
  assert (∀ n l, (List.length l <= n)%nat → mjoin (chunks l).*2 = l) as H; [|by apply (H (List.length l))].
  clear l. induction n as [|n IH]; intros l Hl; [destruct l; [done|cbn in Hl; lia]|].
  destruct l as [|c0 t]; [done|]. cbn [chunks]. cbv zeta. cbn in Hl.
  repeat first [ progress cbn [fmap list_fmap mjoin list_join snd app]
               | rewrite IH by (cbn in *; lia) | done | case_match ].
Qed.

(** Text of ASCII bytes only. *)
Definition ascii_only (s : string) : bool := forallb (λ c, N_of_ascii c <? 0x80)%N (to_bytes s).

Lemma runes_ascii s : ascii_only s = true → runes s = N_of_ascii <$> to_bytes s.
Proof.
  unfold ascii_only, runes. induction (to_bytes s) as [|c l IH]; [done|].
  intros [Hc Hl]%andb_true_iff. rewrite runes_of_ascii by (by apply N.ltb_lt). cbn. f_equal. by apply IH.
Qed.

Lemma of_runes_ascii s : ascii_only s = true → of_runes (runes s) = s.
Proof.
  intros H. rewrite runes_ascii by done. unfold of_runes. rewrite <- (of_to_bytes s) at 2. f_equal.
  unfold ascii_only in H. induction (to_bytes s) as [|c l IH]; [done|]. apply andb_true_iff in H as [Hc Hl].
  cbn [fmap list_fmap mbind list_bind]. unfold utf8 at 1. rewrite Hc. cbn. by rewrite ascii_N_embedding, IH.
Qed.
