(* ===== verification/GoUrl.v ===== *)
(** * URLs as net/url reads them

    url.Parse, and the parts of the result the code uses: the scheme, the user, the
    host and port, the path and the raw query. Whether the inside of a bracketed host
    is an IP literal is net/netip's to say, the class [IPLiterals]. *)
From S2P Require Import Prelude GoStrings GoNum.
Open Scope string_scope.
Open Scope list_scope.

Class IPLiterals := { ip_literal : string → bool }.

(** The host is what stands between the brackets or before the port, unescaped. *)
Record URL : Type := mkURL {
  Scheme : string; UserName : option string; Password : string; Host : string; Path : string; RawQuery : string }.

Definition ctl_byte (c : ascii) : bool := ((byte_val c <? 32) || (byte_val c =? 127))%Z.
Definition letter (c : ascii) : bool :=
  let z := byte_val c in ((97 <=? z) && (z <=? 122) || (65 <=? z) && (z <=? 90))%Z.
Definition alnum (c : ascii) : bool := letter c || is_digit c.

(** The scheme and what follows its colon; an error for a colon with nothing before it. *)
Fixpoint scheme_go (acc : list ascii) (l : list ascii) : option (option (string * list ascii)) :=
  match l with
  | [] => Some None
  | c :: t =>
      if letter c then scheme_go (c :: acc) t
      else if is_digit c || existsb (Ascii.eqb c) ["+"; "-"; "."]%char
      then match acc with [] => Some None | _ => scheme_go (c :: acc) t end
      else if Ascii.eqb c ":" then match acc with [] => None | _ => Some (Some (of_bytes (reverse acc), t)) end
      else Some None
  end.

(** Percent signs decoded; [host] is the stricter mode of host names. *)
Definition host_char (c : ascii) : bool :=
  alnum c || existsb (Ascii.eqb c) (["-"; "_"; "."; "~"; "!"; "$"; "&"; "'"; "("; ")"; "*"; "+"; ","; ";"; "="; ":"; "["; "]"; "<"; ">"]%char ++ [dquote]).
Fixpoint unescape (host : bool) (l : list ascii) : option (list ascii) :=
  match l with
  | [] => Some []
  | c :: t =>
      if Ascii.eqb c "%" then
        match t with
        | a :: b :: u =>
            x ← hex_val a; y ← hex_val b;
            if host && (x <? 8)%N && negb (Ascii.eqb a "2" && Ascii.eqb b "5") then None else
            r ← unescape host u; Some (ascii_of_N (x * 16 + y) :: r)
        | _ => None
        end
      else if host && (byte_val c <? 128)%Z && negb (host_char c) then None
      else r ← unescape host t; Some (c :: r)
  end.
Definition unescape_string (host : bool) (s : string) : option string := of_bytes <$> unescape host (to_bytes s).

Definition userinfo_char (c : ascii) : bool :=
  alnum c || existsb (Ascii.eqb c) ["-"; "."; "_"; ":"; "~"; "!"; "$"; "&"; "'"; "("; ")"; "*"; "+"; ","; ";"; "="; "%"; "@"]%char.
Definition optional_port (s : string) : bool :=
  match s with String c t => Ascii.eqb c ":" && forallb is_digit (to_bytes t) | EmptyString => true end.

(** The last [c] of a text: what stands before it, and what after. *)
Definition cut_last (c : ascii) (s : string) : option (string * string) :=
  '(a, b) ← cut_byte c (srev s); Some (srev b, srev a).

Section url.
Context {IP : IPLiterals}.

Definition parseHost (host : string) : option string :=
  if HasPrefix host "[" then
    '(inner, port) ← cut_last "]" host;
    if optional_port port && ip_literal (TrimPrefix inner "[") then unescape_string true host else None
  else if has_byte "[" host then None
  else match cut_byte ":" host with
       | Some (_, port) => if optional_port (":" +:+ port) then unescape_string true host else None
       | None => unescape_string true host
       end.

Definition parseAuthority (authority : string) : option (option string * string * string) :=
  match cut_last "@" authority with
  | None => h ← parseHost authority; Some (None, "", h)
  | Some (userinfo, host) =>
      h ← parseHost host;
      if negb (forallb userinfo_char (to_bytes userinfo)) then None else
      match cut_byte ":" userinfo with
      | None => u ← unescape_string false userinfo; Some (Some u, "", h)
      | Some (u, p) => u ← unescape_string false u; p ← unescape_string false p; Some (Some u, p, h)
      end
  end.

(** A text without a scheme or a slash is a path whose first segment has no colon;
    with a scheme and no slash it is opaque, and has none of the parts. *)
Definition url_parse (raw : string) : option URL :=
  let '(u, frag) := match cut_byte "#" raw with Some (a, b) => (a, b) | None => (raw, "") end in
  if existsb ctl_byte (to_bytes u) then None else
  if String.eqb u "*" then Some (mkURL "" None "" "" "*" "") else
  s ← scheme_go [] (to_bytes u);
  let '(scheme, rest) := match s with Some (s, r) => (smap lower_byte s, of_bytes r) | None => ("", u) end in
  let '(rest, query) := match cut_byte "?" rest with Some (a, b) => (a, b) | None => (rest, "") end in
  url ←
    (if negb (HasPrefix rest "/") then
       if negb (String.eqb scheme "") then Some (mkURL scheme None "" "" "" query)
       else if has_byte ":" (match cut_byte "/" rest with Some (seg, _) => seg | None => rest end) then None
       else p ← unescape_string false rest; Some (mkURL "" None "" "" p query)
     else if (negb (String.eqb scheme "") || negb (HasPrefix rest "///")) && HasPrefix rest "//" then
       let after := TrimPrefix rest "//" in
       let '(authority, path) := match cut_byte "/" after with Some (a, b) => (a, "/" +:+ b) | None => (after, "") end in
       '(user, pass, host) ← parseAuthority authority;
       p ← unescape_string false path; Some (mkURL scheme user pass host p query)
     else p ← unescape_string false rest; Some (mkURL scheme None "" "" p query));
  _ ← unescape_string false frag;
  Some url.

(** Hostname and Port: the host without its brackets, and its port. *)
Definition split_port (host : string) : string * string :=
  match cut_last ":" host with
  | Some (h, p) => if optional_port (":" +:+ p) then (h, p) else (host, "")
  | None => (host, "")
  end.
Definition Hostname (u : URL) : string :=
  let h := fst (split_port (Host u)) in
  if HasPrefix h "[" && HasSuffix h "]" then TrimSuffix (TrimPrefix h "[") "]" else h.
Definition Port (u : URL) : string := snd (split_port (Host u)).

End url.

Example parse_dsn : (u ← @url_parse {| ip_literal := λ _, false |} "mysql://ro%40ot:p@s:s@db.local:3307/shop?x=1";
  Some (UserName u, Password u, @Hostname u, @Port u, Path u, RawQuery u))
  = Some (Some "ro@ot", "p@s:s", "db.local", "3307", "/shop", "x=1").
Proof. vm_compute. reflexivity. Qed.
