(* ===== verification/Sql.v ===== *)
(** * SQL text: quoting, and how the text is read

    The helpers that put a value into an SQL script (branch.go, policy.go,
    import.go), and the reader the scripts are checked against: what of a script is
    code, what is a text literal, a quoted name or the body of a dollar-quoted
    string. It is the lexical rule of standard SQL strings and PostgreSQL's dollar
    quoting and comments; the scripts use no other kind of string. *)
From S2P Require Import Prelude GoStrings.

(** ** Quoting *)

Definition quoteLiteral (s : string) : string := "'" +:+ ReplaceByte "'" "''" s +:+ "'".

(** A nil or empty pointer is NULL. *)
Definition sqlTextOrNull (p : option string) : string :=
  match p with
  | None => "NULL"
  | Some s => if String.eqb s "" then "NULL" else quoteLiteral s
  end.

(** A SQL string literal in the import's own spelling. *)
Definition sqlQuote (s : string) : string := "'" +:+ ReplaceByte "'" "''" s +:+ "'".

Definition pgIdent (s : string) : string := str1 dquote +:+ ReplaceByte dquote (String dquote (str1 dquote)) s +:+ str1 dquote.

(** The first 63 bytes; an empty name is called col. *)
Definition sqlIdent (s : string) : string :=
  let s := if (63 <? String.length s)%nat then substring 0 63 s else s in
  pgIdent (if String.eqb s "" then "col" else s).

Definition shellQuote (s : string) : string := "'" +:+ ReplaceByte "'" "'\''" s +:+ "'".

(** ** Reading a script *)

Inductive piece : Type :=
| Code (s : string)               (**r outside any quotes *)
| Text (s : string)               (**r '...' *)
| Name (s : string)               (**r a double-quoted name *)
| Body (tag s : string).          (**r $tag$...$tag$ *)

Inductive mode : Type :=
| InCode
| InText | AfterText              (**r in a literal; just after a quote in one *)
| InName | AfterName
| InBody (tag : list ascii)
| InLine                          (**r -- to the end of the line *)
| InBlock (depth : nat) (last : ascii). (**r nested comments *)

(** The text of the current piece and the pieces before it, newest first. *)
Record reader : Type := mkReader { at_mode : mode; cur : list ascii; done_ : list piece }.

Definition text_of (cur : list ascii) : string := of_bytes (reverse cur).

(** Code is a piece only when there is some. *)
Definition end_code (cur : list ascii) (out : list piece) : list piece :=
  match cur with [] => out | _ => Code (text_of cur) :: out end.

Definition name_char (c : ascii) : bool :=
  let n := byte_val c in
  (((97 <=? n) && (n <=? 122)) || ((65 <=? n) && (n <=? 90)) || ((48 <=? n) && (n <=? 57)) || (n =? 95) || (128 <=? n))%Z.
Definition digit_char1 (c : ascii) : bool := ((48 <=? byte_val c) && (byte_val c <=? 57))%Z.

(** The tag a dollar sign closes: what follows the previous dollar sign of the code,
    when that starts a word. *)
Fixpoint tag_back (tag cur : list ascii) : option (list ascii * list ascii) :=
  match cur with
  | [] => None
  | c :: t =>
      if Ascii.eqb c "$" then
        if match tag with d :: _ => digit_char1 d | [] => false end then None
        else if match t with d :: _ => name_char d | [] => false end then None
        else Some (tag, t)
      else if name_char c then tag_back (c :: tag) t else None
  end.

Definition step_code (cur : list ascii) (out : list piece) (c : ascii) : reader :=
  if Ascii.eqb c "'" then mkReader InText [] (end_code cur out)
  else if Ascii.eqb c dquote then mkReader InName [] (end_code cur out)
  else if Ascii.eqb c "$" then
    match tag_back [] cur with
    | Some (tag, t) => mkReader (InBody tag) [] (end_code t out)
    | None => mkReader InCode (c :: cur) out
    end
  else match cur with
       | d :: t => if Ascii.eqb c "-" && Ascii.eqb d "-" then mkReader InLine [] (end_code t out)
                   else if Ascii.eqb c "*" && Ascii.eqb d "/" then mkReader (InBlock 0 " ") [] (end_code t out)
                   else mkReader InCode (c :: cur) out
       | [] => mkReader InCode [c] out
       end.

(** The body ends where its tag between two dollar signs does. *)
Definition body_end (tag cur : list ascii) : option (list ascii) :=
  let delim := "$"%char :: reverse ("$"%char :: tag) in
  if bool_decide (take (List.length delim) cur = delim) then Some (drop (List.length delim) cur) else None.

Definition step (r : reader) (c : ascii) : reader :=
  let '(mkReader m cur out) := r in
  match m with
  | InCode => step_code cur out c
  | InText => if Ascii.eqb c "'" then mkReader AfterText cur out else mkReader InText (c :: cur) out
  | AfterText => if Ascii.eqb c "'" then mkReader InText (c :: cur) out else step_code [] (Text (text_of cur) :: out) c
  | InName => if Ascii.eqb c dquote then mkReader AfterName cur out else mkReader InName (c :: cur) out
  | AfterName => if Ascii.eqb c dquote then mkReader InName (c :: cur) out else step_code [] (Name (text_of cur) :: out) c
  | InBody tag =>
      match body_end tag (c :: cur) with
      | Some body => mkReader InCode [] (Body (of_bytes tag) (text_of body) :: out)
      | None => mkReader (InBody tag) (c :: cur) out
      end
  | InLine => if Ascii.eqb c nl then mkReader InCode [c] out else r
  | InBlock depth d =>
      if Ascii.eqb d "*" && Ascii.eqb c "/" then
        match depth with O => mkReader InCode [] out | S n => mkReader (InBlock n " ") cur out end
      else if Ascii.eqb d "/" && Ascii.eqb c "*" then mkReader (InBlock (S depth) " ") cur out
      else mkReader (InBlock depth c) cur out
  end.

Definition read_more (r : reader) (s : string) : reader := foldl step r (to_bytes s).

(** An unfinished quotation makes the script unreadable. *)
Definition finish (r : reader) : option (list piece) :=
  match at_mode r with
  | InCode | InLine => Some (reverse (end_code (cur r) (done_ r)))
  | AfterText => Some (reverse (Text (text_of (cur r)) :: done_ r))
  | AfterName => Some (reverse (Name (text_of (cur r)) :: done_ r))
  | _ => None
  end.

Definition start : reader := mkReader InCode [] [].
Definition sql_read (s : string) : option (list piece) := finish (read_more start s).

(** ** A script made from values *)

(** A template: fixed code, and the places of values as text literals or as names. *)
Inductive hole : Type := Lit (s : string) | TextHole | NameHole.

Fixpoint fill (t : list hole) (vs : list string) : string :=
  match t with
  | [] => EmptyString
  | Lit s :: t => s +:+ fill t vs
  | TextHole :: t => match vs with v :: vs => quoteLiteral v +:+ fill t vs | [] => EmptyString end
  | NameHole :: t => match vs with v :: vs => pgIdent v +:+ fill t vs | [] => EmptyString end
  end.

(** What follows a value must not look like more of it. *)
Definition ends_value (quote : ascii) (t : list hole) : bool :=
  match t with [] => true | Lit (String c _) :: _ => negb (Ascii.eqb c quote) | _ => false end.

(** The pieces of the script a template makes, each value a piece of its own; none
    where the template puts a value inside a quotation. *)
Fixpoint plug (t : list hole) (vs : list string) (cur : list ascii) : option (list piece) :=
  match t with
  | [] => finish (mkReader InCode cur [])
  | Lit s :: t =>
      match read_more (mkReader InCode cur []) s with
      | mkReader InCode cur out => (λ l, reverse out ++ l) <$> plug t vs cur
      | _ => None
      end
  | TextHole :: t =>
      match vs with
      | v :: vs => if ends_value "'" t then (λ l, end_code cur [] ++ Text v :: l) <$> plug t vs [] else None
      | [] => None
      end
  | NameHole :: t =>
      match vs with
      | v :: vs => if ends_value dquote t then (λ l, end_code cur [] ++ Name v :: l) <$> plug t vs [] else None
      | [] => None
      end
  end.

(** ** Lemmas *)

Lemma read_more_app r a b : read_more r (a +:+ b) = read_more (read_more r a) b.
Proof. unfold read_more. by rewrite to_bytes_app, foldl_app. Qed.

Lemma text_of_rev l : text_of (reverse l) = of_bytes l.
Proof. unfold text_of. by rewrite reverse_involutive. Qed.

Lemma to_bytes_cons c s : to_bytes (String c s) = c :: to_bytes s.
Proof. done. Qed.

(** The inside of a literal is taken over as it stands. *)
Lemma read_text_go s cur out :
  read_more (mkReader InText cur out) (ReplaceByte "'" "''" s) = mkReader InText (reverse (to_bytes s) ++ cur) out.
Proof.
  revert cur. induction s as [|c s IH]; intros cur; [done|]. cbn [ReplaceByte].
  destruct (Ascii.eqb_spec "'" c) as [<-|Hc].
  - rewrite read_more_app. change (read_more (mkReader InText cur out) "''") with (mkReader InText ("'"%char :: cur) out).
    by rewrite IH, to_bytes_cons, reverse_cons, <- app_assoc.
  - rewrite read_more_app. unfold read_more at 2. cbn [to_bytes String.list_ascii_of_string foldl step str1].
    rewrite (proj2 (Ascii.eqb_neq c "'")) by congruence. by rewrite IH, reverse_cons, <- app_assoc.
Qed.

Lemma read_name_go s cur out :
  read_more (mkReader InName cur out) (ReplaceByte dquote (String dquote (str1 dquote)) s)
  = mkReader InName (reverse (to_bytes s) ++ cur) out.
Proof.
  revert cur. induction s as [|c s IH]; intros cur; [done|]. cbn [ReplaceByte].
  destruct (Ascii.eqb_spec dquote c) as [<-|Hc].
  - rewrite read_more_app.
    change (read_more (mkReader InName cur out) (String dquote (str1 dquote))) with (mkReader InName (dquote :: cur) out).
    by rewrite IH, to_bytes_cons, reverse_cons, <- app_assoc.
  - rewrite read_more_app. unfold read_more at 2. cbn [to_bytes String.list_ascii_of_string foldl step str1].
    rewrite (proj2 (Ascii.eqb_neq c dquote)) by congruence. by rewrite IH, reverse_cons, <- app_assoc.
Qed.

(** A quoted value, read where code is expected, is one literal of that text. *)
Lemma read_quoteLiteral s cur out :
  read_more (mkReader InCode cur out) (quoteLiteral s) = mkReader AfterText (reverse (to_bytes s)) (end_code cur out).
Proof.
  unfold quoteLiteral. rewrite !read_more_app.
  change (read_more (mkReader InCode cur out) "'") with (mkReader InText [] (end_code cur out)).
  by rewrite read_text_go, app_nil_r.
Qed.

Lemma read_pgIdent s cur out :
  read_more (mkReader InCode cur out) (pgIdent s) = mkReader AfterName (reverse (to_bytes s)) (end_code cur out).
Proof.
  unfold pgIdent. rewrite !read_more_app.
  change (read_more (mkReader InCode cur out) (str1 dquote)) with (mkReader InName [] (end_code cur out)).
  by rewrite read_name_go, app_nil_r.
Qed.

Lemma text_of_bytes s : text_of (reverse (to_bytes s)) = s.
Proof. by rewrite text_of_rev, of_to_bytes. Qed.

(** After a literal, a character other than a quote goes on as code. *)
Lemma read_after_text s out c t :
  c ≠ "'"%char →
  read_more (mkReader AfterText (reverse (to_bytes s)) out) (String c t)
  = read_more (mkReader InCode [] (Text s :: out)) (String c t).
Proof.
  intros Hc. unfold read_more. cbn [to_bytes String.list_ascii_of_string foldl step].
  by rewrite (proj2 (Ascii.eqb_neq c "'")), text_of_bytes.
Qed.

Lemma read_after_name s out c t :
  c ≠ dquote →
  read_more (mkReader AfterName (reverse (to_bytes s)) out) (String c t)
  = read_more (mkReader InCode [] (Name s :: out)) (String c t).
Proof.
  intros Hc. unfold read_more. cbn [to_bytes String.list_ascii_of_string foldl step].
  by rewrite (proj2 (Ascii.eqb_neq c dquote)), text_of_bytes.
Qed.

(** ** Templates *)

(** Reading does not look back at the pieces it has. *)
Lemma end_code_out cur o out : end_code cur (o ++ out) = end_code cur o ++ out.
Proof. by destruct cur. Qed.

Lemma step_code_out cur o out c :
  step_code cur (o ++ out) c = let r := step_code cur o c in mkReader (at_mode r) (Sql.cur r) (done_ r ++ out).
Proof.
  unfold step_code. destruct (Ascii.eqb c "'"); [cbv zeta; cbn [at_mode Sql.cur done_]; by rewrite end_code_out|].
  destruct (Ascii.eqb c dquote); [cbv zeta; cbn [at_mode Sql.cur done_]; by rewrite end_code_out|].
  destruct (Ascii.eqb c "$"); [destruct (tag_back [] cur) as [[tag t]|]; cbv zeta; cbn [at_mode Sql.cur done_]; by rewrite ?end_code_out|].
  destruct cur as [|d t]; [done|]. destruct (_ && _); [cbv zeta; cbn [at_mode Sql.cur done_]; by rewrite end_code_out|].
  destruct (_ && _); [cbv zeta; cbn [at_mode Sql.cur done_]; by rewrite end_code_out|done].
Qed.

Lemma step_out m cur o out c :
  step (mkReader m cur (o ++ out)) c = let r := step (mkReader m cur o) c in mkReader (at_mode r) (Sql.cur r) (done_ r ++ out).
Proof.
  unfold step. destruct m as [| | | | |tag| |depth d].
  - apply step_code_out.
  - by destruct (Ascii.eqb c "'").
  - destruct (Ascii.eqb c "'"); [done|]. apply (step_code_out [] (Text (text_of cur) :: o)).
  - by destruct (Ascii.eqb c dquote).
  - destruct (Ascii.eqb c dquote); [done|]. apply (step_code_out [] (Name (text_of cur) :: o)).
  - by destruct (body_end tag (c :: cur)).
  - by destruct (Ascii.eqb c nl).
  - destruct (_ && _); [by destruct depth|]. by destruct (_ && _).
Qed.

Lemma read_more_out m cur out s :
  read_more (mkReader m cur out) s
  = let r := read_more (mkReader m cur []) s in mkReader (at_mode r) (Sql.cur r) (done_ r ++ out).
Proof.
  change out with ([] ++ out) at 1. generalize (@nil piece) as o. unfold read_more. revert m cur.
  induction (to_bytes s) as [|c l IH]; intros m cur o; [done|]. cbn [foldl]. rewrite step_out. cbv zeta.
  rewrite IH. by destruct (step (mkReader m cur o) c).
Qed.

Lemma finish_out cur out : finish (mkReader InCode cur out) = (λ l, reverse out ++ l) <$> finish (mkReader InCode cur []).
Proof.
  unfold finish. cbn. f_equal. change out with ([] ++ out) at 1. rewrite end_code_out. by rewrite reverse_app.
Qed.

(** A script made from a template reads as the template says, whatever the values. *)
Lemma plug_reads t vs cur out l :
  plug t vs cur = Some l → finish (read_more (mkReader InCode cur out) (fill t vs)) = Some (reverse out ++ l).
Proof.
  revert vs cur out l. induction t as [|[s| |] t IH]; intros vs cur out l H; cbn [plug fill] in *.
  - unfold read_more. cbn [foldl to_bytes String.list_ascii_of_string]. by rewrite finish_out, H.
  - rewrite read_more_app, read_more_out. destruct (read_more (mkReader InCode cur []) s) as [[| | | | | | |] cur' o']; try done.
    destruct (plug t vs cur') as [l'|] eqn:Hp; [|done]. injection H as <-. cbn [at_mode Sql.cur done_].
    rewrite (IH _ _ _ _ Hp), reverse_app. by rewrite app_assoc.
  - destruct vs as [|v vs]; [done|]. destruct (ends_value "'" t) eqn:He; [|done].
    destruct (plug t vs []) as [l'|] eqn:Hp; [|done]. injection H as <-. rewrite read_more_app, read_quoteLiteral.
    transitivity (finish (read_more (mkReader InCode [] (Text v :: end_code cur out)) (fill t vs))).
    + destruct t as [|[[|c s]| |] t]; [|done| |done..].
      * cbn [fill]. unfold read_more. cbn [foldl to_bytes String.list_ascii_of_string finish at_mode Sql.cur done_ end_code].
        by rewrite text_of_bytes.
      * cbn [fill]. change (String c s +:+ fill t vs) with (String c (s +:+ fill t vs)).
        rewrite read_after_text; [done|]. cbn in He. intros ->. done.
    + rewrite (IH _ _ _ _ Hp). change out with ([] ++ out) at 1. rewrite end_code_out, reverse_cons, reverse_app, <- !app_assoc.
      assert (reverse (end_code cur []) = end_code cur []) as -> by (by destruct cur). done.
  - destruct vs as [|v vs]; [done|]. destruct (ends_value dquote t) eqn:He; [|done].
    destruct (plug t vs []) as [l'|] eqn:Hp; [|done]. injection H as <-. rewrite read_more_app, read_pgIdent.
    transitivity (finish (read_more (mkReader InCode [] (Name v :: end_code cur out)) (fill t vs))).
    + destruct t as [|[[|c s]| |] t]; [|done| |done..].
      * cbn [fill]. unfold read_more. cbn [foldl to_bytes String.list_ascii_of_string finish at_mode Sql.cur done_ end_code].
        by rewrite text_of_bytes.
      * cbn [fill]. change (String c s +:+ fill t vs) with (String c (s +:+ fill t vs)).
        rewrite read_after_name; [done|]. cbn in He. intros ->. done.
    + rewrite (IH _ _ _ _ Hp). change out with ([] ++ out) at 1. rewrite end_code_out, reverse_cons, reverse_app, <- !app_assoc.
      assert (reverse (end_code cur []) = end_code cur []) as -> by (by destruct cur). done.
Qed.

(** Whether a template is sound does not depend on the values. *)
Definition holes (t : list hole) : nat := List.length (List.filter (λ h, match h with Lit _ => false | _ => true end) t).

Lemma plug_any t vs ws cur : List.length vs = holes t → List.length ws = holes t →
  is_Some (plug t vs cur) → is_Some (plug t ws cur).
Proof.
  revert vs ws cur. induction t as [|[s| |] t IH]; intros vs ws cur Hv Hw Hp; cbn [plug] in *.
  - done.
  - destruct (read_more _ s) as [[] cur' o']; try (by destruct Hp). apply fmap_is_Some. apply fmap_is_Some in Hp. by apply (IH vs ws).
  - destruct vs as [|v vs]; [done|]. destruct ws as [|w ws]; [done|]. destruct (ends_value _ t); [|by destruct Hp].
    apply fmap_is_Some. apply fmap_is_Some in Hp. cbn in Hv, Hw. apply (IH vs ws); [by injection Hv|by injection Hw|done].
  - destruct vs as [|v vs]; [done|]. destruct ws as [|w ws]; [done|]. destruct (ends_value _ t); [|by destruct Hp].
    apply fmap_is_Some. apply fmap_is_Some in Hp. cbn in Hv, Hw. apply (IH vs ws); [by injection Hv|by injection Hw|done].
Qed.
