(* ===== verification/Statement.v ===== *)
(** * What a statement changes

    internal/ledger/impact.go and the command tag of internal/ledger/policy.go: the
    tokenizer of SQL statements, the target of a DDL statement (ParseTarget) and
    the guess of the command tag (CommandTag). The loops over an index into the
    text or the tokens are recursions over what is left of them. *)
From S2P Require Import Prelude GoStrings GoNum GoRunes.

(** ** Targets *)

Record Target : Type := mkTarget { TObject : string; TColumn : string; TAction : string }.

Definition destructive_actions : list string :=
  ["drop"; "drop-column"; "alter-column-type"; "truncate"; "rename"; "rename-column"].
Definition Destructive (t : Target) : bool := bool_decide (TAction t ∈ destructive_actions).

(** ** Tokens *)

Record sqlToken : Type := mkToken { raw : string; val_ : string; quoted : bool; punct : bool }.

Definition keyword (kw : string) (t : sqlToken) : bool :=
  negb (quoted t) && negb (punct t) && EqualFold (raw t) kw.
Definition ident (t : sqlToken) : bool := negb (punct t).

Definition rune_of (c : ascii) : rune := N_of_ascii c.
Definition is_rune (c : ascii) (r : rune) : bool := (r =? rune_of c)%N.

Definition dashes (rs : list rune) : bool :=
  match rs with a :: b :: _ => is_rune "-" a && is_rune "-" b | _ => false end.
Definition opens_block (rs : list rune) : bool :=
  match rs with a :: b :: _ => is_rune "/" a && is_rune "*" b | _ => false end.

(** Past the end of a block comment's text; an unfinished one takes everything. *)
Fixpoint skip_block (rs : list rune) : list rune :=
  match rs with
  | a :: t => match t with
              | b :: u => if is_rune "*" a && is_rune "/" b then u else skip_block t
              | [] => []
              end
  | [] => []
  end.

(** A quoted name after its opening quote: its value, its text and the rest. *)
Fixpoint take_quoted (rs : list rune) : list rune * list rune * list rune :=
  match rs with
  | [] => ([], [], [])
  | r :: t =>
      if is_rune dquote r then
        match t with
        | q :: u => if is_rune dquote q then let '(v, w, rest) := take_quoted u in (r :: v, r :: q :: w, rest)
                    else ([], [r], t)
        | [] => ([], [r], t)
        end
      else let '(v, w, rest) := take_quoted t in (r :: v, r :: w, rest)
  end.

Section statement.
Context {U : Unicode}.

Definition word_rune (r : rune) : bool := IsLetter r || IsDigit r || is_rune "_" r || is_rune "$" r.

Fixpoint take_word (rs : list rune) : list rune * list rune :=
  match rs with
  | r :: t => if word_rune r then let '(w, rest) := take_word t in (r :: w, rest) else ([], rs)
  | [] => ([], [])
  end.

Definition word_token (w : list rune) : sqlToken := mkToken (of_runes w) (string_lower (of_runes w)) false false.
Definition quoted_token (v w : list rune) : sqlToken := mkToken (of_runes (rune_of dquote :: w)) (of_runes v) true false.
Definition punct_token (r : rune) : sqlToken := mkToken (of_runes [r]) (of_runes [r]) false true.

(** One turn of the loop. *)
Fixpoint tokenize (fuel : nat) (max : nat) (rs : list rune) : list sqlToken :=
  match fuel, max with
  | S fuel, S more =>
      match rs with
      | [] => []
      | r :: t =>
          if IsSpace r then tokenize fuel max t
          else if dashes rs then tokenize fuel max (drop_while (λ c, negb (is_rune nl c)) rs)
          else if opens_block rs then tokenize fuel max (skip_block (tail t))
          else if is_rune ";" r then []
          else if is_rune dquote r then
            let '(v, w, rest) := take_quoted t in quoted_token v w :: tokenize fuel more rest
          else if word_rune r then
            let '(w, rest) := take_word rs in word_token w :: tokenize fuel more rest
          else punct_token r :: tokenize fuel more t
      end
  | _, _ => []
  end.

(** Every turn takes something off the text. *)
Definition tokenizeSQL (sql : string) (max : nat) : list sqlToken :=
  let rs := runes sql in tokenize (S (List.length rs)) max rs.

(** ** The target of a statement *)

Fixpoint at_ (kws : list string) (l : list sqlToken) : bool :=
  match kws with
  | [] => true
  | kw :: kws => match l with t :: l => keyword kw t && at_ kws l | [] => false end
  end.

Definition skip (kws : list string) (l : list sqlToken) : list sqlToken :=
  if at_ kws l then drop (List.length kws) l else l.

(** A dot and another part, at most [n] times. *)
Fixpoint more_parts (n : nat) (l : list sqlToken) : list string * list sqlToken :=
  match n, l with
  | S n, d :: t :: u =>
      if punct d && String.eqb (raw d) "." && ident t
      then let '(ps, rest) := more_parts n u in (raw t :: ps, rest) else ([], l)
  | _, _ => ([], l)
  end.
Definition name (l : list sqlToken) : string * list sqlToken * bool :=
  match l with
  | t :: u => if ident t then let '(ps, rest) := more_parts 2 u in (Join "." (raw t :: ps), rest, true) else ("", l, false)
  | [] => ("", l, false)
  end.

Definition object_types : list (list string) :=
  [["MATERIALIZED"; "VIEW"]; ["FOREIGN"; "TABLE"]; ["TABLE"]; ["VIEW"]; ["INDEX"]; ["SEQUENCE"]].
Definition objectType (l : list sqlToken) : option (list sqlToken) :=
  kws ← List.find (λ kws, at_ kws l) object_types; Some (drop (List.length kws) l).

Definition colName (l : list sqlToken) : option (string * list sqlToken) :=
  match l with t :: u => if ident t then Some (val_ t, u) else None | [] => None end.

Definition kept_by_drop : list string := ["CONSTRAINT"; "DEFAULT"; "NOT"; "EXPRESSION"; "IDENTITY"].

Definition dropped_column (obj : string) (l : list sqlToken) : Target :=
  match colName (skip ["IF"; "EXISTS"] l) with
  | Some (c, _) => mkTarget obj c "drop-column"
  | None => mkTarget obj "" "alter"
  end.

(** The first subcommand of an ALTER that is recognised. *)
Fixpoint alter_target (obj : string) (l : list sqlToken) : Target :=
  match l with
  | [] => mkTarget obj "" "alter"
  | _ :: t =>
      if at_ ["RENAME"; "TO"] l then mkTarget obj "" "rename"
      else if at_ ["RENAME"] l then
        let k := skip ["COLUMN"] t in
        if at_ ["CONSTRAINT"] k then mkTarget obj "" "alter"
        else match colName k with
             | Some (c, k2) => if at_ ["TO"] k2 then mkTarget obj c "rename-column" else mkTarget obj "" "alter"
             | None => mkTarget obj "" "alter"
             end
      else if at_ ["DROP"; "COLUMN"] l then dropped_column obj (tail t)
      else if at_ ["DROP"] l && negb (existsb (λ kw, at_ [kw] t) kept_by_drop) then dropped_column obj t
      else if at_ ["ALTER"] l then
        match colName (skip ["COLUMN"] t) with
        | Some (c, k) => mkTarget obj c (if at_ ["TYPE"] k || at_ ["SET"; "DATA"; "TYPE"] k then "alter-column-type" else "alter-column")
        | None => mkTarget obj "" "alter"
        end
      else alter_target obj t
  end.

Definition named (action : string) (l : list sqlToken) : Target * bool :=
  let '(obj, _, ok) := name l in (mkTarget obj "" action, ok).
Definition no_target : Target * bool := (mkTarget "" "" "", false).

(** After the first ON. *)
Fixpoint index_target (l : list sqlToken) : Target * bool :=
  match l with
  | [] => no_target
  | _ :: t => if at_ ["ON"] l then named "create-index" (skip ["ONLY"] t) else index_target t
  end.
Fixpoint create_target (l : list sqlToken) : Target * bool :=
  match l with
  | [] => no_target
  | _ :: t =>
      if at_ ["INDEX"] l then index_target t
      else if existsb (λ kw, at_ [kw] l) ["TABLE"; "VIEW"; "FUNCTION"; "PROCEDURE"] then no_target
      else create_target t
  end.
Fixpoint grant_target (action : string) (l : list sqlToken) : Target * bool :=
  match l with
  | [] => no_target
  | _ :: t =>
      if at_ ["ON"] l then
        if existsb (λ kw, at_ [kw] t) ["ALL"; "SCHEMA"; "FUNCTION"; "DATABASE"] || at_ ["SEQUENCE"; "ALL"] t then no_target
        else named action (skip ["SEQUENCE"] (skip ["TABLE"] t))
      else grant_target action t
  end.

Definition target_of (toks : list sqlToken) : Target * bool :=
  if at_ ["DROP"] toks then
    match objectType (tail toks) with
    | None => no_target
    | Some l => named "drop" (skip ["IF"; "EXISTS"] (skip ["CONCURRENTLY"] l))
    end
  else if at_ ["TRUNCATE"] toks then named "truncate" (skip ["ONLY"] (skip ["TABLE"] (tail toks)))
  else if at_ ["ALTER"] toks then
    match objectType (tail toks) with
    | None => no_target
    | Some l =>
        match name (skip ["ONLY"] (skip ["IF"; "EXISTS"] l)) with
        | (_, _, false) => no_target
        | (obj, rest, true) => (alter_target obj rest, true)
        end
    end
  else if at_ ["CREATE"] toks then create_target (tail toks)
  else if at_ ["GRANT"] toks || at_ ["REVOKE"] toks then
    match toks with
    | t :: l => grant_target (string_lower (raw t)) l
    | [] => no_target
    end
  else no_target.

Definition ParseTarget (sql : string) : Target * bool := target_of (tokenizeSQL sql 256).

(** ** Command tags *)

Definition multiWordObjects : list (list string) :=
  [["FOREIGN"; "DATA"; "WRAPPER"];
   ["TEXT"; "SEARCH"; "CONFIGURATION"]; ["TEXT"; "SEARCH"; "DICTIONARY"];
   ["TEXT"; "SEARCH"; "PARSER"]; ["TEXT"; "SEARCH"; "TEMPLATE"];
   ["MATERIALIZED"; "VIEW"]; ["FOREIGN"; "TABLE"]; ["EVENT"; "TRIGGER"];
   ["ACCESS"; "METHOD"]; ["USER"; "MAPPING"]; ["OPERATOR"; "CLASS"];
   ["OPERATOR"; "FAMILY"]; ["DEFAULT"; "PRIVILEGES"]; ["LARGE"; "OBJECT"]].
Definition createModifiers : list string :=
  ["OR"; "REPLACE"; "UNIQUE"; "TEMP"; "TEMPORARY"; "UNLOGGED"; "GLOBAL"; "LOCAL"; "CONSTRAINT";
   "RECURSIVE"; "TRUSTED"; "PROCEDURAL"].

Definition equalWords (a b : list string) : bool := bool_decide (take (List.length b) a = b).

(** The comment's text is looked for from its opening on, so "/*/" closes itself. *)
Fixpoint stripLeadingComments_go (fuel : nat) (s : string) : string :=
  match fuel with
  | O => ""
  | S fuel =>
      let s := TrimLeftSpace s in
      if HasPrefix s "--" then
        match cut_byte nl s with None => "" | Some (_, t) => stripLeadingComments_go fuel t end
      else if HasPrefix s "/*" then
        match cut_sub "*/" s with None => "" | Some (_, t) => stripLeadingComments_go fuel t end
      else s
  end.
Definition stripLeadingComments (s : string) : string := stripLeadingComments_go (S (String.length s)) s.

(** Runs of letters; the text ends at a semicolon. *)
Fixpoint words_go (n : nat) (cur : list rune) (words : list string) (rs : list rune) : list string :=
  let flushed := match cur with [] => words | _ => words ++ [of_runes cur] end in
  match rs with
  | [] => if (List.length words <? n)%nat then flushed else words
  | r :: t =>
      if IsLetter r then words_go n (cur ++ [ToUpper r]) words t
      else if negb (match cur with [] => true | _ => false end) && (List.length flushed =? n)%nat then flushed
      else if is_rune ";" r then flushed
      else words_go n [] flushed t
  end.
Definition leadingWords (s : string) (n : nat) : list string := words_go n [] [] (runes s).

Definition object_words (verb : string) (rest : list string) : string :=
  match List.find (λ obj, (List.length obj <=? List.length rest)%nat && equalWords rest obj) multiWordObjects with
  | Some obj => verb +:+ " " +:+ Join " " obj
  | None => match rest with [] => verb | w :: _ => verb +:+ " " +:+ w end
  end.
Definition CommandTag (sql : string) : string :=
  match leadingWords (stripLeadingComments sql) 6 with
  | [] => ""
  | verb :: rest =>
      if String.eqb verb "CREATE"
      then object_words verb (drop_while (λ w, bool_decide (w ∈ createModifiers)) rest)
      else if String.eqb verb "ALTER" || String.eqb verb "DROP" then object_words verb rest
      else verb
  end.

(** ** How SQL text divides into tokens *)












(** ** Keywords *)







(** ** Statements that destroy something *)



























End statement.

(** ** Examples *)

(** After an ALTER COLUMN, or a RENAME of a column, no later subcommand counts: a column
    dropped by one of the same ALTER TABLE is not seen, and the statement does not pass for
    destructive. *)
Example ParseTarget_first_subcommand (U : Unicode) :
  ParseTarget "ALTER TABLE t ALTER COLUMN a SET DEFAULT 1, DROP COLUMN b" = (mkTarget "t" "a" "alter-column", true)
  ∧ Destructive (mkTarget "t" "a" "alter-column") = false.
Proof. split; vm_compute; reflexivity. Qed.


