(* ===== verification/Sha256.v ===== *)
(** * crypto/sha256, crypto/hmac and encoding/hex

    SHA-256 (FIPS 180-4), HMAC (RFC 2104) and lowercase hex as executable
    functions on byte strings, with the facts the ledger and the Gateway use:
    digests are 32 bytes and hex loses nothing. *)
From S2P Require Import Prelude GoStrings.
Open Scope N_scope.

(** ** SHA-256 *)

Definition w32 : N := 4294967296.
Definition add32 (a b : N) : N := (a + b) mod w32.
Definition rotr (n x : N) : N := N.lor (N.shiftr x n) (N.shiftl x (32 - n) mod w32).
Definition not32 (x : N) : N := N.lxor x (w32 - 1).

(** The round constants: the first 32 bits of the fractional parts of the cube
    roots of the first 64 primes. *)
Definition is_prime (n : N) : bool :=
  (2 <=? n) && forallb (fun d => negb (n mod N.of_nat d =? 0)) (seq 2 (N.to_nat (N.sqrt n) - 1)).
Definition first_primes (k : nat) : list N :=
  take k (List.filter is_prime (N.of_nat <$> seq 2 320)).

(** floor of the cube root of [n], one bit at a time from bit [k]. *)
Fixpoint cube_root (k : nat) (n r : N) : N :=
  let c := r + 2 ^ N.of_nat k in
  let r := if c * c * c <=? n then c else r in
  match k with O => r | S j => cube_root j n r end.
Definition sha_k : list N :=
  Eval vm_compute in (fun p => cube_root 40 (p * 2 ^ 96) 0 mod w32) <$> first_primes 64.

(** The eight working variables. *)
Record sha_state : Set := ShaState {
  sa : N; sb : N; sc : N; sd : N; se : N; sf : N; sg : N; sh : N }.

(** They start from the square roots of the first eight primes. *)
Definition sha_init : sha_state :=
  Eval vm_compute in
    match (fun p => N.sqrt (p * 2 ^ 64) mod w32) <$> first_primes 8 with
    | [a; b; c; d; e; f; g; h] => ShaState a b c d e f g h
    | _ => ShaState 0 0 0 0 0 0 0 0
    end.

Definition sha_round (s : sha_state) (kw : N * N) : sha_state :=
  let '(k, w) := kw in
  let s1 := N.lxor (rotr 6 (se s)) (N.lxor (rotr 11 (se s)) (rotr 25 (se s))) in
  let ch := N.lxor (N.land (se s) (sf s)) (N.land (not32 (se s)) (sg s)) in
  let t1 := add32 (add32 (add32 (sh s) s1) (add32 ch k)) w in
  let s0 := N.lxor (rotr 2 (sa s)) (N.lxor (rotr 13 (sa s)) (rotr 22 (sa s))) in
  let maj := N.lxor (N.land (sa s) (sb s)) (N.lxor (N.land (sa s) (sc s)) (N.land (sb s) (sc s))) in
  ShaState (add32 t1 (add32 s0 maj)) (sa s) (sb s) (sc s) (add32 (sd s) t1) (se s) (sf s) (sg s).

Definition nth_word (l : list N) (i : nat) : N := default 0 (l !! i).

(** The message schedule, newest word first while it is built. *)
Fixpoint sha_extend (n : nat) (rw : list N) : list N :=
  match n with
  | O => rw
  | S m =>
      let x15 := nth_word rw 14 in
      let x2 := nth_word rw 1 in
      let s0 := N.lxor (rotr 7 x15) (N.lxor (rotr 18 x15) (N.shiftr x15 3)) in
      let s1 := N.lxor (rotr 17 x2) (N.lxor (rotr 19 x2) (N.shiftr x2 10)) in
      sha_extend m (add32 (add32 (nth_word rw 15) s0) (add32 (nth_word rw 6) s1) :: rw)
  end.

Definition sha_block (s : sha_state) (block : list N) : sha_state :=
  let w := rev (sha_extend 48 (rev block)) in
  let t := fold_left sha_round (combine sha_k w) s in
  ShaState (add32 (sa s) (sa t)) (add32 (sb s) (sb t)) (add32 (sc s) (sc t)) (add32 (sd s) (sd t))
    (add32 (se s) (se t)) (add32 (sf s) (sf t)) (add32 (sg s) (sg t)) (add32 (sh s) (sh t)).

(** Big-endian words of a byte sequence. *)
Fixpoint be_words (l : list ascii) : list N :=
  match l with
  | a :: b :: c :: d :: t =>
      (N_of_ascii a * 16777216 + N_of_ascii b * 65536 + N_of_ascii c * 256 + N_of_ascii d)
        :: be_words t
  | _ => []
  end.

Definition be_bytes (x : N) : list ascii :=
  [ascii_of_N (x / 16777216 mod 256); ascii_of_N (x / 65536 mod 256);
   ascii_of_N (x / 256 mod 256); ascii_of_N (x mod 256)].

Fixpoint blocks (n : nat) (l : list N) : list (list N) :=
  match n with
  | O => []
  | S m => take 16 l :: blocks m (drop 16 l)
  end.

Definition sha_pad (m : list ascii) : list ascii :=
  let len := List.length m in
  let k := ((119 - len mod 64) mod 64)%nat in
  let bits := N.of_nat len * 8 in
  m ++ "128"%char :: repeat "000"%char k ++ be_bytes (bits / w32) ++ be_bytes (bits mod w32).

Definition sha256 (m : string) : string :=
  let ws := be_words (sha_pad (to_bytes m)) in
  let s := fold_left sha_block (blocks (List.length ws / 16) ws) sha_init in
  of_bytes (be_bytes (sa s) ++ be_bytes (sb s) ++ be_bytes (sc s) ++ be_bytes (sd s)
            ++ be_bytes (se s) ++ be_bytes (sf s) ++ be_bytes (sg s) ++ be_bytes (sh s)).

(** ** encoding/hex *)

Definition hex_digit (n : N) : ascii :=
  ascii_of_N (if n <? 10 then 48 + n else 87 + n).
Fixpoint hex_encode (s : string) : string :=
  match s with
  | EmptyString => EmptyString
  | String c t =>
      String (hex_digit (N_of_ascii c / 16))
        (String (hex_digit (N_of_ascii c mod 16)) (hex_encode t))
  end.

Definition unhex_digit (c : ascii) : N :=
  let n := N_of_ascii c in if n <? 58 then n - 48 else n - 87.
Fixpoint unhex (s : string) : string :=
  match s with
  | String a (String b t) => String (ascii_of_N (unhex_digit a * 16 + unhex_digit b)) (unhex t)
  | _ => EmptyString
  end.

(** ** crypto/hmac with SHA-256 *)

Definition xor_byte (x : N) (c : ascii) : ascii := ascii_of_N (N.lxor x (N_of_ascii c)).
Definition hmac_sha256 (key msg : string) : string :=
  let k := if (64 <? String.length key)%nat then sha256 key else key in
  let k := k +:+ of_bytes (repeat "000"%char (64 - String.length k)) in
  sha256 (smap (xor_byte 0x5c) k +:+ sha256 (smap (xor_byte 0x36) k +:+ msg)).

(** ** Facts *)

Lemma length_sha256 m : String.length (sha256 m) = 32%nat.
Proof. unfold sha256. by rewrite length_of_bytes, !length_app. Qed.

Lemma length_hex_encode s : String.length (hex_encode s) = (2 * String.length s)%nat.
Proof. induction s as [|c s IH]; [done|]. cbn [hex_encode String.length]. lia. Qed.

Lemma hex_encode_no_byte c s :
  (∀ n, (n < 16)%N → hex_digit n ≠ c) → has_byte c (hex_encode s) = false.
Proof.
  intros Hc. apply has_byte_false. induction s as [|d s IH]; [apply not_elem_of_nil|].
  cbn [hex_encode]. change (to_bytes (String ?a (String ?b ?t))) with (a :: b :: to_bytes t).
  pose proof (N_ascii_bounded d) as Hd. rewrite !not_elem_of_cons. split_and!; [| |done]; intros Heq;
    symmetry in Heq; revert Heq; apply Hc; [apply N.Div0.div_lt_upper_bound|apply N.mod_lt]; lia.
Qed.

Lemma unhex_digit_hex n : n < 16 → unhex_digit (hex_digit n) = n.
Proof.
  intros H. unfold unhex_digit, hex_digit.
  rewrite N_ascii_embedding by (destruct (n <? 10) eqn:E; lia).
  destruct (N.ltb_spec n 10).
  - rewrite (proj2 (N.ltb_lt _ _)) by lia. lia.
  - rewrite (proj2 (N.ltb_ge _ _)) by lia. lia.
Qed.

Lemma unhex_encode s : unhex (hex_encode s) = s.
Proof.
  induction s as [|c s IH]; [done|]. simpl.
  pose proof (N_ascii_bounded c).
  rewrite !unhex_digit_hex, IH.
  - rewrite N.mul_comm, <-N.div_mod by lia. by rewrite ascii_N_embedding.
  - apply N.mod_lt. lia.
  - apply N.Div0.div_lt_upper_bound. lia.
Qed.

#[export] Instance hex_encode_inj : Inj (=) (=) hex_encode.
Proof. intros a b H. by rewrite <-(unhex_encode a), H, unhex_encode. Qed.

(** FIPS 180-4 and RFC 4231 test vectors. *)
Example sha256_empty :
  hex_encode (sha256 "") = "e3b0c44298fc1c149afbf4c8996fb92427ae41e4649b934ca495991b7852b855"%string.
Proof. vm_compute. reflexivity. Qed.

Example sha256_abc :
  hex_encode (sha256 "abc") = "ba7816bf8f01cfea414140de5dae2223b00361a396177a9cb410ff61f20015ad"%string.
Proof. vm_compute. reflexivity. Qed.

Example sha256_two_blocks :
  hex_encode (sha256 "abcdbcdecdefdefgefghfghighijhijkijkljklmklmnlmnomnopnopq") =
  "248d6a61d20638b8e5c026930c3e6039a33ce45964ff2167f6ecedd419db06c1"%string.
Proof. vm_compute. reflexivity. Qed.

Example hmac_rfc4231_2 :
  hex_encode (hmac_sha256 "Jefe" "what do ya want for nothing?") =
  "5bdcc146bf60754e6a042426089575c75a003f089d2739839dec58b964ec3843"%string.
Proof. vm_compute. reflexivity. Qed.

(** Proofs treat the digest as an unknown function; evaluation still computes it. *)
#[global] Opaque sha256.
