(* ===== verification/GoTime.v ===== *)
(** * time.Time as UTC instants, and the layouts the engine prints

    An instant is its number of nanoseconds since 1970-01-01 00:00:00 UTC. *)
From S2P Require Import Prelude GoStrings GoNum.
Open Scope Z_scope.

(** ** Definitions *)

Definition time := Z.
Definition second : Z := 1000000000.
Definition minute : Z := 60 * second.
Definition hour : Z := 60 * minute.
Definition day_ns : Z := 24 * hour.

(** The proleptic Gregorian date of a day number: year, month, day. A 400-year
    era from 1 March of year 0 is cut into centuries, four-year cycles and
    years, each of which ends with its leap day if it has one. *)
Definition civil_of_days (z : Z) : Z * Z * Z :=
  let z := z + 719468 in
  let era := z / 146097 in
  let e := z - era * 146097 in
  let c := Z.min 3 (e / 36524) in
  let e := e - c * 36524 in
  let q := e / 1461 in
  let e := e - q * 1461 in
  let k := Z.min 3 (e / 365) in
  let doy := e - k * 365 in
  let mp := (5 * doy + 2) / 153 in
  let d := doy - (153 * mp + 2) / 5 + 1 in
  let m := if mp <? 10 then mp + 3 else mp - 9 in
  (era * 400 + (100 * c + 4 * q + k) + (if m <=? 2 then 1 else 0), m, d).

Definition days_of_civil (y m d : Z) : Z :=
  let y := y - (if m <=? 2 then 1 else 0) in
  let era := y / 400 in
  let yoe := y - era * 400 in
  let doy := (153 * (m + (if m <=? 2 then 9 else -3)) + 2) / 5 + d - 1 in
  let doe := yoe * 365 + yoe / 4 - yoe / 100 + doy in
  era * 146097 + doe - 719468.

Definition time_year (t : time) : Z := let '(y, _, _) := civil_of_days (t / day_ns) in y.
Definition ns_of_day (t : time) : Z := t mod day_ns.
(** t.Nanosecond() / 1000 *)
Definition micros (t : time) : Z := t mod second / 1000.

Definition two_digits (z : Z) : string := pad0 2 (Z.to_N z).

(** The layout "2006-01-02", for years 0 to 9999. *)
Definition format_date (t : time) : string :=
  let '(y, m, d) := civil_of_days (t / day_ns) in
  pad0_int 4 y +:+ "-" +:+ two_digits m +:+ "-" +:+ two_digits d.
(** The layout "15:04:05". *)
Definition format_clock (t : time) : string :=
  let s := ns_of_day t in
  two_digits (s / hour) +:+ ":" +:+ two_digits (s mod hour / minute) +:+ ":"
    +:+ two_digits (s mod minute / second).
(** The layout ".999999": microseconds without trailing zeros, or nothing. *)
Definition format_frac (t : time) : string :=
  if micros t =? 0 then EmptyString
  else "." +:+ trim_right_by (Ascii.eqb "0") (pad0 6 (Z.to_N (micros t))).

(** "2006-01-02 15:04:05" *)
Definition format_datetime (t : time) : string := format_date t +:+ " " +:+ format_clock t.
(** time.RFC3339 of a UTC time *)
Definition format_rfc3339 (t : time) : string :=
  format_date t +:+ "T" +:+ format_clock t +:+ "Z".

(** ** The calendar *)

Lemma century_step e :
  0 <= e < 146097 →
  ∃ c r, Z.min 3 (e / 36524) = c ∧ e - c * 36524 = r ∧ 0 <= c <= 3 ∧ 0 <= r <= 36524.
Proof. intros H. do 2 eexists. split; [done|]. split; [done|]. Z.div_mod_to_equations. lia. Qed.

Lemma cycle_step e :
  0 <= e <= 36524 → ∃ q r, e / 1461 = q ∧ e - q * 1461 = r ∧ 0 <= q <= 24 ∧ 0 <= r <= 1460.
Proof. intros H. do 2 eexists. split; [done|]. split; [done|]. Z.div_mod_to_equations. lia. Qed.

Lemma year_step e :
  0 <= e <= 1460 →
  ∃ k r, Z.min 3 (e / 365) = k ∧ e - k * 365 = r ∧ 0 <= k <= 3 ∧ 0 <= r <= 365.
Proof. intros H. do 2 eexists. split; [done|]. split; [done|]. Z.div_mod_to_equations. lia. Qed.

(** The day of the year is in range, and the year of the era determines the
    days before it. *)
Lemma era_split e :
  0 <= e < 146097 →
  let c := Z.min 3 (e / 36524) in
  let e1 := e - c * 36524 in
  let q := e1 / 1461 in
  let e2 := e1 - q * 1461 in
  let k := Z.min 3 (e2 / 365) in
  let doy := e2 - k * 365 in
  let yoe := 100 * c + 4 * q + k in
  0 <= doy <= 365 ∧ 0 <= yoe < 400 ∧ yoe * 365 + yoe / 4 - yoe / 100 + doy = e.
Proof.
  intros He. cbv zeta.
  destruct (century_step e He) as (c & e1 & -> & H1 & Hc & He1). rewrite H1.
  destruct (cycle_step e1 He1) as (q & e2 & -> & H2 & Hq & He2). rewrite H2.
  destruct (year_step e2 He2) as (k & dy & -> & H3 & Hk & Hd). rewrite H3.
  split; [exact Hd|]. split; [split; lia|].
  assert ((100 * c + 4 * q + k) / 4 = 25 * c + q) as -> by (symmetry; apply Z.div_unique with k; lia).
  assert ((100 * c + 4 * q + k) / 100 = c) as -> by (symmetry; apply Z.div_unique with (4 * q + k); lia).
  lia.
Qed.

Lemma month_split dy :
  0 <= dy <= 365 →
  let mp := (5 * dy + 2) / 153 in 0 <= mp <= 11 ∧ 1 <= dy - (153 * mp + 2) / 5 + 1 <= 31.
Proof. intros H. cbv zeta. repeat split; Z.div_mod_to_equations; lia. Qed.

Lemma era_offset z : 0 <= z - z / 146097 * 146097 < 146097.
Proof. split; Z.div_mod_to_equations; lia. Qed.

Lemma civil_bounds z y m d :
  civil_of_days z = (y, m, d) → 1 <= m <= 12 ∧ 1 <= d <= 31.
Proof.
  unfold civil_of_days. intros [= _ <- <-].
  destruct (era_split _ (era_offset (z + 719468))) as [Hd _].
  set (dy := _ - Z.min 3 (_ / 365) * 365) in *. clearbody dy.
  apply month_split in Hd as [Hm Hd]. split; [|exact Hd].
  destruct (Z.ltb_spec ((5 * dy + 2) / 153) 10); lia.
Qed.

(** The date determines the day. *)
Lemma days_of_civil_of_days z y m d :
  civil_of_days z = (y, m, d) → days_of_civil y m d = z.
Proof.
  unfold civil_of_days. intros [= <- <- <-].
  destruct (era_split _ (era_offset (z + 719468))) as (Hd & Hy & Hs).
  set (dy := _ - Z.min 3 (_ / 365) * 365) in *. set (yo := 100 * _ + _ + _) in *.
  clearbody dy yo. pose proof (month_split _ Hd) as [Hm _].
  set (mp := (5 * dy + 2) / 153) in *. set (era := (z + 719468) / 146097) in *.
  unfold days_of_civil. set (m := if mp <? 10 then mp + 3 else mp - 9).
  assert (m + (if m <=? 2 then 9 else -3) = mp) as ->.
  { unfold m. destruct (Z.ltb_spec mp 10), (Z.leb_spec (mp + 3) 2), (Z.leb_spec (mp - 9) 2); lia. }
  replace (era * 400 + yo + _ - _) with (yo + era * 400) by lia.
  rewrite Z.div_add, (Z.div_small yo 400), Z.add_0_l by lia.
  replace (yo + era * 400 - era * 400) with yo by lia. lia.
Qed.

Lemma civil_of_days_inj a b : civil_of_days a = civil_of_days b → a = b.
Proof.
  destruct (civil_of_days a) as [[y m] d] eqn:Ha. intros Hb. symmetry in Hb.
  apply days_of_civil_of_days in Ha, Hb. congruence.
Qed.

Example civil_leap : civil_of_days 19782 = (2024, 2, 29).
Proof. reflexivity. Qed.
Example civil_epoch : civil_of_days 0 = (1970, 1, 1).
Proof. reflexivity. Qed.

(** ** A printed time determines the instant, to the microsecond *)

Definition valid_year (t : time) : Prop := 0 <= time_year t <= 9999.

Lemma two_digits_length z : 0 <= z <= 99 → String.length (two_digits z) = 2%nat.
Proof. intros H. apply length_pad0. change (10 ^ N.of_nat 2)%N with 100%N. lia. Qed.

Lemma two_digits_inj_app a b r s :
  0 <= a <= 99 → 0 <= b <= 99 → two_digits a +:+ r = two_digits b +:+ s → a = b ∧ r = s.
Proof.
  intros Ha Hb H. apply sapp_inj_length in H as [H ->]; [|by rewrite !two_digits_length].
  apply (inj (pad0 2)) in H. split; [lia | done].
Qed.

Lemma year_inj_app a b r s :
  0 <= a <= 9999 → 0 <= b <= 9999 → pad0_int 4 a +:+ r = pad0_int 4 b +:+ s → a = b ∧ r = s.
Proof.
  intros Ha Hb. unfold pad0_int.
  rewrite !(proj2 (Z.ltb_ge _ _)) by lia. intros H.
  apply sapp_inj_length in H as [H ->].
  - apply (inj (pad0 4)) in H. split; [lia | done].
  - rewrite !length_pad0; [done| |]; change (10 ^ N.of_nat 4)%N with 10000%N; lia.
Qed.

Lemma format_date_inj_app t u r s :
  valid_year t → valid_year u →
  format_date t +:+ r = format_date u +:+ s → t / day_ns = u / day_ns ∧ r = s.
Proof.
  unfold valid_year, time_year, format_date.
  destruct (civil_of_days (t / day_ns)) as [[y m] d] eqn:Et.
  destruct (civil_of_days (u / day_ns)) as [[y' m'] d'] eqn:Eu.
  intros Hy Hy'. pose proof (civil_bounds _ _ _ _ Et). pose proof (civil_bounds _ _ _ _ Eu).
  rewrite !sapp_assoc. intros [<- H1]%year_inj_app; [|done|done].
  apply sapp_inv_head, two_digits_inj_app in H1 as [<- H1]; [|lia|lia].
  apply sapp_inv_head, two_digits_inj_app in H1 as [<- H1]; [|lia|lia].
  split; [|done]. apply civil_of_days_inj. congruence.
Qed.

Lemma ns_of_day_bounds t : 0 <= ns_of_day t < day_ns.
Proof. apply Z.mod_pos_bound. done. Qed.

Lemma clock_parts s :
  0 <= s < day_ns →
  0 <= s / hour <= 99 ∧ 0 <= s mod hour / minute <= 99 ∧ 0 <= s mod minute / second <= 99
  ∧ s / second = s / hour * 3600 + s mod hour / minute * 60 + s mod minute / second.
Proof.
  unfold day_ns, hour, minute, second. intros H. repeat split; Z.div_mod_to_equations; lia.
Qed.

Lemma format_clock_inj_app t u r s :
  format_clock t +:+ r = format_clock u +:+ s →
  ns_of_day t / second = ns_of_day u / second ∧ r = s.
Proof.
  unfold format_clock.
  pose proof (clock_parts _ (ns_of_day_bounds t)) as (Ht1 & Ht2 & Ht3 & ->).
  pose proof (clock_parts _ (ns_of_day_bounds u)) as (Hu1 & Hu2 & Hu3 & ->).
  rewrite !sapp_assoc. intros [<- H]%two_digits_inj_app; [|done|done].
  apply sapp_inv_head, two_digits_inj_app in H as [<- H]; [|done|done].
  apply sapp_inv_head, two_digits_inj_app in H as [<- H]; done.
Qed.

(** Trimming zeros on the right loses nothing when the width is known. *)
Lemma trim_zeros_spec s :
  ∃ k, s = trim_right_by (Ascii.eqb "0") s +:+ zeros k.
Proof.
  unfold trim_right_by, zeros.
  assert (∀ l : list ascii, ∃ k, l = repeat "0"%char k ++ drop_while (Ascii.eqb "0") l) as Hd.
  { induction l as [|c l [k IH]]; [by exists 0%nat|]. cbn [drop_while].
    destruct (Ascii.eqb_spec "0" c) as [<-|]; [|by exists 0%nat].
    exists (S k). cbn [repeat app]. by rewrite <-IH. }
  destruct (Hd (reverse (to_bytes s))) as [k Hk]. exists k. as_bytes.
  rewrite <-(reverse_involutive (to_bytes s)) at 1. rewrite Hk at 1.
  rewrite reverse_app. f_equal. clear. induction k as [|k IH]; [done|].
  simpl. rewrite reverse_cons, IH. symmetry. apply repeat_cons.
Qed.

Lemma trim_zeros_inj a b :
  String.length a = String.length b →
  trim_right_by (Ascii.eqb "0") a = trim_right_by (Ascii.eqb "0") b → a = b.
Proof.
  destruct (trim_zeros_spec a) as [k Ha], (trim_zeros_spec b) as [j Hb].
  intros Hl H. rewrite Ha, Hb in Hl |- *. rewrite H in *.
  rewrite !length_sapp, !length_zeros in Hl. assert (k = j) as -> by lia. done.
Qed.

Lemma micros_bounds t : 0 <= micros t < 1000000.
Proof. unfold micros, second. split; Z.div_mod_to_equations; lia. Qed.

Lemma format_frac_inj t u : format_frac t = format_frac u → micros t = micros u.
Proof.
  unfold format_frac. pose proof (micros_bounds t). pose proof (micros_bounds u).
  destruct (Z.eqb_spec (micros t) 0) as [->|], (Z.eqb_spec (micros u) 0) as [->|]; try done.
  intros Heq%sapp_inv_head%trim_zeros_inj.
  - apply (inj (pad0 6)) in Heq. lia.
  - rewrite !length_pad0; [done| |]; change (10 ^ N.of_nat 6)%N with 1000000%N; lia.
Qed.

Lemma instant_parts t u :
  t / day_ns = u / day_ns → ns_of_day t / second = ns_of_day u / second →
  micros t = micros u → t / 1000 = u / 1000.
Proof.
  unfold ns_of_day, micros, day_ns, hour, minute, second. intros H1 H2 H3.
  Z.div_mod_to_equations; lia.
Qed.
