(* ===== verification/GoTimeParse.v ===== *)
(** * time.Parse for the layouts the engine reads

    A layout is the sequence of chunks Go's time package splits it into. *)
From S2P Require Import Prelude GoStrings GoNum GoTime.
Open Scope Z_scope.

(** ** Definitions *)

Inductive chunk : Type :=
| Lit (s : string)      (* literal text *)
| Year4 | Month2 | Day2 (* 2006 01 02 *)
| Hour12                (* 15 *)
| Min2 | Sec2           (* 04 05 *)
| Frac                  (* .999999 *)
| ZoneHour              (* -07 *)
| ZoneColon             (* -07:00 *)
| ZoneZ.                (* Z07:00 *)

(** Literal text: a space stands for any run of spaces. *)
Fixpoint skip_text (fuel : nat) (p v : string) : option string :=
  match fuel with
  | O => None
  | S n =>
      match p with
      | EmptyString => Some v
      | String c p' =>
          if Ascii.eqb c " " then
            match v with
            | String d _ =>
                if Ascii.eqb d " "
                then skip_text n (trim_left_by (Ascii.eqb " ") p) (trim_left_by (Ascii.eqb " ") v) else None
            | EmptyString => skip_text n (trim_left_by (Ascii.eqb " ") p) EmptyString
            end
          else match v with
               | String d v' => if Ascii.eqb d c then skip_text n p' v' else None
               | EmptyString => None
               end
      end
  end.

Definition digit2 (c d : ascii) : option Z :=
  if is_digit c && is_digit d then Some (10 * Z.of_N (digit_val c) + Z.of_N (digit_val d)) else None.

(** Two digits (getnum, fixed). *)
Definition num2 (v : string) : option (Z * string) :=
  match v with
  | String c (String d t) => n ← digit2 c d; Some (n, t)
  | _ => None
  end.
(** One or two digits (getnum, not fixed). *)
Definition num12 (v : string) : option (Z * string) :=
  match num2 v with
  | Some r => Some r
  | None =>
      match v with
      | String c t => if is_digit c then Some (Z.of_N (digit_val c), t) else None
      | EmptyString => None
      end
  end.
Definition in_range_num (lo hi : Z) (r : option (Z * string)) : option (Z * string) :=
  '(n, t) ← r; if (lo <=? n) && (n <=? hi) then Some (n, t) else None.

Definition num4 (v : string) : option (Z * string) :=
  '(a, t) ← num2 v; '(b, u) ← num2 t; Some (100 * a + b, u).

(** The digits at the front, and the rest. *)
Fixpoint span_digits (v : string) : string * string :=
  match v with
  | String c t => if is_digit c then let '(d, r) := span_digits t in (String c d, r) else (EmptyString, v)
  | EmptyString => (EmptyString, EmptyString)
  end.

(** A fraction of a second: nanoseconds from at most nine digits. *)
Definition frac_ns (digits : string) : Z :=
  let d := substring 0 9 digits in
  Z.of_N (default 0%N (digits_go 0 d)) * 10 ^ (9 - Z.of_nat (String.length d)).
Definition opt_frac (v : string) : Z * string :=
  match v with
  | String c (String d t) =>
      if (Ascii.eqb c "." || Ascii.eqb c ",") && is_digit d
      then let '(ds, r) := span_digits (String d t) in (frac_ns ds, r) else (0, v)
  | _ => (0, v)
  end.

(** Offsets in seconds east of UTC. *)
Definition zone_sign (c : ascii) : option Z :=
  if Ascii.eqb c "+" then Some 1 else if Ascii.eqb c "-" then Some (-1) else None.
Definition zone_hour (v : string) : option (Z * string) :=
  match v with
  | String c t => s ← zone_sign c; '(h, r) ← in_range_num 0 24 (num2 t); Some (s * h * 3600, r)
  | EmptyString => None
  end.
Definition zone_colon (v : string) : option (Z * string) :=
  match v with
  | String c t =>
      s ← zone_sign c;
      '(h, r) ← in_range_num 0 24 (num2 t);
      match r with
      | String d u => if Ascii.eqb d ":" then '(m, r') ← in_range_num 0 60 (num2 u); Some (s * (h * 60 + m) * 60, r') else None
      | EmptyString => None
      end
  | EmptyString => None
  end.

Record fields : Type := mkFields { fy : Z; fmo : Z; fd : Z; fh : Z; fmi : Z; fs : Z; fns : Z; foff : Z }.

Fixpoint parse_chunks (cs : list chunk) (f : fields) (v : string) : option (fields * string) :=
  match cs with
  | [] => Some (f, v)
  | c :: cs' =>
      '(f', v') ←
        match c with
        | Lit s => v' ← skip_text (S (String.length s + String.length v)) s v; Some (f, v')
        | Year4 => '(n, r) ← num4 v; Some (mkFields n (fmo f) (fd f) (fh f) (fmi f) (fs f) (fns f) (foff f), r)
        | Month2 => '(n, r) ← in_range_num 1 12 (num2 v); Some (mkFields (fy f) n (fd f) (fh f) (fmi f) (fs f) (fns f) (foff f), r)
        | Day2 => '(n, r) ← num2 v; Some (mkFields (fy f) (fmo f) n (fh f) (fmi f) (fs f) (fns f) (foff f), r)
        | Hour12 => '(n, r) ← in_range_num 0 23 (num12 v); Some (mkFields (fy f) (fmo f) (fd f) n (fmi f) (fs f) (fns f) (foff f), r)
        | Min2 => '(n, r) ← in_range_num 0 59 (num2 v); Some (mkFields (fy f) (fmo f) (fd f) (fh f) n (fs f) (fns f) (foff f), r)
        | Sec2 =>
            '(n, r) ← in_range_num 0 59 (num2 v);
            let '(ns, r) := match cs' with Frac :: _ => (fns f, r) | _ => opt_frac r end in
            Some (mkFields (fy f) (fmo f) (fd f) (fh f) (fmi f) n ns (foff f), r)
        | Frac => let '(ns, r) := opt_frac v in Some (mkFields (fy f) (fmo f) (fd f) (fh f) (fmi f) (fs f) ns (foff f), r)
        | ZoneHour => '(o, r) ← zone_hour v; Some (mkFields (fy f) (fmo f) (fd f) (fh f) (fmi f) (fs f) (fns f) o, r)
        | ZoneColon => '(o, r) ← zone_colon v; Some (mkFields (fy f) (fmo f) (fd f) (fh f) (fmi f) (fs f) (fns f) o, r)
        | ZoneZ =>
            match v with
            | String "Z" r => Some (f, r)
            | _ => '(o, r) ← zone_colon v; Some (mkFields (fy f) (fmo f) (fd f) (fh f) (fmi f) (fs f) (fns f) o, r)
            end
        end;
      parse_chunks cs' f' v'
  end.

Definition leap_year (y : Z) : bool := (y mod 4 =? 0) && (negb (y mod 100 =? 0) || (y mod 400 =? 0)).
Definition days_in (y m : Z) : Z :=
  if m =? 2 then if leap_year y then 29 else 28
  else if (m =? 4) || (m =? 6) || (m =? 9) || (m =? 11) then 30 else 31.

(** time.Parse: the whole value, and a day that exists. *)
Definition time_parse (layout : list chunk) (v : string) : option time :=
  '(f, rest) ← parse_chunks layout (mkFields 0 1 1 0 0 0 0 0) v;
  if negb (String.eqb rest EmptyString) || (fd f <? 1) || (days_in (fy f) (fmo f) <? fd f) then None
  else Some (days_of_civil (fy f) (fmo f) (fd f) * day_ns + fh f * hour + fmi f * minute
             + (fs f - foff f) * second + fns f).

Definition rfc3339nano : list chunk :=
  [Year4; Lit "-"; Month2; Lit "-"; Day2; Lit "T"; Hour12; Lit ":"; Min2; Lit ":"; Sec2; Frac; ZoneZ].

(** t.Sub(u): a Duration, saturating at 64 bits. *)
Definition time_sub (t u : time) : Z := Z.max min_int64 (Z.min max_int64 (t - u)).

(** ** Examples *)

Example parse_docker_time :
  time_parse rfc3339nano "2024-02-29T23:59:60.5Z" = None
  ∧ time_parse rfc3339nano "2024-02-29T23:59:59.5Z" = Some 1709251199500000000
  ∧ time_parse rfc3339nano "1970-01-01T01:00:00+01:00" = Some 0
  ∧ time_parse rfc3339nano "2023-02-29T00:00:00Z" = None.
Proof. vm_compute. done. Qed.

(** ** What is printed is read back *)

Lemma leap_day_year e :
  0 <= e < 146097 →
  let c := Z.min 3 (e / 36524) in
  let e1 := e - c * 36524 in
  let q := e1 / 1461 in
  let e2 := e1 - q * 1461 in
  let k := Z.min 3 (e2 / 365) in
  e2 - k * 365 = 365 → k = 3 ∧ 0 <= q <= 24 ∧ (q = 24 → c = 3) ∧ 0 <= c <= 3.
Proof.
  intros He. cbv zeta. destruct (century_step e He) as (c & e1 & Hc & He1 & Hcb & Heb). rewrite Hc, He1.
  destruct (cycle_step e1 Heb) as (q & e2 & Hq & He2 & Hqb & He2b). rewrite Hq, He2.
  destruct (year_step e2 He2b) as (k & dy & Hk & Hdy & Hkb & Hdyb). rewrite Hk, Hdy. intros ->.
  assert (c < 3 → e1 <= 36523) by (clear - Hc He1 He; intros; Z.div_mod_to_equations; lia).
  assert (k = 3) as -> by (clear - Hk Hdy He2b; Z.div_mod_to_equations; lia). lia.
Qed.

Lemma leap_year_close era c q : 0 <= c <= 3 → 0 <= q <= 24 → (q = 24 → c = 3) →
  leap_year (era * 400 + (100 * c + 4 * q + 3) + 1) = true.
Proof.
  intros Hc Hq Hl. unfold leap_year.
  assert ((era * 400 + (100 * c + 4 * q + 3) + 1) mod 4 = 0) as ->
    by (replace (era * 400 + (100 * c + 4 * q + 3) + 1) with ((100 * era + 25 * c + q + 1) * 4) by lia; by rewrite Z.mod_mul).
  cbn [Z.eqb andb].
  destruct (decide (q = 24)) as [->|Hne].
  - rewrite (Hl eq_refl). replace (era * 400 + (100 * 3 + 4 * 24 + 3) + 1) with ((era + 1) * 400) by lia.
    by rewrite Z.mod_mul, orb_true_r.
  - apply orb_true_iff. left. apply negb_true_iff, Z.eqb_neq.
    replace (era * 400 + (100 * c + 4 * q + 3) + 1) with ((4 * q + 4) + (4 * era + c) * 100) by lia.
    rewrite Z.mod_add, Z.mod_small by lia. lia.
Qed.

(** A day's date exists. *)
Lemma civil_day_exists z y m d : civil_of_days z = (y, m, d) → d <= days_in y m.
Proof.
  unfold civil_of_days. intros [= <- <- <-].
  pose proof (era_offset (z + 719468)) as He. destruct (era_split _ He) as (Hd & Hy & _). pose proof (leap_day_year _ He) as Hl. cbv zeta in Hl.
  set (dy := _ - Z.min 3 (_ / 365) * 365) in *. set (k := Z.min 3 (_ / 365)) in *. set (q := _ / 1461) in *. set (c := Z.min 3 (_ / 36524)) in *.
  clearbody dy k q c. set (era := (z + 719468) / 146097) in *. clearbody era. clear He.
  pose proof (month_split _ Hd) as [Hm _]. remember ((5 * dy + 2) / 153) as mp eqn:Hmp.
  assert (153 * mp <= 5 * dy + 2 < 153 * mp + 153) as Hr by (subst mp; Z.div_mod_to_equations; lia). clear Hmp.
  assert (mp = 0 ∨ mp = 1 ∨ mp = 2 ∨ mp = 3 ∨ mp = 4 ∨ mp = 5 ∨ mp = 6 ∨ mp = 7 ∨ mp = 8 ∨ mp = 9 ∨ mp = 10 ∨ mp = 11) as Hcases by lia.
  unfold days_in. destruct (decide (mp = 11)) as [->|Hne].
  2: { assert (∀ n, mp = n → dy - (153 * mp + 2) / 5 + 1 = dy - (153 * n + 2) / 5 + 1) as Hk by (by intros n ->).
       destruct Hcases as [E|[E|[E|[E|[E|[E|[E|[E|[E|[E|[E|E]]]]]]]]]]]; try done; rewrite (Hk _ E), E; rewrite E in Hr;
         destruct (leap_year _); match goal with |- _ - ?a / 5 + 1 <= ?b => let v := eval vm_compute in (a / 5) in
           let w := eval vm_compute in b in change (dy - v + 1 <= w) end; clear -Hr; lia. }
  change (11 <? 10) with false. change (11 - 9) with 2. change (2 <=? 2) with true. cbn [Z.eqb Pos.eqb]. change ((153 * 11 + 2) / 5) with 337. destruct (decide (dy = 365)) as [Hleap|Hne]; [|destruct (leap_year _); lia].
  destruct (Hl Hleap) as (-> & Hq & Hqc & Hc). rewrite leap_year_close by done. lia.
Qed.

Lemma num2_digits s n r : String.length s = 2%nat → digits_go 0 s = Some n → num2 (s +:+ r) = Some (Z.of_N n, r).
Proof.
  destruct s as [|c [|d [|e s]]]; try done. intros _ H. pose proof (digits_go_all _ _ _ H) as Hall. unfold all_digits in Hall. cbn -[is_digit] in Hall, H.
  apply andb_true_iff in Hall as [Hc Hd]. apply andb_true_iff in Hd as [Hd _]. rewrite Hc, Hd in H. injection H as <-.
  cbn [String.append]. unfold num2, digit2. rewrite Hc, Hd. cbn -[Z.mul Z.add Z.of_N]. f_equal. f_equal. lia.
Qed.
Lemma num2_two z r : 0 <= z <= 99 → num2 (two_digits z +:+ r) = Some (z, r).
Proof.
  intros Hz. rewrite (num2_digits _ (Z.to_N z)); [by rewrite Z2N.id by lia|by apply two_digits_length|apply digits_go_pad0].
Qed.
Lemma num4_year y r : 0 <= y <= 9999 → num4 (pad0_int 4 y +:+ r) = Some (y, r).
Proof.
  intros Hy. unfold pad0_int. rewrite (proj2 (Z.ltb_ge _ _)) by lia.
  assert (String.length (pad0 4 (Z.to_N y)) = 4%nat) as Hl by (apply length_pad0; change (10 ^ N.of_nat 4)%N with 10000%N; lia).
  pose proof (digits_go_pad0 4 (Z.to_N y)) as Hd. pose proof (all_digits_pad0 4 (Z.to_N y)) as Ha.
  destruct (pad0 4 (Z.to_N y)) as [|a [|b [|c [|d [|e s]]]]]; try done. unfold all_digits in Ha. cbn -[is_digit] in Ha, Hd.
  apply andb_true_iff in Ha as [H1 Ha]. apply andb_true_iff in Ha as [H2 Ha]. apply andb_true_iff in Ha as [H3 Ha]. apply andb_true_iff in Ha as [H4 _].
  rewrite H1, H2, H3, H4 in Hd. injection Hd as Hd. unfold num4, num2, digit2. cbn -[is_digit Z.mul Z.add Z.of_N]. rewrite H1, H2.
  cbn -[is_digit Z.mul Z.add Z.of_N]. rewrite H3, H4. cbn -[Z.mul Z.add Z.of_N]. f_equal. f_equal. lia.
Qed.

(** A fraction of the second as the RFC 3339 layout with nanoseconds prints it. *)
Definition format_nanos (t : time) : string :=
  let ns := Z.to_N (t mod second) in
  if (ns =? 0)%N then EmptyString else "." +:+ trim_right_by (Ascii.eqb "0") (pad0 9 ns).

Lemma digits_go_app_zeros k acc s n : digits_go acc (s +:+ zeros k) = Some n →
  ∃ m, digits_go acc s = Some m ∧ n = (m * 10 ^ N.of_nat k)%N.
Proof.
  revert acc. induction s as [|c s IH]; intros acc; cbn [String.append digits_go].
  - intros H. exists acc. split; [done|]. revert acc H. induction k as [|k IH]; intros acc H; [injection H as <-; by rewrite N.mul_1_r|].
    change (zeros (S k)) with (String "0" (zeros k)) in H. cbn in H. apply IH in H. rewrite Nat2N.inj_succ, N.pow_succ_r'. subst n.
    change (digit_val "0") with 0%N. lia.
  - destruct (is_digit c); [apply IH|done].
Qed.

Lemma span_digits_app s c r : all_digits s = true → is_digit c = false → span_digits (s +:+ String c r) = (s, String c r).
Proof.
  intros Hs Hc. induction s as [|d s IH]; cbn; [by rewrite Hc|]. unfold all_digits in Hs. cbn -[is_digit] in Hs. apply andb_true_iff in Hs as [Hd Hs].
  by rewrite Hd, IH.
Qed.

Lemma substring_short n s : (String.length s <= n)%nat → substring 0 n s = s.
Proof. revert n. induction s as [|c s IH]; intros [|n] H; cbn in *; try done; [lia|]. by rewrite IH by lia. Qed.

Lemma opt_frac_nanos t c r : is_digit c = false → c ≠ "."%char → c ≠ ","%char →
  opt_frac (format_nanos t +:+ String c r) = (t mod second, String c r).
Proof.
  intros Hc Hdot Hcomma. assert (0 <= t mod second < second) as Hb by (by apply Z.mod_pos_bound). unfold format_nanos.
  destruct (N.eqb_spec (Z.to_N (t mod second)) 0) as [H0|H0].
  - cbn [String.append]. replace (t mod second) with 0 by lia. unfold opt_frac. destruct r as [|d r]; [done|].
    by rewrite (proj2 (Ascii.eqb_neq c ".")), (proj2 (Ascii.eqb_neq c ",")).
  - set (p := pad0 9 (Z.to_N (t mod second))). destruct (trim_zeros_spec p) as [k Hk]. set (d := trim_right_by _ p) in *.
    assert (String.length p = 9%nat) as Hl by (apply length_pad0; change (10 ^ N.of_nat 9)%N with 1000000000%N; unfold second in *; lia).
    pose proof (all_digits_pad0 9 (Z.to_N (t mod second))) as Ha. pose proof (digits_go_pad0 9 (Z.to_N (t mod second))) as Hg. fold p in Ha, Hg.
    rewrite Hk in Hl, Ha, Hg. rewrite length_sapp, length_zeros in Hl. rewrite all_digits_app in Ha. apply andb_true_iff in Ha as [Ha _].
    apply digits_go_app_zeros in Hg as (m & Hm & Hn). cbn [String.append].
    assert (opt_frac (String "." (d +:+ String c r)) = let '(ds, r) := span_digits (d +:+ String c r) in (frac_ns ds, r)) as ->.
    { clearbody d. destruct d as [|e d']; [cbn in Hm; injection Hm as <-; rewrite N.mul_0_l in Hn; done|].
      unfold all_digits in Ha. cbn -[is_digit] in Ha. apply andb_true_iff in Ha as [Ha _].
      cbn [opt_frac String.append]. rewrite Ha. done. }
    rewrite span_digits_app by done. unfold frac_ns. rewrite substring_short by lia. rewrite Hm. f_equal.
    replace (9 - Z.of_nat (String.length d)) with (Z.of_nat k) by lia.
    apply (f_equal Z.of_N) in Hn. rewrite Z2N.id, N2Z.inj_mul, N2Z.inj_pow in Hn by lia. rewrite Hn. cbn [default]. f_equal. f_equal. lia.
Qed.

(** A time as RFC 3339 with nanoseconds prints it, in UTC. *)
Definition format_rfc3339nano (t : time) : string := format_date t +:+ "T" +:+ format_clock t +:+ format_nanos t +:+ "Z".

Lemma parse_lit c r : c ≠ " "%char →
  skip_text (S (String.length (String c "") + String.length (String c "" +:+ r))) (String c "") (String c "" +:+ r) = Some r.
Proof. intros Hc. cbn. rewrite (proj2 (Ascii.eqb_neq c " ")) by done. by rewrite Ascii.eqb_refl. Qed.
Lemma num12_two z r : 0 <= z <= 99 → num12 (two_digits z +:+ r) = Some (z, r).
Proof. intros Hz. unfold num12. by rewrite num2_two. Qed.

Lemma in_range_pass lo hi n (t : string) : lo <= n <= hi → in_range_num lo hi (Some (n, t)) = Some (n, t).
Proof. intros H. cbn. by rewrite (proj2 (Z.leb_le lo n)), (proj2 (Z.leb_le n hi)) by lia. Qed.

Lemma clock_ranges s : 0 <= s < day_ns → 0 <= s / hour <= 23 ∧ 0 <= s mod hour / minute <= 59 ∧ 0 <= s mod minute / second <= 59.
Proof. unfold day_ns, hour, minute, second. intros H. repeat split; Z.div_mod_to_equations; lia. Qed.

Lemma instant_sum t : t = t / day_ns * day_ns + ns_of_day t / hour * hour + ns_of_day t mod hour / minute * minute
                          + (ns_of_day t mod minute / second - 0) * second + t mod second.
Proof.
  unfold ns_of_day. set (s := t mod day_ns).
  assert (s mod hour mod minute = s mod minute) as E1 by (apply Z.mod_mod_divide; by exists 60).
  assert (s mod minute mod second = t mod second) as E2.
  { rewrite Z.mod_mod_divide by (by exists 60). apply Z.mod_mod_divide. by exists 86400. }
  pose proof (Z.div_mod t day_ns ltac:(done)). pose proof (Z.div_mod s hour ltac:(done)).
  pose proof (Z.div_mod (s mod hour) minute ltac:(done)). pose proof (Z.div_mod (s mod minute) second ltac:(done)). fold s in H. lia.
Qed.

(** A time that was printed reads back as itself, to the nanosecond. *)
Lemma time_parse_format t : valid_year t → time_parse rfc3339nano (format_rfc3339nano t) = Some t.
Proof.
  unfold valid_year, time_year, format_rfc3339nano, format_date, format_clock, time_parse, rfc3339nano.
  destruct (civil_of_days (t / day_ns)) as [[y m] d] eqn:Ht. intros Hy. pose proof (civil_bounds _ _ _ _ Ht) as [Hm Hd].
  pose proof (civil_day_exists _ _ _ _ Ht) as Hex. apply days_of_civil_of_days in Ht.
  pose proof (clock_ranges _ (ns_of_day_bounds t)) as (H1 & H2 & H3). rewrite !sapp_assoc. cbn [parse_chunks].
  assert (opt_frac (format_nanos t +:+ "Z") = (t mod second, "Z"%string)) as Hfrac by (by apply opt_frac_nanos).
  unfold mbind, option_bind. rewrite num4_year by done. cbn [fy fmo fd fh fmi fs fns foff]. rewrite parse_lit by done.
  rewrite num2_two, in_range_pass by lia. cbn [fy fmo fd fh fmi fs fns foff]. rewrite parse_lit by done.
  rewrite num2_two by lia. cbn [fy fmo fd fh fmi fs fns foff]. rewrite parse_lit by done.
  rewrite num12_two, in_range_pass by lia. cbn [fy fmo fd fh fmi fs fns foff]. rewrite parse_lit by done.
  rewrite num2_two, in_range_pass by lia. cbn [fy fmo fd fh fmi fs fns foff]. rewrite parse_lit by done.
  rewrite num2_two, in_range_pass by lia. cbn [fy fmo fd fh fmi fs fns foff]. rewrite Hfrac. cbn [fy fmo fd fh fmi fs fns foff String.eqb negb orb].
  rewrite (proj2 (Z.ltb_ge d 1)), (proj2 (Z.ltb_ge (days_in y m) d)), Ht by lia. cbn [orb]. f_equal. symmetry. apply instant_sum.
Qed.
