(* ===== verification/GoDuration.v ===== *)
(** * Go's time.ParseDuration *)
From S2P Require Import Prelude GoStrings GoNum GoTime.
Open Scope string_scope.

(** ** Durations: time.ParseDuration

    Digits, a fraction and a unit, repeated; the fraction is cut to whole
    nanoseconds. *)

Definition duration_units : list (string * Z) :=
  [("ns", 1%Z); ("us", 1000%Z); ("ms", 1000000%Z); ("s", second); ("m", minute); ("h", hour);
   (of_bytes ["194"; "181"; "s"]%char, 1000%Z); (of_bytes ["206"; "188"; "s"]%char, 1000%Z)].
Definition unit_char (c : ascii) : bool := negb (is_digit c || Ascii.eqb c ".").
Fixpoint span_while (f : ascii → bool) (s : string) : string * string :=
  match s with
  | String c t => if f c then let '(a, b) := span_while f t in (String c a, b) else ("", s)
  | EmptyString => ("", "")
  end.
Definition digits_value (s : string) : Z := Z.of_N (default 0%N (digits_go 0 s)).

Fixpoint duration_go (fuel : nat) (acc : Z) (s : string) : option Z :=
  match fuel with
  | O => None
  | S fuel =>
      if String.eqb s "" then Some acc else
      let '(whole, r) := span_while is_digit s in
      let '(frac, r) := match r with
                        | String "."%char t => let '(d, u) := span_while is_digit t in (Some d, u)
                        | _ => (None, r)
                        end in
      let '(u, rest) := span_while unit_char r in
      if String.eqb whole "" && match frac with Some d => String.eqb d "" | None => true end then None else
      match List.find (λ kv, String.eqb (fst kv) u) duration_units with
      | None => None
      | Some (_, unit) =>
          let f := default "" frac in
          let v := (digits_value whole * unit + digits_value f * unit / 10 ^ Z.of_nat (String.length f))%Z in
          if (max_int64 <? acc + v)%Z then None else duration_go fuel (acc + v) rest
      end
  end.

Definition ParseDuration (s : string) : option Z :=
  let '(neg, r) := match s with
                   | String c t => if Ascii.eqb c "-" then (true, t) else if Ascii.eqb c "+" then (false, t) else (false, s)
                   | EmptyString => (false, s)
                   end in
  if String.eqb r "0" then Some 0%Z else if String.eqb r "" then None else
  d ← duration_go (S (String.length r)) 0 r; Some (if neg : bool then (- d)%Z else d).
