(* ===== verification/GoSort.v ===== *)
(** * Go's sort package: sort.Slice, sort.SliceStable and sort.Search *)
From S2P Require Import Prelude.

(** ** Definitions *)

(** Insertion of an element behind every element it is not less than. *)
Fixpoint insert_sorted {A} (less : A → A → bool) (x : A) (l : list A) : list A :=
  match l with
  | [] => [x]
  | y :: t => if less x y then x :: l else y :: insert_sorted less x t
  end.

(** sort.SliceStable. sort.Slice promises no order between elements neither of
    which is less than the other; the engine's keys are unique where it uses it,
    so the stable order is the only one. *)
Definition sort_slice {A} (less : A → A → bool) (l : list A) : list A :=
  fold_left (λ acc x, insert_sorted less x acc) l [].

(** sort.Search's bisection between [i] and [j]; [fuel] bounds the halvings. *)
Fixpoint search_go (fuel : nat) (f : nat → bool) (i j : nat) : nat :=
  match fuel with
  | O => i
  | S n =>
      if (i <? j)%nat then
        let h := ((i + j) / 2)%nat in
        if f h then search_go n f i h else search_go n f (S h) j
      else i
  end.
Definition sort_search (n : nat) (f : nat → bool) : nat := search_go n f 0 n.

(** ** Sorting *)

Section sort.
Context {A : Type} (less : A → A → bool).

Lemma insert_sorted_perm x l : insert_sorted less x l ≡ₚ x :: l.
Proof.
  induction l as [|y l IH]; simpl; [done|]. destruct (less x y); [done|].
  rewrite IH. apply Permutation_swap.
Qed.

Lemma sort_slice_perm l : sort_slice less l ≡ₚ l.
Proof.
  unfold sort_slice. assert (∀ acc, fold_left (λ acc x, insert_sorted less x acc) l acc ≡ₚ acc ++ l) as H.
  { induction l as [|x l IH]; intros acc; simpl; [by rewrite app_nil_r|].
    rewrite IH, insert_sorted_perm. apply Permutation_middle. }
  apply (H []).
Qed.

(** The order the comparison stands for: nothing later is less. *)
Definition le_of (x y : A) : Prop := less y x = false.

Context (Htrans : ∀ x y z, less y x = false → less z y = false → less z x = false).
Context (Hasym : ∀ x y, less x y = true → less y x = false).

Lemma insert_sorted_sorted x l :
  StronglySorted le_of l → StronglySorted le_of (insert_sorted less x l).
Proof.
  induction 1 as [|y l Hs IH Hf]; simpl; [by repeat constructor|].
  destruct (less x y) eqn:Hxy.
  - constructor; [by constructor|]. constructor; [by apply Hasym|].
    rewrite Forall_forall in Hf |- *. intros z Hz. eapply Htrans; [by apply Hasym|].
    by apply Hf.
  - constructor; [done|]. rewrite insert_sorted_perm. by constructor.
Qed.

Lemma sort_slice_sorted l : StronglySorted le_of (sort_slice less l).
Proof.
  unfold sort_slice. assert (∀ acc, StronglySorted le_of acc →
    StronglySorted le_of (fold_left (λ acc x, insert_sorted less x acc) l acc)) as H.
  { induction l as [|x l IH]; intros acc Ha; simpl; [done|].
    by apply IH, insert_sorted_sorted. }
  apply H. constructor.
Qed.

(** A sorted list whose elements are pairwise told apart is left alone. *)
Lemma insert_sorted_last x l : Forall (λ y, less x y = false) l → insert_sorted less x l = l ++ [x].
Proof. induction 1 as [|y l Hy _ IH]; simpl; [done|]. by rewrite Hy, IH. Qed.

Lemma sort_slice_id l : StronglySorted le_of l → sort_slice less l = l.
Proof.
  intros H. unfold sort_slice.
  assert (∀ acc, StronglySorted le_of (acc ++ l) →
    fold_left (λ acc x, insert_sorted less x acc) l acc = acc ++ l) as Hg; [|apply (Hg []), H].
  clear H. induction l as [|x l IH]; intros acc H; simpl; [by rewrite app_nil_r|].
  rewrite insert_sorted_last.
  - rewrite IH; [by rewrite <-app_assoc | by rewrite <-app_assoc].
  - clear IH. induction acc as [|y acc IH]; [done|]. inversion H as [|?? Hs Hf]; subst.
    constructor; [|by apply IH]. rewrite Forall_forall in Hf. apply Hf.
    apply elem_of_app. right. constructor.
Qed.

End sort.

(** Sorting by a key. *)
Section by_key.
Context {A : Type} (key : A → Z).

Definition key_less (x y : A) : bool := (key x <? key y)%Z.

Lemma key_less_trans x y z : key_less y x = false → key_less z y = false → key_less z x = false.
Proof. unfold key_less. rewrite !Z.ltb_ge. lia. Qed.

Lemma key_less_asym x y : key_less x y = true → key_less y x = false.
Proof. unfold key_less. rewrite Z.ltb_lt, Z.ltb_ge. lia. Qed.

Lemma key_sorted l : StronglySorted (λ x y, key x <= key y)%Z (sort_slice key_less l).
Proof.
  pose proof (sort_slice_sorted key_less key_less_trans key_less_asym l) as H.
  induction H as [|x k Hs IH Hf]; constructor; [done|].
  eapply Forall_impl; [done|]. intros y Hy. by apply Z.ltb_ge in Hy.
Qed.

Lemma key_sort_id l :
  StronglySorted (λ x y, key x < key y)%Z l → sort_slice key_less l = l.
Proof.
  intros H. apply sort_slice_id.
  induction H as [|x k Hs IH Hf]; constructor; [done|].
  eapply Forall_impl; [done|]. intros y Hy. apply Z.ltb_ge. simpl in Hy. lia.
Qed.

(** With distinct keys the strictly sorted arrangement is the only one. *)
Lemma key_sort_strict l :
  NoDup (key <$> l) → StronglySorted (λ x y, key x < key y)%Z (sort_slice key_less l).
Proof.
  intros Hn. pose proof (key_sorted l) as H.
  rewrite <-(sort_slice_perm key_less l) in Hn.
  induction H as [|x k Hs IH Hf]; constructor.
  - apply IH. by inversion Hn.
  - rewrite fmap_cons, NoDup_cons in Hn. destruct Hn as [Hx _].
    rewrite Forall_forall in Hf |- *. intros y Hy. specialize (Hf y Hy).
    assert (key x ≠ key y) by (intros He; apply Hx; rewrite He; by apply list_elem_of_fmap_2).
    simpl in *. lia.
Qed.

Lemma StronglySorted_NoDup_Z l : StronglySorted (λ x y, key x < key y)%Z l → NoDup (key <$> l).
Proof.
  induction 1 as [|x l Hs IH Hf]; [constructor|]. rewrite fmap_cons. constructor; [|done].
  intros (y & Hy & Hin)%list_elem_of_fmap. rewrite Forall_forall in Hf.
  specialize (Hf y Hin). simpl in Hf. lia.
Qed.

Lemma strict_sorted_unique l k :
  StronglySorted (λ x y, key x < key y)%Z l → StronglySorted (λ x y, key x < key y)%Z k →
  l ≡ₚ k → l = k.
Proof.
  intros Hl Hk HP. revert k Hk HP. induction Hl as [|x l Hs IH Hf]; intros k Hk HP.
  { by apply Permutation_nil_l in HP. }
  destruct Hk as [|y k Hsk Hfk]; [by apply Permutation_nil_r in HP|].
  rewrite Forall_forall in Hf, Hfk.
  assert (x = y) as <-.
  { assert (x ∈ y :: k) as Hx by (rewrite <-HP; constructor).
    assert (y ∈ x :: l) as Hy by (rewrite HP; constructor).
    apply elem_of_cons in Hx as [|Hx]; [done|]. apply elem_of_cons in Hy as [|Hy]; [done|].
    specialize (Hf _ Hy). specialize (Hfk _ Hx). simpl in *. lia. }
  f_equal. apply IH; [done|]. by apply Permutation_cons_inv in HP.
Qed.

Lemma key_sort_perm l k :
  NoDup (key <$> l) → l ≡ₚ k → sort_slice key_less l = sort_slice key_less k.
Proof.
  intros Hn HP. apply strict_sorted_unique.
  - by apply key_sort_strict.
  - apply key_sort_strict. by rewrite <-HP.
  - by rewrite !sort_slice_perm.
Qed.

End by_key.

(** ** Bisection *)

(** On a predicate that stays true once it is, the bisection finds the first
    index where it is true: [n] is the number of indices where it is false. *)
Lemma search_go_spec fuel f i j m :
  (i <= m <= j)%nat → (j - i <= fuel)%nat →
  (∀ k, (k < m)%nat → f k = false) → (∀ k, (m <= k < j)%nat → f k = true) →
  search_go fuel f i j = m.
Proof.
  revert i j. induction fuel as [|n IH]; intros i j Hm Hf Hlo Hhi; cbn [search_go]; [lia|].
  destruct (Nat.ltb_spec i j); [|lia]. cbv zeta.
  set (h := ((i + j) / 2)%nat).
  assert (i <= h < j)%nat by (unfold h; split; [apply Nat.div_le_lower_bound | apply Nat.Div0.div_lt_upper_bound]; lia).
  destruct (f h) eqn:Hh.
  - apply IH; [|lia|done|]; [|intros k Hk; apply Hhi; lia].
    split; [lia|]. destruct (Nat.lt_ge_cases h m) as [Hlt|]; [|done].
    apply Hlo in Hlt. congruence.
  - apply IH; [|lia|done|done]. split; [|lia].
    destruct (Nat.lt_ge_cases h m) as [|Hge]; [done|].
    rewrite Hhi in Hh by lia. done.
Qed.

Lemma sort_search_spec n f m :
  (m <= n)%nat → (∀ k, (k < m)%nat → f k = false) → (∀ k, (m <= k < n)%nat → f k = true) →
  sort_search n f = m.
Proof. intros Hm Hlo Hhi. apply search_go_spec; [lia..|done|done]. Qed.
