(* ===== verification/Integrity.v ===== *)
(** * The Blackbox: hash chain, Merkle checkpoints and verification

    internal/ledger/integrity.go. Rows, their hash, the Merkle root over a
    range of rows, checkpoint anchors, and the check of a ledger against its
    anchors. Problems are kept as the data each message is made from. *)
From S2P Require Import Prelude GoStrings GoNum Sha256 GoTime GoSort.
Open Scope Z_scope.

(** ** Rows and their hash *)

Record Row : Type := mkRow {
  ID : Z; At : time;
  Actor : string; ActorKind : string; Tool : string; Session : string; Branch : string;
  CommandTag : string; ObjectType : string; ObjectIdentity : string; Statement : string;
  Status : string; Risk : string;
  PrevHash : string; RHash : string; ExtHash : string }.

Definition AnchorFormat : string := "oxyndb-ledger-anchor/1".
Definition MerkleAlgorithm : string := "sha256-merkle-v1".
Definition maxProblems : nat := 25.

(** FormatAt: the UTC text of the timestamp, cut to microseconds. *)
Definition FormatAt (t : time) : string := format_datetime t +:+ format_frac t.

(** The text a row's hash is taken over. *)
Definition row_fields (r : Row) : list string :=
  [PrevHash r; format_int (ID r); FormatAt (At r);
   Actor r; ActorKind r; Tool r; Session r; Branch r; CommandTag r;
   ObjectType r; ObjectIdentity r; Statement r; Status r; Risk r].
Definition row_text (r : Row) : string := Join "|" (row_fields r).
Definition RowHash (r : Row) : string := hex_encode (sha256 (row_text r)).

(** ** Merkle roots *)

Definition leaf_text (rowHash extHash : string) : string :=
  String "000" (rowHash +:+ "|" +:+ extHash).
Definition LeafHash (rowHash extHash : string) : string := sha256 (leaf_text rowHash extHash).

Definition node_text (l r : string) : string := String "001" (l +:+ r).
Definition node_hash (l r : string) : string := sha256 (node_text l r).

(** The inner loop: neighbours combined two by two. *)
Fixpoint combine_pairs (level : list string) : list string :=
  match level with
  | l :: r :: t => node_hash l r :: combine_pairs t
  | _ => []
  end.

(** An odd level gets its last node twice. *)
Definition even_level (level : list string) : list string :=
  if Nat.odd (List.length level) then level ++ [List.last level EmptyString] else level.

Fixpoint merkle_loop (fuel : nat) (level : list string) : list string :=
  match fuel with
  | O => level
  | S n => if (1 <? List.length level)%nat then merkle_loop n (combine_pairs (even_level level))
           else level
  end.

Definition MerkleRoot (leaves : list string) : string :=
  match leaves with
  | [] => EmptyString
  | _ => hex_encode (hd EmptyString (merkle_loop (List.length leaves) leaves))
  end.

Definition row_leaf (r : Row) : string := LeafHash (RowHash r) (ExtHash r).
Definition rootOf (rows : list Row) : string := MerkleRoot (row_leaf <$> rows).

(** ** Anchors *)

Record Anchor : Type := mkAnchor {
  Format : string; Algorithm : string; ABranch : string;
  CheckpointID : Z; FromID : Z; ToID : Z; EntryCount : Z;
  LastRowHash : string; AMerkleRoot : string; PrevRoot : string; CreatedAt : time }.

Inductive build_error : Type :=
| NoRows
| NotAscending (fromID id : Z).

(** The first row whose id is below [fromID] or not above the one before it. *)
Fixpoint bad_id (fromID : Z) (prev : option Z) (rows : list Row) : option Z :=
  match rows with
  | [] => None
  | r :: t =>
      if (ID r <? fromID) || match prev with Some p => ID r <=? p | None => false end
      then Some (ID r)
      else bad_id fromID (Some (ID r)) t
  end.

Definition BuildAnchor (branch : string) (fromID : Z) (prevRoot : string) (rows : list Row)
    (now : time) : outcome build_error Anchor :=
  match last rows with
  | None => Err NoRows
  | Some lst =>
      match bad_id fromID None rows with
      | Some id => Err (NotAscending fromID id)
      | None =>
          Ok (mkAnchor AnchorFormat MerkleAlgorithm branch 0 fromID (ID lst)
                (Z.of_nat (List.length rows)) (RowHash lst) (rootOf rows) prevRoot now)
      end
  end.

Definition AnchorFileName (toID : Z) : string := pad0_int 20 toID +:+ ".json".

(** ** The hash chain *)

Inductive problem : Type :=
| Edited (id : Z)
| LinkBroken (id : Z)
| UnknownFormat (a : Anchor)
| NotContinuing (a p : Anchor)
| AnchorChainBroken (a p : Anchor)
| CountDiffers (a : Anchor) (have : Z)
| RootDiffers (a : Anchor)
| LastRowDiffers (a : Anchor)
| Omitted.

Record chainResult : Type := mkChain {
  chained : Z; legacy : Z; firstBroken : Z; cproblems : list problem }.

Definition row_problems (r : Row) (prev : string) : list problem :=
  (if String.eqb (RowHash r) (RHash r) then [] else [Edited (ID r)])
  ++ (if String.eqb (PrevHash r) prev then [] else [LinkBroken (ID r)]).

Definition chain_step (c : chainResult) (r : Row) (prev : string) : chainResult :=
  let ps := row_problems r prev in
  mkChain (chained c + 1) (legacy c)
    (match ps with [] => firstBroken c | _ => if firstBroken c =? 0 then ID r else firstBroken c end)
    (cproblems c ++ ps).

Fixpoint chain_go (rows : list Row) (prev : string) (c : chainResult) : chainResult :=
  match rows with
  | [] => c
  | r :: t =>
      if String.eqb (RHash r) EmptyString then
        chain_go t prev (mkChain (chained c) (legacy c + 1) (firstBroken c) (cproblems c))
      else chain_go t (RHash r) (chain_step c r prev)
  end.
Definition chainCheck (rows : list Row) (prev : string) : chainResult :=
  chain_go rows prev (mkChain 0 0 0 []).

(** CheckChain: the first problem, if any. *)
Definition CheckChain (pred : option Row) (rows : list Row) : outcome problem unit :=
  let prev := match pred with Some p => RHash p | None => EmptyString end in
  match cproblems (chainCheck rows prev) with
  | p :: _ => Err p
  | [] => Ok tt
  end.

(** ** Verification against the anchors *)

Record Report : Type := mkReport {
  Intact : bool; Rows : Z; ChainedRows : Z; LegacyRows : Z; Checkpoints : Z;
  AnchoredRows : Z; UnanchoredRows : Z; FirstBrokenID : Z;
  Problems : list problem; Notes : list Anchor }.

(** Report.problem: at most [maxProblems] problems, then one marker. *)
Definition add_problem (ps : list problem) (p : problem) : list problem :=
  if (List.length ps <? maxProblems)%nat then ps ++ [p]
  else if (List.length ps =? maxProblems)%nat then ps ++ [Omitted]
  else ps.

(** What the anchor loop has gathered: problems, notes and anchored rows. A
    note is kept as the earliest anchor it is about. *)
Record vstate : Type := mkV { vproblems : list problem; vnotes : list Anchor; vanchored : Z }.

Definition v_problem (v : vstate) (p : problem) : vstate :=
  mkV (add_problem (vproblems v) p) (vnotes v) (vanchored v).

(** How an anchor follows the one before it. *)
Definition link_step (prev : option Anchor) (a : Anchor) (v : vstate) : vstate :=
  match prev with
  | Some p =>
      let v := if FromID a =? wrap64 (ToID p + 1) then v else v_problem v (NotContinuing a p) in
      if String.eqb (PrevRoot a) (AMerkleRoot p) then v else v_problem v (AnchorChainBroken a p)
  | None =>
      if String.eqb (PrevRoot a) EmptyString then v
      else mkV (vproblems v) (vnotes v ++ [a]) (vanchored v)
  end.

Definition row_at (rows : list Row) (f : Row → bool) (k : nat) : bool :=
  match rows !! k with Some r => f r | None => false end.
Definition search_rows (rows : list Row) (f : Row → bool) : nat :=
  sort_search (List.length rows) (row_at rows f).

(** rows[lo:hi], which panics when [hi < lo]. *)
Definition slice (rows : list Row) (lo hi : nat) : outcome Empty_set (list Row) :=
  if (hi <? lo)%nat then Panic "slice bounds out of range"
  else Ok (take (hi - lo) (drop lo rows)).

(** One pass of the loop over the anchors. *)
Definition anchor_step (rows : list Row) (prev : option Anchor) (a : Anchor) (v : vstate)
    : outcome Empty_set vstate :=
  if negb (String.eqb (Format a) AnchorFormat) then Ok (v_problem v (UnknownFormat a))
  else
    let v := link_step prev a v in
    let lo := search_rows rows (λ r, FromID a <=? ID r) in
    let hi := search_rows rows (λ r, ToID a <? ID r) in
    rng ← slice rows lo hi;
    let n := Z.of_nat (List.length rng) in
    let v := mkV (vproblems v) (vnotes v) (vanchored v + n) in
    if negb (n =? EntryCount a) then Ok (v_problem v (CountDiffers a n))
    else if negb (String.eqb (rootOf rng) (AMerkleRoot a)) then Ok (v_problem v (RootDiffers a))
    else match last rng with
         | None => Panic "index out of range"
         | Some l =>
             if String.eqb (RowHash l) (LastRowHash a) then Ok v
             else Ok (v_problem v (LastRowDiffers a))
         end.

Fixpoint anchor_loop (rows : list Row) (prev : option Anchor) (anchors : list Anchor) (v : vstate)
    : outcome Empty_set vstate :=
  match anchors with
  | [] => Ok v
  | a :: t => v' ← anchor_step rows prev a v; anchor_loop rows (Some a) t v'
  end.

Definition unanchored (rows : list Row) (anchors : list Anchor) : Z :=
  match head anchors, last anchors with
  | Some f, Some l =>
      Z.of_nat (List.length (filter (λ r, (ID r <? FromID f) || (ToID l <? ID r)) rows))
  | _, _ => Z.of_nat (List.length rows)
  end.

Definition Verify (rows : list Row) (anchors : list Anchor) : outcome Empty_set Report :=
  let rows := sort_slice (key_less ID) rows in
  let c := chainCheck rows EmptyString in
  let anchors := sort_slice (key_less ToID) anchors in
  v ← anchor_loop rows None anchors (mkV (fold_left add_problem (cproblems c) []) [] 0);
  Ok (mkReport (match vproblems v with [] => true | _ => false end)
        (Z.of_nat (List.length rows)) (chained c) (legacy c) (Z.of_nat (List.length anchors))
        (vanchored v) (unanchored rows anchors) (firstBroken c) (vproblems v) (vnotes v)).

(** ** What hashing commits to *)

(** Rows with the same hashed contents: every column but the two stored hashes,
    the time cut to microseconds. *)
Definition same_contents (r s : Row) : Prop :=
  ID r = ID s ∧ At r / 1000 = At s / 1000 ∧ Actor r = Actor s ∧ ActorKind r = ActorKind s
  ∧ Tool r = Tool s ∧ Session r = Session s ∧ Branch r = Branch s ∧ CommandTag r = CommandTag s
  ∧ ObjectType r = ObjectType s ∧ ObjectIdentity r = ObjectIdentity s
  ∧ Statement r = Statement s ∧ Status r = Status s ∧ Risk r = Risk s ∧ PrevHash r = PrevHash s.

(** No column but the statement holds the separator, and the timestamp is one RFC 3339 can
    carry. *)
Definition plain_row (r : Row) : Prop :=
  valid_year (At r) ∧
  Forall (λ w, has_byte "|" w = false)
    [PrevHash r; Actor r; ActorKind r; Tool r; Session r; Branch r; CommandTag r;
     ObjectType r; ObjectIdentity r; Status r; Risk r].

(** Rows with the same hashed text; it tells all the columns where none but the statement
    holds the separator. *)
Definition same_text (r s : Row) : Prop :=
  row_text r = row_text s ∧ (plain_row r → plain_row s → same_contents r s).

(** Two different messages, one of each list, with one digest. *)
Definition collision (ms ns : list string) : Prop :=
  ∃ x y, x ∈ ms ∧ y ∈ ns ∧ x ≠ y ∧ sha256 x = sha256 y.

(** Every message the Merkle computation hashes above the leaves. *)
Fixpoint pair_texts (level : list string) : list string :=
  match level with
  | l :: r :: t => node_text l r :: pair_texts t
  | _ => []
  end.
Fixpoint merkle_texts (fuel : nat) (level : list string) : list string :=
  match fuel with
  | O => []
  | S n =>
      if (1 <? List.length level)%nat then
        pair_texts (even_level level) ++ merkle_texts n (combine_pairs (even_level level))
      else []
  end.
Definition row_texts (r : Row) : list string := [row_text r; leaf_text (RowHash r) (ExtHash r)].
(** Every message [rootOf] hashes. *)
Definition root_texts (rows : list Row) : list string :=
  concat (row_texts <$> rows) ++ merkle_texts (List.length rows) (row_leaf <$> rows).

(** A ledger as it is written: ascending ids, each chained row hashed and linked
    to the chained row before it. *)
Fixpoint chain_ok (prev : string) (rows : list Row) : Prop :=
  match rows with
  | [] => True
  | r :: t =>
      if String.eqb (RHash r) EmptyString then chain_ok prev t
      else RHash r = RowHash r ∧ PrevHash r = prev ∧ chain_ok (RHash r) t
  end.
Definition ascending (rows : list Row) : Prop := StronglySorted (λ x y, ID x < ID y) rows.

(** ** Lemmas: the text of a row *)

Create HintDb integrity.

Lemma two_digits_no_byte c z : is_digit c = false → has_byte c (two_digits z) = false.
Proof. intros H. apply all_digits_no_byte; [done | apply all_digits_pad0]. Qed.

Lemma pad0_int_no_byte c w z :
  is_digit c = false → c ≠ "-"%char → has_byte c (pad0_int w z) = false.
Proof.
  intros H Hm. unfold pad0_int. destruct (z <? 0).
  - rewrite has_byte_app, (all_digits_no_byte c (pad0 _ _)) by (done || apply all_digits_pad0).
    unfold has_byte. simpl. by rewrite (proj2 (Ascii.eqb_neq _ _) Hm).
  - apply all_digits_no_byte; [done | apply all_digits_pad0].
Qed.

Lemma trim_no_byte c f s : has_byte c s = false → has_byte c (trim_right_by f s) = false.
Proof.
  rewrite !has_byte_false. unfold trim_right_by. rewrite to_of_bytes, elem_of_reverse.
  intros Hs Hin. apply Hs. rewrite <-elem_of_reverse. revert Hin. generalize (reverse (to_bytes s)).
  induction l as [|x l IH]; simpl; [done|]. destruct (f x); [|done]. rewrite elem_of_cons. auto.
Qed.

Lemma FormatAt_no_bar t : has_byte "|" (FormatAt t) = false.
Proof.
  unfold FormatAt, format_datetime, format_date, format_clock, format_frac.
  destruct (civil_of_days (t / day_ns)) as [[y m] d].
  destruct (micros t =? 0);
    rewrite !has_byte_app, !two_digits_no_byte, pad0_int_no_byte by done; [done|].
  by rewrite trim_no_byte by (apply all_digits_no_byte; [done | apply all_digits_pad0]).
Qed.

Lemma FormatAt_inj t u :
  valid_year t → valid_year u → FormatAt t = FormatAt u → t / 1000 = u / 1000.
Proof.
  unfold FormatAt, format_datetime. rewrite !sapp_assoc.
  intros Ht Hu [Hd H]%format_date_inj_app; [|done|done].
  apply sapp_inv_head, format_clock_inj_app in H as [Hc H].
  apply format_frac_inj in H. by apply instant_parts.
Qed.

(** Where no column but the statement holds the separator the text determines the row. *)
Lemma row_text_inj r s :
  plain_row r → plain_row s → row_text r = row_text s → same_contents r s.
Proof.
  assert (∀ r, plain_row r → Forall (λ w, has_byte "|" w = false)
    ([PrevHash r; format_int (ID r); FormatAt (At r); Actor r; ActorKind r; Tool r; Session r; Branch r; CommandTag r;
      ObjectType r; ObjectIdentity r] ++ [Status r; Risk r])) as Hplain.
  { clear. intros r [_ H]. cbn [app]. rewrite !Forall_cons in H |- *.
    pose proof (FormatAt_no_bar (At r)).
    pose proof (format_int_no_byte "|" (ID r) eq_refl ltac:(done)). intuition auto. }
  intros Hr Hs Heq.
  apply (Join_inj_open "|" [PrevHash r; format_int (ID r); FormatAt (At r); Actor r; ActorKind r; Tool r; Session r;
      Branch r; CommandTag r; ObjectType r; ObjectIdentity r]
    [PrevHash s; format_int (ID s); FormatAt (At s); Actor s; ActorKind s; Tool s; Session s; Branch s; CommandTag s;
      ObjectType s; ObjectIdentity s]
    (Statement r) (Statement s) [Status r; Risk r] [Status s; Risk s]) in Heq as (H1 & H2 & H3);
    [|done|done|by apply Hplain..].
  destruct Hr as [Hr _], Hs as [Hs _].
  injection H1 as ? H4 H5 ? ? ? ? ? ? ? ?. injection H3 as ? ?.
  apply (inj format_int) in H4. apply FormatAt_inj in H5; [|done|done]. done.
Qed.

Lemma text_same r s : row_text r = row_text s → same_text r s.
Proof. intros H. split; [done|]. intros Hr Hs. by apply row_text_inj. Qed.

Lemma length_RowHash r : String.length (RowHash r) = 64%nat.
Proof. unfold RowHash. by rewrite length_hex_encode, length_sha256. Qed.

Lemma RowHash_nonempty r : RowHash r ≠ EmptyString.
Proof. intros H. pose proof (length_RowHash r) as Hl. by rewrite H in Hl. Qed.

(** ** Lemmas: collisions *)

Lemma collision_mono ms ns ms' ns' :
  ms ⊆ ms' → ns ⊆ ns' → collision ms ns → collision ms' ns'.
Proof. intros Hm Hn (x & y & Hx & Hy & H). exists x, y. auto. Qed.

(** A collision in some of the messages is one in all of them. *)
Ltac widen H := right; revert H; apply collision_mono; clear; set_solver.

Lemma sha256_binding x y : sha256 x = sha256 y → x = y ∨ collision [x] [y].
Proof.
  intros H. destruct (decide (x = y)) as [->|Hne]; [by left|].
  right. exists x, y. split; [constructor|]. split; [constructor | done].
Qed.

Lemma RowHash_no_bar r : has_byte "|" (RowHash r) = false.
Proof.
  apply hex_encode_no_byte. intros n Hn Heq. unfold hex_digit in Heq.
  apply (f_equal N_of_ascii) in Heq. rewrite N_ascii_embedding in Heq; [|by case_match; lia].
  change (N_of_ascii "|") with 124%N in Heq. case_match; lia.
Qed.

Lemma RowHash_binding r s : RowHash r = RowHash s → row_text r = row_text s ∨ collision [row_text r] [row_text s].
Proof. by intros H%(inj hex_encode)%sha256_binding. Qed.

Lemma leaf_binding r s :
  row_leaf r = row_leaf s →
  (same_text r s ∧ ExtHash r = ExtHash s) ∨ collision (row_texts r) (row_texts s).
Proof.
  intros H. apply sha256_binding in H as [H|H].
  - apply String_inv in H as [_ H].
    apply sapp_inj_length in H as [Hh He]; [|by rewrite !length_RowHash].
    apply sapp_inv_head in He. apply RowHash_binding in Hh as [Hh|Hh]; [left; by auto using text_same|].
    by widen Hh.
  - by widen H.
Qed.

(** ** Lemmas: Merkle levels *)

Definition digests (l : list string) : Prop := Forall (λ d, String.length d = 32%nat) l.

Lemma node_binding a b c d :
  String.length a = 32%nat → String.length c = 32%nat → node_hash a b = node_hash c d →
  (a = c ∧ b = d) ∨ collision [node_text a b] [node_text c d].
Proof.
  intros Ha Hc H. apply sha256_binding in H as [H|H]; [|by right]. left.
  apply String_inv in H as [_ H]. apply sapp_inj_length in H; [done | congruence].
Qed.

Lemma combine_pairs_binding n l k :
  List.length l = (2 * n)%nat → List.length k = (2 * n)%nat → digests l → digests k →
  combine_pairs l = combine_pairs k → l = k ∨ collision (pair_texts l) (pair_texts k).
Proof.
  revert l k. induction n as [|n IH]; intros l k Hl Hk Dl Dk H.
  { destruct l, k; [by left|done..]. }
  destruct l as [|a [|b l]], k as [|c [|d k]]; try (simpl in *; lia).
  cbn [combine_pairs pair_texts] in *. apply cons_inv in H as [H1 H2].
  apply Forall_cons in Dl as [Ha Dl], Dk as [Hc Dk].
  apply Forall_cons in Dl as [_ Dl], Dk as [_ Dk].
  apply node_binding in H1; [|done|done]. destruct H1 as [[<- <-]|Hcol].
  - apply IH in H2 as [<-|Hcol]; [by left| |simpl in *; lia..|done|done].
    by widen Hcol.
  - by widen Hcol.
Qed.

Lemma length_combine_pairs n l :
  List.length l = (2 * n)%nat → List.length (combine_pairs l) = n.
Proof.
  revert l. induction n as [|n IH]; intros l Hl; [by destruct l|].
  destruct l as [|a [|b l]]; try (simpl in *; lia). simpl. f_equal. apply IH. simpl in Hl. lia.
Qed.

Lemma digests_combine_pairs l : digests (combine_pairs l).
Proof.
  enough (∀ n l, (List.length l <= n)%nat → digests (combine_pairs l)) as H by eauto.
  clear l. intros n. induction n as [|n IH]; intros l Hl.
  { destruct l; [constructor | simpl in Hl; lia]. }
  destruct l as [|a [|b l]]; [constructor..|]. constructor; [apply length_sha256|].
  apply IH. simpl in Hl. lia.
Qed.

Lemma length_even_level l :
  ∃ n, List.length (even_level l) = (2 * n)%nat ∧ n = ((List.length l + 1) / 2)%nat.
Proof.
  exists ((List.length l + 1) / 2)%nat. split; [|done]. unfold even_level.
  destruct (Nat.odd (List.length l)) eqn:Ho.
  - apply Nat.odd_spec in Ho as [m Hm]. rewrite length_app, Hm. simpl List.length.
    replace (2 * m + 1 + 1)%nat with ((m + 1) * 2)%nat by lia. rewrite Nat.div_mul; lia.
  - rewrite <-Nat.negb_even in Ho. apply negb_false_iff, Nat.even_spec in Ho as [m Hm].
    rewrite Hm. replace (2 * m + 1)%nat with (1 + m * 2)%nat by lia.
    rewrite Nat.div_add by lia. simpl. lia.
Qed.

Lemma even_level_inj l k :
  List.length l = List.length k → even_level l = even_level k → l = k.
Proof.
  unfold even_level. intros Hl. rewrite Hl. destruct (Nat.odd _); [|done].
  intros H. by apply app_inj_1 in H as [H _].
Qed.

Lemma digests_last l : l ≠ [] → digests l → String.length (List.last l EmptyString) = 32%nat.
Proof.
  intros Hne H. induction H as [|x l Hx H IH]; [done|].
  destruct l as [|y l]; [done|]. by apply IH.
Qed.

Lemma digests_even_level l : digests l → digests (even_level l).
Proof.
  intros H. unfold even_level. destruct (Nat.odd (List.length l)) eqn:Ho; [|done].
  apply Forall_app. split; [done|]. constructor; [|done].
  apply digests_last; [|done]. by destruct l.
Qed.

Lemma merkle_loop_binding fuel l k :
  List.length l = List.length k → digests l → digests k →
  merkle_loop fuel l = merkle_loop fuel k →
  l = k ∨ collision (merkle_texts fuel l) (merkle_texts fuel k).
Proof.
  revert l k. induction fuel as [|n IH]; intros l k Hlen Dl Dk; [by left|].
  cbn [merkle_loop merkle_texts]. rewrite <-Hlen.
  destruct (1 <? List.length l)%nat; [|by left]. intros H.
  destruct (length_even_level l) as (m & Hm & Hm'), (length_even_level k) as (m' & Hk & Hk').
  assert (m' = m) as -> by congruence.
  assert (Hl2 := length_combine_pairs _ _ Hm). assert (Hk2 := length_combine_pairs _ _ Hk).
  apply IH in H; [|congruence|apply digests_combine_pairs..]. destruct H as [H|H].
  - apply (combine_pairs_binding m) in H; [|done|done|by apply digests_even_level..].
    destruct H as [H|H]; [left; by apply even_level_inj|].
    by widen H.
  - by widen H.
Qed.

Lemma digests_merkle_loop fuel l : digests l → digests (merkle_loop fuel l).
Proof.
  revert l. induction fuel as [|n IH]; intros l Hl; cbn [merkle_loop]; [done|].
  destruct (1 <? List.length l)%nat; [|done]. apply IH, digests_combine_pairs.
Qed.

(** Enough fuel: the loop ends on a single node. *)
Lemma merkle_loop_single fuel l :
  l ≠ [] → (List.length l <= S fuel)%nat → List.length (merkle_loop fuel l) = 1%nat.
Proof.
  revert l. induction fuel as [|n IH]; intros l Hne Hl; cbn [merkle_loop].
  { destruct l as [|x [|y l]]; [done|done|simpl in Hl; lia]. }
  destruct (Nat.ltb_spec 1 (List.length l)) as [Hlt|Hge].
  - destruct (length_even_level l) as (m & Hm & Hm'). apply length_combine_pairs in Hm.
    assert (1 <= m < List.length l)%nat as Hb.
    { rewrite Hm'. split; [apply Nat.div_le_lower_bound | apply Nat.Div0.div_lt_upper_bound]; lia. }
    apply IH; [|lia]. intros He. rewrite He in Hm. simpl in Hm. lia.
  - destruct l as [|x [|y l]]; [done|done|simpl in Hge; lia].
Qed.

Lemma single_hd (l k : list string) :
  List.length l = 1%nat → List.length k = 1%nat → hd EmptyString l = hd EmptyString k → l = k.
Proof. destruct l as [|x [|? ?]], k as [|y [|? ?]]; simpl; congruence. Qed.

(** The Merkle root commits to its leaves, for a given number of them. *)
Lemma MerkleRoot_binding l k :
  List.length l = List.length k → digests l → digests k → MerkleRoot l = MerkleRoot k →
  l = k ∨ collision (merkle_texts (List.length l) l) (merkle_texts (List.length l) k).
Proof.
  intros Hlen Dl Dk H. destruct l as [|x l], k as [|y k]; [by left|done|done|].
  unfold MerkleRoot in H. apply (inj hex_encode) in H. rewrite <-Hlen in H.
  apply single_hd in H; [|apply merkle_loop_single; [done | simpl in *; lia]..].
  by apply merkle_loop_binding in H.
Qed.
