(* ===== verification/IntegrityProps.v ===== *)
(** * The Blackbox: what a verified ledger guarantees

    Theorems about internal/ledger/integrity.go (definitions in Integrity). *)
From S2P Require Import Prelude GoStrings GoNum Sha256 GoTime GoSort Integrity.
Open Scope Z_scope.

(** ** Specification *)

(** The rows an anchor is about, and those its range jumps backwards over. *)
Definition in_range (a : Anchor) (r : Row) : bool := (FromID a <=? ID r) && (ID r <=? ToID a).
Definition in_gap (a : Anchor) (r : Row) : bool := (ToID a <? ID r) && (ID r <? FromID a).

(** What the anchor says about the rows it covers. *)
Definition anchor_holds (rows : list Row) (a : Anchor) : Prop :=
  Format a = AnchorFormat
  ∧ Z.of_nat (List.length (filter (in_range a) rows)) = EntryCount a
  ∧ rootOf (filter (in_range a) rows) = AMerkleRoot a
  ∧ ∃ l, last (filter (in_range a) rows) = Some l ∧ RowHash l = LastRowHash a.

(** What makes the check index out of bounds. *)
Definition crashes (rows : list Row) (a : Anchor) : Prop :=
  Format a = AnchorFormat ∧
  ((∃ r, r ∈ rows ∧ in_gap a r = true)
   ∨ (filter (in_range a) rows = [] ∧ EntryCount a = 0 ∧ AMerkleRoot a = EmptyString)).

(** Checkpoints taken one after the other: each covers the next rows, starts after
    the last one's [ToID] and names its root. The checkpoint's number is the
    database's. *)
Inductive checkpointed : Z → string → list (list Row) → list Anchor → Prop :=
| checkpointed_nil from root : checkpointed from root [] []
| checkpointed_cons branch from root seg now a n segs anchors :
    BuildAnchor branch from root seg now = Ok a →
    checkpointed (ToID a + 1) (AMerkleRoot a) segs anchors →
    checkpointed from root (seg :: segs)
      (mkAnchor (Format a) (Algorithm a) (ABranch a) n (FromID a) (ToID a) (EntryCount a)
         (LastRowHash a) (AMerkleRoot a) (PrevRoot a) (CreatedAt a) :: anchors).

(** Two chained rows after a legacy one, and the checkpoint over the chained two. *)
Definition sample_row (id : Z) (prev h : string) : Row :=
  mkRow id (1700000000123456789 + id) "alice" "human" "psql" "" "main" "CREATE TABLE" "table"
    "public.t" "UPDATE t SET a = a || b" "ok" "low" prev h "".
Definition legacy1 : Row := sample_row 1 "" "".
Definition row2 : Row := sample_row 2 "" (RowHash (sample_row 2 "" "")).
Definition row3 : Row := sample_row 3 (RHash row2) (RowHash (sample_row 3 (RHash row2) "")).
Definition sample_anchor : Anchor :=
  mkAnchor AnchorFormat MerkleAlgorithm "main" 0 2 3 2 (RowHash row3) (rootOf [row2; row3]) "" 0.

(** ** Lemmas: lists *)

Lemma length_filter_negb {A} (f : A → bool) l :
  (List.length (filter (λ x, negb (f x)) l) + List.length (filter (λ x, f x) l) = List.length l)%nat.
Proof.
  induction l as [|x l IH]; [done|]. destruct (f x) eqn:Hx.
  - rewrite filter_cons_False, filter_cons_True by (rewrite Hx; simpl; auto). simpl. lia.
  - rewrite filter_cons_True, filter_cons_False by (rewrite Hx; simpl; auto). simpl. lia.
Qed.

(** ** Lemmas: splitting a sorted ledger *)

Definition sorted_rows (rows : list Row) : Prop := StronglySorted (λ x y, ID x <= ID y) rows.

Lemma filter_all {A} (f : A → bool) l : Forall (λ x, f x = true) l → filter f l = l.
Proof.
  induction 1 as [|x l Hx _ IH]; [done|].
  rewrite filter_cons_True by (rewrite Hx; simpl; auto). by rewrite ?IH.
Qed.
Lemma filter_none {A} (f : A → bool) l : Forall (λ x, f x = false) l → filter f l = [].
Proof.
  induction 1 as [|x l Hx _ IH]; [done|].
  rewrite filter_cons_False by (rewrite Hx; simpl; auto). by rewrite ?IH.
Qed.

(** A predicate that only turns true along the order cuts the rows in two. *)
Lemma sorted_split rows (f : Row → bool) :
  sorted_rows rows → (∀ r s, ID r <= ID s → f r = true → f s = true) →
  ∃ l k, rows = l ++ k ∧ Forall (λ r, f r = false) l ∧ Forall (λ r, f r = true) k
         ∧ sorted_rows l ∧ sorted_rows k.
Proof.
  intros Hs Hm. induction Hs as [|r rows Hs IH Hf].
  { exists [], []. repeat split; constructor. }
  destruct (f r) eqn:Hr.
  - exists [], (r :: rows). repeat split; [constructor| |constructor|by constructor].
    constructor; [done|]. eapply Forall_impl; [done|]. simpl. eauto.
  - destruct IH as (l & k & -> & Hl & Hk & Sl & Sk). exists (r :: l), k.
    apply Forall_app in Hf as [Hf _]. repeat split; [by constructor|done|by constructor|done].
Qed.

Lemma search_rows_app l k f :
  Forall (λ r, f r = false) l → Forall (λ r, f r = true) k →
  search_rows (l ++ k) f = List.length l.
Proof.
  intros Hl Hk. apply sort_search_spec; [rewrite length_app; lia|..]; intros i Hi; unfold row_at.
  - rewrite lookup_app_l by done. destruct (l !! i) eqn:Hli; [|done].
    by eapply Forall_lookup_1 in Hl.
  - rewrite length_app in Hi. rewrite lookup_app_r by lia.
    destruct (lookup_lt_is_Some_2 k (i - List.length l)) as [r Hr]; [lia|].
    rewrite Hr. by eapply Forall_lookup_1 in Hk.
Qed.

(** The loop's [lo] and [hi] enclose exactly the anchor's rows. *)
Lemma range_slice rows a :
  sorted_rows rows → Forall (λ r, in_gap a r = false) rows →
  slice rows (search_rows rows (λ r, FromID a <=? ID r)) (search_rows rows (λ r, ToID a <? ID r))
  = Ok (filter (in_range a) rows).
Proof.
  intros Hs Hg.
  destruct (sorted_split rows (λ r, FromID a <=? ID r)) as (l & k & -> & Hl & Hk & _ & Sk).
  { done. } { intros r s. rewrite !Z.leb_le. lia. }
  destruct (sorted_split k (λ r, ToID a <? ID r)) as (m & n & -> & Hm & Hn & _ & _).
  { done. } { intros r s. rewrite !Z.ltb_lt. lia. }
  rewrite (search_rows_app l (m ++ n)) by done.
  apply Forall_app in Hg as [Hg _], Hk as [Hkm Hkn].
  rewrite app_assoc, (search_rows_app (l ++ m) n); [|apply Forall_app; split|]; [|..|done].
  2: { rewrite Forall_forall in Hg, Hl |- *. intros r Hr. specialize (Hg r Hr). specialize (Hl r Hr).
       revert Hg Hl. unfold in_gap. rewrite andb_false_iff. rewrite !Z.ltb_ge, Z.leb_gt. lia. }
  2: done.
  unfold slice. rewrite length_app. destruct (Nat.ltb_spec (List.length l + List.length m) (List.length l)); [lia|].
  f_equal. rewrite <-app_assoc, drop_app_length. replace (_ + _ - _)%nat with (List.length m) by lia.
  rewrite take_app_length, !filter_app, (filter_none _ l), (filter_none _ n), (filter_all _ m).
  - by rewrite app_nil_r.
  - rewrite Forall_forall in Hkm, Hm |- *. intros r Hr. specialize (Hkm r Hr). specialize (Hm r Hr).
    unfold in_range. rewrite andb_true_iff, Z.leb_le in *. rewrite Z.ltb_ge in Hm. lia.
  - eapply Forall_impl; [exact Hn|]. intros r. unfold in_range. rewrite Z.ltb_lt, andb_false_iff, !Z.leb_gt. lia.
  - eapply Forall_impl; [exact Hl|]. intros r. unfold in_range. rewrite andb_false_iff. simpl. by left.
Qed.

(** With a row in between, [hi] falls below [lo]. *)
Lemma gap_slice rows a r :
  sorted_rows rows → r ∈ rows → in_gap a r = true →
  slice rows (search_rows rows (λ r, FromID a <=? ID r)) (search_rows rows (λ r, ToID a <? ID r))
  = Panic "slice bounds out of range".
Proof.
  intros Hs Hin Hr. unfold in_gap in Hr. rewrite andb_true_iff, !Z.ltb_lt in Hr.
  destruct (sorted_split rows (λ r, ToID a <? ID r)) as (l & k & -> & Hl & Hk & _ & Sk).
  { done. } { intros x y. rewrite !Z.ltb_lt. lia. }
  destruct (sorted_split k (λ r, FromID a <=? ID r)) as (m & n & -> & Hm & Hn & _ & _).
  { done. } { intros x y. rewrite !Z.leb_le. lia. }
  rewrite (search_rows_app l (m ++ n) (λ r, ToID a <? ID r)) by done. rewrite app_assoc in *.
  assert (m ≠ []) as Hne.
  { intros ->. rewrite Forall_forall in Hl, Hn. rewrite app_nil_r, elem_of_app in Hin.
    destruct Hin as [Hi|Hi]; [apply Hl in Hi; rewrite Z.ltb_ge in Hi; lia|].
    apply Hn in Hi. rewrite Z.leb_le in Hi. lia. }
  rewrite (search_rows_app (l ++ m) n (λ r, FromID a <=? ID r)); [| |done].
  - unfold slice. rewrite length_app. destruct m as [|y m]; [done|].
    destruct (Nat.ltb_spec (List.length l) (List.length l + List.length (y :: m))); [done|simpl in *; lia].
  - apply Forall_app. split; [|done]. eapply Forall_impl; [exact Hl|]. intros x.
    rewrite Z.ltb_ge, Z.leb_gt. lia.
Qed.

(** ** Lemmas: one anchor *)

Lemma add_problem_clean ps p : add_problem ps p ≠ [].
Proof.
  unfold add_problem. destruct ps; [done|]. repeat case_match; done.
Qed.

Lemma add_problems_clean ps qs : fold_left add_problem qs ps = [] → ps = [] ∧ qs = [].
Proof.
  revert ps. induction qs as [|q qs IH]; intros ps H; [done|].
  apply IH in H as [H _]. by apply add_problem_clean in H.
Qed.

Lemma link_step_clean prev a v : vproblems (link_step prev a v) = [] → vproblems v = [].
Proof.
  unfold link_step, v_problem. destruct prev as [p|]; [|by destruct (String.eqb _ _)].
  cbv zeta. destruct (_ =? _), (String.eqb _ _); simpl; intros H; try done;
    by apply add_problem_clean in H.
Qed.

Definition link_ok (prev : option Anchor) (a : Anchor) : Prop :=
  match prev with
  | Some p => FromID a = wrap64 (ToID p + 1) ∧ PrevRoot a = AMerkleRoot p
  | None => True
  end.

Lemma link_step_ok prev a v :
  link_ok prev a → vproblems (link_step prev a v) = vproblems v
                   ∧ vanchored (link_step prev a v) = vanchored v.
Proof.
  unfold link_step. destruct prev as [p|]; [intros [-> ->]|by destruct (String.eqb _ _)].
  cbv zeta. by rewrite Z.eqb_refl, String.eqb_refl.
Qed.

(** What a step does once its rows are known. *)
Lemma anchor_step_spec rows prev a v :
  sorted_rows rows → Format a = AnchorFormat →
  anchor_step rows prev a v =
    if existsb (in_gap a) rows then Panic "slice bounds out of range" else
    let rng := filter (in_range a) rows in
    let n := Z.of_nat (List.length rng) in
    let w := link_step prev a v in
    let w := mkV (vproblems w) (vnotes w) (vanchored w + n) in
    if negb (n =? EntryCount a) then Ok (v_problem w (CountDiffers a n))
    else if negb (String.eqb (rootOf rng) (AMerkleRoot a)) then Ok (v_problem w (RootDiffers a))
    else match last rng with
         | None => Panic "index out of range"
         | Some l => if String.eqb (RowHash l) (LastRowHash a) then Ok w
                     else Ok (v_problem w (LastRowDiffers a))
         end.
Proof.
  intros Hs Hf. unfold anchor_step. rewrite Hf, String.eqb_refl. cbn [negb].
  destruct (existsb (in_gap a) rows) eqn:Hg.
  - apply existsb_exists in Hg as (r & Hr & Hg). rewrite (gap_slice rows a r); [done|done| |done].
    by apply list_elem_of_In.
  - rewrite range_slice; [done|done|]. apply Forall_forall. intros r Hr.
    apply not_true_iff_false. intros H. apply not_true_iff_false in Hg. apply Hg.
    apply existsb_exists. exists r. split; [by apply list_elem_of_In | done].
Qed.

Lemma anchor_step_unknown rows prev a v :
  Format a ≠ AnchorFormat → anchor_step rows prev a v = Ok (v_problem v (UnknownFormat a)).
Proof. intros H%String.eqb_neq. unfold anchor_step. by rewrite H. Qed.

Lemma anchor_step_sound rows prev a v v' :
  sorted_rows rows → anchor_step rows prev a v = Ok v' → vproblems v' = [] →
  vproblems v = [] ∧ anchor_holds rows a.
Proof.
  intros Hs. destruct (decide (Format a = AnchorFormat)) as [Hf|Hf].
  - rewrite anchor_step_spec by done. unfold anchor_holds. cbv zeta.
    destruct (existsb _ _); [done|]. destruct (_ =? EntryCount a) eqn:Hn.
    2:{ intros [= <-] H. by apply add_problem_clean in H. }
    apply Z.eqb_eq in Hn. destruct (String.eqb (rootOf _) _) eqn:Hr.
    2:{ intros [= <-] H. by apply add_problem_clean in H. }
    apply String.eqb_eq in Hr. cbn [negb]. destruct (last _) as [l|] eqn:Hl; [|done].
    destruct (String.eqb (RowHash l) _) eqn:Hh.
    2:{ intros [= <-] H. by apply add_problem_clean in H. }
    apply String.eqb_eq in Hh. intros [= <-] H. cbn in H. apply link_step_clean in H. eauto 10.
  - rewrite anchor_step_unknown by done. intros [= <-] H. by apply add_problem_clean in H.
Qed.

Lemma anchor_step_complete rows prev a v :
  sorted_rows rows → anchor_holds rows a → link_ok prev a →
  Forall (λ r, in_gap a r = false) rows →
  ∃ v', anchor_step rows prev a v = Ok v' ∧ vproblems v' = vproblems v
        ∧ vanchored v' = vanchored v + Z.of_nat (List.length (filter (in_range a) rows))
        ∧ vnotes v' = vnotes (link_step prev a v).
Proof.
  intros Hs (Hf & Hn & Hr & l & Hl & Hh) Hk Hg. rewrite anchor_step_spec by done.
  assert (existsb (in_gap a) rows = false) as ->.
  { apply not_true_iff_false. intros (r & Hr' & Hg')%existsb_exists.
    rewrite Forall_forall in Hg. apply list_elem_of_In, Hg in Hr'. congruence. }
  cbv zeta. rewrite Hn, Z.eqb_refl, Hr, String.eqb_refl, Hl, Hh, String.eqb_refl.
  destruct (link_step_ok _ _ v Hk) as [Hp Ha]. eexists. split; [done|]. cbn. by rewrite Hp, Ha.
Qed.

Lemma rootOf_nil rows : rootOf rows = EmptyString ↔ rows = [].
Proof.
  unfold rootOf, MerkleRoot. destruct rows as [|r rows]; [done|]. split; [|done]. rewrite fmap_cons.
  intros H%(f_equal String.length). rewrite length_hex_encode in H.
  set (x := merkle_loop _ _) in H.
  assert (digests x) as Hx.
  { apply digests_merkle_loop. rewrite <-fmap_cons. apply Forall_fmap, Forall_true. intros. apply length_sha256. }
  assert (List.length x = 1%nat) as H1.
  { apply merkle_loop_single; [done|simpl; lia]. }
  destruct Hx as [|y x Hy Hx]; [done|]. simpl in H. rewrite Hy in H. done.
Qed.

Lemma anchor_step_panics rows prev a v :
  sorted_rows rows → panics (anchor_step rows prev a v) = true ↔ crashes rows a.
Proof.
  intros Hs. unfold crashes. destruct (decide (Format a = AnchorFormat)) as [Hf|Hf].
  2:{ rewrite anchor_step_unknown by done. naive_solver. }
  rewrite anchor_step_spec by done. destruct (existsb (in_gap a) rows) eqn:Hg.
  { apply existsb_exists in Hg as (r & Hr & Hg). apply list_elem_of_In in Hr. naive_solver. }
  assert (¬ ∃ r, r ∈ rows ∧ in_gap a r = true) as Hno.
  { intros (r & Hr & Hx). apply not_true_iff_false in Hg. apply Hg, existsb_exists.
    exists r. by rewrite <-list_elem_of_In. }
  cbv zeta. destruct (filter (in_range a) rows) as [|r t].
  - simpl List.length. destruct (Z.eqb_spec (Z.of_nat 0) (EntryCount a)) as [He|He]; cbn [negb].
    2:{ split; [done|]. intros [_ [?|(_ & H & _)]]; [done|]. by rewrite H in He. }
    destruct (String.eqb_spec (rootOf []) (AMerkleRoot a)) as [Hr|Hr]; cbn [negb]; [naive_solver|].
    split; [done|]. intros [_ [?|(_ & _ & H)]]; [done|]. by rewrite H in Hr.
  - assert (is_Some (last (r :: t))) as [l ->] by (by apply last_is_Some).
    split; [|intros [_ [?|(H & _)]]; done]. by repeat case_match.
Qed.

(** ** Lemmas: the loop over the anchors *)

Lemma anchor_loop_sound rows prev anchors v v' :
  sorted_rows rows → anchor_loop rows prev anchors v = Ok v' → vproblems v' = [] →
  vproblems v = [] ∧ Forall (anchor_holds rows) anchors.
Proof.
  intros Hs. revert prev v. induction anchors as [|a anchors IH]; intros prev v; cbn [anchor_loop].
  { intros [= <-] H. by split. }
  destruct (anchor_step rows prev a v) as [w| |] eqn:Ha; [|done..]. cbn. intros Hl Hp.
  destruct (IH _ _ Hl Hp) as [Hw Hf].
  destruct (anchor_step_sound _ _ _ _ _ Hs Ha Hw) as [Hv Hh]. split; [done|]. by constructor.
Qed.

Lemma anchor_loop_panics rows prev anchors v :
  sorted_rows rows → panics (anchor_loop rows prev anchors v) = true ↔ Exists (crashes rows) anchors.
Proof.
  intros Hs. revert prev v. induction anchors as [|a anchors IH]; intros prev v; cbn [anchor_loop].
  { rewrite Exists_nil. done. }
  rewrite Exists_cons, <-(anchor_step_panics rows prev a v) by done.
  destruct (anchor_step rows prev a v) as [w|e|]; cbn; [|by destruct e|naive_solver].
  rewrite IH. naive_solver.
Qed.

(** Each anchor follows the one before it. *)
Fixpoint linked (prev : option Anchor) (anchors : list Anchor) : Prop :=
  match anchors with
  | [] => True
  | a :: t => link_ok prev a ∧ linked (Some a) t
  end.

Definition covered (rows : list Row) (anchors : list Anchor) : Z :=
  fold_right (λ a n, Z.of_nat (List.length (filter (in_range a) rows)) + n) 0 anchors.

Definition first_note (prev : option Anchor) (anchors : list Anchor) : list Anchor :=
  match prev, anchors with
  | None, a :: _ => if String.eqb (PrevRoot a) EmptyString then [] else [a]
  | _, _ => []
  end.

Lemma anchor_loop_complete rows prev anchors v :
  sorted_rows rows → Forall (anchor_holds rows) anchors → linked prev anchors →
  Forall (λ a, Forall (λ r, in_gap a r = false) rows) anchors →
  ∃ v', anchor_loop rows prev anchors v = Ok v' ∧ vproblems v' = vproblems v
        ∧ vanchored v' = vanchored v + covered rows anchors
        ∧ vnotes v' = vnotes v ++ first_note prev anchors.
Proof.
  intros Hs Hh. revert prev v. induction Hh as [|a anchors Ha Hh IH]; intros prev v Hl Hg; cbn [anchor_loop].
  { exists v. split_and!; [done|done|cbn; lia|]. destruct prev; cbn; by rewrite app_nil_r. }
  destruct Hl as [Hl Hls]. apply Forall_cons in Hg as [Hga Hg].
  destruct (anchor_step_complete rows prev a v) as (w & -> & Hp & Hc & Hn); [done..|]. cbn.
  destruct (IH (Some a) w Hls Hg) as (v' & -> & Hp' & Hc' & Hn'). exists v'.
  split_and!; [done|congruence|rewrite Hc', Hc; unfold covered; cbn; lia|].
  rewrite Hn', Hn. unfold first_note. rewrite app_nil_r. unfold link_step.
  destruct prev as [p|]; [cbv zeta; repeat case_match; cbn; by rewrite app_nil_r|].
  destruct (String.eqb _ _); cbn; by rewrite ?app_nil_r.
Qed.

(** ** Lemmas: the chain *)

Lemma chain_go_ok rows prev c :
  chain_ok prev rows →
  chain_go rows prev c =
    mkChain (chained c + Z.of_nat (List.length (filter (λ r, negb (String.eqb (RHash r) EmptyString)) rows)))
            (legacy c + Z.of_nat (List.length (filter (λ r, String.eqb (RHash r) EmptyString) rows)))
            (firstBroken c) (cproblems c).
Proof.
  revert prev c. induction rows as [|r rows IH]; intros prev c; cbn [chain_ok chain_go].
  { intros _. destruct c. cbn. f_equal; lia. }
  rewrite !filter_cons. destruct (String.eqb (RHash r) EmptyString).
  - rewrite decide_False, decide_True by (cbn; auto). cbn [List.length]. intros H. rewrite IH by done. cbn [chained legacy firstBroken cproblems]. f_equal; lia.
  - rewrite decide_True, decide_False by (cbn; auto). cbn [List.length].
    intros (Hh & Hp & H). rewrite IH by done. unfold chain_step, row_problems.
    rewrite <-Hh, Hp, !String.eqb_refl. cbn [chained legacy firstBroken cproblems app].
    rewrite app_nil_r. f_equal; lia.
Qed.

Lemma row_problems_nil r prev : row_problems r prev = [] ↔ RHash r = RowHash r ∧ PrevHash r = prev.
Proof.
  unfold row_problems. destruct (String.eqb_spec (RowHash r) (RHash r)), (String.eqb_spec (PrevHash r) prev);
    naive_solver.
Qed.

Lemma chain_go_clean rows prev c :
  cproblems (chain_go rows prev c) = [] → cproblems c = [] ∧ chain_ok prev rows.
Proof.
  revert prev c. induction rows as [|r rows IH]; intros prev c; cbn [chain_ok chain_go]; [done|].
  destruct (String.eqb (RHash r) EmptyString); intros [H Hc]%IH; [by split|]. cbn in H.
  apply app_eq_nil in H as [H Hp]. apply row_problems_nil in Hp as [? ?]. done.
Qed.

(** No problem means an unbroken chain, and conversely. *)
Lemma chainCheck_clean rows prev : cproblems (chainCheck rows prev) = [] ↔ chain_ok prev rows.
Proof.
  split; [by intros [_ H]%chain_go_clean|]. intros H. unfold chainCheck. by rewrite chain_go_ok.
Qed.

(** ** Lemmas: the root commits to the rows *)

(** Rows with the same hashed text and the same capture hash. *)
Definition same_row (r s : Row) : Prop := same_text r s ∧ ExtHash r = ExtHash s.

Lemma leaves_binding rows rows' :
  row_leaf <$> rows = row_leaf <$> rows' →
  Forall2 same_row rows rows' ∨ collision (concat (row_texts <$> rows)) (concat (row_texts <$> rows')).
Proof.
  revert rows'. induction rows as [|r rows IH]; intros [|s rows'] H; try done.
  { left. constructor. }
  rewrite !fmap_cons in H. apply cons_inv in H as [Hh Ht].
  rewrite !fmap_cons. cbn [concat].
  apply leaf_binding in Hh as [Hh|Hh].
  - apply IH in Ht as [Ht|Ht]; [left; by constructor|].
    right. revert Ht. apply collision_mono; intros x; rewrite elem_of_app; auto.
  - right. revert Hh. apply collision_mono; intros x; rewrite elem_of_app; auto.
Qed.

Lemma leaf_digests rows : digests (row_leaf <$> rows).
Proof. apply Forall_fmap, Forall_true. intros. apply length_sha256. Qed.

Lemma rootOf_binding rows rows' :
  List.length rows = List.length rows' → rootOf rows = rootOf rows' →
  Forall2 same_row rows rows' ∨ collision (root_texts rows) (root_texts rows').
Proof.
  intros Hl H. unfold rootOf in H.
  apply MerkleRoot_binding in H; [|by rewrite !length_fmap|apply leaf_digests..].
  unfold root_texts. rewrite !length_fmap in H. destruct H as [H|H].
  - apply leaves_binding in H as [H|H]; [by left|].
    right. revert H. apply collision_mono; intros x; rewrite elem_of_app; auto.
  - right. rewrite <-Hl. revert H. apply collision_mono; intros x; rewrite elem_of_app; auto.
Qed.

(** ** Lemmas: the chain commits to its rows *)

(** Chained rows, latest first: each names the hash of the one before it. *)
Fixpoint back_linked (rows : list Row) : Prop :=
  match rows with
  | [] => True
  | r :: t => RHash r = RowHash r
              ∧ PrevHash r = match t with p :: _ => RHash p | [] => EmptyString end
              ∧ back_linked t
  end.

(** The text starts with the hash of the row before, which holds no separator. *)
Lemma row_text_prev r s :
  has_byte "|" (PrevHash r) = false → has_byte "|" (PrevHash s) = false →
  row_text r = row_text s → PrevHash r = PrevHash s.
Proof.
  intros Hr Hs H%(f_equal (Split "|")). unfold row_text, row_fields in H. cbn [Join] in H.
  assert (∀ x, "|" +:+ x = String "|" x) as Hbar by done. rewrite !Hbar in H. rewrite (Split_app "|" (PrevHash r)), (Split_app "|" (PrevHash s)) in H by done. by apply cons_inv in H as [H _].
Qed.

Lemma back_linked_no_bar r rows : back_linked (r :: rows) → has_byte "|" (PrevHash r) = false.
Proof.
  intros (_ & -> & H). destruct rows as [|p rows]; [done|]. destruct H as (-> & _). apply RowHash_no_bar.
Qed.

Lemma back_linked_commits rows rows' :
  back_linked rows → back_linked rows' →
  RHash <$> head rows = RHash <$> head rows' →
  Forall2 same_text rows rows' ∨ collision (row_text <$> rows) (row_text <$> rows').
Proof.
  intros B. revert rows'. induction rows as [|r rows IH]; intros [|s rows'] B' H; try done.
  { left. constructor. }
  pose proof (back_linked_no_bar r rows B) as Nr. pose proof (back_linked_no_bar s rows' B') as Ns.
  cbn [back_linked] in B, B'. destruct B as (Hr & Hp & B), B' as (Hs & Hq & B').
  cbn in H. apply (inj Some) in H.
  rewrite Hr, Hs in H. apply RowHash_binding in H as [H|H].
  2:{ right. revert H. apply collision_mono; intros x; rewrite fmap_cons, list_elem_of_singleton;
      intros ->; constructor. }
  assert (RHash <$> head rows = RHash <$> head rows') as Hh.
  { pose proof (row_text_prev r s Nr Ns H) as He. rewrite Hp, Hq in He.
    destruct rows as [|p rows], rows' as [|q rows']; cbn [head fmap option_fmap option_map];
      [done| | |by rewrite He]; exfalso.
    - destruct B' as (Hb & _). rewrite Hb in He. symmetry in He. by apply RowHash_nonempty in He.
    - destruct B as (Hb & _). rewrite Hb in He. by apply RowHash_nonempty in He. }
  apply IH in Hh as [Hh|Hh]; [left; constructor; by auto using text_same| |done..].
  right. revert Hh. apply collision_mono; intros x Hx; rewrite fmap_cons; by right.
Qed.

Lemma chain_ok_back rows done_ :
  chain_ok (match done_ with p :: _ => RHash p | [] => EmptyString end) rows → back_linked done_ →
  back_linked (reverse (filter (λ r, RHash r ≠ EmptyString) rows) ++ done_).
Proof.
  revert done_. induction rows as [|r rows IH]; intros done_; cbn [chain_ok]; [done|].
  destruct (String.eqb_spec (RHash r) EmptyString) as [He|He].
  - rewrite filter_cons_False by naive_solver. apply IH.
  - intros (Hh & Hp & Hc) Hb. rewrite filter_cons_True, reverse_cons, <-app_assoc by done.
    cbn [app]. apply IH; [done|]. cbn [back_linked]. auto.
Qed.

Lemma CheckChain_ok rows : CheckChain None rows = Ok tt ↔ chain_ok EmptyString rows.
Proof.
  rewrite <-chainCheck_clean. unfold CheckChain. by destruct (cproblems _).
Qed.

(** ** Lemmas: anchors built by the code *)

Lemma bad_id_none from prev rows :
  bad_id from prev rows = None ↔
  ascending rows ∧ Forall (λ r, from <= ID r ∧ match prev with Some p => p < ID r | None => True end) rows.
Proof.
  revert prev. induction rows as [|r rows IH]; intros prev; cbn [bad_id].
  { split; [|done]. intros _. split; constructor. }
  unfold ascending in *. destruct (ID r <? from) eqn:Hf; cbn [orb].
  { apply Z.ltb_lt in Hf. split; [done|]. rewrite Forall_cons. lia. }
  apply Z.ltb_ge in Hf. rewrite Forall_cons.
  destruct (match prev with Some p => ID r <=? p | None => false end) eqn:Hp.
  { split; [done|]. intros [_ [[_ H] _]]. destruct prev as [p|]; [|done]. apply Z.leb_le in Hp. lia. }
  rewrite IH. split.
  - intros [Hs Ha]. rewrite Forall_and in Ha. destruct Ha as [H1 H2]. split_and!.
    + by constructor.
    + lia.
    + destruct prev; [apply Z.leb_gt in Hp; lia|done].
    + rewrite Forall_forall in H1, H2 |- *. intros x Hx. split; [by apply H1|].
      specialize (H2 x Hx). destruct prev; [|done]. apply Z.leb_gt in Hp. simpl in H2. lia.
  - intros [Hs [_ Ha]]. inversion Hs as [|?? Hs' Hr]; subst. split; [done|].
    rewrite Forall_forall in Ha, Hr |- *. intros x Hx. split; [by apply Ha | by apply Hr].
Qed.

Lemma bad_id_some from prev rows id :
  bad_id from prev rows = Some id →
  ∃ l r k, rows = l ++ r :: k ∧ ID r = id ∧ bad_id from prev l = None
    ∧ (id < from ∨ ∃ p, match last l with Some q => Some (ID q) | None => prev end = Some p ∧ id <= p).
Proof.
  revert prev. induction rows as [|r rows IH]; intros prev; cbn [bad_id]; [done|].
  destruct (_ || _) eqn:Hb.
  - intros [= <-]. exists [], r, rows. split_and!; [done..|].
    apply orb_true_iff in Hb as [Hb|Hb]; [left; by apply Z.ltb_lt|right].
    destruct prev as [p|]; [|done]. exists p. split; [done|]. by apply Z.leb_le.
  - intros (l & s & k & -> & Hid & Hn & Hc)%IH. exists (r :: l), s, k.
    split_and!; [done|done|cbn [bad_id]; by rewrite Hb|].
    destruct Hc as [Hc|(p & Hp & Hc)]; [by left|]. right. exists p. split; [|done].
    rewrite <-Hp. destruct l as [|q l]; [done|]. rewrite last_cons_cons.
    destruct (last (q :: l)) eqn:Hl; [done|by apply last_None in Hl].
Qed.

Lemma BuildAnchor_ok branch from root seg now a :
  BuildAnchor branch from root seg now = Ok a →
  ascending seg ∧ Forall (λ r, from <= ID r <= ToID a) seg ∧
  ∃ l, last seg = Some l ∧
    a = mkAnchor AnchorFormat MerkleAlgorithm branch 0 from (ID l)
          (Z.of_nat (List.length seg)) (RowHash l) (rootOf seg) root now.
Proof.
  unfold BuildAnchor. destruct (last seg) as [l|] eqn:Hl; [|done].
  destruct (bad_id from None seg) eqn:Hb; [done|]. intros [= <-].
  apply bad_id_none in Hb as [Hs Hf]. split_and!; [done| |eauto].
  cbn [ToID]. apply last_Some in Hl as [seg' ->]. unfold ascending in Hs.
  rewrite Forall_forall in Hf |- *. intros r Hr. split; [by apply Hf|].
  apply elem_of_app in Hr as [Hr|Hr].
  - apply (StronglySorted_app_1_elem_of _ _ _ r l) in Hs; [simpl in Hs; lia|done|by left].
  - apply list_elem_of_singleton in Hr as ->. done.
Qed.

(** ** The ledger against its anchors *)

(** C1. When a ledger passes the check, every anchor that was built over some original rows
    still covers exactly those rows: the rows of the ledger in its range carry, one by one,
    the same hashed text and the same capture hash as the original rows, unless two of the
    hashed texts are a SHA-256 collision. Where none of the two rows' columns but the
    statement holds a separator bar, the same text means the same contents, column by
    column. Rewriting history with a recomputed chain is not an escape. *)
Theorem Verify_tamper_evident rows anchors rep branch from root orig now a :
  Verify rows anchors = Ok rep → Intact rep = true →
  BuildAnchor branch from root orig now = Ok a → a ∈ anchors →
  let now_there := filter (in_range a) (sort_slice (key_less ID) rows) in
  Forall2 same_row orig now_there ∨ collision (root_texts orig) (root_texts now_there).
Proof.
  intros Hv Hi Hb Hin. cbv zeta. unfold Verify in Hv. cbv zeta in Hv.
  destruct (anchor_loop _ _ _ _) as [v| |] eqn:Hl; [|done..]. cbn in Hv.
  injection Hv as <-. cbn [Intact] in Hi. destruct (vproblems v) eqn:Hp; [|done].
  apply anchor_loop_sound in Hl as [_ Hh]; [|apply key_sorted|done].
  rewrite Forall_forall in Hh. destruct (Hh a) as (_ & Hn & Hr & _); [by rewrite sort_slice_perm|].
  apply BuildAnchor_ok in Hb as (_ & _ & l & _ & ->). cbn [EntryCount AMerkleRoot] in Hn, Hr.
  apply rootOf_binding; [by apply Nat2Z.inj|done].
Qed.

(** The check indexes out of bounds, and the caller with it, exactly when some
    anchor file of the known format has a range that jumps back over a row of the
    ledger, or covers no row at all and says so with a count of 0 and no root.
    Every other input gets a report. *)
Theorem Verify_panics_iff rows anchors :
  panics (Verify rows anchors) = true ↔ Exists (crashes (sort_slice (key_less ID) rows)) anchors.
Proof.
  transitivity (Exists (crashes (sort_slice (key_less ID) rows)) (sort_slice (key_less ToID) anchors)).
  - rewrite <-(anchor_loop_panics _ None _
      (mkV (fold_left add_problem (cproblems (chainCheck (sort_slice (key_less ID) rows) EmptyString)) []) [] 0));
      [|apply key_sorted].
    unfold Verify. cbv zeta. by destruct (anchor_loop _ _ _ _).
  - rewrite !Exists_exists. by setoid_rewrite (sort_slice_perm (key_less ToID) anchors).
Qed.

(** ** Lemmas: an honest ledger *)

Lemma ascending_sorted rows : ascending rows → sorted_rows rows.
Proof.
  intros H. induction H as [|r rows Hs IH Hf]; constructor; [done|].
  eapply Forall_impl; [done|]. simpl. lia.
Qed.

Lemma sorted_app_lt l k r s : ascending (l ++ k) → r ∈ l → s ∈ k → ID r < ID s.
Proof. intros Hs Hr Hk. by apply (StronglySorted_app_1_elem_of _ _ _ r s) in Hs. Qed.

Lemma checkpointed_anchors from root segs anchors :
  checkpointed from root segs anchors → ∀ pre post,
  ascending (pre ++ concat segs ++ post) → Forall (λ r, ID r < from) pre →
  Forall (λ r, ID r < max_int64) (concat segs) → min_int64 <= from →
  let rows := pre ++ concat segs ++ post in
  Forall (anchor_holds rows) anchors
  ∧ Forall (λ a, Forall (λ r, in_gap a r = false) rows ∧ from <= FromID a <= ToID a) anchors
  ∧ covered rows anchors = Z.of_nat (List.length (concat segs))
  ∧ StronglySorted (λ a b, ToID a < ToID b) anchors
  ∧ match anchors with
    | [] => True
    | a :: _ => FromID a = from ∧ PrevRoot a = root ∧ linked (Some a) (tail anchors)
    end.
Proof.
  induction 1 as [|branch from root seg now a n segs anchors Hb Hc IH];
    intros pre post Hs Hpre Hmax Hmin; cbv zeta.
  { split_and!; constructor. }
  cbn [concat] in *. apply Forall_app in Hmax as [Hmseg Hmax].
  apply BuildAnchor_ok in Hb as (Hseg & Hfrom & l & Hl & Ha).
  assert (l ∈ seg) as Hin by (apply last_Some in Hl as [? ->]; set_solver).
  assert (from <= ToID a < max_int64) as Hto.
  { rewrite Forall_forall in Hfrom, Hmseg. specialize (Hfrom _ Hin). specialize (Hmseg _ Hin).
    subst a. cbn in *. lia. }
  specialize (IH (pre ++ seg) post). rewrite <-!app_assoc in IH, Hs |- *. cbv zeta in IH.
  destruct IH as (Hh & Hg & Hcov & Hasc & Hlink); [done| |done|lia|].
  { apply Forall_app. split; [eapply Forall_impl; [exact Hpre|] | eapply Forall_impl; [exact Hfrom|]];
      simpl; lia. }
  set (rows := pre ++ seg ++ concat segs ++ post) in *.
  set (a' := mkAnchor _ _ _ _ _ _ _ _ _ _ _).
  assert (FromID a' = from ∧ ToID a' = ToID a ∧ PrevRoot a' = root ∧ AMerkleRoot a' = AMerkleRoot a) as (Hf' & Ht' & Hr' & Hm').
  { by subst a' a. }
  assert (filter (in_range a') rows = seg) as Hrange.
  { subst rows. rewrite !filter_app, (filter_none _ pre), (filter_all _ seg).
    - rewrite <-filter_app, filter_none; [by rewrite app_nil_r|].
      apply Forall_forall. intros r Hr. unfold in_range. rewrite andb_false_iff, !Z.leb_gt, Ht'. right.
      subst a. cbn [ToID]. apply (sorted_app_lt (pre ++ seg) (concat segs ++ post));
        [by rewrite <-app_assoc|set_solver|done].
    - eapply Forall_impl; [exact Hfrom|]. intros r. unfold in_range. rewrite andb_true_iff, !Z.leb_le, Hf', Ht'. lia.
    - eapply Forall_impl; [exact Hpre|]. intros r. simpl. unfold in_range. rewrite andb_false_iff, !Z.leb_gt, Hf'. lia. }
  split_and!.
  - constructor; [|done]. unfold anchor_holds. rewrite Hrange. subst a' a. cbn. eauto 10.
  - constructor.
    + rewrite Hf', Ht'. split; [|lia]. apply Forall_forall. intros r Hr. unfold in_gap.
      rewrite andb_false_iff, !Z.ltb_ge, Hf', Ht'. lia.
    + eapply Forall_impl; [exact Hg|]. intros b [? ?]. split; [done|lia].
  - cbn [covered fold_right]. unfold covered in Hcov. rewrite Hcov, Hrange, length_app. lia.
  - constructor; [done|]. eapply Forall_impl; [exact Hg|]. rewrite Ht'. intros b [_ ?]. lia.
  - done.
  - done.
  - cbn [tail]. destruct anchors as [|b anchors]; [done|].
    destruct Hlink as (Hbf & Hbr & Hlk). cbn [linked]. split; [|done]. unfold link_ok.
    rewrite Hbf, Hbr, Ht', Hm'. split; [|done]. symmetry. apply wrap64_id. unfold in_int64. lia.
Qed.

Lemma chain_ok_perm_sorted rows rows' :
  ascending rows → rows' ≡ₚ rows → sort_slice (key_less ID) rows' = rows.
Proof.
  intros Hs HP. apply (strict_sorted_unique ID); [|done|by rewrite sort_slice_perm].
  apply key_sort_strict. rewrite HP. apply StronglySorted_NoDup_Z; done.
Qed.

(** The rows of the segments lie between the first anchor's first id and the last one's
    last, which is one of theirs. *)
Lemma checkpointed_span from root segs anchors :
  checkpointed from root segs anchors →
  match last anchors with
  | Some l => Forall (λ r, from <= ID r <= ToID l) (concat segs) ∧ from <= ToID l ∧ ∃ r, r ∈ concat segs ∧ ID r = ToID l
  | None => segs = []
  end.
Proof.
  induction 1 as [|branch from root seg now a n segs anchors Hb Hc IH]; [done|].
  apply BuildAnchor_ok in Hb as (Hseg & Hfrom & l & Hl & Ha).
  assert (l ∈ seg ∧ ToID a = ID l) as [Hin Hto] by (split; [apply last_Some in Hl as [? ->]; set_solver|by subst a]).
  assert (from <= ToID a) as Hle.
  { rewrite Forall_forall in Hfrom. specialize (Hfrom _ Hin). lia. }
  rewrite last_cons. cbn [concat]. destruct (last anchors) as [z|] eqn:Hz; cbn [default].
  - destruct IH as (Hf & Hz' & r & Hr & Hid). split_and!; [|lia|exists r; split; [set_solver|done]].
    apply Forall_app. split; (eapply Forall_impl; [eassumption|]); simpl; lia.
  - subst segs. cbn [concat ToID]. rewrite app_nil_r. split_and!; [done|done|]. by exists l.
Qed.

Lemma checkpointed_unanchored from root segs anchors pre post :
  checkpointed from root segs anchors → ascending (pre ++ concat segs ++ post) → Forall (λ r, ID r < from) pre →
  match anchors with [] => True | a :: _ => FromID a = from end →
  unanchored (pre ++ concat segs ++ post) anchors = Z.of_nat (List.length (pre ++ post)).
Proof.
  intros Hc Hs Hpre Hfrom. apply checkpointed_span in Hc as Hspan. unfold unanchored.
  destruct anchors as [|a anchors]; [cbn in Hspan; by subst segs|]. cbn [head].
  destruct (last (a :: anchors)) as [l|] eqn:Hl; [|by apply last_None in Hl].
  destruct Hspan as (Hin & _ & x & Hx & Hid). rewrite Hfrom.
  rewrite !filter_app, (filter_all _ pre), (filter_none _ (concat segs)), (filter_all _ post); [by rewrite ?app_nil_l| | |].
  - apply Forall_forall. intros r Hr. rewrite orb_true_iff, !Z.ltb_lt. right. rewrite <- Hid. rewrite app_assoc in Hs.
    apply (sorted_app_lt (pre ++ concat segs) post); [done|set_solver|done].
  - eapply Forall_impl; [exact Hin|]. intros r. cbn. rewrite orb_false_iff, !Z.ltb_ge. lia.
  - eapply Forall_impl; [exact Hpre|]. intros r. cbn. rewrite orb_true_iff, !Z.ltb_lt. lia.
Qed.

(** C34. An untouched ledger passes: rows with ascending ids and an unbroken chain,
    anchors taken by BuildAnchor over consecutive segments of them (from any id,
    after any older checkpoint), both handed over in any order, give an intact
    report with the exact counts of rows, chained rows, rows without a hash, checkpoints,
    rows that the anchors cover and rows that they do not, which notes a first anchor whose
    predecessor is missing. *)
Theorem Verify_honest from root pre segs post anchors rows' anchors' :
  let rows := pre ++ concat segs ++ post in
  ascending rows → chain_ok EmptyString rows →
  Forall (λ r, ID r < from) pre → Forall (λ r, ID r < max_int64) (concat segs) → min_int64 <= from →
  checkpointed from root segs anchors → rows' ≡ₚ rows → anchors' ≡ₚ anchors →
  ∃ rep, Verify rows' anchors' = Ok rep ∧ Intact rep = true ∧ Problems rep = []
    ∧ FirstBrokenID rep = 0 ∧ Rows rep = Z.of_nat (List.length rows)
    ∧ Checkpoints rep = Z.of_nat (List.length anchors)
    ∧ ChainedRows rep = Z.of_nat (List.length (filter (λ r, RHash r ≠ EmptyString) rows))
    ∧ LegacyRows rep = Z.of_nat (List.length (filter (λ r, RHash r = EmptyString) rows))
    ∧ AnchoredRows rep = Z.of_nat (List.length (concat segs))
    ∧ UnanchoredRows rep = Z.of_nat (List.length (pre ++ post))
    ∧ Notes rep = (if String.eqb root EmptyString then [] else take 1 anchors).
Proof.
  intros rows Hs Hc Hpre Hmax Hmin Hck HPr HPa.
  destruct (checkpointed_anchors _ _ _ _ Hck pre post) as (Hh & Hg & Hcov & Hasc & Hlink); [done..|].
  assert (unanchored rows anchors = Z.of_nat (List.length (pre ++ post))) as Hun.
  { eapply checkpointed_unanchored; [done..|]. destruct anchors as [|a t]; [done|]. by destruct Hlink. }
  fold rows in Hh, Hg, Hcov. clearbody rows.
  assert (sort_slice (key_less ToID) anchors' = anchors) as Hsa.
  { apply (strict_sorted_unique ToID); [|done|by rewrite sort_slice_perm].
    apply key_sort_strict. rewrite HPa. by apply StronglySorted_NoDup_Z. }
  unfold Verify. cbv zeta. rewrite (chain_ok_perm_sorted rows rows'), Hsa by done.
  unfold chainCheck. rewrite chain_go_ok by done. cbn [cproblems fold_left].
  destruct (anchor_loop_complete rows None anchors (mkV [] [] 0)) as (v & -> & Hp & Ha & Hn).
  { by apply ascending_sorted. } { done. }
  { destruct anchors as [|a t]; [done|]. by destruct Hlink as (_ & _ & ?). }
  { eapply Forall_impl; [exact Hg|]. by intros a [? _]. }
  cbn in Hp, Ha, Hn. eexists. split; [reflexivity|]. cbn. rewrite Hp, Ha, Hn, Hcov. split_and!; try done.
  - rewrite Z.add_0_l. do 2 f_equal. apply list_filter_iff. intros r. by destruct (String.eqb_spec (RHash r) EmptyString).
  - rewrite Z.add_0_l. do 2 f_equal. apply list_filter_iff. intros r. by destruct (String.eqb_spec (RHash r) EmptyString).
  - unfold first_note. destruct anchors as [|a t]; [by destruct (String.eqb _ _)|].
    destruct Hlink as (_ & -> & _). by destruct (String.eqb _ _).
Qed.

(** C33. The chain commits to everything before it: two ledgers that both pass
    CheckChain from the start and whose last chained rows carry the same hash hold as
    many chained rows, with the same hashed texts one by one (hence the same contents where
    none of the columns but the statement holds a separator bar), unless two of the hashed
    row texts are a SHA-256 collision. *)
Theorem CheckChain_commits rows rows' h :
  CheckChain None rows = Ok tt → CheckChain None rows' = Ok tt →
  let chain := filter (λ r, RHash r ≠ EmptyString) in
  RHash <$> last (chain rows) = h → RHash <$> last (chain rows') = h →
  Forall2 same_text (chain rows) (chain rows')
  ∨ collision (row_text <$> chain rows) (row_text <$> chain rows').
Proof.
  intros Hc Hc'. cbv zeta. intros Hl Hl'.
  apply CheckChain_ok, (chain_ok_back _ []) in Hc, Hc'; [|done..]. rewrite app_nil_r in Hc, Hc'.
  destruct (back_linked_commits _ _ Hc Hc') as [H|H];
    [rewrite !head_reverse; congruence|left|right].
  - apply Forall2_reverse in H. by rewrite !reverse_involutive in H.
  - revert H. rewrite !fmap_reverse. apply collision_mono; intros x; by rewrite elem_of_reverse.
Qed.

(** BuildAnchor accepts exactly the non-empty row lists with ascending ids from
    [from] on, and then reports their last id, number, last row hash and root; the
    error names the first row out of order. *)
Theorem BuildAnchor_spec branch from root rows now :
  match BuildAnchor branch from root rows now with
  | Ok a => rows ≠ [] ∧ ascending rows ∧ Forall (λ r, from <= ID r <= ToID a) rows
      ∧ FromID a = from ∧ PrevRoot a = root ∧ EntryCount a = Z.of_nat (List.length rows)
      ∧ AMerkleRoot a = rootOf rows ∧ anchor_holds rows a ∧ ABranch a = branch ∧ CreatedAt a = now
  | Err NoRows => rows = []
  | Err (NotAscending f id) => f = from ∧ ∃ l r k,
      rows = l ++ r :: k ∧ ID r = id ∧ ascending l ∧ Forall (λ x, from <= ID x) l
      ∧ (id < from ∨ ∃ p, last l = Some p ∧ id <= ID p)
  | Panic _ => False
  end.
Proof.
  destruct (BuildAnchor branch from root rows now) as [a|e|w] eqn:Hb.
  - apply BuildAnchor_ok in Hb as (Hs & Hf & l & Hl & ->).
    assert (filter (in_range (mkAnchor AnchorFormat MerkleAlgorithm branch 0 from (ID l)
      (Z.of_nat (List.length rows)) (RowHash l) (rootOf rows) root now)) rows = rows) as Hr.
    { apply filter_all. eapply Forall_impl; [exact Hf|]. intros x. unfold in_range. cbn.
      rewrite andb_true_iff, !Z.leb_le. done. }
    split_and!; try done; [by intros ->|]. unfold anchor_holds. rewrite Hr. cbn. eauto 10.
  - unfold BuildAnchor in Hb. destruct (last rows) as [lst|] eqn:Hl.
    + destruct (bad_id from None rows) as [id|] eqn:Hbad; [|done]. injection Hb as <-.
      split; [done|]. apply bad_id_some in Hbad as (l & r & k & -> & Hid & [Hs Hf]%bad_id_none & Hbad).
      exists l, r, k. split_and!; try done.
      * eapply Forall_impl; [exact Hf|]. by intros x [? _].
      * destruct Hbad as [?|(p & Hp & ?)]; [by left|]. right.
        destruct (last l) as [q|]; [|done]. exists q. split; [done|]. by injection Hp as ->.
    + injection Hb as <-. by apply last_None in Hl.
  - unfold BuildAnchor in Hb. destruct (last rows); [|done]. by destruct (bad_id _ _ _).
Qed.

(** Anchor files sort, as file names, in checkpoint order. *)
Theorem AnchorFileName_order a b :
  0 <= a <= max_int64 → 0 <= b <= max_int64 →
  str_lt (AnchorFileName a) (AnchorFileName b) = (a <? b).
Proof.
  intros Ha Hb. unfold AnchorFileName, str_lt, String.ltb, pad0_int.
  destruct (Z.ltb_spec a 0), (Z.ltb_spec b 0); [lia..|].
  rewrite compare_app_tail, pad0_compare by (rewrite ?length_pad0; unfold max_int64 in *; lia).
  rewrite <-N2Z.inj_compare, !Z2N.id by lia. done.
Qed.

(** A separator inside a column moves freely to the next one: the hash does not
    tell an actor [a|b] of kind [c] from an actor [a] of kind [b|c]. *)
Theorem RowHash_separator_ambiguous id t a b c tool session branch tag ot oi st status risk prev h e h' e' :
  RowHash (mkRow id t (a +:+ "|" +:+ b) c tool session branch tag ot oi st status risk prev h e)
  = RowHash (mkRow id t a (b +:+ "|" +:+ c) tool session branch tag ot oi st status risk prev h' e').
Proof.
  unfold RowHash, row_text. do 2 f_equal. unfold row_fields. cbn [PrevHash ID At Actor ActorKind Tool
    Session Branch CommandTag ObjectType ObjectIdentity Statement Status Risk Join].
  by rewrite !sapp_assoc.
Qed.

(** The order in which rows and anchor files are read does not matter. *)
Theorem Verify_order_independent rows rows' anchors anchors' :
  NoDup (ID <$> rows) → NoDup (ToID <$> anchors) → rows ≡ₚ rows' → anchors ≡ₚ anchors' →
  Verify rows anchors = Verify rows' anchors'.
Proof.
  intros Nr Na Hr Ha. unfold Verify.
  by rewrite (key_sort_perm ID rows rows'), (key_sort_perm ToID anchors anchors') by done.
Qed.

(** ** Witnesses *)

Lemma sample_row_plain id prev h :
  1 <= id <= 3 → has_byte "|" prev = false → plain_row (sample_row id prev h).
Proof.
  intros Hid Hp. assert (id = 1 ∨ id = 2 ∨ id = 3) as Hc by lia. split.
  - destruct Hc as [-> | [-> | ->]]; vm_compute; intuition congruence.
  - unfold sample_row. cbn [PrevHash Actor ActorKind Tool Session Branch CommandTag ObjectType
      ObjectIdentity Statement Status Risk].
    apply Forall_cons. split; [exact Hp|]. clear. repeat constructor.
Qed.

Lemma sample_plain : Forall plain_row [legacy1; row2; row3].
Proof.
  rewrite !Forall_cons. split_and!; [apply sample_row_plain; [lia|].. | apply Forall_nil; exact I].
  - reflexivity.
  - reflexivity.
  - vm_compute. reflexivity.
Qed.

Lemma Verify_tamper_evident_witness :
  Forall plain_row [legacy1; row2; row3] ∧ ∃ rep, Verify [row3; legacy1; row2] [sample_anchor] = Ok rep ∧ Intact rep = true ∧
  (Forall2 same_row [row2; row3] (filter (in_range sample_anchor) (sort_slice (key_less ID) [row3; legacy1; row2]))
   ∨ collision (root_texts [row2; row3])
       (root_texts (filter (in_range sample_anchor) (sort_slice (key_less ID) [row3; legacy1; row2])))).
Proof.
  split; [exact sample_plain|]. eexists. split; [vm_compute; reflexivity|]. split; [reflexivity|].
  eapply (Verify_tamper_evident [row3; legacy1; row2] [sample_anchor] _ "main" 2 "" [row2; row3] 0).
  - vm_compute; reflexivity.
  - reflexivity.
  - reflexivity.
  - constructor.
Defined.

Lemma Verify_honest_witness :
  ∃ rep, Verify [row3; legacy1; row2] [sample_anchor] = Ok rep ∧ Intact rep = true ∧ AnchoredRows rep = 2.
Proof.
  destruct (Verify_honest 2 "" [legacy1] [[row2; row3]] [] [sample_anchor] [row3; legacy1; row2] [sample_anchor])
    as (rep & H1 & H2 & _ & _ & _ & _ & _ & _ & H3 & _).
  - repeat constructor.
  - cbn [app concat chain_ok]. split; [|split; [|split; [|split]]]; reflexivity.
  - repeat constructor.
  - repeat constructor.
  - done.
  - by apply (checkpointed_cons "main" 2 "" [row2; row3] 0 sample_anchor 0 [] []); [|constructor].
  - apply (Permutation_app_comm [row3] [legacy1; row2]).
  - apply Permutation_refl.
  - exact (ex_intro _ rep (conj H1 (conj H2 H3))).
Defined.

Lemma CheckChain_commits_witness :
  let chain := filter (λ r, RHash r ≠ EmptyString) in
  Forall2 same_text (chain [legacy1; row2; row3]) (chain [row2; row3])
  ∨ collision (row_text <$> chain [legacy1; row2; row3]) (row_text <$> chain [row2; row3]).
Proof.
  assert (filter (λ r, RHash r ≠ EmptyString) [legacy1; row2; row3] = [row2; row3]) as H1
    by (vm_compute; reflexivity).
  assert (filter (λ r, RHash r ≠ EmptyString) [row2; row3] = [row2; row3]) as H2
    by (vm_compute; reflexivity).
  apply (CheckChain_commits [legacy1; row2; row3] [row2; row3] (Some (RHash row3))).
  - vm_compute. reflexivity.
  - vm_compute. reflexivity.
  - rewrite H1. reflexivity.
  - rewrite H2. reflexivity.
Defined.

Lemma AnchorFileName_order_witness : str_lt (AnchorFileName 9) (AnchorFileName 10) = true.
Proof. exact (AnchorFileName_order 9 10 ltac:(done) ltac:(done)). Defined.

Lemma Verify_order_independent_witness :
  Verify [row2; row3] [sample_anchor] = Verify [row3; row2] [sample_anchor].
Proof.
  apply Verify_order_independent; [|apply NoDup_singleton|apply Permutation_swap|done].
  apply (bool_decide_unpack _). reflexivity.
Defined.

(** Both ways to make the check crash. *)
Example Verify_crash_inverted :
  panics (Verify [row2; row3] [mkAnchor AnchorFormat MerkleAlgorithm "main" 1 4 2 0 "" "" "" 0]) = true.
Proof. vm_compute. reflexivity. Qed.
Example Verify_crash_empty :
  panics (Verify [row2; row3] [mkAnchor AnchorFormat MerkleAlgorithm "main" 1 9 9 0 "" "" "" 0]) = true.
Proof. vm_compute. reflexivity. Qed.
