(* ===== verification/Version.v ===== *)
(** * Release versions

    internal/update/version.go: parsing, comparison and printing. Numbers are
    Go's int on a 64-bit platform; Atoi rejects what does not fit. *)
From S2P Require Import Prelude GoStrings GoNum.
Open Scope Z_scope.

(** ** Definitions *)

Record Version : Type := mkVersion { Major : Z; Minor : Z; Patch : Z; Pre : string }.

#[export] Instance Version_eq_dec : EqDecision Version.
Proof. solve_decision. Defined.

(** strings.Trim with the ten digits. *)
Definition trim_digits (p : string) : string := trim_right_by is_digit (trim_left_by is_digit p).

(** One dotted part: all digits, and it fits an int. *)
Definition parse_part (p : string) : option Z :=
  if String.eqb p EmptyString || negb (String.eqb (trim_digits p) EmptyString) then None else atoi p.

(** What comes before the first '-', and the pre-release after it. *)
Definition split_pre (t : string) : option (string * string) :=
  match cut_byte "-" t with
  | Some (a, b) => if String.eqb b EmptyString then None else Some (a, b)
  | None => Some (t, EmptyString)
  end.

(** What is left of the text once the white space and the prefix are gone. *)
Definition parse_body (t : string) : option Version :=
  '(t, pre) ← split_pre t;
  let parts := Split "." t in
  if String.eqb t EmptyString || (3 <? List.length parts)%nat then None else
  nums ← mapM parse_part parts;
  match nums with
  | [a] => Some (mkVersion a 0 0 pre)
  | [a; b] => Some (mkVersion a b 0 pre)
  | [a; b; c] => Some (mkVersion a b c pre)
  | _ => None
  end.

Definition ParseVersion (s : string) : option Version :=
  parse_body (TrimPrefix (TrimPrefix (TrimSpace s) "v") "V").

(** The loop over the three numbers: the first difference decides. *)
Fixpoint compare_nums (l : list (Z * Z)) : option Z :=
  match l with
  | [] => None
  | (x, y) :: t => if negb (x =? y) then Some (if x <? y then -1 else 1) else compare_nums t
  end.

Definition Compare (v o : Version) : Z :=
  match compare_nums [(Major v, Major o); (Minor v, Minor o); (Patch v, Patch o)] with
  | Some c => c
  | None =>
      if String.eqb (Pre v) (Pre o) then 0
      else if String.eqb (Pre v) EmptyString then 1
      else if String.eqb (Pre o) EmptyString then -1
      else if str_lt (Pre v) (Pre o) then -1
      else 1
  end.

Definition IsDev (v : Version) : bool :=
  String.eqb (Pre v) "dev" || HasSuffix (Pre v) "-dev" || HasSuffix (Pre v) ".dev".

Definition VString (v : Version) : string :=
  let s := format_int (Major v) +:+ "." +:+ format_int (Minor v) +:+ "." +:+ format_int (Patch v) in
  if String.eqb (Pre v) EmptyString then s else s +:+ "-" +:+ Pre v.

(** What the parser can produce: three non-negative ints. *)
Definition wf_version (v : Version) : Prop :=
  0 <= Major v <= max_int64 ∧ 0 <= Minor v <= max_int64 ∧ 0 <= Patch v <= max_int64.

(** An order on versions written as one comparison of (numbers, pre-release),
    the empty pre-release last. *)
Definition pre_rank (p : string) : Z := if String.eqb p EmptyString then 1 else 0.
Definition version_lt (v o : Version) : Prop :=
  Major v < Major o
  ∨ Major v = Major o ∧ (Minor v < Minor o
  ∨ Minor v = Minor o ∧ (Patch v < Patch o
  ∨ Patch v = Patch o ∧ (pre_rank (Pre v) < pre_rank (Pre o)
  ∨ pre_rank (Pre v) = pre_rank (Pre o) ∧ str_lt (Pre v) (Pre o) = true))).

(** ** Lemmas: the order *)

Lemma Compare_cases v o :
  (Compare v o = -1 ∧ version_lt v o) ∨ (Compare v o = 0 ∧ v = o) ∨ (Compare v o = 1 ∧ version_lt o v).
Proof.
  destruct v as [a b c p], o as [a' b' c' p'].
  unfold Compare, version_lt, pre_rank, compare_nums. cbn [Major Minor Patch Pre].
  destruct (Z.eqb_spec a a') as [<-|Ha]; cbn [negb].
  2:{ destruct (Z.ltb_spec a a'); [left|right; right]; split; [done|lia|done|lia]. }
  destruct (Z.eqb_spec b b') as [<-|Hb]; cbn [negb].
  2:{ destruct (Z.ltb_spec b b'); [left|right; right]; split; [done|lia|done|lia]. }
  destruct (Z.eqb_spec c c') as [<-|Hc]; cbn [negb].
  2:{ destruct (Z.ltb_spec c c'); [left|right; right]; split; [done|lia|done|lia]. }
  destruct (String.eqb_spec p p') as [<-|Hp]; [right; left; done|].
  destruct (String.eqb_spec p EmptyString) as [->|Hp1], (String.eqb_spec p' EmptyString) as [->|Hp2];
    [done|right; right; split; [done|lia]|left; split; [done|lia]|].
  destruct (str_lt p p') eqn:Hlt; [left; split; [done|]; tauto|].
  right; right. split; [done|]. rewrite str_lt_total, Hlt by done. tauto.
Qed.

Lemma version_lt_irrefl v : ¬ version_lt v v.
Proof. unfold version_lt. rewrite str_lt_irrefl. intros H. repeat destruct H as [H|[_ H]]; (lia || done). Qed.

Lemma version_lt_trans u v w : version_lt u v → version_lt v w → version_lt u w.
Proof.
  unfold version_lt. intros H1 H2.
  destruct H1 as [H1|[E1 [H1|[E2 [H1|[E3 [H1|[E4 H1]]]]]]]];
  destruct H2 as [H2|[F1 [H2|[F2 [H2|[F3 [H2|[F4 H2]]]]]]]];
  try (left; lia); right; (split; [lia|]); try (left; lia); right; (split; [lia|]);
  try (left; lia); right; (split; [lia|]); try (left; lia); right; (split; [lia|]).
  by eapply str_lt_trans.
Qed.

Lemma Compare_lt v o : Compare v o = -1 ↔ version_lt v o.
Proof.
  destruct (Compare_cases v o) as [[-> H]|[[-> ->]|[-> H]]]; split; try done.
  - by intros ?%version_lt_irrefl.
  - intros H'. by destruct (version_lt_irrefl v (version_lt_trans _ _ _ H' H)).
Qed.

Lemma Compare_gt v o : Compare v o = 1 ↔ version_lt o v.
Proof.
  destruct (Compare_cases v o) as [[-> H]|[[-> ->]|[-> H]]]; split; try done.
  - intros H'. by destruct (version_lt_irrefl v (version_lt_trans _ _ _ H H')).
  - by intros ?%version_lt_irrefl.
Qed.

Lemma Compare_opp u v : Compare u v = - Compare v u.
Proof.
  destruct (Compare_cases u v) as [[Hc H]|[[Hc H]|[Hc H]]]; rewrite Hc.
  - by rewrite (proj2 (Compare_gt v u)).
  - subst. by rewrite Hc.
  - by rewrite (proj2 (Compare_lt v u)).
Qed.

Lemma Compare_le_trans u v w : Compare u v <= 0 → Compare v w <= 0 → Compare u w <= 0.
Proof.
  intros H1 H2. destruct (Compare_cases u v) as [[_ Hu]|[[_ ->]|[Hc _]]]; [|done|lia].
  destruct (Compare_cases v w) as [[_ Hv]|[[_ <-]|[Hc _]]]; [| |lia].
  - rewrite (proj2 (Compare_lt u w)); [done|]. by eapply version_lt_trans.
  - by rewrite (proj2 (Compare_lt u v)).
Qed.

(** ** Lemmas: parsing what is printed *)

Lemma drop_while_nil {A} (f : A → bool) l : drop_while f l = [] ↔ forallb f l = true.
Proof. induction l as [|x l IH]; simpl; [done|]. by destruct (f x); simpl. Qed.

Lemma drop_while_head {A} (f : A → bool) l x k : drop_while f l = x :: k → f x = false.
Proof.
  induction l as [|y l IH]; simpl; [done|]. destruct (f y) eqn:Hy; [done|]. by intros [= <- <-].
Qed.

(** Trimming the digits leaves nothing exactly when there is nothing else. *)
Lemma trim_digits_nil p : trim_digits p = EmptyString ↔ all_digits p = true.
Proof.
  unfold trim_digits, trim_right_by, trim_left_by, all_digits. rewrite to_of_bytes, <-drop_while_nil.
  split; [|by intros ->]. intros H. apply (f_equal to_bytes) in H. rewrite to_of_bytes in H.
  apply (f_equal reverse) in H. rewrite reverse_involutive in H. apply drop_while_nil in H.
  destruct (drop_while is_digit (to_bytes p)) as [|x k] eqn:Hd; [done|].
  apply drop_while_head in Hd. rewrite forallb_forall in H.
  rewrite (H x) in Hd; [done|]. apply list_elem_of_In, elem_of_reverse. constructor.
Qed.

Lemma parse_part_format z : 0 <= z <= max_int64 → parse_part (format_int z) = Some z.
Proof.
  intros Hz. unfold parse_part. destruct (String.eqb_spec (format_int z) EmptyString) as [He|_].
  - unfold format_int in He. destruct (Z.ltb_spec z 0); [lia|]. by apply format_N_nonempty in He.
  - rewrite (proj2 (trim_digits_nil _)), String.eqb_refl.
    + cbn. apply atoi_format_int. unfold in_int64, min_int64. lia.
    + unfold format_int. destruct (Z.ltb_spec z 0); [lia|]. apply format_N_digits.
Qed.

Lemma parse_part_range p z : parse_part p = Some z → 0 <= z <= max_int64.
Proof.
  unfold parse_part. destruct (_ || _) eqn:Hc; [done|].
  apply orb_false_iff in Hc as [Hne Hd]. apply negb_false_iff, String.eqb_eq, trim_digits_nil in Hd.
  destruct (all_digits_go 0 p Hd) as [n Hn].
  rewrite (atoi_digits p n).
  - destruct (Z.leb_spec (Z.of_N n) max_int64); [|done]. intros [= <-]. lia.
  - by destruct p.
Qed.

Lemma dotted_no_dash v : wf_version v → has_byte "-"
  (format_int (Major v) +:+ "." +:+ format_int (Minor v) +:+ "." +:+ format_int (Patch v)) = false.
Proof.
  intros (H1 & H2 & H3).
  assert (∀ z, 0 <= z → has_byte "-" (format_int z) = false) as H.
  { intros z Hz. unfold format_int. destruct (Z.ltb_spec z 0); [lia|].
    apply all_digits_no_byte; [done|apply format_N_digits]. }
  rewrite !has_byte_app, !H by lia. done.
Qed.

Lemma Split_dotted a b c :
  Split "." (format_int a +:+ "." +:+ format_int b +:+ "." +:+ format_int c)
  = [format_int a; format_int b; format_int c].
Proof.
  assert (∀ z, has_byte "." (format_int z) = false) as H by (intros; by apply format_int_no_byte).
  change ("." +:+ format_int b +:+ "." +:+ format_int c)
    with (String "." (format_int b +:+ String "." (format_int c))).
  by rewrite !Split_app, Split_no_sep by apply H.
Qed.

(** A pre-release that ends in a visible character, or none. *)
Definition plain_pre (p : string) : bool :=
  match last (to_bytes p) with Some d => visible d | None => true end.

Lemma digit_visible c : is_digit c = true → visible c = true.
Proof.
  unfold is_digit, visible, byte_val. rewrite !andb_true_iff, !N.leb_le, !Z.leb_le. lia.
Qed.

Lemma format_int_visible z : 0 <= z → starts_visible (format_int z) ∧ ends_visible (format_int z).
Proof.
  intros Hz. unfold format_int. destruct (Z.ltb_spec z 0); [lia|].
  destruct (format_N_head (Z.to_N z)) as (c & t & Hf & Hc). split.
  - exists c, t. split; [done|by apply digit_visible].
  - pose proof (format_N_digits (Z.to_N z)) as Hd. unfold all_digits in Hd. rewrite forallb_forall in Hd.
    destruct (last (to_bytes (format_N (Z.to_N z)))) as [d|] eqn:Hl.
    + apply last_Some in Hl as [k Hk]. exists k, d. split; [done|].
      apply digit_visible, Hd, list_elem_of_In. rewrite Hk. set_solver.
    + apply last_None in Hl. by rewrite Hf in Hl.
Qed.

Lemma VString_visible v :
  wf_version v → plain_pre (Pre v) = true → starts_visible (VString v) ∧ ends_visible (VString v).
Proof.
  intros (H1 & H2 & H3) Hp. unfold VString.
  destruct (format_int_visible (Major v)) as [Hs _]; [lia|].
  destruct (format_int_visible (Patch v)) as [_ He]; [lia|].
  destruct (String.eqb_spec (Pre v) EmptyString) as [Hn|Hn].
  - split; [by apply starts_visible_app | by do 4 apply ends_visible_app].
  - split; [by do 2 apply starts_visible_app|]. do 2 apply ends_visible_app. unfold plain_pre in Hp.
    destruct (last (to_bytes (Pre v))) as [d|] eqn:Hl.
    + apply last_Some in Hl as [k Hk]. by exists k, d.
    + apply last_None in Hl. destruct Hn. by apply (inj to_bytes).
Qed.

Lemma TrimPrefix_other c d s : Ascii.eqb d c = false → TrimPrefix (String c s) (str1 d) = String c s.
Proof. intros H. unfold TrimPrefix. simpl. by rewrite H. Qed.

Lemma parse_body_VString v : wf_version v → parse_body (VString v) = Some v.
Proof.
  intros Hw. pose proof Hw as (H1 & H2 & H3). unfold parse_body, split_pre, VString.
  set (n := format_int (Major v) +:+ _). assert (n ≠ EmptyString) as Hn.
  { destruct (format_int_visible (Major v)) as [(c & t & Hc & _) _]; [lia|]. unfold n. by rewrite Hc. }
  assert (has_byte "-" n = false) as Hd by by apply dotted_no_dash.
  assert (mapM parse_part (Split "." n) = Some [Major v; Minor v; Patch v]) as Hm.
  { unfold n. rewrite Split_dotted. cbn. by rewrite !parse_part_format. }
  assert ((3 <? List.length (Split "." n))%nat = false) as Hl by (unfold n; by rewrite Split_dotted).
  apply String.eqb_neq in Hn. destruct v as [a b c pre]. cbn [Major Minor Patch Pre] in *.
  destruct (String.eqb_spec pre EmptyString) as [->|Hp].
  - rewrite (proj2 (cut_byte_None _ _)) by done. cbn -[Nat.ltb Split]. by rewrite Hn, Hl, Hm.
  - change ("-" +:+ pre) with (String "-" pre). rewrite cut_byte_app by done. apply String.eqb_neq in Hp.
    rewrite Hp. cbn -[Nat.ltb Split]. by rewrite Hn, Hl, Hm.
Qed.

Lemma parse_body_range t v : parse_body t = Some v → wf_version v.
Proof.
  unfold parse_body. destruct (split_pre t) as [[u pre]|]; [|done]. cbn.
  destruct (_ || _); [done|]. destruct (mapM parse_part (Split "." u)) as [nums|] eqn:Hm; [|done].
  cbn. apply mapM_Some_1 in Hm. intros H.
  assert (Forall (λ z, 0 <= z <= max_int64) nums) as Hf.
  { apply Forall_forall. intros z Hz. apply list_elem_of_lookup in Hz as [i Hi].
    eapply Forall2_lookup_r in Hm as (p & _ & Hp); [|exact Hi]. by eapply parse_part_range. }
  assert (0 <= 0 <= max_int64) by done.
  destruct nums as [|a [|b [|c [|? ?]]]]; try done; injection H as <-;
    rewrite !Forall_cons in Hf; unfold wf_version; cbn; tauto.
Qed.

(** ** Properties *)

(** Compare is a total order on versions: it returns -1, 0 or 1, says 0 exactly
    for equal versions, flips its sign with its arguments, and is transitive. *)
Theorem Compare_total_order u v w :
  (Compare u v = -1 ∨ Compare u v = 0 ∨ Compare u v = 1)
  ∧ (Compare u v = 0 ↔ u = v) ∧ Compare u v = - Compare v u
  ∧ (Compare u v <= 0 → Compare v w <= 0 → Compare u w <= 0).
Proof.
  split_and!.
  - destruct (Compare_cases u v) as [[-> _]|[[-> _]|[-> _]]]; auto.
  - destruct (Compare_cases u v) as [[Hc H]|[[Hc H]|[Hc H]]]; rewrite Hc; split; try done;
      intros ->; by apply version_lt_irrefl in H.
  - apply Compare_opp.
  - apply Compare_le_trans.
Qed.

(** Printing and parsing agree: what String prints of a version, with or without a
    leading v, parses back to it; and whatever parses is a version in range. *)
Theorem ParseVersion_String v s w :
  wf_version v → plain_pre (Pre v) = true → ParseVersion s = Some w →
  ParseVersion (VString v) = Some v ∧ ParseVersion ("v" +:+ VString v) = Some v ∧ wf_version w.
Proof.
  intros Hw Hp Hs. destruct (VString_visible v) as [Hst Hen]; [done..|].
  assert (∃ c t, VString v = String c t ∧ is_digit c = true) as (c & t & Hc & Hd).
  { destruct Hw as (H1 & _). unfold VString, format_int. destruct (Z.ltb_spec (Major v) 0); [lia|].
    destruct (format_N_head (Z.to_N (Major v))) as (c & t & Hf & Hd). rewrite Hf.
    destruct (String.eqb _ _); cbn; eauto. }
  assert (TrimPrefix (VString v) "V" = VString v) as HV.
  { rewrite Hc. apply (TrimPrefix_other c "V"). apply Ascii.eqb_neq. by intros <-. }
  assert (TrimPrefix (VString v) "v" = VString v) as Hv.
  { rewrite Hc. apply (TrimPrefix_other c "v"). apply Ascii.eqb_neq. by intros <-. }
  split_and!.
  - change (parse_body (TrimPrefix (TrimPrefix (TrimSpace (VString v)) "v") "V") = Some v).
    rewrite TrimSpace_plain by by apply plain_ends_intro. by rewrite Hv, HV, parse_body_VString.
  - change (parse_body (TrimPrefix (TrimPrefix (TrimSpace ("v" +:+ VString v)) "v") "V") = Some v).
    rewrite TrimSpace_plain; [by rewrite TrimPrefix_app, HV, parse_body_VString|].
    apply plain_ends_intro; [by exists "v"%char, (VString v)|by apply ends_visible_app].
  - by apply parse_body_range in Hs.
Qed.

Lemma ParseVersion_String_witness :
  let v := mkVersion 0 9 12 "rc1-dev" in
  ParseVersion (VString v) = Some v ∧ ParseVersion ("v" +:+ VString v) = Some v
  ∧ wf_version (mkVersion 1 2 0 "").
Proof.
  apply (ParseVersion_String (mkVersion 0 9 12 "rc1-dev") "V1.2" (mkVersion 1 2 0 ""));
    vm_compute; [repeat split; congruence | reflexivity | reflexivity].
Defined.

Lemma Compare_total_order_witness :
  Compare (mkVersion 0 9 0 "rc1") (mkVersion 0 10 0 "") <= 0.
Proof.
  apply (Compare_total_order (mkVersion 0 9 0 "rc1") (mkVersion 0 9 0 "") (mkVersion 0 10 0 ""));
    vm_compute; congruence.
Defined.

(** Both prefixes go, so a doubled one is accepted. *)
Example ParseVersion_doubled : ParseVersion "vV1.2" = Some (mkVersion 1 2 0 "").
Proof. reflexivity. Qed.
Example ParseVersion_rejects :
  (ParseVersion <$> ["1.2.3.4"; "1..2"; "+1"; "1.2-"; "-dev"; "99999999999999999999"; ""]) = repeat None 7.
Proof. vm_compute. reflexivity. Qed.
