(* ===== verification/Checksums.v ===== *)
(** * SHA256SUMS: internal/update/checksums.go

    The scanner's lines, the accepted line format, the map from names to
    checksums and the check of a downloaded file. *)
From S2P Require Import Prelude GoStrings GoNum Sha256.
Open Scope Z_scope.

(** ** Definitions *)

(** bufio.Scanner: lines without their newline and one trailing carriage
    return; a line that fills the 64 KiB buffer stops the scan with an error. *)
Definition max_token : nat := (64 * 1024)%nat.
Definition strip_cr (l : string) : string := TrimSuffix l (str1 "013").

Fixpoint scan_go (lines : list string) : list string * bool :=
  match lines with
  | [] => ([], true)
  | l :: t =>
      if (max_token <=? String.length l)%nat then ([], false)
      else match t with
           | [] => (if String.eqb l EmptyString then [] else [strip_cr l], true)
           | _ => let '(ls, ok) := scan_go t in (strip_cr l :: ls, ok)
           end
  end.
Definition scan_lines (text : string) : list string * bool := scan_go (Split nl text).

Definition is_hex (c : ascii) : bool :=
  is_digit c || ((97 <=? byte_val c) && (byte_val c <=? 102)) || ((65 <=? byte_val c) && (byte_val c <=? 70)).
(** The regexp class \s. *)
Definition re_space (c : ascii) : bool :=
  let z := byte_val c in (z =? 9) || (z =? 10) || (z =? 12) || (z =? 13) || (z =? 32).

(** The expression of sumLine on a trimmed line: 64 hex digits, white space, an
    optional star, and a name that starts with something visible and runs to the
    end. The star belongs to the name when no name would follow it. *)
Definition sum_line (line : string) : option (string * string) :=
  let bs := to_bytes line in
  let hex := take 64 bs in
  let rest := drop 64 bs in
  if negb ((List.length hex =? 64)%nat && forallb is_hex hex) then None else
  let name := drop_while re_space rest in
  if (List.length name =? List.length rest)%nat then None else
  match name with
  | [] => None
  | c :: n =>
      let starred := Ascii.eqb c "*" && match n with d :: _ => negb (re_space d) | [] => false end in
      Some (of_bytes hex, trim_right_by re_space (of_bytes (if starred then n else name)))
  end.

Inductive sums_error : Type :=
| UnreadableLine (line : string)
| TwoChecksums (name : string)
| TokenTooLong.

Abbreviation Checksums := (gmap string string).

(** One line of the loop. *)
Definition sum_step (out : Checksums) (text : string) : outcome sums_error Checksums :=
  let line := TrimSpace text in
  if String.eqb line EmptyString || HasPrefix line "#" then Ok out else
  match sum_line line with
  | None => Err (UnreadableLine line)
  | Some (hex, name) =>
      let sum := smap lower_byte hex in
      match out !! name with
      | Some prev => if String.eqb prev sum then Ok (<[name := sum]> out) else Err (TwoChecksums name)
      | None => Ok (<[name := sum]> out)
      end
  end.

Fixpoint sum_loop (out : Checksums) (lines : list string) : outcome sums_error Checksums :=
  match lines with
  | [] => Ok out
  | l :: t => out' ← sum_step out l; sum_loop out' t
  end.

Definition ParseChecksums (text : string) : outcome sums_error Checksums :=
  let '(lines, complete) := scan_lines text in
  out ← sum_loop ∅ lines;
  if complete then Ok out else Err TokenTooLong.

(** HashFile, given what reading the file gives. *)
Definition HashFile (content : option string) : option string :=
  hex_encode ∘ sha256 <$> content.

Inductive verify_error : Type :=
| NotListed (name : string)
| Unreadable
| Mismatch (name want got : string).

Definition VerifySum (c : Checksums) (name : string) (content : option string) : outcome verify_error unit :=
  match c !! name with
  | None => Err (NotListed name)
  | Some want =>
      match HashFile content with
      | None => Err Unreadable
      | Some got => if String.eqb got want then Ok tt else Err (Mismatch name want got)
      end
  end.

(** What a line says: nothing, or a checksum for a name. *)
Definition listed (text : string) : option (string * string) :=
  let line := TrimSpace text in
  if String.eqb line EmptyString || HasPrefix line "#" then None
  else '(hex, name) ← sum_line line; Some (name, smap lower_byte hex).

(** ** Lemmas *)

Lemma sum_step_ok out text out' :
  sum_step out text = Ok out' →
  match listed text with
  | None => out' = out
  | Some (name, sum) => out' = <[name := sum]> out ∧ (out !! name = None ∨ out !! name = Some sum)
  end.
Proof.
  unfold sum_step, listed. cbv zeta. destruct (_ || _); [by intros [= <-]|].
  destruct (sum_line (TrimSpace text)) as [[hex name]|]; [|done]. cbn.
  destruct (out !! name) as [prev|] eqn:Hp; [|intros [= <-]; auto].
  destruct (String.eqb_spec prev (smap lower_byte hex)) as [->|]; [|done]. intros [= <-]. auto.
Qed.

Lemma sum_step_keeps out text out' name sum :
  sum_step out text = Ok out' → out !! name = Some sum → out' !! name = Some sum.
Proof.
  intros H%sum_step_ok Ho. destruct (listed text) as [[n s]|]; [|by subst].
  destruct H as [-> Hn]. destruct (decide (n = name)) as [->|]; [|by rewrite lookup_insert_ne].
  rewrite lookup_insert_eq. destruct Hn; congruence.
Qed.

Lemma sum_loop_keeps lines out out' name sum :
  sum_loop out lines = Ok out' → out !! name = Some sum → out' !! name = Some sum.
Proof.
  revert out. induction lines as [|l lines IH]; intros out; cbn [sum_loop]; [by intros [= <-]|].
  destruct (sum_step out l) as [o| |] eqn:Hs; [|done..]. cbn. eauto using sum_step_keeps.
Qed.

Lemma sum_loop_listed lines out out' l name sum :
  sum_loop out lines = Ok out' → l ∈ lines → listed l = Some (name, sum) → out' !! name = Some sum.
Proof.
  revert out. induction lines as [|x lines IH]; intros out H Hin Hl; [by apply not_elem_of_nil in Hin|].
  cbn [sum_loop] in H. destruct (sum_step out x) as [o| |] eqn:Hs; [|done..]. cbn in H.
  apply elem_of_cons in Hin as [->|Hin]; [|by eapply IH].
  apply sum_step_ok in Hs. rewrite Hl in Hs. destruct Hs as [-> _].
  eapply sum_loop_keeps; [done|]. apply lookup_insert_eq.
Qed.

Lemma sum_loop_from lines out out' name sum :
  sum_loop out lines = Ok out' → out' !! name = Some sum →
  out !! name = Some sum ∨ ∃ l, l ∈ lines ∧ listed l = Some (name, sum).
Proof.
  revert out. induction lines as [|x lines IH]; intros out; cbn [sum_loop].
  { intros [= <-]. auto. }
  destruct (sum_step out x) as [o| |] eqn:Hs; [|done..]. cbn. intros H Ho.
  setoid_rewrite elem_of_cons. destruct (IH _ H Ho) as [Hx|(l & Hin & Hl)]; [|eauto].
  apply sum_step_ok in Hs. destruct (listed x) as [[n s]|] eqn:Hn; [|subst; auto].
  destruct Hs as [-> _]. destruct (decide (n = name)) as [->|].
  - rewrite lookup_insert_eq in Hx. injection Hx as ->. eauto.
  - rewrite lookup_insert_ne in Hx by done. auto.
Qed.

Lemma sum_loop_conflict lines out name :
  sum_loop out lines = Err (TwoChecksums name) →
  ∃ l s s', l ∈ lines ∧ listed l = Some (name, s) ∧ s ≠ s'
    ∧ (out !! name = Some s' ∨ ∃ l', l' ∈ lines ∧ listed l' = Some (name, s')).
Proof.
  revert out. induction lines as [|x lines IH]; intros out; cbn [sum_loop]; [done|].
  destruct (sum_step out x) as [o|e|] eqn:Hs; [| |done]; cbn.
  - intros (l & s & s' & Hin & Hl & Hne & Ho)%IH. exists l, s, s'.
    split_and!; [by right|done|done|]. destruct Ho as [Ho|(l' & Hin' & Hl')]; [|right; exists l'; split; [by right|done]].
    apply sum_step_ok in Hs. destruct (listed x) as [[n t]|] eqn:Hn; [|subst; auto].
    destruct Hs as [-> _]. destruct (decide (n = name)) as [->|].
    + rewrite lookup_insert_eq in Ho. injection Ho as ->. right. exists x. split; [by left|done].
    + rewrite lookup_insert_ne in Ho by done. auto.
  - intros [= ->]. unfold sum_step in Hs. cbv zeta in Hs. destruct (_ || _) eqn:Hc; [done|].
    destruct (sum_line (TrimSpace x)) as [[hex n]|] eqn:Hl; [|done].
    destruct (out !! n) as [prev|] eqn:Ho; [|done].
    destruct (String.eqb_spec prev (smap lower_byte hex)) as [|Hne]; [done|].
    injection Hs as <-. exists x, (smap lower_byte hex), prev. split_and!; [by left| |done|auto].
    unfold listed. cbv zeta. by rewrite Hc, Hl.
Qed.

(** ** Properties *)

(** The checksum table is what the file lists: when SHA256SUMS is accepted, a name
    has a checksum exactly if some line lists it with that checksum (every line is
    read, no name has two); when it is refused for a conflict, two lines do give
    that name different checksums. *)
Theorem ParseChecksums_spec text :
  match ParseChecksums text with
  | Ok c => (scan_lines text).2 = true
      ∧ ∀ name sum, c !! name = Some sum ↔ ∃ l, l ∈ (scan_lines text).1 ∧ listed l = Some (name, sum)
  | Err (TwoChecksums name) => ∃ l l' s s',
      l ∈ (scan_lines text).1 ∧ l' ∈ (scan_lines text).1 ∧ s ≠ s'
      ∧ listed l = Some (name, s) ∧ listed l' = Some (name, s')
  | Err TokenTooLong => (scan_lines text).2 = false
  | Err (UnreadableLine _) => True
  | Panic _ => False
  end.
Proof.
  unfold ParseChecksums. destruct (scan_lines text) as [lines complete]. cbn [fst snd].
  destruct (sum_loop ∅ lines) as [c|e|w] eqn:Hl; cbn.
  - destruct complete; [|done]. split; [done|]. intros name sum. split.
    + intros Hc. by destruct (sum_loop_from _ _ _ _ _ Hl Hc) as [?|?].
    + intros (l & Hin & Hx). by eapply sum_loop_listed.
  - destruct e as [l|name|]; [done| |].
    + apply sum_loop_conflict in Hl as (l & s & s' & Hin & Hs & Hne & [Ho|(l' & Hin' & Hs')]); [done|].
      by exists l, l', s, s'.
    + exfalso. clear complete. revert Hl. generalize (∅ : gmap string string).
      induction lines as [|l lines IH]; intros m; cbn [sum_loop]; [done|].
      destruct (sum_step m l) as [o|e|] eqn:Hs; cbn; [by apply IH| |done].
      intros [= ->]. unfold sum_step in Hs. cbv zeta in Hs. destruct (_ || _); [done|].
      destruct (sum_line _) as [[hex n]|]; [|done]. destruct (_ !! n); [|done]. by destruct (String.eqb _ _).
  - exfalso. clear complete. revert Hl. generalize (∅ : gmap string string).
    induction lines as [|l lines IH]; intros m; cbn [sum_loop]; [done|].
    destruct (sum_step m l) as [o|e|] eqn:Hs; cbn; [by apply IH|done|].
    intros [= ->]. unfold sum_step in Hs. cbv zeta in Hs. destruct (_ || _); [done|].
    destruct (sum_line _) as [[hex n]|]; [|done]. destruct (_ !! n); [|done]. by destruct (String.eqb _ _).
Qed.

(** Lines in the shapes the release script and sha256sum write, and conflicts. *)
Definition sample_sum : string := of_bytes (repeat "a"%char 64).
Example sum_line_plain : sum_line (sample_sum +:+ "  odb-linux-amd64") = Some (sample_sum, "odb-linux-amd64").
Proof. vm_compute. reflexivity. Qed.
Example sum_line_binary : sum_line (sample_sum +:+ " *odb.exe") = Some (sample_sum, "odb.exe").
Proof. vm_compute. reflexivity. Qed.
Example sum_line_star : sum_line (sample_sum +:+ " *") = Some (sample_sum, "*").
Proof. vm_compute. reflexivity. Qed.
Example sum_line_glued : sum_line (sample_sum +:+ "odb") = None.
Proof. vm_compute. reflexivity. Qed.
Example sums_conflict :
  ParseChecksums (sample_sum +:+ "  x" +:+ str1 nl +:+ "b" +:+ TrimPrefix sample_sum "a" +:+ "  x")
  = Err (TwoChecksums "x").
Proof. vm_compute. reflexivity. Qed.
