(* ===== verification/Select.v ===== *)
(** * Choosing a release to install: internal/update/select.go

    The list of releases is what GitHub answered; downloading SHA256SUMS and the
    context's cancellation are parameters, as the network gives them. *)
From S2P Require Import Prelude GoStrings GoNum GoSort Version Checksums.
Open Scope Z_scope.

(** ** Data *)

Record Asset : Type := mkAsset { AName : string; ASize : Z; AURL : string }.
Record Release : Type := mkRelease {
  Tag : string; Draft : bool; Prerelease : bool; HTMLURL : string; Assets : list Asset }.
Record Target : Type := mkTarget { GOOS : string; HostArch : string; GuestArch : string }.
Record Offer : Type := mkOffer {
  ORelease : Release; OVersion : Version; OSums : Checksums; ORequired : list string }.

Inductive select_error : Type :=
| BadVersion (pin : string)
| NotNewer (tag : string) (current : Version)
| MissingFiles (tag : string) (names : list string)
| NoSuchRelease (pin : string)
| ListFailed
| Canceled
| FetchFailed (tag : string)
| BadSums (tag : string) (e : sums_error)
| Unlisted (tag : string) (names : list string)
| NothingPinned (tag : string)
| NothingUsable.

Definition SumsAsset : string := "SHA256SUMS".
Definition ImageContextAsset : string := "oxyndb-docker-context.tar.gz".

(** ** Files a platform needs *)

Definition EngineAsset (t : Target) : string :=
  if String.eqb (GOOS t) "windows" then "odb-linux-amd64"
  else if String.eqb (GOOS t) "darwin" && negb (String.eqb (GuestArch t) EmptyString)
  then "odb-linux-" +:+ GuestArch t
  else "odb-linux-" +:+ HostArch t.

Definition HostAsset (t : Target) : string :=
  if String.eqb (GOOS t) "darwin" then "odb-darwin-" +:+ HostArch t
  else if String.eqb (GOOS t) "windows" then "odb-windows-amd64.exe"
  else EmptyString.

Definition RequiredAssets (t : Target) : list string :=
  (if String.eqb (HostAsset t) EmptyString then [] else [HostAsset t])
  ++ [EngineAsset t]
  ++ (if String.eqb (GOOS t) "windows" then [ImageContextAsset] else []).

(** Release.Asset. *)
Definition find_asset (r : Release) (name : string) : option Asset :=
  List.find (λ a, String.eqb (AName a) name) (Assets r).
Definition has_asset (r : Release) (name : string) : bool :=
  match find_asset r name with Some _ => true | None => false end.

Definition missingAssets (r : Release) (required : list string) : list string :=
  List.filter (λ name, negb (has_asset r name)) (SumsAsset :: required).
Definition no_missing (r : Release) (required : list string) : bool :=
  match missingAssets r required with [] => true | _ => false end.

(** ** Candidates *)

(** The loop for a pinned tag. *)
Fixpoint pinned_go (rels : list Release) (current want : Version) (required : list string) (pin : string)
    : outcome select_error (list Release) :=
  match rels with
  | [] => Err (NoSuchRelease pin)
  | r :: t =>
      match ParseVersion (Tag r) with
      | None => pinned_go t current want required pin
      | Some v =>
          if negb (Compare v want =? 0) || Draft r then pinned_go t current want required pin
          else if Compare v current <=? 0 then Err (NotNewer (Tag r) current)
          else match missingAssets r required with
               | [] => Ok [r]
               | m => Err (MissingFiles (Tag r) m)
               end
      end
  end.

(** A release the unpinned loop keeps, with its version. *)
Definition candidate (current : Version) (required : list string) (r : Release) : option (Release * Version) :=
  if Draft r || Prerelease r then None
  else match ParseVersion (Tag r) with
       | None => None
       | Some v =>
           if Compare v current <=? 0 then None
           else if no_missing r required then Some (r, v) else None
       end.

Definition newer_first (a b : Release * Version) : bool := 0 <? Compare (a.2) (b.2).

Definition Candidates (rels : list Release) (current : Version) (t : Target) (pin : string)
    : outcome select_error (list Release) :=
  let required := RequiredAssets t in
  if negb (String.eqb pin EmptyString) then
    match ParseVersion pin with
    | None => Err (BadVersion pin)
    | Some want => pinned_go rels current want required pin
    end
  else Ok (fst <$> sort_slice newer_first (omap (candidate current required) rels)).

(** ** Resolve, Release and Available *)

Section network.
(** The answer to a download of a small file, and whether the context is done
    before each candidate. *)
Context (fetchSmall : string → option string) (ctx_done : nat → bool).

Definition asset_url (r : Release) (name : string) : string :=
  match find_asset r name with Some a => AURL a | None => EmptyString end.

Definition unlisted_of (sums : Checksums) (required : list string) : list string :=
  List.filter (λ name, match sums !! name with Some _ => false | None => true end) required.

(** One candidate of Resolve: its offer, or why it is passed over. *)
Definition try_candidate (required : list string) (r : Release) : outcome select_error Offer :=
  match fetchSmall (asset_url r SumsAsset) with
  | None => Err (FetchFailed (Tag r))
  | Some body =>
      match ParseChecksums body with
      | Err e => Err (BadSums (Tag r) e)
      | Panic w => Panic w
      | Ok sums =>
          match unlisted_of sums required with
          | [] => Ok (mkOffer r (default (mkVersion 0 0 0 EmptyString) (ParseVersion (Tag r))) sums required)
          | names => Err (Unlisted (Tag r) names)
          end
      end
  end.

Fixpoint resolve_go (i : nat) (cands : list Release) (required : list string) (pin : string)
    (lastErr : option select_error) : outcome select_error (option Offer) :=
  match cands with
  | [] =>
      match lastErr with
      | Some e => if negb (String.eqb pin EmptyString) then Err e else Ok None
      | None => Ok None
      end
  | r :: t =>
      if ctx_done i then Err Canceled
      else match try_candidate required r with
           | Ok o => Ok (Some o)
           | Err e => resolve_go (S i) t required pin (Some e)
           | Panic w => Panic w
           end
  end.

Definition Resolve (list_releases : option (list Release)) (current : Version) (t : Target) (pin : string)
    : outcome select_error (option Offer) :=
  match list_releases with
  | None => Err ListFailed
  | Some rels =>
      cands ← Candidates rels current t pin;
      resolve_go 0 cands (RequiredAssets t) pin None
  end.

Definition Available (list_releases : option (list Release)) (current : Version) (t : Target)
    : outcome select_error (option Offer) :=
  match list_releases with
  | None => Err ListFailed
  | Some rels =>
      cands ← Candidates rels current t EmptyString;
      match cands with
      | [] => Ok None
      | r :: _ =>
          match ParseVersion (Tag r) with
          | None => Err (BadVersion (Tag r))
          | Some v => Ok (Some (mkOffer r v ∅ (RequiredAssets t)))
          end
      end
  end.

(** The loop of Release: the releases it may install from, in order. *)
Fixpoint usable_go (rels : list Release) (pinned : bool) (tag : string) (required : list string)
    : outcome select_error (list Release) :=
  match rels with
  | [] => Ok []
  | r :: t =>
      if Draft r then usable_go t pinned tag required
      else if pinned then
        match ParseVersion (Tag r), ParseVersion tag with
        | Some v, Some want =>
            if negb (Compare v want =? 0) then usable_go t pinned tag required
            else match missingAssets r required with
                 | [] => Ok [r]
                 | m => Err (MissingFiles (Tag r) m)
                 end
        | _, _ => usable_go t pinned tag required
        end
      else if Prerelease r then usable_go t pinned tag required
      else match missingAssets r required with
           | [] => rest ← usable_go t pinned tag required; Ok (r :: rest)
           | _ => usable_go t pinned tag required
           end
  end.

(** Tags that don't parse count as version 0. *)
Definition tag_version (r : Release) : Version :=
  default (mkVersion 0 0 0 EmptyString) (ParseVersion (Tag r)).

Definition FindRelease (list_releases : option (list Release)) (tag : string) (t : Target)
    : outcome select_error Offer :=
  match list_releases with
  | None => Err ListFailed
  | Some rels =>
      let required := RequiredAssets t in
      let pinned := negb (String.eqb tag EmptyString) && negb (EqualFold tag "latest") in
      usable ← usable_go rels pinned tag required;
      let usable := if pinned then usable
                    else sort_slice (λ a b, 0 <? Compare (tag_version a) (tag_version b)) usable in
      match usable with
      | [] => if pinned then Err (NothingPinned tag) else Err NothingUsable
      | r :: _ =>
          match fetchSmall (asset_url r SumsAsset) with
          | None => Err (FetchFailed (Tag r))
          | Some body =>
              match ParseChecksums body with
              | Err e => Err (BadSums (Tag r) e)
              | Panic w => Panic w
              | Ok sums =>
                  match head (unlisted_of sums required) with
                  | Some name => Err (Unlisted (Tag r) [name])
                  | None => Ok (mkOffer r (tag_version r) sums required)
                  end
              end
          end
      end
  end.

End network.

(** ** Lemmas *)

(** A release fit to install over [current]. *)
Definition installable (current : Version) (t : Target) (r : Release) : Prop :=
  Draft r = false ∧ missingAssets r (RequiredAssets t) = [] ∧
  ∃ v, ParseVersion (Tag r) = Some v ∧ version_lt current v.

(** Releases in non-increasing version order. *)
Definition newest_first (rels : list Release) : Prop :=
  StronglySorted (λ a b, Compare (tag_version b) (tag_version a) <= 0) rels.

Lemma Compare_pos v o : 0 < Compare v o ↔ version_lt o v.
Proof.
  rewrite <-Compare_gt. destruct (Compare_cases v o) as [[-> _]|[[-> _]|[-> _]]]; lia.
Qed.

Lemma no_missing_true r required : no_missing r required = true ↔ missingAssets r required = [].
Proof. unfold no_missing. by destruct (missingAssets r required). Qed.

Lemma candidate_Some current t r p :
  candidate current (RequiredAssets t) r = Some p ↔
  p.1 = r ∧ Prerelease r = false ∧ installable current t r ∧ ParseVersion (Tag r) = Some p.2.
Proof.
  destruct p as [r' v]. unfold candidate, installable. cbn.
  destruct (Draft r), (Prerelease r); cbn; try (split; [done|naive_solver]).
  destruct (ParseVersion (Tag r)) as [w|]; [|split; [done|naive_solver]].
  destruct (Z.leb_spec (Compare w current) 0) as [Hle|Hgt].
  - split; [done|]. intros (_ & _ & (_ & _ & x & [= <-] & H%Compare_pos) & _). lia.
  - destruct (no_missing r (RequiredAssets t)) eqn:Hm.
    + apply no_missing_true in Hm. apply Compare_pos in Hgt. naive_solver.
    + split; [done|]. intros (_ & _ & (_ & H & _) & _). apply no_missing_true in H. congruence.
Qed.

Lemma pinned_go_ok rels current want t pin out :
  pinned_go rels current want (RequiredAssets t) pin = Ok out →
  ∃ r v, out = [r] ∧ r ∈ rels ∧ installable current t r ∧ ParseVersion (Tag r) = Some v ∧ Compare v want = 0.
Proof.
  induction rels as [|r rels IH]; cbn [pinned_go]; [done|]. setoid_rewrite elem_of_cons.
  destruct (ParseVersion (Tag r)) as [v|] eqn:Hv; [|naive_solver].
  destruct (negb _ || Draft r) eqn:Hc; [naive_solver|].
  apply orb_false_iff in Hc as [Hc Hd]. apply negb_false_iff, Z.eqb_eq in Hc.
  destruct (Z.leb_spec (Compare v current) 0) as [|Hgt]; [done|].
  destruct (missingAssets r (RequiredAssets t)) eqn:Hm; [|done]. intros [= <-].
  apply Compare_pos in Hgt. exists r, v. unfold installable. naive_solver.
Qed.

Lemma sort_newest l :
  StronglySorted (λ a b : Release * Version, Compare b.2 a.2 <= 0) (sort_slice newer_first l).
Proof.
  assert (StronglySorted (le_of newer_first) (sort_slice newer_first l)) as H.
  { apply sort_slice_sorted.
    - intros x y z. unfold newer_first. rewrite !Z.ltb_ge. intros Hxy Hyz.
      by apply (Compare_le_trans z.2 y.2 x.2).
    - intros x y. unfold newer_first. rewrite Z.ltb_lt, Z.ltb_ge, (Compare_opp y.2 x.2). lia. }
  induction H as [|x k Hs IH Hf]; constructor; [done|]. eapply Forall_impl; [exact Hf|].
  intros y. unfold le_of, newer_first. by rewrite Z.ltb_ge.
Qed.

Lemma unlisted_nil sums required :
  unlisted_of sums required = [] ↔ Forall (λ n, is_Some (sums !! n)) required.
Proof.
  unfold unlisted_of. induction required as [|n l IH]; [by split; [constructor|]|].
  rewrite Forall_cons. cbn. destruct (sums !! n); naive_solver.
Qed.

Lemma try_candidate_ok fetch required r o :
  try_candidate fetch required r = Ok o →
  ORelease o = r ∧ ORequired o = required ∧ OVersion o = tag_version r
  ∧ Forall (λ n, is_Some (OSums o !! n)) required
  ∧ ∃ body, fetch (asset_url r SumsAsset) = Some body ∧ ParseChecksums body = Ok (OSums o).
Proof.
  unfold try_candidate. destruct (fetch _) as [body|] eqn:Hf; [|done].
  destruct (ParseChecksums body) as [sums|e|w] eqn:Hp; [|done..].
  destruct (unlisted_of sums required) eqn:Hu; [|done]. intros [= <-]. cbn.
  apply unlisted_nil in Hu. naive_solver.
Qed.

Lemma resolve_go_some fetch done_ i cands required pin last o :
  resolve_go fetch done_ i cands required pin last = Ok (Some o) →
  ∃ before after, cands = before ++ ORelease o :: after
    ∧ Forall (λ r, is_ok (try_candidate fetch required r) = false) before
    ∧ try_candidate fetch required (ORelease o) = Ok o.
Proof.
  revert i last. induction cands as [|r cands IH]; intros i last; cbn [resolve_go].
  { destruct last; [by destruct (negb _)|done]. }
  destruct (done_ i); [done|]. destruct (try_candidate fetch required r) as [o'|e|w] eqn:Ht; [| |done].
  - intros [= <-]. pose proof (try_candidate_ok _ _ _ _ Ht) as (<- & _). by exists [], cands.
  - intros (b & a & -> & Hb & Ho)%IH. exists (r :: b), a. split_and!; [done| |done].
    constructor; [by rewrite Ht|done].
Qed.

Lemma Candidates_in rels current t pin cands :
  Candidates rels current t pin = Ok cands → Forall (λ r, r ∈ rels ∧ installable current t r) cands.
Proof.
  unfold Candidates. cbv zeta. destruct (negb _).
  - destruct (ParseVersion pin) as [want|]; [|done]. intros (r & v & -> & Hr & Hi & _)%pinned_go_ok.
    by apply Forall_singleton.
  - intros [= <-]. apply Forall_fmap, Forall_forall. intros p.
    rewrite sort_slice_perm, list_elem_of_omap. intros (r & Hr & (<- & _ & Hi & _)%candidate_Some).
    done.
Qed.

(** What an offer to update holds. *)
Definition sound_offer (fetch : string → option string) (current : Version) (t : Target) (o : Offer) : Prop :=
  installable current t (ORelease o) ∧ OVersion o = tag_version (ORelease o) ∧ ORequired o = RequiredAssets t
  ∧ Forall (λ n, is_Some (OSums o !! n)) (RequiredAssets t)
  ∧ ∃ body, fetch (asset_url (ORelease o) SumsAsset) = Some body ∧ ParseChecksums body = Ok (OSums o).
Lemma Resolve_sound fetch done_ rels current t pin o :
  Resolve fetch done_ (Some rels) current t pin = Ok (Some o) → sound_offer fetch current t o.
Proof.
  unfold Resolve. destruct (Candidates rels current t pin) as [cands| |] eqn:Hc; [|done..]. cbn.
  intros (b & a & -> & Hb & Ht)%resolve_go_some. apply Candidates_in in Hc. rewrite Forall_app, Forall_cons in Hc.
  destruct Hc as (_ & [_ Hi] & _). apply try_candidate_ok in Ht. unfold sound_offer. naive_solver.
Qed.
Lemma Available_sound rels current t o :
  Available (Some rels) current t = Ok (Some o) → installable current t (ORelease o).
Proof.
  unfold Available. destruct (Candidates rels current t EmptyString) as [cands| |] eqn:Hc; [|done..]. cbn.
  apply Candidates_in in Hc. destruct cands as [|r cands]; [done|]. destruct (ParseVersion _); [|done]. intros [= <-].
  apply Forall_cons in Hc. tauto.
Qed.

(** ** Properties *)

(** C22. Candidates never offers a downgrade, a draft or an incomplete release. Without
    a pin it returns exactly the promoted releases that can be installed over the
    current one, newest first; with a pin, one release of that version. *)
Theorem Candidates_spec rels current t pin out :
  Candidates rels current t pin = Ok out →
  Forall (λ r, r ∈ rels ∧ installable current t r) out
  ∧ (pin = EmptyString → newest_first out ∧
       out ≡ₚ fst <$> omap (candidate current (RequiredAssets t)) rels ∧
       ∀ r, r ∈ out ↔ r ∈ rels ∧ Prerelease r = false ∧ installable current t r)
  ∧ (pin ≠ EmptyString → ∃ r v want, out = [r] ∧ ParseVersion (Tag r) = Some v
       ∧ ParseVersion pin = Some want ∧ v = want).
Proof.
  unfold Candidates. cbv zeta. destruct (String.eqb_spec pin EmptyString) as [->|Hp]; cbn [negb].
  - intros [= <-].
    assert (∀ p, p ∈ sort_slice newer_first (omap (candidate current (RequiredAssets t)) rels) ↔
                 p.1 ∈ rels ∧ Prerelease p.1 = false ∧ installable current t p.1
                 ∧ ParseVersion (Tag p.1) = Some p.2) as He.
    { intros p. rewrite sort_slice_perm, list_elem_of_omap. split.
      - intros (r & Hr & (<- & ? & ? & ?)%candidate_Some). done.
      - intros (Hr & ? & ? & ?). exists p.1. split; [done|]. by apply candidate_Some. }
    split; [|split; [|done]].
    + apply Forall_fmap, Forall_forall. intros p Hin%He. naive_solver.
    + intros _. split_and!.
      * pose proof (sort_newest (omap (candidate current (RequiredAssets t)) rels)) as Hs.
        unfold newest_first. revert Hs. generalize He. clear He.
        generalize (sort_slice newer_first (omap (candidate current (RequiredAssets t)) rels)).
        intros l He Hs.
        assert (∀ p, p ∈ l → tag_version p.1 = p.2) as Hv.
        { intros p (_ & _ & _ & Hv)%He. unfold tag_version. by rewrite Hv. }
        clear He. induction Hs as [|p l Hs IH Hf]; cbn; constructor.
        -- apply IH. intros. apply Hv. by right.
        -- apply Forall_fmap. rewrite Forall_forall in Hf |- *. intros q Hq. cbn.
           rewrite (Hv q), (Hv p); [by apply Hf|by left|by right].
      * by rewrite sort_slice_perm.
      * intros r. rewrite list_elem_of_fmap. split.
        -- intros (p & -> & Hin%He). naive_solver.
        -- intros (Hr & Hpre & Hi). pose proof Hi as (_ & _ & v & Hv & _).
           exists (r, v). split; [done|]. by apply He.
  - destruct (ParseVersion pin) as [want|] eqn:Hw; [|done].
    intros (r & v & -> & Hr & Hi & Hv & Hc)%pinned_go_ok. split_and!.
    + by apply Forall_singleton.
    + done.
    + intros _. exists r, v, want. split_and!; [done..|].
      by destruct (Compare_cases v want) as [[? _]|[[_ ?]|[? _]]]; [lia| |lia].
Qed.

(** Resolve's offer is the first candidate, newest first, whose SHA256SUMS can be
    fetched and lists every file the platform needs; it is newer than what is
    installed, and its checksums are those of that file. Every candidate before
    it failed one of these. *)
Theorem Resolve_spec fetch done_ rels current t pin o :
  Resolve fetch done_ (Some rels) current t pin = Ok (Some o) →
  installable current t (ORelease o) ∧ ORelease o ∈ rels
  ∧ version_lt current (OVersion o) ∧ ORequired o = RequiredAssets t
  ∧ Forall (λ n, is_Some (OSums o !! n) ∧ has_asset (ORelease o) n = true) (RequiredAssets t)
  ∧ (∃ body, fetch (asset_url (ORelease o) SumsAsset) = Some body ∧ ParseChecksums body = Ok (OSums o))
  ∧ ∃ before after, Candidates rels current t pin = Ok (before ++ ORelease o :: after)
      ∧ Forall (λ r, is_ok (try_candidate fetch (RequiredAssets t) r) = false) before.
Proof.
  unfold Resolve. destruct (Candidates rels current t pin) as [cands| |] eqn:Hc; [|done..]. cbn.
  intros (b & a & -> & Hb & Ht)%resolve_go_some.
  assert (ORelease o ∈ rels ∧ installable current t (ORelease o)) as [Hin Hi].
  { apply Candidates_in in Hc. rewrite Forall_app, Forall_cons in Hc. tauto. }
  apply try_candidate_ok in Ht as (_ & Hreq & Hov & Hl & Hbody).
  pose proof Hi as (_ & Hm & u & Hpv & Hlt).
  split_and!; try done.
  - rewrite Hov. unfold tag_version. by rewrite Hpv.
  - rewrite Forall_forall in Hl |- *. intros n Hn. split; [by apply Hl|].
    destruct (has_asset (ORelease o) n) eqn:Ha; [done|]. exfalso.
    assert (n ∈ missingAssets (ORelease o) (RequiredAssets t)) as Hx.
    { unfold missingAssets. apply list_elem_of_In, filter_In. split; [right; by apply list_elem_of_In|by rewrite Ha]. }
    rewrite Hm in Hx. by apply not_elem_of_nil in Hx.
  - eauto.
Qed.

(** ** Witnesses *)

Definition sample_release (tag : string) (pre : bool) : Release :=
  mkRelease tag false pre "" [mkAsset "SHA256SUMS" 1 tag; mkAsset "odb-linux-amd64" 5 "u"].
Definition sample_target : Target := mkTarget "linux" "amd64" "".
Definition sample_list : list Release :=
  [sample_release "v0.9.0" false; sample_release "v0.10.0" false; sample_release "v1.0.0-rc1" true;
   sample_release "v0.8.0" false; sample_release "junk" false].
Definition sample_fetch (url : string) : option string :=
  if String.eqb url "v0.10.0" then None else Some (of_bytes (repeat "A"%char 64) +:+ "  odb-linux-amd64").

Lemma Candidates_spec_witness :
  let out := [sample_release "v0.10.0" false; sample_release "v0.9.0" false] in
  Candidates sample_list (mkVersion 0 8 0 "") sample_target "" = Ok out ∧ newest_first out.
Proof.
  cbv zeta. split; [vm_compute; reflexivity|].
  refine (proj1 (proj1 (proj2 (Candidates_spec sample_list (mkVersion 0 8 0 "") sample_target "" _ _)) eq_refl)).
  vm_compute. reflexivity.
Defined.

Lemma Resolve_spec_witness :
  ∃ o, Resolve sample_fetch (λ _, false) (Some sample_list) (mkVersion 0 8 0 "") sample_target "" = Ok (Some o)
       ∧ version_lt (mkVersion 0 8 0 "") (OVersion o).
Proof.
  eexists. split; [vm_compute; reflexivity|].
  refine (proj1 (proj2 (proj2 (Resolve_spec sample_fetch (λ _, false) sample_list (mkVersion 0 8 0 "")
    sample_target "" _ _)))).
  vm_compute. reflexivity.
Defined.
