(* ===== verification/GoPath.v ===== *)
(** * Go's path/filepath on Unix: Clean, Join, Base, Dir

    Lexical path processing on slash-separated byte strings. *)
From S2P Require Import Prelude GoStrings.

(** ** Definitions *)

(** The elements of a path, dots resolved; kept in reverse while they are built.
    A rooted path drops a leading dot-dot, an unrooted one keeps it. *)
Fixpoint clean_go (rooted : bool) (acc : list string) (elems : list string) : list string :=
  match elems with
  | [] => acc
  | e :: t =>
      if String.eqb e EmptyString || String.eqb e "." then clean_go rooted acc t
      else if String.eqb e ".." then
        match acc with
        | p :: acc' => if String.eqb p ".." then clean_go rooted (".." :: acc) t
                       else clean_go rooted acc' t
        | [] => if rooted then clean_go rooted [] t else clean_go rooted [".."] t
        end
      else clean_go rooted (e :: acc) t
  end.

Definition is_rooted (p : string) : bool := HasPrefix p "/".

Definition Clean (p : string) : string :=
  let elems := reverse (clean_go (is_rooted p) [] (Split "/" p)) in
  if is_rooted p then "/" +:+ Join "/" elems
  else match elems with [] => "." | _ => Join "/" elems end.

(** filepath.Join: empty elements are ignored, the result is cleaned. *)
Definition JoinPath (elems : list string) : string :=
  match List.filter (λ e, negb (String.eqb e EmptyString)) elems with
  | [] => EmptyString
  | l => Clean (Join "/" l)
  end.

(** filepath.Base: the last element, without trailing slashes. *)
Definition strip_slashes (p : string) : string := trim_right_by (Ascii.eqb "/") p.
Definition Base (p : string) : string :=
  if String.eqb p EmptyString then "."
  else let q := strip_slashes p in
       let b := List.last (Split "/" q) EmptyString in
       if String.eqb b EmptyString then "/" else b.

(** filepath.Dir: all but the last element, cleaned. *)
Definition path_dir (p : string) : string :=
  Clean (match removelast (Split "/" p) with [] => EmptyString | l => Join "/" l +:+ "/" end).

(** ** A plain element stays itself *)

(** A name that is one path element: not empty, no slash, not a dot name. *)
Definition plain_elem (n : string) : bool :=
  negb (String.eqb n EmptyString) && negb (has_byte "/" n)
  && negb (String.eqb n ".") && negb (String.eqb n "..").

Lemma plain_elem_spec n :
  plain_elem n = true ↔ n ≠ EmptyString ∧ has_byte "/" n = false ∧ n ≠ "." ∧ n ≠ "..".
Proof.
  unfold plain_elem. rewrite !andb_true_iff, !negb_true_iff, !String.eqb_neq. tauto.
Qed.

Lemma clean_go_plain rooted acc elems :
  Forall (λ e, plain_elem e = true) elems → clean_go rooted acc elems = reverse elems ++ acc.
Proof.
  intros H. revert acc. induction H as [|e elems He _ IH]; intros acc; [done|].
  apply plain_elem_spec in He as (H1 & _ & H2 & H3). cbn [clean_go].
  apply String.eqb_neq in H1, H2, H3. rewrite H1, H2, H3. cbn [orb]. rewrite IH, reverse_cons, <-app_assoc. done.
Qed.

Lemma Split_rooted l :
  l ≠ [] → Forall (λ e, plain_elem e = true) l → Split "/" ("/" +:+ Join "/" l) = EmptyString :: l.
Proof.
  intros Hne Hl. cbn. f_equal. apply (Split_Join "/"); [done|].
  eapply Forall_impl; [exact Hl|]. intros e He. apply plain_elem_spec in He. tauto.
Qed.

Lemma Clean_rooted l :
  l ≠ [] → Forall (λ e, plain_elem e = true) l → Clean ("/" +:+ Join "/" l) = "/" +:+ Join "/" l.
Proof.
  intros Hne Hl. unfold Clean. change (is_rooted ("/" +:+ Join "/" l)) with true. cbv iota.
  rewrite Split_rooted by done. cbn [clean_go String.eqb orb].
  rewrite clean_go_plain by done. by rewrite app_nil_r, reverse_involutive.
Qed.

Lemma JoinPath_elem base n :
  base ≠ [] → Forall (λ e, plain_elem e = true) base → plain_elem n = true →
  JoinPath ["/" +:+ Join "/" base; n] = "/" +:+ Join "/" (base ++ [n]).
Proof.
  intros Hne Hb Hn. pose proof (proj1 (plain_elem_spec n) Hn) as (Hn1 & _).
  unfold JoinPath. cbn [List.filter].
  replace (String.eqb ("/" +:+ Join "/" base) EmptyString) with false by done.
  rewrite (proj2 (String.eqb_neq n EmptyString)) by done. cbn [negb].
  replace (Join "/" ["/" +:+ Join "/" base; n]) with ("/" +:+ Join "/" (base ++ [n])).
  - apply Clean_rooted; [by destruct base|]. apply Forall_app. split; [done|]. by apply Forall_singleton.
  - clear Hb Hn Hn1. cbn. f_equal. induction base as [|x base IH]; [done|].
    destruct base as [|y base]; [done|]. cbn [app Join]. cbn [app Join] in IH.
    rewrite IH by done. by rewrite !sapp_assoc.
Qed.

(** ** Clean rooted paths *)

Lemma clean_go_rooted_plain acc elems :
  Forall (λ e, plain_elem e = true) acc → Forall (λ w, has_byte "/" w = false) elems →
  Forall (λ e, plain_elem e = true) (clean_go true acc elems).
Proof.
  intros Ha He. revert acc Ha. induction He as [|e elems He _ IH]; intros acc Ha; [done|]. cbn [clean_go].
  destruct (String.eqb_spec e EmptyString); [by apply IH|]. destruct (String.eqb_spec e "."); [by apply IH|]. cbn [orb].
  destruct (String.eqb_spec e "..") as [->|].
  - destruct acc as [|p acc]; [by apply IH|]. inversion Ha as [|? ? Hp Ha' Heq]; subst. apply plain_elem_spec in Hp as (_ & _ & _ & Hp).
    apply String.eqb_neq in Hp. rewrite Hp. by apply IH.
  - apply IH. constructor; [|done]. by apply plain_elem_spec.
Qed.

Definition rooted_path (l : list string) : string := "/" +:+ Join "/" l.

Lemma Clean_is_rooted p : is_rooted p = true → ∃ l, Forall (λ e, plain_elem e = true) l ∧ Clean p = rooted_path l.
Proof.
  intros Hp. unfold Clean. rewrite Hp. eexists. split; [|done].
  apply Forall_reverse, clean_go_rooted_plain; [constructor|apply Split_pieces].
Qed.

Lemma is_rooted_app a b : is_rooted a = true → is_rooted (a +:+ b) = true.
Proof. intros H. apply HasPrefix_spec in H as [r ->]. apply HasPrefix_spec. exists (r +:+ b). by rewrite sapp_assoc. Qed.

Lemma JoinPath_is_rooted a n : is_rooted a = true → ∃ l, Forall (λ e, plain_elem e = true) l ∧ JoinPath [a; n] = rooted_path l.
Proof.
  intros Ha. unfold JoinPath. cbn [List.filter]. destruct (String.eqb_spec a EmptyString) as [->|]; [done|]. cbn [negb].
  destruct (String.eqb n EmptyString); cbn [negb Join]; apply Clean_is_rooted; [done|by apply is_rooted_app].
Qed.

Lemma Split_slash w r : has_byte "/" w = false → Split "/" (w +:+ "/" +:+ r) = w :: Split "/" r.
Proof. exact (Split_app "/" w r). Qed.
Lemma Split_Join_app l r : Forall (λ w, has_byte "/" w = false) l → l ≠ [] → Split "/" (Join "/" l +:+ "/" +:+ r) = l ++ Split "/" r.
Proof.
  intros Hl. induction Hl as [|w l Hw Hl IH]; [done|]. intros _. destruct l as [|w2 l].
  - cbn [Join]. by rewrite Split_slash.
  - change (Join "/" (w :: w2 :: l)) with (w +:+ "/" +:+ Join "/" (w2 :: l)). rewrite !sapp_assoc.
    rewrite Split_slash, IH by done. done.
Qed.

Lemma plain_no_slash l : Forall (λ e, plain_elem e = true) l → Forall (λ w, has_byte "/" w = false) l.
Proof. intros Hl. eapply Forall_impl; [exact Hl|]. intros e He. apply plain_elem_spec in He. tauto. Qed.

Lemma Join_app_sep l k : l ≠ [] → k ≠ [] → Join "/" (l ++ k) = Join "/" l +:+ "/" +:+ Join "/" k.
Proof.
  intros Hl Hk. induction l as [|w l IH]; [done|]. destruct l as [|w2 l]; [by destruct k|].
  change (Join "/" ((w :: w2 :: l) ++ k)) with (w +:+ "/" +:+ Join "/" ((w2 :: l) ++ k)). rewrite IH by done.
  change (Join "/" (w :: w2 :: l)) with (w +:+ "/" +:+ Join "/" (w2 :: l)). by rewrite !sapp_assoc.
Qed.

(** A clean path that starts with another and a slash is below it. *)
Lemma rooted_below rl tl rel :
  Forall (λ e, plain_elem e = true) rl → Forall (λ e, plain_elem e = true) tl →
  rooted_path tl = rooted_path rl +:+ "/" +:+ rel → rl ≠ [] ∧ tl = rl ++ Split "/" rel.
Proof.
  intros Hr Ht H. unfold rooted_path in H. rewrite sapp_assoc in H. apply sapp_inv_head in H.
  destruct rl as [|w rl].
  - exfalso. destruct tl as [|e tl]; [done|]. inversion Ht as [|? ? He _ Heq]; subst. apply plain_elem_spec in He as (Hne & Hs & _).
    destruct e as [|c e]; [done|]. destruct tl; cbn in H; injection H as -> _; cbn in Hs; done.
  - split; [done|]. destruct tl as [|e tl].
    { exfalso. apply (f_equal String.length) in H. rewrite !length_sapp in H. cbn in H. lia. }
    rewrite <-(Split_Join_app (w :: rl) rel), <-H by (done || by apply plain_no_slash). symmetry. apply Split_Join; [done|by apply plain_no_slash].
Qed.

Lemma path_dir_rooted l e : Forall (λ e, plain_elem e = true) (l ++ [e]) → path_dir (rooted_path (l ++ [e])) = rooted_path l.
Proof.
  intros Hl. unfold path_dir, rooted_path. rewrite Split_rooted by (done || by destruct l). apply Forall_app in Hl as [Hl _].
  destruct l as [|w l]; [done|]. rewrite app_comm_cons, removelast_last.
  change (Join "/" (EmptyString :: w :: l)) with ("/" +:+ Join "/" (w :: l)). unfold Clean.
  rewrite is_rooted_app by done. cbv iota. rewrite sapp_assoc.
  change (Split "/" ("/" +:+ Join "/" (w :: l) +:+ "/")) with (EmptyString :: Split "/" (Join "/" (w :: l) +:+ "/" +:+ EmptyString)).
  rewrite Split_Join_app by (done || by apply plain_no_slash). cbn [clean_go String.eqb orb].
  assert (∀ acc, clean_go true acc ((w :: l) ++ Split "/" "") = reverse (w :: l) ++ acc) as ->.
  { clear -Hl. induction Hl as [|x k Hx Hk IH]; intros acc; [done|]. apply plain_elem_spec in Hx as (H1 & _ & H2 & H3).
    apply String.eqb_neq in H1, H2, H3. cbn [app clean_go]. rewrite H1, H2, H3. cbn [orb]. rewrite IH, reverse_cons, <-app_assoc. done. }
  by rewrite app_nil_r, reverse_involutive.
Qed.

Lemma clean_go_app r acc l k : clean_go r acc (l ++ k) = clean_go r (clean_go r acc l) k.
Proof.
  revert acc. induction l as [|e l IH]; intros acc; [done|]. cbn [app clean_go].
  destruct (_ || _); [apply IH|]. destruct (String.eqb e ".."); [|apply IH].
  destruct acc as [|p acc]; [destruct r; apply IH|]. destruct (String.eqb p ".."); apply IH.
Qed.
(** Joining a plain name keeps it last. *)
Lemma JoinPath_last a n : is_rooted a = true → plain_elem n = true → ∃ r, JoinPath [a; n] = r +:+ n ∧ is_rooted (r +:+ n) = true.
Proof.
  intros Ha Hn. pose proof (proj1 (plain_elem_spec n) Hn) as (Hn1 & Hs & Hn2 & Hn3). unfold JoinPath. cbn [List.filter].
  destruct (String.eqb_spec a EmptyString) as [->|]; [done|]. apply String.eqb_neq in Hn1. rewrite Hn1. cbn [negb Join].
  unfold Clean. rewrite is_rooted_app by done.
  assert (Split "/" (a +:+ "/" +:+ n) = Split "/" a ++ [n]) as ->.
  { pose proof (Split_Join_app (Split "/" a) n (Split_pieces "/" a) (Split_nonempty "/" a)) as Hj. rewrite (Split_no_sep "/" n Hs) in Hj.
    rewrite <-Hj. f_equal. f_equal. symmetry. exact (Join_Split "/" a). }
  rewrite clean_go_app. cbn [clean_go]. apply String.eqb_neq in Hn2, Hn3. rewrite Hn1, Hn2, Hn3. cbn [orb]. rewrite reverse_cons.
  set (l := reverse _). destruct l as [|x l2] eqn:Hl.
  - exists "/". done.
  - rewrite Join_app_sep by done. exists ("/" +:+ Join "/" (x :: l2) +:+ "/"). rewrite !sapp_assoc. done.
Qed.
