(* ===== verification/Mux.v ===== *)
(** * Routing requests (net/http's ServeMux, as the servers use it)

    A pattern is an optional method and a path of literal segments and single-segment
    wildcards; a path that ends in a slash stands for everything below it. The mux
    looks a request up in the tree of its patterns: a literal before a wildcard, a
    wildcard before a subtree, the request's own method before patterns without one. *)
From S2P Require Import Prelude GoStrings GoNum GoUrl GoPath.
Open Scope string_scope.
Open Scope list_scope.

(** ** Paths *)

Definition pathUnescape (s : string) : string := default s (unescape_string false s).

(** The bytes url.escape leaves alone in a path. *)
Definition path_char (c : ascii) : bool :=
  alnum c || existsb (Ascii.eqb c) ["-"; "_"; "."; "~"; "$"; "&"; "+"; ","; "/"; ":"; ";"; "="; "@"]%char.
Definition hex_upper (n : N) : ascii := ascii_of_N (if (n <? 10)%N then n + 48 else n + 55).
Definition escape_byte (c : ascii) : list ascii :=
  if path_char c then [c] else ["%"%char; hex_upper (N_of_ascii c / 16)%N; hex_upper (N_of_ascii c mod 16)%N].
Definition path_escape (s : string) : string := of_bytes (concat (escape_byte <$> to_bytes s)).

Definition cleanPath (p : string) : string :=
  let p := if HasPrefix p "/" then p else "/" +:+ p in
  let np := Clean p in
  if HasSuffix p "/" && negb (String.eqb np "/") then np +:+ "/" else np.

(** The segments of a path; a slash at its end is a segment of its own. *)
Definition path_segments (p : string) : list string :=
  let parts := tail (Split "/" p) in
  match last parts with
  | Some l => if String.eqb l "" then (pathUnescape <$> removelast parts) ++ ["/"] else pathUnescape <$> parts
  | None => []
  end.

(** ** Patterns *)

Inductive segment : Type := Literal (s : string) | Wildcard (name : string).
Record pattern : Type := mkPattern { p_method : string; p_segments : list segment; p_subtree : bool }.

Definition parse_segment (s : string) : segment :=
  if HasPrefix s "{" && HasSuffix s "}" then Wildcard (TrimSuffix (TrimPrefix s "{") "}") else Literal s.
Definition parse_pattern (s : string) : pattern :=
  let '(method, path) := match Split " " s with [m; p] => (m, p) | _ => ("", s) end in
  let parts := tail (Split "/" path) in
  match last parts with
  | Some l => if String.eqb l "" then mkPattern method (parse_segment <$> removelast parts) true
              else mkPattern method (parse_segment <$> parts) false
  | None => mkPattern method [] false
  end.

Definition wildcards (p : list segment) : list string :=
  omap (λ s, match s with Wildcard n => Some n | Literal _ => None end) p.

(** ** The tree of patterns *)

Section tree.
Context {A : Type}.

(** What is left of a pattern on a branch of the tree, and where the branch leads. *)
Definition branch_ : Type := list segment * bool * A.

Definition after_literal (s : string) (cs : list branch_) : list branch_ :=
  omap (λ c, match c with
             | (Literal l :: p, tree, a) => if String.eqb l s then Some (p, tree, a) else None
             | _ => None
             end) cs.
Definition after_wildcard (cs : list branch_) : list branch_ :=
  omap (λ c, match c with (Wildcard _ :: p, tree, a) => Some (p, tree, a) | _ => None end) cs.
Definition ends_here (tree : bool) (cs : list branch_) : option A :=
  snd <$> List.find (λ c : branch_, match c with ([], t, _) => Bool.eqb t tree | _ => false end) cs.

(** The pattern found and the texts its wildcards stand for. *)
Fixpoint matchPath (cs : list branch_) (segs : list string) (found : list string) : option (A * list string) :=
  match segs with
  | [] => a ← ends_here false cs; Some (a, found)
  | s :: rest =>
      match matchPath (after_literal s cs) rest found with
      | Some r => Some r
      | None =>
          match (if String.eqb s "/" then None else matchPath (after_wildcard cs) rest (found ++ [s])) with
          | Some r => Some r
          | None => a ← ends_here true cs; Some (a, found)
          end
      end
  end.

End tree.

Abbreviation route A := (pattern * A)%type (only parsing).

Definition of_method {A} (method : string) (rs : list (route A)) : list (branch_ (A := route A)) :=
  omap (λ r, if String.eqb (p_method (fst r)) method then Some (p_segments (fst r), p_subtree (fst r), r) else None) rs.

Definition first_of {A} (o p : option A) : option A := match o with Some a => Some a | None => p end.

Definition matchMethodAndPath {A} (rs : list (route A)) (method path : string) : option (route A * list string) :=
  let segs := path_segments path in
  first_of (matchPath (of_method method rs) segs [])
    (first_of (if String.eqb method "HEAD" then matchPath (of_method "GET" rs) segs [] else None)
       (matchPath (of_method "" rs) segs [])).

(** ** The request's handler *)

Inductive routed (A : Type) : Type :=
| Found (p : pattern) (handler : A) (values : list string)
| Moved (to_ : string)
| NotAllowed
| NotFound.
Arguments Found {A}. Arguments Moved {A}. Arguments NotAllowed {A}. Arguments NotFound {A}.

Definition count_slashes (s : string) : nat := List.length (List.filter (Ascii.eqb "/") (to_bytes s)).

(** A subtree pattern matches its own root only exactly. *)
Definition exactMatch {A} (n : option (route A * list string)) (path : string) : bool :=
  match n with
  | None => false
  | Some ((p, _), _) =>
      if negb (p_subtree p) then true
      else HasSuffix path "/" && (S (List.length (p_segments p)) =? count_slashes path)%nat
  end.

(** The match, or where a path that lacks its last slash is sent. *)
Definition matchOrRedirect {A} (rs : list (route A)) (method path : string) : option (route A * list string) + string :=
  let n := matchMethodAndPath rs method path in
  if negb (exactMatch n path) && negb (HasSuffix path "/")
     && exactMatch (matchMethodAndPath rs method (path +:+ "/")) (path +:+ "/")
  then inr (path +:+ "/") else inl n.

(** Whether some method would have been let through. *)
Definition any_method {A} (rs : list (route A)) (path : string) : bool :=
  let hits p := existsb (λ r : route A, match matchPath (of_method (p_method (fst r)) rs) (path_segments p) [] with
                                        | Some _ => true | None => false end) rs in
  hits path || (negb (HasSuffix path "/") && hits (path +:+ "/")).

Definition findHandler {A} (rs : list (route A)) (method escapedPath : string) : routed A :=
  let path := if String.eqb method "CONNECT" then escapedPath else cleanPath escapedPath in
  match matchOrRedirect rs method path with
  | inr to_ => Moved to_
  | inl n =>
      if negb (String.eqb path escapedPath) then Moved path else
      match n with
      | Some ((p, a), values) => Found p a values
      | None => if any_method rs path then NotAllowed else NotFound
      end
  end.

Definition PathValue (p : pattern) (values : list string) (name : string) : string :=
  default "" (snd <$> List.find (λ x, String.eqb (fst x) name) (combine (wildcards (p_segments p)) values)).

(** ** What a pattern matches *)

(** The texts a pattern's wildcards stand for, when it matches. *)
Fixpoint seg_match (p : list segment) (tree : bool) (segs : list string) : option (list string) :=
  match p, segs with
  | [], [] => if tree then None else Some []
  | [], _ :: _ => if tree then Some [] else None
  | Literal l :: p, s :: rest => if String.eqb l s then seg_match p tree rest else None
  | Wildcard _ :: p, s :: rest => if String.eqb s "/" then None else cons s <$> seg_match p tree rest
  | _ :: _, [] => None
  end.

(** Whether some path may match both. *)
Fixpoint both_match (p : list segment) (tp : bool) (q : list segment) (tq : bool) : bool :=
  match p, q with
  | [], [] => Bool.eqb tp tq
  | [], _ :: _ => tp
  | _ :: _, [] => tq
  | Literal l :: p, Literal m :: q => String.eqb l m && both_match p tp q tq
  | _ :: p, _ :: q => both_match p tp q tq
  end.

Lemma match_both p tp q tq segs v w :
  seg_match p tp segs = Some v → seg_match q tq segs = Some w → both_match p tp q tq = true.
Proof.
  revert q segs v w. induction p as [|[l|n] p IH]; intros [|[m|k] q] [|s segs] v w; cbn; try done; intros Hp Hq;
    repeat match goal with H : context [String.eqb ?a ?b] |- _ => destruct (String.eqb_spec a b); simplify_eq end;
    rewrite ?String.eqb_refl; cbn; try (by destruct tp, tq); eauto.
  - apply fmap_Some in Hq as (w' & Hq & _). eauto.
  - apply fmap_Some in Hp as (v' & Hp & _). eauto.
  - apply fmap_Some in Hp as (v' & Hp & _). apply fmap_Some in Hq as (w' & Hq & _). eauto.
Qed.

Section tree_facts.
Context {A : Type}.
Implicit Types cs : list (branch_ (A := A)).

Lemma after_literal_in s cs p t (a : A) : (p, t, a) ∈ after_literal s cs ↔ (Literal s :: p, t, a) ∈ cs.
Proof.
  unfold after_literal. rewrite list_elem_of_omap. split.
  - intros ([[[|[l|n] q] t'] b] & Hin & Heq); try done. destruct (String.eqb_spec l s); by simplify_eq.
  - intros Hin. exists (Literal s :: p, t, a). split; [done|]. by rewrite String.eqb_refl.
Qed.
Lemma after_wildcard_in cs p t (a : A) : (p, t, a) ∈ after_wildcard cs ↔ ∃ n, (Wildcard n :: p, t, a) ∈ cs.
Proof.
  unfold after_wildcard. rewrite list_elem_of_omap. split.
  - intros ([[[|[l|n] q] t'] b] & Hin & Heq); simplify_eq. by exists n.
  - intros (n & Hin). by exists (Wildcard n :: p, t, a).
Qed.
Lemma ends_here_some tree cs (a : A) : ends_here tree cs = Some a → ([], tree, a) ∈ cs.
Proof.
  unfold ends_here. intros ([[p t] b] & Hf & ->)%fmap_Some. apply List.find_some in Hf as [Hin Hp].
  destruct p; [|done]. apply Bool.eqb_prop in Hp as ->. by apply list_elem_of_In.
Qed.
Lemma ends_here_none tree cs (a : A) : ends_here tree cs = None → ([], tree, a) ∉ cs.
Proof.
  unfold ends_here. intros Hn%fmap_None Hin%list_elem_of_In. eapply List.find_none in Hn; [|exact Hin].
  cbn in Hn. destruct tree; done.
Qed.

Lemma matchPath_sound segs cs found (a : A) vs :
  matchPath cs segs found = Some (a, vs) →
  ∃ p tree v, (p, tree, a) ∈ cs ∧ seg_match p tree segs = Some v ∧ vs = found ++ v.
Proof.
  revert cs found. induction segs as [|s segs IH]; intros cs found; cbn [matchPath].
  - intros (b & Hb & [= -> ->])%bind_Some. apply ends_here_some in Hb. exists [], false, []. by rewrite app_nil_r.
  - destruct (matchPath (after_literal s cs) segs found) as [[b w]|] eqn:Hl.
    { intros [= -> ->]. apply IH in Hl as (p & t & v & Hin%after_literal_in & Hm & ->).
      exists (Literal s :: p), t, v. cbn. by rewrite String.eqb_refl. }
    destruct (if String.eqb s "/" then None else _) as [[b w]|] eqn:Hw.
    { intros [= -> ->]. destruct (String.eqb s "/") eqn:Hs; [done|].
      apply IH in Hw as (p & t & v & (n & Hin)%after_wildcard_in & Hm & ->).
      exists (Wildcard n :: p), t, (s :: v). cbn. rewrite Hs, Hm, <- app_assoc. done. }
    intros (b & Hb & [= -> ->])%bind_Some. apply ends_here_some in Hb. exists [], true, []. by rewrite app_nil_r.
Qed.

Lemma matchPath_complete segs cs found p tree (a : A) v :
  (p, tree, a) ∈ cs → seg_match p tree segs = Some v → is_Some (matchPath cs segs found).
Proof.
  revert cs found p v. induction segs as [|s segs IH]; intros cs found p v Hin Hm; cbn [matchPath].
  - destruct p as [|[] p]; [|done..]. cbn in Hm. destruct tree; [done|].
    destruct (ends_here false cs) eqn:He; [by eexists|]. by destruct (ends_here_none _ _ a He).
  - destruct (matchPath (after_literal s cs) segs found) as [r|] eqn:Hl; [by eexists|].
    destruct (if String.eqb s "/" then None else _) as [r|] eqn:Hw; [by eexists|].
    destruct p as [|[l|n] p]; cbn in Hm.
    + destruct tree; [|done]. destruct (ends_here true cs) eqn:He; [by eexists|]. by destruct (ends_here_none _ _ a He).
    + destruct (String.eqb_spec l s) as [->|]; [|done]. apply after_literal_in in Hin.
      eapply IH in Hin as [? Hx]; [|done]. by rewrite Hx in Hl.
    + destruct (String.eqb s "/"); [done|]. apply fmap_Some in Hm as (w & Hm & _).
      assert ((p, tree, a) ∈ after_wildcard cs) as Hin' by (apply after_wildcard_in; eauto).
      eapply IH in Hin' as [? Hx]; [|done]. by rewrite Hx in Hw.
Qed.

End tree_facts.

(** ** Unambiguous tables *)

(** No two patterns of one method overlap (net/http would want one to be the more
    specific; here none is). *)
Definition apart {A} (r s : route A) : bool :=
  negb (String.eqb (p_method (fst r)) (p_method (fst s)))
  || negb (both_match (p_segments (fst r)) (p_subtree (fst r)) (p_segments (fst s)) (p_subtree (fst s))).
Fixpoint unambiguous {A} (rs : list (route A)) : bool :=
  match rs with [] => true | r :: t => forallb (apart r) t && unambiguous t end.

Lemma of_method_in {A} m (rs : list (route A)) p t r :
  (p, t, r) ∈ of_method m rs ↔ r ∈ rs ∧ p_method (fst r) = m ∧ p_segments (fst r) = p ∧ p_subtree (fst r) = t.
Proof.
  unfold of_method. rewrite list_elem_of_omap. split.
  - intros (x & Hin & Heq). destruct (String.eqb_spec (p_method (fst x)) m); by simplify_eq.
  - intros (Hin & <- & <- & <-). exists r. split; [done|]. by rewrite String.eqb_refl.
Qed.

Lemma both_match_sym p tp q tq : both_match p tp q tq = both_match q tq p tp.
Proof.
  revert q. induction p as [|[l|n] p IH]; intros [|[m|k] q]; cbn; try done; rewrite ?IH; [by destruct tp, tq|].
  by rewrite String.eqb_sym.
Qed.

Lemma unambiguous_unique {A} (rs : list (route A)) r s :
  unambiguous rs = true → r ∈ rs → s ∈ rs → p_method (fst r) = p_method (fst s) →
  both_match (p_segments (fst r)) (p_subtree (fst r)) (p_segments (fst s)) (p_subtree (fst s)) = true → r = s.
Proof.
  induction rs as [|x rs IH]; cbn [unambiguous]; [by intros _ ?%not_elem_of_nil|].
  intros [Hx Hrs]%andb_true_iff Hr Hs Hm Ho. rewrite List.forallb_forall in Hx.
  assert (∀ y, y ∈ rs → p_method (fst x) = p_method (fst y) →
    both_match (p_segments (fst x)) (p_subtree (fst x)) (p_segments (fst y)) (p_subtree (fst y)) = false) as Hapart.
  { intros y Hy%list_elem_of_In Hxy. apply Hx in Hy. unfold apart in Hy. rewrite Hxy, String.eqb_refl in Hy.
    by apply negb_true_iff. }
  apply elem_of_cons in Hr as [->|Hr], Hs as [->|Hs]; [done| | |by apply IH].
  - by rewrite Hapart in Ho.
  - rewrite both_match_sym, Hapart in Ho; done.
Qed.

(** In a table without overlaps a path of a pattern reaches that pattern's handler. *)
Lemma matchPath_exact {A} (rs : list (route A)) r segs v :
  unambiguous rs = true → r ∈ rs → seg_match (p_segments (fst r)) (p_subtree (fst r)) segs = Some v →
  matchPath (of_method (p_method (fst r)) rs) segs [] = Some (r, v).
Proof.
  intros Hu Hr Hm. assert ((p_segments (fst r), p_subtree (fst r), r) ∈ of_method (p_method (fst r)) rs) as Hin by by apply of_method_in.
  destruct (matchPath (of_method (p_method (fst r)) rs) segs []) as [[s w]|] eqn:Hs;
    [|by destruct (matchPath_complete segs _ [] _ _ _ _ Hin Hm) as [? Hx]; rewrite Hs in Hx].
  apply matchPath_sound in Hs as (p & t & v' & (Hs & Hmethod & <- & <-)%of_method_in & Hm' & ->).
  assert (r = s) as -> by (eapply unambiguous_unique; eauto using match_both). by rewrite Hm in Hm'; simplify_eq.
Qed.

Lemma matchMethodAndPath_exact {A} (rs : list (route A)) r path v :
  unambiguous rs = true → r ∈ rs → seg_match (p_segments (fst r)) (p_subtree (fst r)) (path_segments path) = Some v →
  matchMethodAndPath rs (p_method (fst r)) path = Some (r, v).
Proof. intros Hu Hr Hm. unfold matchMethodAndPath. cbv zeta. by rewrite (matchPath_exact rs r _ v). Qed.

(** ** Paths of plain elements *)

Definition rooted (l : list string) : string := "/" +:+ Join "/" l.

Lemma Join_snoc l x : l ≠ [] → Join "/" (l ++ [x]) = (Join "/" l +:+ "/") +:+ x.
Proof.
  induction l as [|y [|z l] IH]; intros Hne; [done|cbn; by rewrite sapp_assoc|].
  cbn [app Join] in *. rewrite IH by done. by rewrite !sapp_assoc.
Qed.

Lemma rooted_open l : l ≠ [] → Forall (λ e, plain_elem e = true) l → HasSuffix (rooted l) "/" = false.
Proof.
  intros Hne Hl. apply not_true_iff_false. intros (r & Hr)%HasSuffix_spec.
  destruct l as [|x l _] using rev_ind; [done|]. apply Forall_app in Hl as [_ [Hx _]%Forall_cons_1].
  apply plain_elem_spec in Hx as (Hne' & Hx & _).
  assert (∃ a, rooted (l ++ [x]) = a +:+ x) as (a & Ha).
  { unfold rooted. destruct l as [|y l]; [by exists "/"|]. rewrite Join_snoc by done. exists ("/" +:+ (Join "/" (y :: l) +:+ "/")).
    by rewrite !sapp_assoc. }
  rewrite Ha in Hr. apply (f_equal to_bytes) in Hr. rewrite !to_bytes_app in Hr. cbn in Hr.
  destruct (to_bytes x) as [|c b _] eqn:Hb using rev_ind.
  - by destruct x.
  - rewrite app_assoc in Hr. apply app_inj_tail in Hr as [_ ->].
    assert (has_byte "/" x = true) as Hs; [|by rewrite Hs in Hx].
    unfold has_byte. rewrite Hb. apply existsb_exists. exists "/"%char. split; [apply in_app_iff; right; by left|done].
Qed.

Lemma rooted_clean l : l ≠ [] → Forall (λ e, plain_elem e = true) l → cleanPath (rooted l) = rooted l.
Proof.
  intros Hne Hl. unfold cleanPath. change (HasPrefix (rooted l) "/") with true. cbv iota zeta.
  rewrite rooted_open by done. cbn [andb]. by apply Clean_rooted.
Qed.

Lemma rooted_segments l : l ≠ [] → Forall (λ e, plain_elem e = true) l → path_segments (rooted l) = pathUnescape <$> l.
Proof.
  intros Hne Hl. unfold path_segments, rooted. rewrite Split_rooted by done. cbn [tail].
  destruct (last l) as [x|] eqn:Hx; [|by apply last_None in Hx].
  apply last_Some in Hx as (k & ->). apply Forall_app in Hl as [_ [Hl _]%Forall_cons_1].
  apply plain_elem_spec in Hl as (Hn & _). by rewrite (proj2 (String.eqb_neq _ _) Hn).
Qed.

(** ** A handler found, and where every route is found *)

Lemma matchMethodAndPath_sound {A} (rs : list (route A)) method path r v :
  matchMethodAndPath rs method path = Some (r, v) →
  r ∈ rs ∧ seg_match (p_segments (fst r)) (p_subtree (fst r)) (path_segments path) = Some v
  ∧ p_method (fst r) ∈ ([method; ""] ++ if String.eqb method "HEAD" then ["GET"] else []).
Proof.
  unfold matchMethodAndPath. cbv zeta. intros Hm.
  assert (∀ m, matchPath (of_method m rs) (path_segments path) [] = Some (r, v) →
    r ∈ rs ∧ seg_match (p_segments (fst r)) (p_subtree (fst r)) (path_segments path) = Some v ∧ p_method (fst r) = m) as Hof.
  { intros m (p & t & w & (Hin & Hpm & <- & <-)%of_method_in & Hs & ->)%matchPath_sound. done. }
  destruct (matchPath (of_method method rs) _ _) as [x|] eqn:Hx; cbn [first_of] in Hm.
  { injection Hm as ->. apply Hof in Hx as (? & ? & ->). set_solver. }
  destruct (String.eqb method "HEAD") eqn:Hh; cbn [first_of] in Hm.
  - destruct (matchPath (of_method "GET" rs) _ _) as [y|] eqn:Hy; cbn [first_of] in Hm.
    + injection Hm as ->. apply Hof in Hy as (? & ? & ->). set_solver.
    + apply Hof in Hm as (? & ? & ->). set_solver.
  - apply Hof in Hm as (? & ? & ->). set_solver.
Qed.

Lemma findHandler_sound {A} (rs : list (route A)) method path p (a : A) v :
  findHandler rs method path = Found p a v →
  (p, a) ∈ rs ∧ seg_match (p_segments p) (p_subtree p) (path_segments path) = Some v
  ∧ p_method p ∈ ([method; ""] ++ if String.eqb method "HEAD" then ["GET"] else []).
Proof.
  unfold findHandler. cbv zeta. set (q := if String.eqb method "CONNECT" then path else cleanPath path).
  unfold matchOrRedirect. cbv zeta. destruct (_ && _ && _); [done|].
  destruct (String.eqb_spec q path) as [->|]; cbn [negb]; [|done].
  destruct (matchMethodAndPath rs method path) as [[[p' a'] v']|] eqn:Hm; [|by destruct (any_method _ _)].
  intros [= -> -> ->]. by apply matchMethodAndPath_sound in Hm.
Qed.

Lemma findHandler_exact {A} (rs : list (route A)) p (a : A) l v :
  unambiguous rs = true → (p, a) ∈ rs → p_subtree p = false → l ≠ [] → Forall (λ e, plain_elem e = true) l →
  seg_match (p_segments p) false (pathUnescape <$> l) = Some v →
  findHandler rs (p_method p) (rooted l) = Found p a v.
Proof.
  intros Hu Hin Hp Hne Hl Hm. unfold findHandler. cbv zeta.
  replace (if String.eqb (p_method p) "CONNECT" then rooted l else cleanPath (rooted l)) with (rooted l)
    by (rewrite rooted_clean by done; by destruct (String.eqb _ _)).
  unfold matchOrRedirect. cbv zeta.
  pose proof (matchMethodAndPath_exact rs (p, a) (rooted l) v Hu Hin) as Hx. cbn [fst] in Hx.
  rewrite Hp, rooted_segments in Hx by done. rewrite (Hx Hm).
  cbn [exactMatch]. rewrite Hp. cbn [negb andb]. by rewrite String.eqb_refl.
Qed.

(** ** Escaped paths read back *)

Lemma unescape_app l k u v : unescape false l = Some u → unescape false k = Some v → unescape false (l ++ k) = Some (u ++ v).
Proof.
  intros Hl Hk. enough (∀ n l u, (List.length l <= n)%nat → unescape false l = Some u → unescape false (l ++ k) = Some (u ++ v)) by eauto.
  clear l u Hl. induction n as [|n IH]; intros [|c l] u Hn Hl; try (cbn in Hn; lia); try by injection Hl as <-.
  cbn [unescape app List.length andb] in *. destruct (Ascii.eqb c "%").
  - destruct l as [|a [|b l]]; [done..|]. cbn [app List.length andb] in *.
    destruct (hex_val a) as [x|]; [|done]. destruct (hex_val b) as [y|]; [|done]. cbn in Hl |- *.
    destruct (unescape false l) as [w|] eqn:Hw; [|done]. injection Hl as <-. by rewrite (IH l w) by (done || lia).
  - destruct (unescape false l) as [w|] eqn:Hw; [|done]. injection Hl as <-. by rewrite (IH l w) by (done || lia).
Qed.

Lemma unescape_byte c k : unescape false (escape_byte c ++ k) = cons c <$> unescape false k.
Proof.
  assert (escape_byte c = [c] ∧ c ≠ "%"%char ∨ escape_byte c = ["%"%char; hex_upper (N_of_ascii c / 16)%N; hex_upper (N_of_ascii c mod 16)%N]
    ∧ hex_val (hex_upper (N_of_ascii c / 16)%N) = Some (N_of_ascii c / 16)%N ∧ hex_val (hex_upper (N_of_ascii c mod 16)%N) = Some (N_of_ascii c mod 16)%N
    ∧ ascii_of_N (N_of_ascii c / 16 * 16 + N_of_ascii c mod 16)%N = c) as [[-> Hc]|(-> & H1 & H2 & H3)].
  { destruct c as [[] [] [] [] [] [] [] []]; first [left; split; [reflexivity|discriminate]|right; split_and!; reflexivity]. }
  - cbn. rewrite (proj2 (Ascii.eqb_neq _ _) Hc). by destruct (unescape false k).
  - cbn [unescape app Ascii.eqb Bool.eqb andb]. rewrite H1, H2. cbn. rewrite H3. by destruct (unescape false k).
Qed.

Lemma unescape_escape l : unescape false (concat (escape_byte <$> l)) = Some l.
Proof. induction l as [|c l IH]; [done|]. cbn [fmap list_fmap concat]. by rewrite unescape_byte, IH. Qed.

Lemma unescape_path_escape s : unescape_string false (path_escape s) = Some s.
Proof.
  unfold unescape_string, path_escape. rewrite to_of_bytes, unescape_escape. cbn. by rewrite of_to_bytes.
Qed.

Lemma path_escape_app a b : path_escape (a +:+ b) = path_escape a +:+ path_escape b.
Proof. unfold path_escape. by rewrite to_bytes_app, fmap_app, concat_app, of_bytes_app. Qed.

Lemma path_escape_rooted l : path_escape (rooted l) = rooted (path_escape <$> l).
Proof.
  unfold rooted. rewrite path_escape_app. f_equal. induction l as [|x [|y l] IH]; [done|done|].
  cbn [Join fmap list_fmap] in *. by rewrite !path_escape_app, IH.
Qed.

Lemma slash_escape c : "/"%char ∈ escape_byte c → c = "/"%char.
Proof.
  intros Hin%list_elem_of_In. destruct c as [[] [] [] [] [] [] [] []]; vm_compute in Hin;
    repeat destruct Hin as [Hin|Hin]; try discriminate Hin; done.
Qed.

Lemma path_escape_plain s : plain_elem s = true → plain_elem (path_escape s) = true.
Proof.
  intros (Hne & Hs & Hd & Hdd)%plain_elem_spec. apply plain_elem_spec.
  assert (∀ x, path_escape s = x → unescape_string false x = Some s) as Hback by (intros x <-; apply unescape_path_escape).
  split_and!; [|
    |intros Hx%Hback; vm_compute in Hx; congruence|intros Hx%Hback; vm_compute in Hx; congruence].
  - intros Hx%Hback. vm_compute in Hx. congruence.
  - apply has_byte_false. apply has_byte_false in Hs. unfold path_escape. rewrite to_of_bytes.
    intros (l & Hl & Hc)%list_elem_of_In%in_concat. apply in_map_iff in Hl as (c & <- & Hl%list_elem_of_In).
    apply list_elem_of_In, slash_escape in Hc as ->. done.
Qed.

Lemma unescape_rooted es vs : Forall2 (λ e v, unescape_string false e = Some v) es vs → unescape_string false (rooted es) = Some (rooted vs).
Proof.
  unfold unescape_string. intros Hf. enough (unescape false (to_bytes (Join "/" es)) = Some (to_bytes (Join "/" vs))) as Hj.
  { unfold rooted. change (to_bytes ("/" +:+ Join "/" es)) with ("/"%char :: to_bytes (Join "/" es)).
    cbn [unescape Ascii.eqb Bool.eqb andb]. rewrite Hj. cbn. by rewrite of_to_bytes. }
  induction Hf as [|e v es vs He Hf IH]; [done|]. apply fmap_Some in He as (w & He & ->).
  destruct Hf as [|e2 v2 es vs He2 Hf].
  - cbn [Join]. by rewrite He, to_of_bytes.
  - change (Join "/" (e :: e2 :: es)) with (e +:+ ("/" +:+ Join "/" (e2 :: es))).
    change (Join "/" (of_bytes w :: v2 :: vs)) with (of_bytes w +:+ ("/" +:+ Join "/" (v2 :: vs))).
    rewrite !to_bytes_app. rewrite to_of_bytes. apply unescape_app; [done|].
    change (to_bytes "/" ++ to_bytes (Join "/" (e2 :: es))) with ("/"%char :: to_bytes (Join "/" (e2 :: es))).
    cbn [unescape Ascii.eqb Bool.eqb andb]. by rewrite IH.
Qed.

(** No path goes on from nothing; below a subtree everything is its own. *)
Lemma matchPath_nil {A} segs found : matchPath (A := A) [] segs found = None.
Proof.
  revert found. induction segs as [|s segs IH]; intros found; [done|]. cbn [matchPath].
  change (after_literal s []) with (@nil (branch_ (A := A))). change (after_wildcard []) with (@nil (branch_ (A := A))).
  rewrite !IH. by destruct (String.eqb s "/").
Qed.

Lemma matchPath_root {A} (a : A) s segs found : matchPath [([], true, a)] (s :: segs) found = Some (a, found).
Proof.
  cbn [matchPath]. change (after_literal s [([], true, a)]) with (@nil (branch_ (A := A))).
  change (after_wildcard [([], true, a)]) with (@nil (branch_ (A := A))). rewrite !matchPath_nil. by destruct (String.eqb s "/").
Qed.

Lemma matchPath_literal {A} s (cs : list (branch_ (A := A))) rest found r :
  matchPath (after_literal s cs) rest found = Some r → matchPath cs (s :: rest) found = Some r.
Proof. intros Hr. cbn [matchPath]. by rewrite Hr. Qed.

Lemma rooted_slash_join l : l ≠ [] → rooted l +:+ "/" = "/" +:+ Join "/" (l ++ [""]).
Proof. intros Hne. unfold rooted. rewrite Join_snoc by done. by rewrite sapp_nil_r, !sapp_assoc. Qed.

Lemma rooted_slash_segments l : l ≠ [] → Forall (λ e, plain_elem e = true) l →
  path_segments (rooted l +:+ "/") = (pathUnescape <$> l) ++ ["/"].
Proof.
  intros Hne Hl. unfold path_segments. rewrite rooted_slash_join by done.
  change (Split "/" ("/" +:+ Join "/" (l ++ [""]))) with ("" :: Split "/" (Join "/" (l ++ [""]))).
  rewrite Split_Join; [|by destruct l|].
  - cbn [tail]. rewrite last_snoc. cbn [String.eqb]. by rewrite removelast_last.
  - apply Forall_app. split; [|by constructor]. eapply Forall_impl; [exact Hl|]. intros e He. apply plain_elem_spec in He. tauto.
Qed.

Lemma count_slashes_app a b : count_slashes (a +:+ b) = (count_slashes a + count_slashes b)%nat.
Proof. unfold count_slashes. by rewrite to_bytes_app, List.filter_app, length_app. Qed.

Lemma count_slashes_rooted l : Forall (λ e, plain_elem e = true) l → l ≠ [] → count_slashes (rooted l) = List.length l.
Proof.
  intros Hl Hne. unfold rooted. rewrite count_slashes_app.
  assert (∀ x, plain_elem x = true → count_slashes x = 0%nat) as Hx.
  { intros x (_ & Hs & _)%plain_elem_spec. apply has_byte_false in Hs. unfold count_slashes.
    destruct (List.filter _ _) as [|c k] eqn:Hf; [done|]. assert (In c (List.filter (Ascii.eqb "/") (to_bytes x))) as Hc by (rewrite Hf; by left).
    apply filter_In in Hc as [Hc <-%Ascii.eqb_eq]. by apply list_elem_of_In in Hc. }
  induction Hl as [|x l Hp Hl IH]; [done|]. destruct l as [|y l]; [cbn [Join List.length]; by rewrite (Hx x)|].
  change (Join "/" (x :: y :: l)) with (x +:+ ("/" +:+ Join "/" (y :: l))). rewrite !count_slashes_app, (Hx x) by done.
  cbn [List.length] in *. rewrite <- IH by done. done.
Qed.
