(* ===== verification/Effects.v ===== *)
(** * Programs that act on the machine

    The engine runs commands (docker, zfs, psql ...), reads and writes files and
    looks at the clock. A program is a function of the history of its actions
    and the machine's replies; the machine, which is not part of the repository,
    is the argument [answer]: any reply to any action after any history. *)
From S2P Require Import Prelude GoStrings.

(** ** Actions and replies *)

Inductive action : Type :=
| Exec (argv : list string) (stdin : string)
| LookPath (file : string)
| Stat (path : string)
| ReadFile (path : string)
| WriteFile (path data : string) (mode : Z)
| MkdirAll (path : string)
| Remove (path : string)
| RemoveAll (path : string)
| Rename (src dst : string)
| ReadDir (path : string)
| Now
| Sleep (ns : Z)
| Print (format : string) (args : list string)
| CallOut (what : string) (args : list string).

(** [rok] is whether the call returned no error; [rout] its standard output (or
    what was read), [rall] its standard output and error together; [rnum] a
    number: the clock's time in nanoseconds, or what Stat and its kin tell. *)
Record reply : Type := mkReply { rok : bool; rout : string; rall : string; rnum : Z }.

#[export] Instance action_eq : EqDecision action.
Proof. solve_decision. Defined.
#[export] Instance reply_eq : EqDecision reply.
Proof. solve_decision. Defined.

Abbreviation event := (action * reply)%type.
Abbreviation history := (list event).

(** ** Errors: a format with its arguments, and what it wraps *)

Inductive error : Type :=
| Errorf (format : string) (args : list string)
| Wrapf (format : string) (args : list string) (inner : error)
| CommandFailed (a : action).

(** errors.Is: the error itself, or one it wraps. Two errors made apart never have the
    same text here. *)
Definition same_error (e target : error) : bool :=
  match e, target with
  | Errorf f _, Errorf g _ => String.eqb f g
  | _, _ => false
  end.
Fixpoint errors_Is (e target : error) : bool :=
  same_error e target || match e with Wrapf _ _ i => errors_Is i target | _ => false end.

(** strconv.Quote of text that needs no escape but these; bytes outside ASCII
    are taken to be printable. *)
Definition quote_byte (c : ascii) : string :=
  if Ascii.eqb c dquote then String "\" (str1 dquote)
  else if Ascii.eqb c "\" then "\\"
  else if Ascii.eqb c nl then "\n" else if Ascii.eqb c tab then "\t" else if Ascii.eqb c "013" then "\r"
  else str1 c.
Definition Quote (s : string) : string :=
  str1 dquote +:+ foldr (λ c t, quote_byte c +:+ t) EmptyString (to_bytes s) +:+ str1 dquote.

(** fmt.Sprintf with %s, %d, %v, %w and %q; [inner] is what %w stands for. *)
Fixpoint Sprintf (format : string) (args : list string) (inner : string) : string :=
  match format with
  | EmptyString => EmptyString
  | String c EmptyString => str1 c
  | String c (String v t as rest) =>
      if negb (Ascii.eqb c "%") then String c (Sprintf rest args inner)
      else if Ascii.eqb v "%" then String "%" (Sprintf t args inner)
      else if Ascii.eqb v "w" then inner +:+ Sprintf t args inner
      else match args with
           | [] => "%!" +:+ str1 v +:+ "(MISSING)" +:+ Sprintf t [] inner
           | a :: args => (if Ascii.eqb v "q" then Quote a else a) +:+ Sprintf t args inner
           end
  end.

(** What a failed command's error says is up to the machine. *)
Class ErrorText := { failure_text : action → string }.
Fixpoint Error `{ErrorText} (e : error) : string :=
  match e with
  | Errorf format args => Sprintf format args EmptyString
  | Wrapf format args inner => Sprintf format args (Error inner)
  | CommandFailed a => failure_text a
  end.

(** ** Programs *)

(** From the history so far: the result, and the events the program adds. *)
Definition prog (A : Type) : Type := history → outcome error A * history.

#[export] Instance prog_ret : MRet prog := λ A a h, (Ok a, []).
#[export] Instance prog_bind : MBind prog := λ A B f m h,
  match m h with
  | (Ok a, t) => let r := f a (h ++ t) in (r.1, t ++ r.2)
  | (Err e, t) => (Err e, t)
  | (Panic w, t) => (Panic w, t)
  end.

Definition lift {A} (o : outcome error A) : prog A := λ h, (o, []).
Definition fail {A} (e : error) : prog A := lift (Err e).
Definition raise {A} (w : string) : prog A := lift (Panic w).

(** The value and the error of a call whose error the caller looks at itself. *)
Definition attempt {A} (m : prog A) : prog (A + error) := λ h,
  match m h with
  | (Ok a, t) => (Ok (inl a), t)
  | (Err e, t) => (Ok (inr e), t)
  | (Panic w, t) => (Panic w, t)
  end.

Class World := { answer : history → action → reply }.

Section machine.
Context {W : World}.

Definition call (a : action) : prog reply := λ h, let r := answer h a in (Ok r, [(a, r)]).

(** A call whose only result is its error. *)
Definition perform (a : action) : prog unit :=
  r ← call a; if rok r then mret tt else fail (CommandFailed a).

(** A call made for its effect, its error discarded. *)
Definition ignore (a : action) : prog unit := _ ← call a; mret tt.

Definition succeeds (a : action) : prog bool := r ← call a; mret (rok r).

(** os.IsNotExist of the error: a failed call numbers that error 1. *)
Definition not_exist (a : action) : prog bool := r ← call a; mret (negb (rok r) && (rnum r =? 1)%Z).
(** Stat of something that is not a directory: a directory is numbered 1. *)
Definition is_file (a : action) : prog bool := r ← call a; mret (rok r && negb (rnum r =? 1)%Z).

End machine.

(** errors dropped: [_ = f()]. *)
Definition discard {A} (m : prog A) : prog unit := _ ← attempt m; mret tt.

(** The error of [m] goes through [handler]. *)
Definition on_error {A} (m : prog A) (handler : error → prog A) : prog A :=
  r ← attempt m;
  match r with inl a => mret a | inr e => handler e end.

(** defer: [d] runs when [m] is over, whatever became of it. *)
Definition finally {A} (m : prog A) (d : prog unit) : prog A := λ h,
  let '(o, t) := m h in
  match d (h ++ t) with
  | (Panic w, u) => (Panic w, t ++ u)
  | (_, u) => (o, t ++ u)
  end.

Definition when (b : bool) (m : prog unit) : prog unit := if b then m else mret tt.

Fixpoint for_each {A} (f : A → prog unit) (l : list A) : prog unit :=
  match l with
  | [] => mret tt
  | x :: t => _ ← f x; for_each f t
  end.

(** ** What a program does, whatever the machine answers *)

(** [runs m h o t]: from [h], [m] ends in [o] and adds the events [t]. *)
Definition runs {A} (m : prog A) (h : history) (o : outcome error A) (t : history) : Prop := m h = (o, t).

(** Every action of every run satisfies [P]. *)
Definition emits {A} (P : action → Prop) (m : prog A) : Prop := ∀ h, Forall (λ e, P e.1) (m h).2.

(** Every value it returns satisfies [Q]. *)
Definition returns {A} (Q : A → Prop) (m : prog A) : Prop := ∀ h a t, runs m h (Ok a) t → Q a.

Definition no_panic {A} (m : prog A) : Prop := ∀ h, panics (m h).1 = false.

(** It returns no error, whatever the machine answers. *)
Definition no_err {A} (m : prog A) : Prop := ∀ h e t, ¬ runs m h (Err e) t.

Create HintDb emits.

(** The ways a sequence runs. *)
Lemma runs_bind {A B} (m : prog A) (f : A → prog B) h o t :
  runs (m ≫= f) h o t ↔
  (∃ a t1 t2, runs m h (Ok a) t1 ∧ runs (f a) (h ++ t1) o t2 ∧ t = t1 ++ t2)
  ∨ (∃ e, runs m h (Err e) t ∧ o = Err e) ∨ (∃ w, runs m h (Panic w) t ∧ o = Panic w).
Proof.
  unfold runs, mbind, prog_bind. destruct (m h) as [[a|e|w] t1] eqn:Hm.
  - destruct (f a (h ++ t1)) as [o2 t2] eqn:Hf. cbn. split.
    + intros [= <- <-]. left. exists a, t1, t2. by rewrite Hf.
    + intros [(a' & u1 & u2 & [= <- <-] & Hf' & ->)|[(e & [=] & _)|(w & [=] & _)]].
      rewrite Hf in Hf'. by injection Hf' as <- <-.
  - split; [intros [= <- <-]; right; left; eauto|].
    intros [(a' & u1 & u2 & [=] & _)|[(e' & [= <- <-] & ->)|(w & [=] & _)]]. done.
  - split; [intros [= <- <-]; right; right; eauto|].
    intros [(a' & u1 & u2 & [=] & _)|[(e' & [=] & _)|(w' & [= <- <-] & ->)]]. done.
Qed.

Lemma runs_bind_ok {A B} (m : prog A) (f : A → prog B) h b t :
  runs (m ≫= f) h (Ok b) t ↔ ∃ a t1 t2, runs m h (Ok a) t1 ∧ runs (f a) (h ++ t1) (Ok b) t2 ∧ t = t1 ++ t2.
Proof. rewrite runs_bind. split; [intros [?|[(e & _ & [=])|(w & _ & [=])]]; done | auto]. Qed.

Lemma runs_lift {A} (o o' : outcome error A) h t : runs (lift o) h o' t ↔ o' = o ∧ t = [].
Proof. unfold runs, lift. split; [by intros [= <- <-] | by intros [-> ->]]. Qed.

Lemma runs_ret {A} (a : A) h o t : runs (mret a) h o t ↔ o = Ok a ∧ t = [].
Proof. apply (runs_lift (Ok a)). Qed.

Lemma runs_attempt {A} (m : prog A) h o t :
  runs (attempt m) h o t ↔
  (∃ a, runs m h (Ok a) t ∧ o = Ok (inl a)) ∨ (∃ e, runs m h (Err e) t ∧ o = Ok (inr e))
  ∨ (∃ w, runs m h (Panic w) t ∧ o = Panic w).
Proof.
  unfold runs, attempt. destruct (m h) as [[a|e|w] u]; split; try naive_solver.
Qed.

Lemma emits_runs {A} P (m : prog A) h o t : emits P m → runs m h o t → Forall (λ e, P e.1) t.
Proof. intros Hm Hr. specialize (Hm h). by rewrite Hr in Hm. Qed.

(** Where [m] does only [P], what comes after it is a run of the rest. *)
Lemma runs_after {A B} (P : action → Prop) (m : prog A) (f : A → prog B) h o t :
  emits P m → runs (m ≫= f) h o t →
  (Forall (λ e, P e.1) t ∧ is_ok o = false) ∨
  ∃ a t1 t2, t = t1 ++ t2 ∧ Forall (λ e, P e.1) t1 ∧ runs m h (Ok a) t1 ∧ runs (f a) (h ++ t1) o t2.
Proof.
  intros Hm [(a & t1 & t2 & Ha & Hf & ->)|[(e & He & ->)|(w & Hw & ->)]]%runs_bind.
  - right. exists a, t1, t2. split; [done|]. split; [by eapply emits_runs|done].
  - left. split; [by eapply emits_runs|done].
  - left. split; [by eapply emits_runs|done].
Qed.

Lemma emits_mono {A} (P Q : action → Prop) (m : prog A) :
  (∀ a, P a → Q a) → emits P m → emits Q m.
Proof. intros HPQ Hm h. eapply Forall_impl; [apply Hm|]. intros e. apply HPQ. Qed.

Lemma emits_and {A} (P Q : action → Prop) (m : prog A) :
  emits P m → emits Q m → emits (λ a, P a ∧ Q a) m.
Proof. intros HP HQ h. apply Forall_and. split; [apply HP|apply HQ]. Qed.

Lemma emits_lift {A} P (o : outcome error A) : emits P (lift o).
Proof. intros h. constructor. Qed.
Lemma emits_ret {A} P (a : A) : emits P (mret a).
Proof. intros h. constructor. Qed.
Lemma emits_fail {A} P e : emits P (fail (A := A) e).
Proof. intros h. constructor. Qed.
Lemma emits_raise {A} P w : emits P (raise (A := A) w).
Proof. intros h. constructor. Qed.

(** The continuation only has to do with the results the first part can have. *)
Lemma emits_bind_returns {A B} P (Q : A → Prop) (m : prog A) (f : A → prog B) :
  emits P m → returns Q m → (∀ a, Q a → emits P (f a)) → emits P (m ≫= f).
Proof.
  intros Hm HQ Hf h. specialize (Hm h). unfold mbind, prog_bind.
  destruct (m h) as [[a|e|w] t] eqn:Hr; [|done|done]. cbn. apply Forall_app. split; [done|].
  apply Hf. by eapply HQ.
Qed.

Lemma emits_bind {A B} P (m : prog A) (f : A → prog B) :
  emits P m → (∀ a, emits P (f a)) → emits P (m ≫= f).
Proof. intros Hm Hf. by apply (emits_bind_returns P (λ _, True)). Qed.

Lemma emits_attempt {A} P (m : prog A) : emits P m → emits P (attempt m).
Proof. intros Hm h. specialize (Hm h). unfold attempt. by destruct (m h) as [[a|e|w] t]. Qed.

Lemma emits_finally {A} P (m : prog A) d : emits P m → emits P d → emits P (finally m d).
Proof.
  intros Hm Hd h. specialize (Hm h). unfold finally. destruct (m h) as [o t]. specialize (Hd (h ++ t)).
  destruct (d (h ++ t)) as [[u|e|w] t']; apply Forall_app; by split.
Qed.

(** Ended: [m] ran, and then [d]. *)
Lemma runs_finally {A} (m : prog A) d h o t : runs (finally m d) h o t →
  ∃ om od t1 t2, runs m h om t1 ∧ runs d (h ++ t1) od t2 ∧ t = t1 ++ t2 ∧ (o = om ∨ ∃ w, od = Panic w ∧ o = Panic w).
Proof.
  unfold runs, finally. destruct (m h) as [om t1]. destruct (d (h ++ t1)) as [od t2] eqn:Hd.
  intros H. exists om, od, t1, t2. rewrite Hd.
  destruct od as [u|e|w]; injection H as <- <-; split_and!; eauto.
Qed.

Lemma emits_discard {A} P (m : prog A) : emits P m → emits P (discard m).
Proof. intros Hm. apply emits_bind; [by apply emits_attempt|]. intros. apply emits_ret. Qed.

Lemma emits_when P b (m : prog unit) : (b = true → emits P m) → emits P (when b m).
Proof. intros Hm. destruct b; [by apply Hm|apply emits_ret]. Qed.

Lemma emits_for_each {A} P (f : A → prog unit) l :
  (∀ x, x ∈ l → emits P (f x)) → emits P (for_each f l).
Proof.
  induction l as [|x l IH]; intros Hf; cbn [for_each]; [apply emits_ret|].
  apply emits_bind; [apply Hf; by left|]. intros _. apply IH. intros y Hy. apply Hf. by right.
Qed.

Lemma no_panic_bind {A B} (m : prog A) (f : A → prog B) :
  no_panic m → (∀ a, no_panic (f a)) → no_panic (m ≫= f).
Proof.
  intros Hm Hf h. specialize (Hm h). unfold mbind, prog_bind.
  destruct (m h) as [[a|e|w] t]; [apply Hf|done|done].
Qed.

Lemma no_err_ret {A} (a : A) : no_err (mret a).
Proof. intros h e t [[=] _]%runs_ret. Qed.

Lemma no_err_attempt {A} (m : prog A) : no_err (attempt m).
Proof. intros h e t [(x & _ & [=])|[(x & _ & [=])|(x & _ & [=])]]%runs_attempt. Qed.

Lemma no_err_bind {A B} (m : prog A) (f : A → prog B) :
  no_err m → (∀ a, no_err (f a)) → no_err (m ≫= f).
Proof.
  intros Hm Hf h e t [(a & t1 & t2 & _ & Hrun & _)|[(x & Hrun & _)|(w & _ & [=])]]%runs_bind.
  - by apply (Hf a) in Hrun.
  - by apply Hm in Hrun.
Qed.

Lemma no_err_discard {A} (m : prog A) : no_err (discard m).
Proof. apply no_err_bind; [apply no_err_attempt|]. intros a. apply no_err_ret. Qed.

Section machine_lemmas.
Context {W : World}.

Lemma no_err_call a : no_err (call a).
Proof. intros h e t Hrun. by unfold runs, call in Hrun. Qed.

Lemma runs_call a h o t : runs (call a) h o t ↔ o = Ok (answer h a) ∧ t = [(a, answer h a)].
Proof. unfold runs, call. split; [by intros [= <- <-] | by intros [-> ->]]. Qed.

Lemma runs_call_bind {B} a (f : reply → prog B) h o t :
  runs (call a ≫= f) h o t ↔
  ∃ u, runs (f (answer h a)) (h ++ [(a, answer h a)]) o u ∧ t = (a, answer h a) :: u.
Proof.
  rewrite runs_bind. split.
  - intros [(r & t1 & t2 & [[= ->] ->]%runs_call & Hrun & ->)|[(e & [[=] _]%runs_call & _)|(w & [[=] _]%runs_call & _)]]. eauto.
  - intros (u & Hrun & ->). left. exists (answer h a), [(a, answer h a)], u. split; [by apply runs_call|done].
Qed.

(** A call's error decides what it returns. *)
Lemma runs_perform a h o t :
  runs (perform a) h o t ↔
  t = [(a, answer h a)] ∧ o = if rok (answer h a) then Ok tt else Err (CommandFailed a).
Proof.
  unfold runs, perform, mbind, prog_bind, call. destruct (rok (answer h a)); cbn; naive_solver.
Qed.

Lemma runs_succeeds a h o t :
  runs (succeeds a) h o t ↔ o = Ok (rok (answer h a)) ∧ t = [(a, answer h a)].
Proof. unfold runs, succeeds, mbind, prog_bind, call. cbn. naive_solver. Qed.

Lemma runs_ignore a h o t : runs (ignore a) h o t ↔ o = Ok tt ∧ t = [(a, answer h a)].
Proof. unfold runs, ignore, mbind, prog_bind, call. cbn. naive_solver. Qed.

Lemma emits_call (P : action → Prop) a : P a → emits P (call a).
Proof. intros HP h. by repeat constructor. Qed.

Lemma emits_perform (P : action → Prop) a : P a → emits P (perform a).
Proof.
  intros HP. apply emits_bind; [by apply emits_call|]. intros r.
  destruct (rok r); [apply emits_ret|apply emits_fail].
Qed.

Lemma emits_then_ret {A} (P : action → Prop) a (f : reply → A) :
  P a → emits P (r ← call a; mret (f r)).
Proof. intros HP. apply emits_bind; [by apply emits_call|]. intros. apply emits_ret. Qed.

Lemma emits_ignore (P : action → Prop) a : P a → emits P (ignore a).
Proof. apply emits_then_ret. Qed.
Lemma emits_succeeds (P : action → Prop) a : P a → emits P (succeeds a).
Proof. apply emits_then_ret. Qed.
Lemma emits_not_exist (P : action → Prop) a : P a → emits P (not_exist a).
Proof. apply emits_then_ret. Qed.
Lemma emits_is_file (P : action → Prop) a : P a → emits P (is_file a).
Proof. apply emits_then_ret. Qed.

End machine_lemmas.

#[export] Hint Resolve emits_ret emits_fail emits_raise emits_lift : emits.
#[export] Hint Resolve emits_call emits_perform emits_ignore emits_succeeds emits_not_exist emits_is_file : emits.
#[export] Hint Resolve emits_attempt emits_discard emits_when emits_finally : emits.

(** Walks a program's structure; leaves the calls whose actions need an argument. *)
Ltac emits_step :=
  lazymatch goal with
  | |- emits _ (mbind _ _) => apply emits_bind; [|intros ?]
  | |- emits _ (mret _) => apply emits_ret
  | |- emits _ (fail _) => apply emits_fail
  | |- emits _ (lift _) => apply emits_lift
  | |- emits _ (raise _) => apply emits_raise
  | |- emits _ (attempt _) => apply emits_attempt
  | |- emits _ (finally _ _) => apply emits_finally
  | |- emits _ (discard _) => apply emits_discard
  | |- emits _ (when _ _) => apply emits_when; intros ?
  | |- emits _ (for_each _ _) => apply emits_for_each; intros ? ?
  | |- emits _ (perform _) => apply emits_perform
  | |- emits _ (ignore _) => apply emits_ignore
  | |- emits _ (succeeds _) => apply emits_succeeds
  | |- emits _ (not_exist _) => apply emits_not_exist
  | |- emits _ (is_file _) => apply emits_is_file
  | |- emits _ (call _) => apply emits_call
  | |- emits _ (if ?b then _ else _) => destruct b eqn:?
  | |- emits _ (match ?x with _ => _ end) => destruct x eqn:?
  | |- emits _ (let _ := _ in _) => cbv zeta
  end.
Ltac emits_go := repeat emits_step.
