(* ===== verification/Storage.v ===== *)
(** * The copy-on-write substrate: internal/branch/storage.go

    The storage interface and its two drivers, ZFS and btrfs, with the parts of
    internal/branch/provision.go and branch.go that prepare the host. *)
From S2P Require Import Prelude GoStrings GoNum GoPath Effects.
Open Scope string_scope.
Open Scope list_scope.

(** ** The process environment and the install's secrets *)

Class Env := {
  getenv : string → string;
  pgPass : string;
  minioUser : string;
  minioPass : string;
  home_dir : option string }.

(** os.TempDir, and the home directory where there is one. *)
Definition temp_dir {E : Env} : string := let t := getenv "TMPDIR" in if String.eqb t "" then "/tmp" else t.
Definition user_home {E : Env} : string := match home_dir with Some h => if String.eqb h "" then temp_dir else h | None => temp_dir end.

(** ** Names (branch.go) *)

Definition datasetBase : string := "oxyndb/branches".
Definition mountBase : string := "/oxyndb/branches".
Definition network : string := "oxyndb".
Definition image : string := "ghcr.io/oxyndb/postgres-walg:16".
Definition pgUser : string := "oxyndb".
Definition pgDatabase : string := "oxyndb".
Definition pgUID : string := "999".
Definition pool : string := "oxyndb".
Definition standbyDataset : string := "oxyndb/standby".
Definition standbyMount : string := "/oxyndb/standby".

Definition dataset (name : string) : string := datasetBase +:+ "/" +:+ name.
Definition mountpoint (name : string) : string := mountBase +:+ "/" +:+ name.
Definition container (name : string) : string := "oxyn-" +:+ name.
Definition snapFor (parent name : string) : string := dataset parent +:+ "@for-" +:+ name.

(** ** Running commands (branch.go) *)

Definition sudo (argv : list string) : action := Exec ("sudo" :: argv) EmptyString.

Section host.
Context {W : World} {En : Env}.

Definition run (argv : list string) : prog unit := perform (sudo argv).
Definition quiet (argv : list string) : prog unit := ignore (sudo argv).
(** The trimmed output comes back with the error, which some callers ignore. *)
Definition capture (argv : list string) : prog (string * bool) :=
  r ← call (sudo argv); mret (TrimSpace (rout r), rok r).
Definition captureCombined (argv : list string) : prog (string * bool) :=
  r ← call (sudo argv); mret (TrimSpace (rall r), rok r).
(** A capture whose error is returned. *)
Definition capture_or_fail (argv : list string) : prog string :=
  '(out, ok) ← capture argv; if (ok : bool) then mret out else fail (CommandFailed (sudo argv)).
Definition ok_sudo (argv : list string) : prog bool := succeeds (sudo argv).

Definition wrap {A} (format : string) (args : list string) (m : prog A) : prog A :=
  r ← attempt m;
  match r with inl a => mret a | inr e => fail (Wrapf format args e) end.

(** ** The interface *)

Record branchUsage : Type := mkUsage { UName : string; UUsed : string; URefer : string }.

Record storage : Type := mkStorage {
  st_name : string;
  st_ensureReady : prog unit;
  st_exists : string → prog bool;
  st_createEmpty : string → prog unit;
  st_clone : string → string → prog unit;
  st_destroy : string → prog unit;
  st_list : prog unit;
  st_usage : prog (list branchUsage);
  st_capacity : prog (string * string);
  st_standbyPath : string;
  st_resetStandby : prog unit;
  st_destroyStandby : prog unit;
  st_protectPrimary : prog unit }.

(** ** Space limits *)

Definition defaultMainReserve : string := "2G".
Definition defaultZpoolFile : string := "/var/lib/oxyndb-zpool.img".
Definition defaultZpoolSize : string := "30G".

Definition envOr (key def : string) : string :=
  let v := TrimSpace (getenv key) in if String.eqb v EmptyString then def else v.

Definition setBranchRefquota (ds : string) : prog unit :=
  let q := envOr "OXYNDB_BRANCH_REFQUOTA" EmptyString in
  if String.eqb q EmptyString || EqualFold q "none" then mret tt
  else run ["zfs"; "set"; "refquota=" +:+ q; ds].

Definition reserveMain : prog unit :=
  let r := envOr "OXYNDB_MAIN_RESERVATION" defaultMainReserve in
  if String.eqb r EmptyString || EqualFold r "none" then mret tt
  else
    e ← attempt (run ["zfs"; "set"; "reservation=" +:+ r; dataset "main"]);
    match e with
    | inl _ => mret tt
    | inr _ => ignore (Print "note: could not reserve %s for main (%v); branches could still crowd it out" [r])
    end.

(** ** ZFS *)

Definition datasetExists (ds : string) : prog bool := ok_sudo ["zfs"; "list"; "-H"; "-o"; "name"; ds].
Definition poolExists : prog bool := ok_sudo ["zpool"; "list"; "-H"; "-o"; "name"; pool].

Definition zfs_ensureReady : prog unit :=
  found ← succeeds (LookPath "zfs");
  if negb found then fail (Errorf "ZFS is not installed — install zfsutils and retry" []) else
  have ← poolExists;
  if (have : bool) then
    ds ← datasetExists datasetBase;
    if (ds : bool) then mret tt else run ["zfs"; "create"; "-p"; datasetBase]
  else
    let vdev := envOr "OXYNDB_ZPOOL_DEVICE" defaultZpoolFile in
    let size := envOr "OXYNDB_ZPOOL_SIZE" defaultZpoolSize in
    _ ← (if HasPrefix vdev "/dev/" then mret tt
         else
           absent ← not_exist (Stat vdev);
           if negb absent then mret tt
           else
             _ ← ignore (Print "Creating a %s ZFS pool image at %s (first run only)…" [size; vdev]);
             wrap "creating pool image: %w" [] (run ["truncate"; "-s"; size; vdev]));
    _ ← ignore (Print "Creating ZFS pool %q on %s…" [pool; vdev]);
    _ ← wrap "creating ZFS pool: %w" [] (run ["zpool"; "create"; "-f"; pool; vdev]);
    run ["zfs"; "create"; "-p"; datasetBase].

Definition zfs_createEmpty (branch : string) : prog unit :=
  _ ← run ["zfs"; "create"; "-p"; dataset branch];
  if String.eqb branch "main" || String.eqb branch "standby" then mret tt
  else setBranchRefquota (dataset branch).

Definition zfs_clone (src dst : string) : prog unit :=
  let snap := snapFor src dst in
  _ ← quiet ["zfs"; "destroy"; snap];
  _ ← wrap "snapshotting %s: %w" [src] (run ["zfs"; "snapshot"; snap]);
  _ ← wrap "cloning into %s: %w" [dst] (run ["zfs"; "clone"; snap; dataset dst]);
  setBranchRefquota (dataset dst).

(** Whether a snapshot is the one a branch was cloned from, which alone may go
    with it. *)
Definition isOriginSnapshotFor (snapshot branch : string) : bool :=
  HasPrefix snapshot (datasetBase +:+ "/") && HasSuffix snapshot ("@for-" +:+ branch)
  && negb (Contains (TrimSuffix snapshot ("@for-" +:+ branch)) "@").

Definition zfs_destroy (branch : string) : prog unit :=
  '(origin, _) ← capture ["zfs"; "get"; "-H"; "-o"; "value"; "origin"; dataset branch];
  _ ← run ["zfs"; "destroy"; "-R"; dataset branch];
  let o := TrimSpace origin in
  _ ← when (isOriginSnapshotFor o branch) (quiet ["zfs"; "destroy"; o]);
  quiet ["zfs"; "destroy"; snapFor "main" branch].

Definition zfs_usage_line (ln : string) : option branchUsage :=
  match Fields ln with
  | [a; b; c] => if String.eqb a datasetBase then None else Some (mkUsage (Base a) b c)
  | _ => None
  end.
Definition zfs_usage : prog (list branchUsage) :=
  out ← capture_or_fail ["zfs"; "list"; "-H"; "-o"; "name,used,refer"; "-r"; datasetBase];
  mret (omap zfs_usage_line (Split nl out)).

Definition zfs_capacity : prog (string * string) :=
  out ← capture_or_fail ["zfs"; "list"; "-H"; "-o"; "used,avail"; pool];
  match Fields out with
  | [a; b] => mret (a, b)
  | _ => fail (Errorf "unexpected zfs output: %q" [out])
  end.

Definition zfsStorage : storage := mkStorage
  "zfs"
  zfs_ensureReady
  (λ b, ok_sudo ["zfs"; "list"; "-H"; "-o"; "name"; dataset b])
  zfs_createEmpty zfs_clone zfs_destroy
  (run ["zfs"; "list"; "-r"; "-o"; "name,used,refer,mountpoint"; datasetBase])
  zfs_usage zfs_capacity standbyMount
  (_ ← quiet ["zfs"; "destroy"; "-r"; standbyDataset]; run ["zfs"; "create"; standbyDataset])
  (quiet ["zfs"; "destroy"; "-r"; standbyDataset])
  reserveMain.

(** ** btrfs *)

Definition btrfsImage : string := "/var/lib/oxyndb-btrfs.img".
Definition btrfsMount : string := mountBase.
Definition btrfsSubvol (branch : string) : string := JoinPath [btrfsMount; branch].

Definition btrfs_ensureReady : prog unit :=
  found ← succeeds (LookPath "mkfs.btrfs");
  if negb found then fail (Errorf "btrfs-progs is not installed — install it and retry" []) else
  mounted ← ok_sudo ["mountpoint"; "-q"; btrfsMount];
  if (mounted : bool) then mret tt else
  absent ← not_exist (Stat btrfsImage);
  _ ← (if negb absent then mret tt
       else
         let size := envOr "OXYNDB_ZPOOL_SIZE" defaultZpoolSize in
         _ ← ignore (Print "Creating a %s btrfs image at %s (first run only)…" [size; btrfsImage]);
         _ ← wrap "creating the storage image: %w" [] (run ["truncate"; "-s"; size; btrfsImage]);
         wrap "formatting the storage image: %w" [] (run ["mkfs.btrfs"; "-q"; "-L"; "oxyndb"; btrfsImage]));
  _ ← run ["mkdir"; "-p"; btrfsMount];
  wrap "mounting the storage image: %w" [] (run ["mount"; "-o"; "loop"; btrfsImage; btrfsMount]).

Definition btrfs_exists (branch : string) : prog bool :=
  ok_sudo ["btrfs"; "subvolume"; "show"; btrfsSubvol branch].

Definition disableCoW (branch : string) : prog unit :=
  e ← attempt (run ["chattr"; "+C"; btrfsSubvol branch]);
  match e with
  | inl _ => mret tt
  | inr _ => ignore (Print "note: could not disable copy-on-write on %s; writes may be slower" [branch])
  end.

Definition btrfs_createEmpty (branch : string) : prog unit :=
  _ ← run ["btrfs"; "subvolume"; "create"; btrfsSubvol branch];
  disableCoW branch.

Definition btrfs_clone (src dst : string) : prog unit :=
  run ["btrfs"; "subvolume"; "snapshot"; btrfsSubvol src; btrfsSubvol dst].

Definition btrfs_destroy (branch : string) : prog unit :=
  run ["btrfs"; "subvolume"; "delete"; btrfsSubvol branch].

Definition btrfs_list : prog unit :=
  _ ← run ["btrfs"; "subvolume"; "list"; btrfsMount];
  run ["btrfs"; "filesystem"; "df"; btrfsMount].

Definition btrfs_usage_line (ln : string) : option branchUsage :=
  match Fields ln with
  | [a; b] => Some (mkUsage (Base (TrimSuffix b "/")) a a)
  | _ => None
  end.
Definition btrfs_usage : prog (list branchUsage) :=
  out ← capture_or_fail ["sh"; "-c";
    "du -sh --apparent-size " +:+ btrfsMount +:+ "/*/ 2>/dev/null || true"];
  mret (omap btrfs_usage_line (Split nl out)).

Definition btrfs_destroyStandby : prog unit :=
  there ← btrfs_exists "standby";
  when there (quiet ["btrfs"; "subvolume"; "delete"; btrfsSubvol "standby"]).

(** ParseUint's value, error discarded: 0 on a syntax error, the largest uint64
    when out of range. *)
Definition parse_uint_or_zero (s : string) : Z :=
  match parse_digits s with
  | Some n => Z.min (Z.of_N n) (2 ^ 64 - 1)
  | None => 0
  end.
Definition parseBytesField (line : string) : Z :=
  match last (Fields line) with
  | Some f => parse_uint_or_zero f
  | None => 0
  end.

(** n/d rounded to the nearest integer, ties to even. *)
Definition round_div (n d : Z) : Z :=
  let q := (n / d)%Z in
  let r := (n mod d)%Z in
  if (2 * r <? d)%Z then q
  else if (d <? 2 * r)%Z then (q + 1)%Z
  else if Z.even q then q else (q + 1)%Z.

(** float64(n): 53 significant bits, ties to even. *)
Definition float64_of (n : Z) : Z :=
  let e := Z.max 0 (Z.log2 n - 52) in (round_div n (2 ^ e) * 2 ^ e)%Z.

(** The loop: how often the count is divided by 1024, at most [fuel] = 4 times. *)
Fixpoint unit_go (fuel : nat) (v div : Z) (exp : nat) : Z * nat :=
  match fuel with
  | O => (div, exp)
  | S f => if (1024 <=? v)%Z then unit_go f (v / 1024)%Z (div * 1024)%Z (S exp) else (div, exp)
  end.

Definition humanBytes (n : Z) : string :=
  if (n <? 1024)%Z then format_int n +:+ "B"
  else
    let '(div, exp) := unit_go 4 (n / 1024)%Z 1024%Z 0 in
    let tenths := round_div (float64_of n * 10) div in
    format_int (tenths / 10)%Z +:+ "." +:+ format_int (tenths mod 10)%Z
      +:+ str1 (default " "%char (to_bytes "KMGTP" !! exp)).

Fixpoint btrfs_sizes (lines : list string) (size used : Z) : Z * Z :=
  match lines with
  | [] => (size, used)
  | ln :: t =>
      let s := TrimSpace ln in
      if HasPrefix s "Device size:" then btrfs_sizes t (parseBytesField s) used
      else if HasPrefix s "Used:" then btrfs_sizes t size (parseBytesField s)
      else btrfs_sizes t size used
  end.
Definition btrfs_capacity : prog (string * string) :=
  out ← capture_or_fail ["btrfs"; "filesystem"; "usage"; "--raw"; btrfsMount];
  let '(size, used) := btrfs_sizes (Split nl out) 0 0 in
  if (size =? 0)%Z then fail (Errorf "could not read btrfs usage" [])
  else mret (humanBytes used, humanBytes ((size - used) mod 2 ^ 64)%Z).

Definition btrfsStorage : storage := mkStorage
  "btrfs"
  btrfs_ensureReady btrfs_exists btrfs_createEmpty btrfs_clone btrfs_destroy btrfs_list
  btrfs_usage btrfs_capacity (btrfsSubvol "standby")
  (_ ← btrfs_destroyStandby; btrfs_createEmpty "standby")
  btrfs_destroyStandby
  (mret tt).

(** The driver OXYNDB_STORAGE selects. *)
Definition activeStorage : storage :=
  if String.eqb (smap lower_byte (TrimSpace (getenv "OXYNDB_STORAGE"))) "btrfs"
  then btrfsStorage else zfsStorage.

(** ** Preparing the host (provision.go) *)

Definition ensureDocker : prog unit :=
  found ← succeeds (LookPath "docker");
  if negb found then fail (Errorf "Docker is not installed or not on PATH — install Docker and retry" []) else
  up ← ok_sudo ["docker"; "info"];
  if (up : bool) then mret tt else fail (Errorf "cannot reach the Docker daemon — is Docker running?" []).

Definition imageExists : prog bool := ok_sudo ["docker"; "image"; "inspect"; image].

(** The first candidate directory with a Dockerfile in it. [wd] is the working
    directory, when there is one. *)
Fixpoint first_context (candidates : list string) : prog string :=
  match candidates with
  | [] => mret EmptyString
  | c :: t =>
      file ← is_file (Stat (JoinPath [c; "Dockerfile"]));
      if (file : bool) then mret c else first_context t
  end.
Definition findImageContext (wd : option string) : prog string :=
  first_context (["docker/postgres"; "../docker/postgres"; "../../docker/postgres"]
    ++ match wd with Some d => [JoinPath [d; "docker"; "postgres"]] | None => [] end).

Definition ensureImage (wd : option string) : prog unit :=
  there ← imageExists;
  if (there : bool) then mret tt else
  _ ← ignore (Print "Fetching image %s…" [image]);
  pulled ← attempt (run ["docker"; "pull"; image]);
  match pulled with
  | inl _ => mret tt
  | inr _ =>
      found ← findImageContext wd;
      let ctx := envOr "OXYNDB_IMAGE_CONTEXT" found in
      if String.eqb ctx EmptyString
      then fail (Errorf "image %s could not be pulled and no build context was found — set %s to the docker/postgres directory, or pre-build the image" [image; "OXYNDB_IMAGE_CONTEXT"])
      else
        _ ← ignore (Print "Building image %s from %s (this can take a minute)…" [image; ctx]);
        run ["docker"; "build"; "-t"; image; ctx]
  end.

Definition Provision (wd : option string) : prog unit :=
  _ ← ensureDocker;
  _ ← st_ensureReady activeStorage;
  ensureImage wd.

(** ** The images of the object store (images.go) *)

Definition MinioImage : string := "quay.io/minio/minio:RELEASE.2025-09-07T16-13-09Z".
Definition MCImage : string := "quay.io/minio/mc:RELEASE.2025-08-13T08-35-41Z".
Definition legacyMinioImage : string := "minio/minio:latest".
Definition legacyMCImage : string := "minio/mc:latest".

Definition imagePresent (ref : string) : prog bool := ok_sudo ["docker"; "image"; "inspect"; ref].

Definition pickImage (override pinned legacy : string) (present : string → prog bool) : prog string :=
  let o := TrimSpace override in
  if negb (String.eqb o EmptyString) then mret o else
  p ← present pinned;
  if (p : bool) then mret pinned else
  l ← present legacy;
  if (l : bool) then mret legacy else mret pinned.

Definition minioImage : prog string :=
  pickImage (getenv "OXYNDB_MINIO_IMAGE") MinioImage legacyMinioImage imagePresent.
Definition mcImage : prog string :=
  pickImage (getenv "OXYNDB_MC_IMAGE") MCImage legacyMCImage imagePresent.

End host.

(** ** Lemmas: names *)

Lemma btrfsSubvol_plain n : plain_elem n = true → btrfsSubvol n = mountpoint n.
Proof.
  intros Hn. unfold btrfsSubvol, btrfsMount, mountBase.
  apply (JoinPath_elem ["oxyndb"; "branches"]); [done| |done]. by repeat constructor.
Qed.

Lemma dataset_inj a b : dataset a = dataset b → a = b.
Proof. unfold dataset. rewrite <-!sapp_assoc. apply sapp_inv_head. Qed.

Lemma mountpoint_inj a b : mountpoint a = mountpoint b → a = b.
Proof. unfold mountpoint. rewrite <-!sapp_assoc. apply sapp_inv_head. Qed.

(** A snapshot made to clone the branch: in some dataset of the branches, and named
    for the branch. *)
Definition own_snapshot (branch s : string) : Prop :=
  ∃ p, s = datasetBase +:+ "/" +:+ p +:+ "@for-" +:+ branch ∧ has_byte "@" p = false.

Lemma isOriginSnapshotFor_spec s branch : isOriginSnapshotFor s branch = true ↔ own_snapshot branch s.
Proof.
  unfold isOriginSnapshotFor, own_snapshot. rewrite !andb_true_iff, negb_true_iff. split.
  - intros [[(q & Hq)%HasPrefix_spec (r & ->)%HasSuffix_spec] Hn].
    rewrite TrimSuffix_app, (Contains_byte "@") in Hn.
    apply sapp_eq_sapp in Hq as [(k & -> & _)|(k & Hk & Hs)].
    + exists k. split; [by rewrite !sapp_assoc|]. rewrite !has_byte_app in Hn.
      by apply orb_false_iff in Hn as [_ Hn].
    + destruct k as [|c k].
      { rewrite sapp_nil_r in Hk. subst r. exists EmptyString. done. }
      cbn in Hs. injection Hs as <- _. apply (f_equal (has_byte "@")) in Hk.
      rewrite !has_byte_app in Hk. rewrite Hn in Hk. discriminate Hk.
  - intros (p & -> & Hp). split_and!.
    + apply HasPrefix_spec. exists (p +:+ "@for-" +:+ branch). by rewrite !sapp_assoc.
    + apply HasSuffix_spec. exists (datasetBase +:+ "/" +:+ p). by rewrite !sapp_assoc.
    + replace (datasetBase +:+ "/" +:+ p +:+ "@for-" +:+ branch)
        with ((datasetBase +:+ "/" +:+ p) +:+ ("@for-" +:+ branch)) by (by rewrite !sapp_assoc).
      rewrite TrimSuffix_app, (Contains_byte "@"), !has_byte_app, Hp. done.
Qed.
