(* ===== verification/Tls.v ===== *)
(** * The TLS certificate that several processes share (src/internal/tlsutil)

    The gateway, the control plane and the agent API start together and all want the pair
    under ~/.oxyndb/tls; the first generates it, under a lock file. Each process is a
    program counter, one call of the operating system per step; a run is a list of steps in
    any order, of time that passes and of calls that are refused. *)
From S2P Require Import Prelude GoStrings GoNum GoPath GoTime Storage Effects.
Open Scope string_scope.
Open Scope list_scope.

(** ** Paths and the environment *)

Section paths.
Context {En : Env}.

Definition configDir : string := JoinPath [user_home; ".oxyndb"].
Definition tls_dir : string := JoinPath [configDir; "tls"].
Definition cert_path : string := JoinPath [tls_dir; "cert.pem"].
Definition key_path : string := JoinPath [tls_dir; "key.pem"].

(** Where the pair is: two paths or why there are none. *)
Definition pair_paths : Type := string * string + error.

(** The pair that the environment names, when it names one. *)
Definition env_pair : option pair_paths :=
  let c := getenv "OXYNDB_TLS_CERT" in let k := getenv "OXYNDB_TLS_KEY" in
  if String.eqb c "" && String.eqb k "" then None
  else if String.eqb c "" || String.eqb k "" then Some (inr (Errorf "set both %s and %s, or neither" ["OXYNDB_TLS_CERT"; "OXYNDB_TLS_KEY"]))
  else Some (inl (c, k)).
End paths.

(** ** Processes *)

(** Certificates and keys come from the crypto library: the texts of the [g]th pair. *)
Class KeyPairs := { cert_pem : nat → string; key_pem : nat → string }.

(** Where a process is in EnsureCert. [d] is the time after which it takes the lock for
    stale, [g] the pair it has made, [n] how much of a file it has written. *)
Inductive pc : Type :=
| LookCert | LookKey                        (* fileExists(certPath) && fileExists(keyPath) *)
| MakeDir                                   (* os.MkdirAll(dir) *)
| TakeLock (d : time)                       (* os.OpenFile(lockPath, O_CREATE|O_EXCL) *)
| Waiting (d : time)                        (* time.Now().After(deadline), or 100 ms of sleep *)
| StealLock (d : time)                      (* os.Remove(lockPath) *)
| LookCertAgain | LookKeyAgain              (* the same test, with the lock *)
| MakePair                                  (* ecdsa.GenerateKey to x509.MarshalECPrivateKey *)
| OpenCert (g : nat) | WriteCert (g n : nat)
| OpenKey (g : nat) | WriteKey (g n : nat)
| DropLock (r : unit + error)               (* the deferred os.Remove(lockPath) *)
| Ended (r : pair_paths).

(** What the processes share: the two files, the lock file, the clock, and how many pairs
    have been made. *)
Record shared : Type := mkShared { cert_file : option string; key_file : option string; lock_file : bool; now : time; made : nat }.

Definition with_cert (c : option string) (s : shared) : shared := mkShared c (key_file s) (lock_file s) (now s) (made s).
Definition with_key (k : option string) (s : shared) : shared := mkShared (cert_file s) k (lock_file s) (now s) (made s).
Definition with_lock (l : bool) (s : shared) : shared := mkShared (cert_file s) (key_file s) l (now s) (made s).

Definition present (f : option string) : bool := match f with Some _ => true | None => false end.

(** A write at an offset; a file cut short behind it is filled up with zero bytes. *)
Definition zero_bytes (n : nat) : string := of_bytes (repeat (ascii_of_N 0) n).
Definition write_at (n : nat) (data file : string) : string :=
  substring 0 n (file +:+ zero_bytes (n - String.length file)) +:+ data
  +:+ substring (n + String.length data) (String.length file - (n + String.length data)) file.

Section process.
Context {En : Env} {K : KeyPairs}.

Definition lock_timeout : time := (15 * second)%Z.

(** writePEM after its open: [m] is how far this write gets. *)
Definition write_pem (text : string) (n m : nat) (file : option string) : option string :=
  write_at n (substring n (m - n) text) <$> file.

(** One step of a process: [m] is how far a write gets, [refused] whether the call is
    refused. *)
Definition process_step (p : pc) (m : nat) (refused : bool) (s : shared) : option (pc * shared) :=
  match p with
  | LookCert => Some (if negb refused && present (cert_file s) then LookKey else MakeDir, s)
  | LookKey => Some (if negb refused && present (key_file s) then Ended (inl (cert_path, key_path)) else MakeDir, s)
  | MakeDir => Some (if refused then Ended (inr (Errorf "create tls dir: %w" [])) else TakeLock (now s + lock_timeout)%Z, s)
  | TakeLock d =>
      if refused then Some (Ended (inr (Errorf "tls lock: %w" [])), s)
      else if lock_file s then Some (Waiting d, s) else Some (LookCertAgain, with_lock true s)
  | Waiting d => Some (if (d <? now s)%Z then StealLock d else TakeLock d, s)
  | StealLock d => Some (TakeLock d, if refused then s else with_lock false s)
  | LookCertAgain => Some (if negb refused && present (cert_file s) then LookKeyAgain else MakePair, s)
  | LookKeyAgain => Some (if negb refused && present (key_file s) then DropLock (inl tt) else MakePair, s)
  | MakePair =>
      if refused then Some (DropLock (inr (Errorf (nth m ["generate key: %w"; "serial: %w"; "create cert: %w"] "marshal key: %w") [])), s)
      else Some (OpenCert (made s), mkShared (cert_file s) (key_file s) (lock_file s) (now s) (S (made s)))
  | OpenCert g =>
      if refused then Some (DropLock (inr (Errorf "write %s: %w" [cert_path])), s) else Some (WriteCert g 0, with_cert (Some "") s)
  | WriteCert g n =>
      if refused then Some (DropLock (inr (Errorf "encode %s: %w" [cert_path])), s)
      else if (n <=? m) && (m <=? String.length (cert_pem g))
      then Some (if m =? String.length (cert_pem g) then OpenKey g else WriteCert g m, with_cert (write_pem (cert_pem g) n m (cert_file s)) s)
      else None
  | OpenKey g =>
      if refused then Some (DropLock (inr (Errorf "write %s: %w" [key_path])), s) else Some (WriteKey g 0, with_key (Some "") s)
  | WriteKey g n =>
      if refused then Some (DropLock (inr (Errorf "encode %s: %w" [key_path])), s)
      else if (n <=? m) && (m <=? String.length (key_pem g))
      then Some (if m =? String.length (key_pem g) then DropLock (inl tt) else WriteKey g m, with_key (write_pem (key_pem g) n m (key_file s)) s)
      else None
  | DropLock r =>
      Some (Ended (match r with inl _ => inl (cert_path, key_path) | inr e => inr e end), if refused then s else with_lock false s)
  | Ended _ => None
  end%nat.

(** ** Runs *)

Inductive event : Type := Tick (d : time) | Move (i m : nat) (refused : bool).
Record system : Type := mkSystem { common : shared; procs : list pc }.

Definition system_step (e : event) (s : system) : option system :=
  match e with
  | Tick d => let c := common s in
      if (0 <=? d)%Z then Some (mkSystem (mkShared (cert_file c) (key_file c) (lock_file c) (now c + d)%Z (made c)) (procs s)) else None
  | Move i m refused =>
      p ← procs s !! i; '(p', c) ← process_step p m refused (common s);
      Some (mkSystem c (<[i := p']> (procs s)))
  end.

Fixpoint run_events (es : list event) (s : system) : option system :=
  match es with [] => Some s | e :: t => s' ← system_step e s; run_events t s' end.

(** EnsureCert, from what the process has cached; the paths a call ended with are what it
    caches. *)
Definition EnsureCert (cached : option (string * string)) : pc :=
  match cached with
  | Some p => Ended (inl p)
  | None => match env_pair with Some r => Ended r | None => LookCert end
  end.
Definition next_cached (cached : option (string * string)) (p : pc) : option (string * string) :=
  match p with Ended (inl q) => Some q | _ => cached end.

(** [n] processes that all call EnsureCert for the first time. *)
Definition start (cert key : option string) (lock : bool) (t : time) (n : nat) : system :=
  mkSystem (mkShared cert key lock t 0) (repeat (EnsureCert None) n).

(** Nothing is refused, and no more than the lock's timeout goes by. *)
Definition served (e : event) : bool := match e with Move _ _ refused => negb refused | Tick _ => true end.
Fixpoint elapsed (es : list event) : time :=
  match es with [] => 0%Z | Tick d :: t => (d + elapsed t)%Z | Move _ _ _ :: t => elapsed t end.
Definition calm (es : list event) : bool := forallb served es && (elapsed es <=? lock_timeout)%Z.


(** ** The invariant *)

(** The two files are a pair that was made together. *)
Definition matched (c k : option string) : Prop := ∃ g, c = Some (cert_pem g) ∧ k = Some (key_pem g).
Definition both (c k : option string) : bool := present c && present k.
(** What is on disk while nobody writes: a pair, or not both files. *)
Definition settled (c k : option string) : Prop := both c k = true → matched c k.

(** The process has the lock. *)
Definition holds (p : pc) : bool :=
  match p with
  | LookCertAgain | LookKeyAgain | MakePair | OpenCert _ | WriteCert _ _ | OpenKey _ | WriteKey _ _ | DropLock _ => true
  | _ => false
  end.

(** What the files are at each point of the process that has the lock. *)
Definition files_at (p : pc) (c k : option string) : Prop :=
  match p with
  | WriteCert g n => c = Some (substring 0 n (cert_pem g)) ∧ (n <= String.length (cert_pem g))%nat
  | OpenKey g => c = Some (cert_pem g)
  | WriteKey g n => c = Some (cert_pem g) ∧ k = Some (substring 0 n (key_pem g)) ∧ (n <= String.length (key_pem g))%nat
  | LookKeyAgain => settled c k ∧ present c = true
  | MakePair | OpenCert _ => both c k = false
  | DropLock r => settled c k ∧ r = inl tt ∧ both c k = true
  | _ => settled c k
  end.

(** What every other process can rely on: before the end of time nobody steals, the
    certificate is there for one that has seen it, both files are there for one that has
    ended. *)
Definition process_ok (limit : time) (s : shared) (p : pc) : Prop :=
  match p with
  | LookKey => present (cert_file s) = true
  | TakeLock d | Waiting d => (limit <= d)%Z
  | StealLock _ => False
  | Ended r => r = inl (cert_path, key_path) ∧ both (cert_file s) (key_file s) = true
  | _ => True
  end.

Record inv (limit : time) (s : system) : Prop := {
  inv_lock : lock_file (common s) = true ↔ ∃ i p, procs s !! i = Some p ∧ holds p = true;
  inv_one : ∀ i j p q, procs s !! i = Some p → procs s !! j = Some q → holds p = true → holds q = true → i = j;
  inv_files : ∀ i p, procs s !! i = Some p → holds p = true → files_at p (cert_file (common s)) (key_file (common s));
  inv_free : lock_file (common s) = false → settled (cert_file (common s)) (key_file (common s));
  inv_procs : Forall (process_ok limit (common s)) (procs s) }.

End process.

(** ** Writing a file piece by piece *)

Lemma to_bytes_substring n m s : to_bytes (substring n m s) = take m (drop n (to_bytes s)).
Proof.
  revert n m. induction s as [|c s IH]; intros n m.
  - by destruct n, m.
  - destruct n as [|n]; [destruct m as [|m]; [done|]|]; cbn [substring to_bytes take drop]; [by rewrite IH|apply IH].
Qed.

Lemma write_more text n m : (n <= m <= String.length text)%nat →
  write_at n (substring n (m - n) text) (substring 0 n text) = substring 0 m text.
Proof.
  intros Hm. unfold write_at. apply (inj to_bytes). rewrite !to_bytes_app, !to_bytes_substring. cbn [drop].
  assert (String.length (substring 0 n text) = n) as Hn.
  { rewrite <-length_to_bytes, to_bytes_substring, length_take, length_drop, length_to_bytes. lia. }
  assert (String.length (substring n (m - n) text) = m - n)%nat as Hs.
  { rewrite <-length_to_bytes, to_bytes_substring, length_take, length_drop, length_to_bytes. lia. }
  rewrite Hn, Hs. rewrite Nat.sub_diag. cbn [zero_bytes repeat of_bytes]. rewrite sapp_nil_r.
  replace (n - (n + (m - n)))%nat with 0%nat by lia. rewrite !drop_0, take_0, app_nil_r. rewrite to_bytes_substring, drop_0, take_take, Nat.min_id.
  replace m with (n + (m - n))%nat at 2 by lia. apply take_take_drop.
Qed.

Lemma substring_whole s n : n = String.length s → substring 0 n s = s.
Proof. intros ->. apply (inj to_bytes). rewrite to_bytes_substring. rewrite drop_0. apply take_ge. by rewrite length_to_bytes. Qed.

(** ** One step *)

Section steps.
Context {En : Env} {K : KeyPairs}.
Variable t0 : time.

Definition lasts (s s' : shared) : Prop :=
  (present (cert_file s) = true → present (cert_file s') = true) ∧ (present (key_file s) = true → present (key_file s') = true).

Lemma lasts_both s s' : lasts s s' → both (cert_file s) (key_file s) = true → both (cert_file s') (key_file s') = true.
Proof. intros [Hc Hk]. unfold both. rewrite !andb_true_iff. intros [??]. auto. Qed.
Lemma process_ok_lasts limit s s' p : lasts s s' → process_ok limit s p → process_ok limit s' p.
Proof. intros Hl. destruct p; cbn; try done; [apply Hl|]. intros [-> Hb]. split; [done|by apply (lasts_both s)]. Qed.

(** The four kinds of step when nothing is refused and no deadline has passed. *)
Inductive calm_step (p : pc) (s : shared) : pc → shared → Prop :=
| step_outside p' : holds p = false → holds p' = false → calm_step p s p' s
| step_enter : holds p = false → lock_file s = false → calm_step p s LookCertAgain (with_lock true s)
| step_inside p' s' : holds p = true → holds p' = true → lock_file s' = lock_file s →
    files_at p' (cert_file s') (key_file s') → calm_step p s p' s'
| step_leave : holds p = true → settled (cert_file s) (key_file s) → calm_step p s (Ended (inl (cert_path, key_path))) (with_lock false s).

Lemma process_step_calm p m s p' s' :
  (t0 <= now s <= t0 + lock_timeout)%Z → process_ok (t0 + lock_timeout) s p →
  (holds p = true → files_at p (cert_file s) (key_file s)) →
  process_step p m false s = Some (p', s') →
  calm_step p s p' s' ∧ process_ok (t0 + lock_timeout) s' p' ∧ lasts s s' ∧ now s' = now s.
Proof.
  intros Ht Hp Hf Hs. destruct s as [c k l t g']. destruct p; cbn in Hp, Hf, Hs, Ht |- *; try done.
  - destruct c; injection Hs as <- <-; repeat (split || done || by constructor).
  - destruct k; injection Hs as <- <-; repeat (split || done || by constructor). cbn. unfold both. by rewrite Hp.
  - injection Hs as <- <-. repeat (split || done || by constructor). cbn. lia.
  - destruct l; injection Hs as <- <-; repeat (split || done || by constructor).
  - destruct (Z.ltb_spec d t); [lia|]. injection Hs as <- <-. repeat (split || done || by constructor).
  - destruct c; injection Hs as <- <-; (split; [|repeat (split || done)]); constructor; try done; cbn; by auto.
  - destruct (Hf eq_refl) as [Hm Hc]. destruct k; injection Hs as <- <-; (split; [|repeat (split || done)]); constructor; try done; cbn;
      unfold both; rewrite ?Hc; done.
  - injection Hs as <- <-. (split; [|repeat (split || done)]). constructor; try done. by apply Hf.
  - injection Hs as <- <-. split; [|repeat (split || done)]. constructor; cbn; try done. split; [by destruct (cert_pem g)|lia].
  - destruct (Hf eq_refl) as [-> Hn]. destruct ((n <=? m)%nat && _) eqn:Hg; [|done]. apply andb_true_iff in Hg as [H1%Nat.leb_le H2%Nat.leb_le].
    unfold write_pem in Hs. cbn [fmap option_fmap option_map] in Hs. rewrite write_more in Hs by done.
    destruct (Nat.eqb_spec m (String.length (cert_pem g))) as [->|Hne]; injection Hs as <- <-; (split; [|repeat (split || done)]); constructor; cbn; try done.
    by rewrite substring_whole.
  - injection Hs as <- <-. split; [|repeat (split || done)]. constructor; cbn; try done. split_and!; [by apply Hf|by destruct (key_pem g)|lia].
  - destruct (Hf eq_refl) as (-> & -> & Hn). destruct ((n <=? m)%nat && _) eqn:Hg; [|done]. apply andb_true_iff in Hg as [H1%Nat.leb_le H2%Nat.leb_le].
    unfold write_pem in Hs. cbn [fmap option_fmap option_map] in Hs. rewrite write_more in Hs by done.
    destruct (Nat.eqb_spec m (String.length (key_pem g))) as [->|Hne]; injection Hs as <- <-; (split; [|repeat (split || done)]); constructor; cbn; try done.
    split; [|done]. intros _. exists g. by rewrite substring_whole.
  - destruct (Hf eq_refl) as (Hm & -> & Hb). injection Hs as <- <-. split; [|repeat (split || done)]. by constructor.
Qed.

(** A step of the process [i] keeps the invariant. *)
Lemma inv_enter s i c' : inv (t0 + lock_timeout) s → lock_file (common s) = false → (∃ p, procs s !! i = Some p) →
  c' = with_lock true (common s) → inv (t0 + lock_timeout) (mkSystem c' (<[i := LookCertAgain]> (procs s))).
Proof.
  intros [Hl Ho Hf Hfree Hp] Hlock [p Hi] ->. pose proof (lookup_lt_Some _ _ _ Hi) as Hlt.
  assert (∀ j q, procs s !! j = Some q → holds q = false) as Hnone.
  { intros j q Hj. destruct (holds q) eqn:Hq; [|done]. by rewrite (proj2 Hl) in Hlock by eauto. }
  assert (∀ j q, <[i := LookCertAgain]> (procs s) !! j = Some q → holds q = true → j = i ∧ q = LookCertAgain) as Honly.
  { intros j q Hj Hq. apply list_lookup_insert_Some in Hj as [(-> & <- & _)|(Hne & Hj)]; [done|]. by rewrite (Hnone j q Hj) in Hq. }
  split; cbn [common procs].
  - split; [|done]. intros _. exists i, LookCertAgain. split; [|done]. by apply list_lookup_insert_eq.
  - intros j k q r Hj Hk Hq Hr. destruct (Honly j q Hj Hq), (Honly k r Hk Hr). congruence.
  - intros j q Hj Hq. destruct (Honly j q Hj Hq) as [_ ->]. by apply Hfree.
  - done.
  - apply Forall_insert; [|done]. eapply Forall_impl; [exact Hp|]. intros q. by apply process_ok_lasts.
Qed.

Lemma inv_inside s i p p' c' : inv (t0 + lock_timeout) s → procs s !! i = Some p → holds p = true → holds p' = true →
  lock_file c' = lock_file (common s) → files_at p' (cert_file c') (key_file c') → process_ok (t0 + lock_timeout) c' p' → lasts (common s) c' →
  inv (t0 + lock_timeout) (mkSystem c' (<[i := p']> (procs s))).
Proof.
  intros [Hl Ho Hf Hfree Hp] Hi Hh Hh' Hlock Hfiles Hok Hlast. pose proof (lookup_lt_Some _ _ _ Hi) as Hlt.
  assert (∀ j q, <[i := p']> (procs s) !! j = Some q → holds q = true → j = i ∧ q = p') as Honly.
  { intros j q Hj Hq. apply list_lookup_insert_Some in Hj as [(-> & <- & _)|(Hne & Hj)]; [done|]. by destruct (Ho i j p q Hi Hj Hh Hq). }
  assert (lock_file (common s) = true) as Hlk by (apply Hl; eauto).
  split; cbn [common procs].
  - rewrite Hlock, Hlk. split; [|done]. intros _. exists i, p'. split; [|done]. by apply list_lookup_insert_eq.
  - intros j k q r Hj Hk Hq Hr. destruct (Honly j q Hj Hq), (Honly k r Hk Hr). congruence.
  - intros j q Hj Hq. by destruct (Honly j q Hj Hq) as [_ ->].
  - intros Hx. congruence.
  - apply Forall_insert; [|done]. eapply Forall_impl; [exact Hp|]. intros q. by apply process_ok_lasts.
Qed.

Lemma inv_leave s i p p' c' : inv (t0 + lock_timeout) s → procs s !! i = Some p → holds p = true → holds p' = false →
  c' = with_lock false (common s) → settled (cert_file (common s)) (key_file (common s)) → process_ok (t0 + lock_timeout) c' p' →
  inv (t0 + lock_timeout) (mkSystem c' (<[i := p']> (procs s))).
Proof.
  intros [Hl Ho Hf Hfree Hp] Hi Hh Hh' -> Hset Hok.
  assert (∀ j q, <[i := p']> (procs s) !! j = Some q → holds q = false) as Hnone.
  { intros j q Hj. apply list_lookup_insert_Some in Hj as [(-> & <- & _)|(Hne & Hj)]; [done|]. destruct (holds q) eqn:Hq; [|done].
    by destruct (Ho i j p q Hi Hj Hh Hq). }
  split; cbn [common procs lock_file with_lock cert_file key_file].
  - split; [done|]. intros (j & q & Hj & Hq). by rewrite (Hnone j q Hj) in Hq.
  - intros j k q r Hj _ Hq. by rewrite (Hnone j q Hj) in Hq.
  - intros j q Hj Hq. by rewrite (Hnone j q Hj) in Hq.
  - done.
  - apply Forall_insert; [|done]. eapply Forall_impl; [exact Hp|]. intros q. by apply process_ok_lasts.
Qed.

Lemma inv_outside s i p p' : inv (t0 + lock_timeout) s → procs s !! i = Some p → holds p = false → holds p' = false →
  process_ok (t0 + lock_timeout) (common s) p' → inv (t0 + lock_timeout) (mkSystem (common s) (<[i := p']> (procs s))).
Proof.
  intros [Hl Ho Hf Hfree Hp] Hi Hh Hh' Hok.
  assert (∀ j q, holds q = true → <[i := p']> (procs s) !! j = Some q ↔ procs s !! j = Some q) as Hsame.
  { intros j q Hq. split; intros Hj.
    - apply list_lookup_insert_Some in Hj as [(-> & <- & _)|(Hne & Hj)]; [congruence|done].
    - rewrite list_lookup_insert_ne; [done|]. intros ->. congruence. }
  split; cbn [common procs].
  - rewrite Hl. split; intros (j & q & Hj & Hq); exists j, q; by rewrite Hsame in *.
  - intros j k q r Hj Hk Hq Hr. rewrite Hsame in Hj, Hk by done. eauto.
  - intros j q Hj Hq. rewrite Hsame in Hj by done. eauto.
  - done.
  - by apply Forall_insert.
Qed.
End steps.

(** ** Runs *)

Section runs.
Context {En : Env} {K : KeyPairs}.

Lemma inv_event t0 e s s' : served e = true → (t0 <= now (common s))%Z → (now (common s') <= t0 + lock_timeout)%Z →
  inv (t0 + lock_timeout) s → system_step e s = Some s' → inv (t0 + lock_timeout) s' ∧ (t0 <= now (common s'))%Z.
Proof.
  intros Hserved Ht0 Ht Hinv Hstep. destruct e as [d|i m refused]; cbn in Hstep.
  - destruct (Z.leb_spec 0 d); [|done]. injection Hstep as <-. cbn in Ht |- *. split; [|lia].
    destruct Hinv as [Hl Ho Hf Hfree Hp]. split; cbn [common procs cert_file key_file lock_file]; try done.
  - destruct refused; [done|]. destruct (procs s !! i) as [p|] eqn:Hi; [|done]. cbn in Hstep.
    destruct (process_step p m false (common s)) as [[p' c']|] eqn:Hp; [|done]. injection Hstep as <-. cbn in Ht |- *.
    pose proof (inv_procs _ _ Hinv) as Hall. rewrite Forall_lookup in Hall. pose proof (Hall i p Hi) as Hok.
    assert (now (common s) = now c') as Hnow by (destruct p; cbn in Hp; repeat case_match; simplify_eq; done).
    destruct (process_step_calm t0 p m (common s) p' c') as (Hcalm & Hok' & Hlast & _); [lia|done| |done|].
    { intros Hh. by apply (inv_files _ _ Hinv i p). }
    split; [|lia]. destruct Hcalm.
    + by apply (inv_outside t0 s i p).
    + by apply inv_enter; eauto.
    + by apply (inv_inside t0 s i p).
    + by apply (inv_leave t0 s i p).
Qed.

Lemma event_time e s s' : served e = true → system_step e s = Some s' → (now (common s') = now (common s) + elapsed [e])%Z.
Proof.
  destruct e as [d|i m refused]; cbn; intros Hr Hs.
  - destruct (0 <=? d)%Z; [|done]. injection Hs as <-. cbn. lia.
  - destruct (procs s !! i) as [p|]; [|done]. cbn in Hs. destruct (process_step p m refused (common s)) as [[p' c']|] eqn:Hp; [|done].
    injection Hs as <-. cbn. rewrite Z.add_0_r. destruct p; cbn in Hp; repeat case_match; simplify_eq; done.
Qed.

Lemma elapsed_concat a b : elapsed (a ++ b) = (elapsed a + elapsed b)%Z.
Proof. induction a as [|[d|i m r] a IH]; cbn; lia. Qed.
Lemma elapsed_run es s s' : run_events es s = Some s' → (0 <= elapsed es)%Z.
Proof.
  revert s. induction es as [|[d|i m r] es IH]; intros s; cbn; [done|..].
  - destruct (Z.leb_spec 0 d); [|done]. intros ?%IH. lia.
  - destruct (procs s !! i) as [p|]; [|done]. cbn. destruct (process_step p m r (common s)) as [[p' c']|]; [|done]. apply IH.
Qed.
Lemma run_events_app a b s : run_events (a ++ b) s = run_events a s ≫= run_events b.
Proof. revert s. induction a as [|e a IH]; intros s; cbn; [done|]. destruct (system_step e s); cbn; [apply IH|done]. Qed.

Lemma inv_run t0 es s s' : forallb served es = true → (t0 <= now (common s))%Z → (now (common s) + elapsed es <= t0 + lock_timeout)%Z →
  inv (t0 + lock_timeout) s → run_events es s = Some s' →
  inv (t0 + lock_timeout) s' ∧ (t0 <= now (common s'))%Z ∧ (now (common s') = now (common s) + elapsed es)%Z.
Proof.
  revert s. induction es as [|e es IH]; intros s Hs H0 Ht Hinv Hrun; cbn in Hrun.
  { injection Hrun as <-. cbn. split_and!; [done|done|lia]. }
  destruct (system_step e s) as [s1|] eqn:Hstep; [|done]. cbn in Hrun, Hs. apply andb_true_iff in Hs as [He Hs].
  pose proof (event_time e s s1 He Hstep) as Htime. pose proof (elapsed_run _ _ _ Hrun) as Hnn.
  change (e :: es) with ([e] ++ es) in *. rewrite elapsed_concat in *.
  destruct (inv_event t0 e s s1 He H0 ltac:(lia) Hinv Hstep) as [Hinv1 H01].
  destruct (IH s1 Hs H01 ltac:(lia) Hinv1 Hrun) as (? & ? & ?). split_and!; [done|done|lia].
Qed.

Lemma inv_start c k t n : env_pair = None → settled c k → inv (t + lock_timeout) (start c k false t n).
Proof.
  intros Henv Hset. unfold start, EnsureCert. rewrite Henv.
  assert (∀ i p, repeat LookCert n !! i = Some p → holds p = false) as Hnone.
  { intros i p Hi. apply list_elem_of_lookup_2, list_elem_of_In, repeat_spec in Hi. by subst. }
  split; cbn [common procs cert_file key_file lock_file].
  - split; [done|]. intros (i & p & Hi & Hp). by rewrite (Hnone i p Hi) in Hp.
  - intros i j p q Hi _ Hp. by rewrite (Hnone i p Hi) in Hp.
  - intros i p Hi Hp. by rewrite (Hnone i p Hi) in Hp.
  - done.
  - apply Forall_forall. intros p Hp%list_elem_of_In%repeat_spec. by subst.
Qed.

Lemma calm_inv es c k t n s : env_pair = None → settled c k → calm es = true → run_events es (start c k false t n) = Some s →
  inv (t + lock_timeout) s ∧ (t <= now (common s) <= t + lock_timeout)%Z ∧ now (common s) = (t + elapsed es)%Z.
Proof.
  intros Henv Hset Hcalm Hrun. unfold calm in Hcalm. apply andb_true_iff in Hcalm as [Hs He%Z.leb_le].
  destruct (inv_run t es (start c k false t n) s Hs (Z.le_refl t) ltac:(cbn; lia) (inv_start c k t n Henv Hset) Hrun) as (Hinv & H0 & Ht). cbn in Ht.
  split_and!; [done|done|lia|done].
Qed.

(** ** Progress *)

(** How many steps a process is from its end, when the lock is free or its own. *)
Definition rank (p : pc) : nat :=
  match p with
  | LookCert => 14 | LookKey => 13 | MakeDir => 12 | StealLock _ => 12 | Waiting _ => 11 | TakeLock _ => 10 | LookCertAgain => 9 | LookKeyAgain => 8
  | MakePair => 7 | OpenCert _ => 6 | WriteCert _ _ => 5 | OpenKey _ => 4 | WriteKey _ _ => 3 | DropLock _ => 2 | Ended _ => 0
  end.
Definition ended (p : pc) : bool := match p with Ended _ => true | _ => false end.

Lemma process_moves t0 p s : process_ok (t0 + lock_timeout) s p → (now s <= t0 + lock_timeout)%Z → (holds p = true → files_at p (cert_file s) (key_file s)) →
  (holds p = true ∨ lock_file s = false) → ended p = false → ∃ m p' s', process_step p m false s = Some (p', s') ∧ (rank p' < rank p)%nat.
Proof.
  intros Hok Ht Hf Hl He. destruct s as [c k l t g']. destruct p; cbn in Hok, Ht, Hf, Hl, He |- *; try done.
  - exists 0%nat. destruct c; do 2 eexists; (split; [done|]); cbn; lia.
  - exists 0%nat. destruct k; do 2 eexists; (split; [done|]); cbn; lia.
  - exists 0%nat. do 2 eexists; (split; [done|]); cbn; lia.
  - destruct Hl as [?|Hl]; [done|]. subst l. exists 0%nat. do 2 eexists; (split; [done|]); cbn; lia.
  - exists 0%nat. destruct (Z.ltb_spec d t); [lia|]. do 2 eexists; (split; [done|]); cbn; lia.
  - exists 0%nat. destruct c; do 2 eexists; (split; [done|]); cbn; lia.
  - exists 0%nat. destruct k; do 2 eexists; (split; [done|]); cbn; lia.
  - exists 0%nat. do 2 eexists; (split; [done|]); cbn; lia.
  - exists 0%nat. do 2 eexists; (split; [done|]); cbn; lia.
  - destruct (Hf eq_refl) as [_ Hn]. exists (String.length (cert_pem g)). rewrite (proj2 (Nat.leb_le _ _)), Nat.leb_refl, Nat.eqb_refl by done.
    do 2 eexists; (split; [done|]); cbn; lia.
  - exists 0%nat. do 2 eexists; (split; [done|]); cbn; lia.
  - destruct (Hf eq_refl) as (_ & _ & Hn). exists (String.length (key_pem g)). rewrite (proj2 (Nat.leb_le _ _)), Nat.leb_refl, Nat.eqb_refl by done.
    do 2 eexists; (split; [done|]); cbn; lia.
  - exists 0%nat. do 2 eexists; (split; [done|]); cbn; lia.
Qed.

Definition ranks (l : list pc) : nat := foldr (λ p n, (rank p + n)%nat) 0%nat l.
Lemma ranks_insert i p p' l : l !! i = Some p → (rank p' < rank p)%nat → (ranks (<[i := p']> l) < ranks l)%nat.
Proof.
  unfold ranks. revert i. induction l as [|q l IH]; intros [|i] Hi Hr; cbn [lookup list_lookup] in Hi; simplify_eq.
  - change (<[0%nat := p']> (p :: l)) with (p' :: l). cbn [foldr]. lia.
  - specialize (IH i Hi Hr). change (<[S i := p']> (q :: l)) with (q :: <[i := p']> l). cbn [foldr]. lia.
Qed.

Lemma system_moves t0 s : inv (t0 + lock_timeout) s → (now (common s) <= t0 + lock_timeout)%Z → forallb ended (procs s) = false →
  ∃ i m s', system_step (Move i m false) s = Some s' ∧ (ranks (procs s') < ranks (procs s))%nat.
Proof.
  intros Hinv Ht Hend.
  assert (∃ i p, procs s !! i = Some p ∧ ended p = false ∧ (holds p = true ∨ lock_file (common s) = false)) as (i & p & Hi & He & Hl).
  { destruct (lock_file (common s)) eqn:Hlock.
    - destruct (proj1 (inv_lock _ _ Hinv) Hlock) as (i & p & Hi & Hp). exists i, p. split_and!; [done|by destruct p|by left].
    - assert (∃ p, In p (procs s) ∧ ended p = false) as (p & Hp & He).
      { clear -Hend. induction (procs s) as [|q l IH]; cbn in Hend; [done|]. destruct (ended q) eqn:Hq.
        - destruct (IH Hend) as (p & ? & ?). exists p. split; [by right|done].
        - exists q. split; [by left|done]. }
      apply list_elem_of_In, list_elem_of_lookup in Hp as [i Hi]. exists i, p. auto. }
  pose proof (inv_procs _ _ Hinv) as Hall. rewrite Forall_lookup in Hall.
  destruct (process_moves t0 p (common s)) as (m & p' & c' & Hstep & Hr); [by eapply Hall|done|intros; by eapply (inv_files _ _ Hinv)|done|done|].
  exists i, m. eexists. cbn. rewrite Hi. cbn. rewrite Hstep. cbn. split; [done|]. by eapply ranks_insert.
Qed.

Lemma runs_to_end t0 s : inv (t0 + lock_timeout) s → (t0 <= now (common s) <= t0 + lock_timeout)%Z →
  ∃ es s', forallb served es = true ∧ elapsed es = 0%Z ∧ run_events es s = Some s' ∧ inv (t0 + lock_timeout) s' ∧ forallb ended (procs s') = true.
Proof.
  remember (ranks (procs s)) as r eqn:Hr. revert s Hr. induction (lt_wf r) as [r _ IH]. intros s -> Hinv Ht.
  destruct (forallb ended (procs s)) eqn:Hend; [by exists [], s|].
  destruct (system_moves t0 s Hinv (proj2 Ht) Hend) as (i & m & s1 & Hstep & Hlt).
  pose proof (event_time (Move i m false) s s1 eq_refl Hstep) as Htime. cbn in Htime.
  destruct (inv_event t0 (Move i m false) s s1 eq_refl (proj1 Ht) ltac:(lia) Hinv Hstep) as [Hinv1 H1].
  destruct (IH _ Hlt s1 eq_refl Hinv1 ltac:(lia)) as (es & s' & Hs & He & Hrun & Hinv' & Hend').
  exists (Move i m false :: es), s'. split_and!; [done|done| |done|done]. cbn [run_events]. by rewrite Hstep.
Qed.

(** What the end of every process means. *)
Lemma inv_ended t0 s : inv (t0 + lock_timeout) s → forallb ended (procs s) = true → procs s ≠ [] →
  Forall (λ p, p = Ended (inl (cert_path, key_path))) (procs s) ∧ matched (cert_file (common s)) (key_file (common s)).
Proof.
  intros Hinv Hend Hne. pose proof (inv_procs _ _ Hinv) as Hall.
  assert (∀ p, p ∈ procs s → p = Ended (inl (cert_path, key_path)) ∧ both (cert_file (common s)) (key_file (common s)) = true) as Hp.
  { intros p Hp. rewrite Forall_forall in Hall. pose proof (Hall p Hp) as Hok. rewrite forallb_forall in Hend.
    specialize (Hend p (proj1 (list_elem_of_In _ _) Hp)). destruct p; try done. cbn in Hok. destruct Hok as [-> ?]. done. }
  split; [apply Forall_forall; intros p ?; by apply Hp|].
  apply (inv_free _ _ Hinv).
  - destruct (lock_file (common s)) eqn:Hl; [|done]. apply (inv_lock _ _ Hinv) in Hl as (i & p & Hi & Hh).
    apply list_elem_of_lookup_2 in Hi. by destruct (Hp p Hi) as [-> _].
  - destruct (procs s) as [|p l]; [done|]. apply (Hp p). left.
Qed.
End runs.

(** ** What the processes end with *)

Section results.
Context {En : Env} {K : KeyPairs}.

Lemma procs_remain es s s' : run_events es s = Some s' → procs s ≠ [] → procs s' ≠ [].
Proof.
  revert s. induction es as [|e es IH]; intros s; cbn; [by intros [= <-]|]. destruct (system_step e s) as [s1|] eqn:Hs; [|done]. cbn. intros Hr Hne.
  apply (IH s1 Hr). destruct e as [d|i m r]; cbn in Hs; [by destruct (0 <=? d)%Z; simplify_eq|].
  destruct (procs s !! i) as [p|]; [|done]. cbn in Hs. destruct (process_step p m r (common s)) as [[p' c']|]; [|done]. injection Hs as <-. cbn.
  intros Hx. apply Hne. apply (f_equal List.length) in Hx. rewrite length_insert in Hx. by destruct (procs s).
Qed.

(** C18. One pair is made however the processes interleave, as long as things are calm: where
    the lock is free and the two files are not a mismatched pair at the start, no call is
    refused and no more than the lock's timeout (15 s) goes by in all, at most one process
    has the lock, one that has ended has the two paths and finds both files there, and
    whatever has happened so far the processes can all come to their ends, with a
    certificate and a key on disk that were made together. Without these conditions it can go
    wrong ([fresh_lock_stolen], [truncated_key_stays]). *)
Theorem EnsureCert_one_pair c k t n es s : env_pair = None → settled c k → (0 < n)%nat → calm es = true →
  run_events es (start c k false t n) = Some s →
  (∀ i j p q, procs s !! i = Some p → procs s !! j = Some q → holds p = true → holds q = true → i = j)
  ∧ (∀ r, Ended r ∈ procs s → r = inl (cert_path, key_path) ∧ both (cert_file (common s)) (key_file (common s)) = true)
  ∧ ∃ es' s', calm (es ++ es') = true ∧ run_events es' s = Some s'
      ∧ Forall (λ p, p = Ended (inl (cert_path, key_path))) (procs s') ∧ matched (cert_file (common s')) (key_file (common s')).
Proof.
  intros Henv Hset Hn Hcalm Hrun. destruct (calm_inv es c k t n s Henv Hset Hcalm Hrun) as (Hinv & Ht & Hnow).
  split_and!; [apply (inv_one _ _ Hinv)| |].
  - intros r Hr. pose proof (inv_procs _ _ Hinv) as Hall. rewrite Forall_forall in Hall. by apply (Hall _ Hr).
  - destruct (runs_to_end t s Hinv Ht) as (es' & s' & Hs & He & Hrun' & Hinv' & Hend). exists es', s'.
    unfold calm in *. apply andb_true_iff in Hcalm as [H1 H2]. split_and!; [|done|..].
    + rewrite forallb_app, H1, Hs, elapsed_concat, He, Z.add_0_r. done.
    + apply (inv_ended t); [done|done|]. eapply procs_remain; [exact Hrun'|]. eapply procs_remain; [exact Hrun|].
      cbn. destruct n; [lia|done].
    + apply (inv_ended t); [done|done|]. eapply procs_remain; [exact Hrun'|]. eapply procs_remain; [exact Hrun|].
      cbn. destruct n; [lia|done].
Qed.

(** What a process does that finds both files. *)
Definition looking (p : pc) : bool :=
  match p with LookCert | LookKey => true | Ended (inl q) => bool_decide (q = (cert_path, key_path)) | _ => false end.

Lemma looking_step e s s' : served e = true → both (cert_file (common s)) (key_file (common s)) = true → Forall (λ p, looking p = true) (procs s) →
  system_step e s = Some s' →
  Forall (λ p, looking p = true) (procs s') ∧ cert_file (common s') = cert_file (common s) ∧ key_file (common s') = key_file (common s)
  ∧ lock_file (common s') = lock_file (common s).
Proof.
  intros He Hb Hl Hstep. unfold both in Hb. apply andb_true_iff in Hb as [Hc Hk]. destruct e as [d|i m refused]; cbn in Hstep.
  - destruct (0 <=? d)%Z; [|done]. by injection Hstep as <-.
  - destruct refused; [done|]. destruct (procs s !! i) as [p|] eqn:Hi; [|done]. cbn in Hstep.
    assert (looking p = true) as Hp by (by eapply (proj1 (Forall_lookup _ _) Hl)).
    destruct p as [| | | | | | | | | | | | | |r]; try done; cbn in Hstep; rewrite ?Hc, ?Hk in Hstep; injection Hstep as <-; cbn; split_and!; try done;
      apply Forall_insert; try done; cbn; by rewrite bool_decide_true.
Qed.

(** A pair that is there is never replaced: from any state of the lock, and however long
    it takes, processes that find both files end with them and touch nothing. *)
Theorem EnsureCert_keeps_pair c k lock t n es s : env_pair = None → both c k = true → forallb served es = true →
  run_events es (start c k lock t n) = Some s →
  cert_file (common s) = c ∧ key_file (common s) = k ∧ lock_file (common s) = lock
  ∧ ∀ r, Ended r ∈ procs s → r = inl (cert_path, key_path).
Proof.
  intros Henv Hb Hs Hrun.
  assert (∀ es s0, forallb served es = true → cert_file (common s0) = c → key_file (common s0) = k → Forall (λ p, looking p = true) (procs s0) →
    run_events es s0 = Some s → cert_file (common s) = c ∧ key_file (common s) = k ∧ lock_file (common s) = lock_file (common s0)
      ∧ Forall (λ p, looking p = true) (procs s)) as Hgo.
  { clear -Hb. induction es as [|e es IH]; intros s0 Hs Hc Hk Hl Hrun; cbn in Hrun, Hs; [by injection Hrun as <-|].
    apply andb_true_iff in Hs as [He Hs]. destruct (system_step e s0) as [s1|] eqn:Hstep; [|done]. cbn in Hrun.
    destruct (looking_step e s0 s1 He ltac:(by rewrite Hc, Hk) Hl Hstep) as (Hl1 & Hc1 & Hk1 & <-). apply IH; congruence. }
  destruct (Hgo es (start c k lock t n) Hs eq_refl eq_refl) as (? & ? & ? & Hl); [|done|].
  - apply Forall_forall. unfold start, EnsureCert. rewrite Henv. by intros p Hp%list_elem_of_In%repeat_spec; subst.
  - split_and!; [done..|]. intros r Hr. rewrite Forall_forall in Hl. specialize (Hl _ Hr). destruct r as [q|]; [|done].
    cbn in Hl. by apply bool_decide_eq_true in Hl as ->.
Qed.
End results.

(** ** Examples *)

Module Sample.

#[export] Instance env : Env := {| getenv := λ _, ""; pgPass := ""; minioUser := ""; minioPass := ""; home_dir := Some "/home/u" |}.
#[export] Instance pairs : KeyPairs := {| cert_pem := λ g, "cert" +:+ format_N (N.of_nat g); key_pem := λ g, "key" +:+ format_N (N.of_nat g) |}.

(** The first [k] steps of process [i], each write getting [m] bytes far. *)
Definition steps (i k m : nat) : list event := repeat (Move i m false) k.
Definition first_writes : list event := steps 0 6 0 ++ [Move 0 3 false; Move 1 0 false; Tick second; Move 1 0 false].

Lemma EnsureCert_one_pair_witness :
  match run_events first_writes (start None None false 0%Z 2) with
  | Some s => cert_file (common s) = Some "cer" ∧ ∃ es' s', calm (first_writes ++ es') = true ∧ run_events es' s = Some s'
      ∧ matched (cert_file (common s')) (key_file (common s'))
  | None => False
  end.
Proof.
  destruct (run_events first_writes _) as [s|] eqn:Hs; [|vm_compute in Hs; discriminate].
  split; [vm_compute in Hs; by injection Hs as <-|].
  destruct (EnsureCert_one_pair None None 0%Z 2 first_writes s) as (_ & _ & es' & s' & H1 & H2 & _ & H3);
    [reflexivity|discriminate|lia|reflexivity|exact Hs|]. by exists es', s'.
Defined.

Lemma EnsureCert_keeps_pair_witness :
  match run_events (steps 0 2 0 ++ [Tick hour; Move 1 0 false]) (start (Some "mine") (Some "my key") true 0%Z 2) with
  | Some s => cert_file (common s) = Some "mine" ∧ lock_file (common s) = true
  | None => False
  end.
Proof.
  destruct (run_events _ _) as [s|] eqn:Hs; [|vm_compute in Hs; discriminate].
  destruct (EnsureCert_keeps_pair (Some "mine") (Some "my key") true 0%Z 2 (steps 0 2 0 ++ [Tick hour; Move 1 0 false]) s) as (H1 & _ & H2 & _);
    [reflexivity|reflexivity|reflexivity|exact Hs|]. by split.
Defined.

(** The first test is made without the lock: a process can end while the key it is to
    serve is still empty. *)
Example key_seen_empty :
  match run_events (steps 0 6 0 ++ [Move 0 5 false; Move 0 0 false] ++ steps 1 2 0) (start None None false 0%Z 2) with
  | Some s => procs s !! 1%nat = Some (Ended (inl (cert_path, key_path))) ∧ cert_file (common s) = Some "cert0" ∧ key_file (common s) = Some ""
  | None => False
  end.
Proof. vm_compute. done. Qed.

(** A write that is refused leaves the beginning of a key, which every later call takes for
    the key. *)
Example truncated_key_stays :
  match run_events (steps 0 6 0 ++ [Move 0 5 false; Move 0 0 false; Move 0 2 false; Move 0 0 true; Move 0 0 false] ++ steps 1 2 0) (start None None false 0%Z 2) with
  | Some s => procs s !! 1%nat = Some (Ended (inl (cert_path, key_path))) ∧ key_file (common s) = Some "ke" ∧ lock_file (common s) = false
  | None => False
  end.
Proof. vm_compute. done. Qed.

(** A waiter measures how long it has waited and not how old the lock is: the lock is taken
    a second time just after 14 s, and removed two seconds later. Two processes write, and
    the files are not a pair. *)
Example fresh_lock_stolen :
  match run_events (steps 0 4 0 ++ steps 1 3 0 ++ steps 2 3 0 ++ [Tick (14 * second); Move 0 0 true; Move 0 0 false]
                    ++ steps 1 5 0 ++ [Tick (2 * second); Move 1 5 false] ++ steps 2 7 0 ++ [Move 2 5 false; Move 2 0 false; Move 2 4 false]
                    ++ [Move 1 0 false; Move 1 4 false; Move 1 0 false; Move 2 0 false]) (start None None false 0%Z 3) with
  | Some s => cert_file (common s) = Some "cert1" ∧ key_file (common s) = Some "key0"
              ∧ procs s !! 1%nat = Some (Ended (inl (cert_path, key_path))) ∧ procs s !! 2%nat = Some (Ended (inl (cert_path, key_path)))
  | None => False
  end.
Proof. vm_compute. done. Qed.
End Sample.
