(* ===== verification/Container.v ===== *)
(** * Containers and SQL on a branch: the shared parts of internal/branch

    Starting a branch's Postgres, waiting for it, the primary pointer, running
    SQL, the roles and the ledger install (branch.go, security.go, ledger_v2.go,
    branch_before.go, import.go). The SQL files embedded from internal/ledger are
    parameters. *)
From S2P Require Import Prelude GoStrings GoNum GoPath GoSort Sql Effects Storage.
Open Scope string_scope.
Open Scope list_scope.

(** The SQL scripts go:embed puts in the binary, and the recovery script. *)
Class Embedded := {
  ledger_Schema : string;
  ledger_SchemaV2 : string;
  ledger_SchemaPolicy : string;
  ledger_SchemaProvenance : string;
  ledger_SchemaImpact : string;
  restorePITRScript : string }.

Section container.
Context {W : World} {En : Env} {Em : Embedded}.

(** ** Docker network and containers *)

Definition ensureNetwork : prog unit :=
  there ← ok_sudo ["docker"; "network"; "inspect"; network];
  if (there : bool) then mret tt else run ["docker"; "network"; "create"; network].

(** The object store's address and credentials (branch_before.go). *)
Definition walgEnv : list string :=
  ["-e"; "WALG_S3_PREFIX=s3://oxyndb-wal";
   "-e"; "AWS_ACCESS_KEY_ID=" +:+ minioUser;
   "-e"; "AWS_SECRET_ACCESS_KEY=" +:+ minioPass;
   "-e"; "AWS_ENDPOINT=http://minio:9000";
   "-e"; "AWS_S3_FORCE_PATH_STYLE=true";
   "-e"; "AWS_REGION=us-east-1"].

Definition debug_ports (primary : bool) : list string :=
  if String.eqb (getenv "OXYNDB_DEBUG_PORTS") EmptyString then []
  else if primary then ["-p"; "5432:5432"] else ["-p"; "0:5432"].

Definition postgres_args : list string :=
  ["postgres"; "-c"; "wal_level=replica"; "-c"; "archive_mode=on";
   "-c"; "archive_command=wal-g wal-push %p"; "-c"; "archive_timeout=60"; "-c"; "listen_addresses=*"].

Definition container_args (name : string) (primary : bool) : list string :=
  ["run"; "-d"; "--name"; container name; "--network"; network;
   "-e"; "POSTGRES_USER=" +:+ pgUser; "-e"; "POSTGRES_PASSWORD=" +:+ pgPass;
   "-e"; "POSTGRES_DB=" +:+ pgDatabase; "-e"; "PGDATA=/var/lib/postgresql/data/pgdata";
   "-v"; mountpoint name +:+ ":/var/lib/postgresql/data"]
  ++ debug_ports primary
  ++ (if primary then walgEnv ++ ["-e"; "WALG_COMPRESSION_METHOD=lz4"] else [])
  ++ [image]
  ++ (if primary then postgres_args else []).

Definition startContainer (name : string) (primary : bool) : prog unit :=
  _ ← quiet ["docker"; "rm"; "-f"; container name];
  run ("docker" :: container_args name primary).

(** ** Waiting *)

(** Checks [ok] until it holds or the clock passes [deadline], sleeping [pause]
    in between. [fuel] bounds the checks; the loops below have more of it than a
    clock that advances while the program sleeps lets them use. *)
Fixpoint poll (fuel : nat) (ok : prog bool) (deadline pause : Z) (timeout : error) : prog unit :=
  match fuel with
  | O => raise "out of fuel"
  | S n =>
      b ← ok;
      if (b : bool) then mret tt else
      now ← call Now;
      if (deadline <? rnum now)%Z then fail timeout
      else _ ← ignore (Sleep pause); poll n ok deadline pause timeout
  end.

Definition sec : Z := 1000000000.

Definition pg_isready (name : string) : prog bool :=
  ok_sudo ["docker"; "exec"; container name; "pg_isready"; "-h"; "127.0.0.1"; "-U"; pgUser; "-d"; pgDatabase].

Definition waitReady (name : string) : prog unit :=
  start ← call Now;
  poll 603 (pg_isready name) (rnum start + 60 * sec) (100 * 1000000)
    (Errorf "branch %q did not become ready in time" [name]).

(** waitRecovered: at most 40 checks, two seconds apart. *)
Definition recovered (name : string) : prog bool :=
  up ← ok_sudo ["docker"; "exec"; container name; "pg_isready"; "-h"; "localhost"; "-U"; pgUser; "-d"; pgDatabase];
  if negb up then mret false else
  r ← call (sudo ["docker"; "exec"; "-e"; "PGPASSWORD=" +:+ pgPass; container name;
                  "psql"; "-h"; "localhost"; "-U"; pgUser; "-d"; pgDatabase;
                  "-tAc"; "SELECT pg_is_in_recovery();"]);
  mret (String.eqb (TrimSpace (rout r)) "f").

Fixpoint waitRecovered_go (n : nat) (name : string) : prog unit :=
  match n with
  | O => fail (Errorf "restore did not complete in time" [])
  | S m =>
      ok ← recovered name;
      if (ok : bool) then mret tt
      else _ ← ignore (Sleep (2 * sec)); waitRecovered_go m name
  end.
Definition waitRecovered (name : string) : prog unit := waitRecovered_go 40 name.

(** ** Which container is the primary *)

Definition primaryFile : string :=
  let home := user_home in
  JoinPath [home; ".oxyndb"; "primary"].

Definition primaryBranch : prog string :=
  r ← call (ReadFile primaryFile);
  let n := TrimSpace (rout r) in
  mret (if rok r && negb (String.eqb n EmptyString) then n else "main").

Definition PrimaryContainer : prog string := b ← primaryBranch; mret (container b).

(** filepath.Dir(primaryFile()). *)
Definition primaryDir : string :=
  let home := user_home in
  JoinPath [home; ".oxyndb"].
Definition setPrimary (name : string) : prog unit :=
  _ ← ignore (MkdirAll primaryDir);
  perform (WriteFile primaryFile name 420).

Definition ContainerState (name : string) : prog string :=
  '(out, ok) ← capture ["docker"; "inspect"; "-f"; "{{.State.Status}}"; container name];
  mret (if (ok : bool) then out else "absent").

Definition containerIP (cont : string) : prog string :=
  out ← capture_or_fail ["docker"; "inspect"; "-f";
    "{{.NetworkSettings.Networks." +:+ network +:+ ".IPAddress}}"; cont];
  let ip := TrimSpace out in
  if String.eqb ip EmptyString
  then fail (Errorf "container %q has no IP on the %q network" [cont; network])
  else mret ip.

(** ** SQL *)

Definition psql_stdin_args (name : string) : list string :=
  ["sudo"; "docker"; "exec"; "-i"; "-e"; "PGPASSWORD=" +:+ pgPass; container name;
   "psql"; "-U"; pgUser; "-d"; pgDatabase; "-v"; "ON_ERROR_STOP=1"; "-q"].
Definition psqlStdin (name sql : string) : prog unit := perform (Exec (psql_stdin_args name) sql).

Definition psql_c (cont : string) (opts : list string) (sql : string) : list string :=
  ["docker"; "exec"; "-e"; "PGPASSWORD=" +:+ pgPass; cont; "psql"; "-U"; pgUser; "-d"; pgDatabase]
  ++ opts ++ [sql].

Definition SQL (name stmt : string) : prog unit := run (psql_c (container name) ["-c"] stmt).

Definition Query (name stmt : string) : prog string :=
  capture_or_fail (psql_c (container name) ["-tAc"] stmt).

Definition or_main (name : string) : string := if String.eqb name EmptyString then "main" else name.

Definition QueryText (name sql : string) : prog string :=
  '(out, ok) ← captureCombined (psql_c (container (or_main name)) ["-P"; "pager=off"; "-c"] sql);
  if (ok : bool) then mret out else fail (Errorf "%s" [out]).

(** ledgerLines: the non-empty trimmed lines of the output. *)
Definition output_lines (out : string) : list string :=
  List.filter (λ l, negb (String.eqb l EmptyString)) (TrimSpace <$> Split nl out).
Definition ledgerLines (name sql : string) : prog (list string) :=
  let a := sudo (psql_c (container name) ["-X"; "-q"; "-t"; "-A"; "-v"; "ON_ERROR_STOP=1"; "-c"] sql) in
  r ← call a;
  if rok r then mret (output_lines (rout r)) else fail (CommandFailed a).

Definition ActiveConnections (name : string) : prog Z :=
  out ← Query name "SELECT count(*) FROM pg_stat_activity WHERE backend_type='client backend' AND pid<>pg_backend_pid();";
  match atoi (TrimSpace out) with
  | Some n => mret n
  | None => fail (Errorf "strconv.Atoi" [out])
  end.

(** haQuery: a single value, empty on any error. *)
Definition haQuery (cont sql : string) : prog string :=
  '(out, _) ← capture (psql_c cont ["-tAc"] sql); mret (TrimSpace out).

(** ** Roles *)

Definition syncAppRole (name : string) : prog unit :=
  psqlStdin name ("ALTER ROLE odbclient WITH LOGIN PASSWORD " +:+ quoteLiteral pgPass +:+ ";").
Definition syncRolePassword (name : string) : prog unit :=
  psqlStdin name ("ALTER USER " +:+ pgUser +:+ " WITH PASSWORD " +:+ quoteLiteral pgPass +:+ ";").

Definition lines_of (l : list string) : string := Join (str1 nl) l.

(** The script that creates or updates a login role. [extra] and [nosuper] are
    where the per-user roles and the agents' roles differ. *)
Definition role_sql (extra nosuper role password : string) : string := lines_of
  ["DO $do$";
   "DECLARE r text := " +:+ quoteLiteral role +:+ ";";
   "BEGIN";
   "  IF NOT EXISTS (SELECT 1 FROM pg_roles WHERE rolname = r) THEN";
   "    EXECUTE format('CREATE ROLE %I LOGIN NOSUPERUSER NOCREATEROLE NOCREATEDB " +:+ extra
     +:+ "INHERIT IN ROLE odbclient', r);";
   "  END IF;";
   "  EXECUTE format('ALTER ROLE %I WITH LOGIN " +:+ nosuper +:+ "PASSWORD %L', r, "
     +:+ quoteLiteral password +:+ ");";
   "  EXECUTE format('ALTER ROLE %I SET role = odbclient', r);";
   "END $do$;"].

(** EnsureUserRole, without the process's cache of roles already made: [cached]
    says whether this branch and email are in it. *)
Definition EnsureUserRole (cached : bool) (branchName email : string) : prog unit :=
  if cached then mret tt
  else psqlStdin (or_main branchName) (role_sql EmptyString EmptyString email pgPass).

Definition ensureLoginRole (branchName role password : string) : prog unit :=
  psqlStdin branchName (role_sql "NOBYPASSRLS " "NOSUPERUSER " role password).

Definition GrantAdmin (cached : bool) (branchName email : string) : prog unit :=
  _ ← EnsureUserRole cached branchName email;
  psqlStdin branchName (lines_of
    ["DO $do$";
     "BEGIN";
     "  IF NOT EXISTS (SELECT 1 FROM pg_roles WHERE rolname = 'odb_admin') THEN";
     "    CREATE ROLE odb_admin NOLOGIN;";
     "  END IF;";
     "  EXECUTE format('GRANT odb_admin TO %I', " +:+ quoteLiteral email +:+ ");";
     "END $do$;"]).

Definition revoke_sql (email : string) : string := lines_of
  ["DO $do$";
   "BEGIN";
   "  IF EXISTS (SELECT 1 FROM pg_roles WHERE rolname = 'odb_admin')";
   "     AND EXISTS (SELECT 1 FROM pg_roles WHERE rolname = " +:+ quoteLiteral email +:+ ") THEN";
   "    EXECUTE format('REVOKE odb_admin FROM %I', " +:+ quoteLiteral email +:+ ");";
   "  END IF;";
   "END $do$;"].
Definition RevokeAdmin (branchName email : string) : prog unit := psqlStdin branchName (revoke_sql email).

Definition ListAdmins (branchName : string) : prog (list string) :=
  out ← wrap "listing admins on %q: %w" [branchName]
    (Query branchName (lines_of
      ["SELECT r.rolname FROM pg_auth_members m";
       "  JOIN pg_roles r ON r.oid = m.member";
       "  WHERE m.roleid = (SELECT oid FROM pg_roles WHERE rolname = 'odb_admin')";
       "  ORDER BY 1"]));
  mret (Fields out).

(** truthyEnv (security.go); the accepted words are ASCII, so byte-wise lower
    case decides. *)
Definition truthy (v : string) : bool :=
  existsb (String.eqb (smap lower_byte (TrimSpace v))) ["1"; "true"; "yes"; "on"].
Definition truthyEnv (key : string) : bool := truthy (getenv key).
Definition AgentSuperuser : bool := truthyEnv "OXYNDB_AGENT_SUPERUSER".
Definition MCPSuperuser : bool := truthyEnv "OXYNDB_MCP_SUPERUSER".

Definition client_query_args (branchName sql tool actor : string) : list string :=
  ["docker"; "exec"; "-e"; "PGAPPNAME=" +:+ tool]
  ++ (if HasPrefix branchName "agent-" then []
      else ["-e"; "PGOPTIONS=-c odb.actor=" +:+ actor +:+ " -c odb.actor_kind=agent"])
  ++ [container branchName; "psql"; "-U"; "odbclient"; "-d"; pgDatabase; "-P"; "pager=off"; "-c"; sql].

Definition ClientQueryTextAs (branchName sql tool actor : string) : prog string :=
  let branchName := or_main branchName in
  let actor := if String.eqb actor EmptyString then tool else actor in
  '(out, ok) ← captureCombined (client_query_args branchName sql tool actor);
  if (ok : bool) then mret out else fail (Errorf "%s" [out]).
Definition ClientQueryText (branchName sql tool : string) : prog string :=
  ClientQueryTextAs branchName sql tool tool.

(** main first, then by name. *)
Definition main_first (a b : string) : bool :=
  if negb (Bool.eqb (String.eqb a "main") (String.eqb b "main")) then String.eqb a "main" else str_lt a b.
Definition running_branch (n : string) : option string :=
  let bn := TrimPrefix n "oxyn-" in
  if String.eqb bn n || String.eqb bn "restore" || String.eqb bn "standby" then None else Some bn.
Definition RunningBranches : prog (list string) :=
  out ← capture_or_fail ["docker"; "ps"; "--filter"; "name=oxyn-"; "--format"; "{{.Names}}"];
  mret (sort_slice main_first (omap running_branch (Fields out))).

(** ** The ledger *)

Definition InstallLedger (name : string) : prog unit := psqlStdin name ledger_Schema.

Definition EnsureLedgerV2 (name : string) : prog unit :=
  let name := or_main name in
  _ ← wrap "installing ledger 2.0 on %q: %w" [name] (psqlStdin name ledger_SchemaV2);
  _ ← wrap "installing the Blackbox policy gate on %q: %w" [name] (psqlStdin name ledger_SchemaPolicy);
  _ ← wrap "installing Blackbox provenance on %q: %w" [name] (psqlStdin name ledger_SchemaProvenance);
  wrap "installing Blackbox impact analysis on %q: %w" [name] (psqlStdin name ledger_SchemaImpact).

Definition ensureLedgerV2BestEffort (name : string) : prog unit :=
  e ← attempt (EnsureLedgerV2 name);
  match e with
  | inl _ => mret tt
  | inr _ => ignore (Print "warning: %v — the base ledger is unaffected; retry with: odb ledger upgrade %s" [name])
  end.

(** The destructive-DDL guardrail (import.go). *)
Definition guard_sql (enabled : bool) : string :=
  "ALTER EVENT TRIGGER odb_guard_start " +:+ (if enabled then "ENABLE" else "DISABLE") +:+ ";".
Definition setGuard (target : string) (enabled : bool) : prog unit :=
  discard (run ["docker"; "exec"; container target; "psql"; "-q"; "-U"; pgUser; "-d"; pgDatabase;
                "-c"; guard_sql enabled]).
Definition reconcileGuard (name : string) : prog unit := setGuard name true.

Definition LedgerVerifySQL : string := lines_of
  ["WITH v AS (";
   "  SELECT id, prev_hash, row_hash, odb._ledger_hash(s.*) AS recomputed,";
   "         lag(row_hash) OVER (ORDER BY id) AS prev_link";
   "  FROM odb.schema_ledger s WHERE row_hash IS NOT NULL)";
   "SELECT (SELECT count(*) FROM odb.schema_ledger WHERE row_hash IS NULL) AS legacy,";
   "       count(*) AS chained,";
   "       count(*) FILTER (WHERE row_hash <> recomputed OR prev_hash IS DISTINCT FROM coalesce(prev_link,'')) AS broken,";
   "       coalesce(min(id) FILTER (WHERE row_hash <> recomputed OR prev_hash IS DISTINCT FROM coalesce(prev_link,''))::text,'') AS first_broken";
   "FROM v"].

(** How LedgerVerify reads the query's one line. *)
Definition verify_answer (out : string) : outcome error (string * list string) :=
  match Split "|" (TrimSpace out) with
  | legacy :: chained :: broken :: rest =>
      if negb (String.eqb broken "0") then
        Err (Errorf "ledger TAMPERED — %s of %s chained rows fail verification (first at id %s)"
               [broken; chained; match rest with f :: _ => f | [] => EmptyString end])
      else
        Ok ("ledger intact — %s rows hash-chained and verified",
            chained :: (if negb (String.eqb legacy "0") && negb (String.eqb legacy EmptyString)
                        then [legacy] else []))
  | _ => Err (Errorf "unexpected verify output: %q" [out])
  end.
Definition LedgerVerify (name : string) : prog (string * list string) :=
  out ← wrap "verify query: %w" []
    (capture_or_fail (psql_c (container (or_main name)) ["-tA"; "-F"; "|"; "-c"] LedgerVerifySQL));
  lift (verify_answer out).

End container.

(** ** Lemmas: the waiting loops *)

(** A clock that never runs behind: what Now answers is at least the last time
    plus every sleep since. *)
Fixpoint elapsed (h : history) (t : Z) : Z :=
  match h with
  | [] => t
  | (Now, r) :: h' => elapsed h' (rnum r)
  | (Sleep ns, _) :: h' => elapsed h' (t + ns)
  | _ :: h' => elapsed h' t
  end.

Lemma elapsed_app h k t : elapsed (h ++ k) t = elapsed k (elapsed h t).
Proof.
  revert t. induction h as [|[a r] h IH]; intros t; [done|]. cbn. destruct a; cbn; apply IH.
Qed.

Section polling.
Context {W : World}.

Definition clock_ok : Prop := ∀ h, (elapsed h 0 <= rnum (answer h Now))%Z.

Definition untimed (a : action) : Prop := match a with Now | Sleep _ => False | _ => True end.

Lemma elapsed_untimed tr t : Forall (λ e : event, untimed e.1) tr → elapsed tr t = t.
Proof. induction 1 as [|[a r] tr Ha _ IH]; [done|]. by destruct a. Qed.

(** With fuel for every pause up to the deadline, the loop answers. *)
Lemma poll_no_panic fuel ok deadline pause e h :
  clock_ok → emits untimed ok → no_panic ok → (0 <= pause)%Z →
  (deadline < elapsed h 0 + pause * (Z.of_nat fuel - 1))%Z → (1 <= fuel)%nat →
  panics (poll fuel ok deadline pause e h).1 = false.
Proof.
  intros Hc Ho Hn Hp. revert h. induction fuel as [|n IH]; intros h Hd Hf; [lia|].
  cbn [poll]. unfold mbind, prog_bind. pose proof (Ho h) as Hu.
  pose proof (Hn h) as Hnp. destruct (ok h) as [[b|err|w] tr] eqn:Hok; [|done|done].
  destruct b; [done|]. cbn in Hu.
  assert (elapsed (h ++ tr) 0 = elapsed h 0) as He by (by rewrite elapsed_app, elapsed_untimed).
  pose proof (Hc (h ++ tr)) as Hnow. cbn. destruct (Z.ltb_spec deadline (rnum (answer (h ++ tr) Now))) as [|Hle]; [done|].
  destruct n as [|n].
  - cbn in Hd. lia.
  - cbn. apply IH; [|lia]. rewrite !elapsed_app. cbn. lia.
Qed.

End polling.

(** A loop's actions are its check's, the clock and its pauses. *)
Lemma emits_poll `{World} (P : action → Prop) fuel ok deadline pause e :
  emits P ok → P Now → P (Sleep pause) → emits P (poll fuel ok deadline pause e).
Proof.
  intros Ho Hn Hs. induction fuel as [|n IH]; cbn [poll]; [apply emits_raise|].
  apply emits_bind; [done|]. intros b. destruct b; [apply emits_ret|].
  apply emits_bind; [by apply emits_call|]. intros now. destruct (_ <? _)%Z; [apply emits_fail|].
  apply emits_bind; [by apply emits_ignore|]. done.
Qed.

Lemma emits_waitRecovered `{World} `{Env} (P : action → Prop) n name :
  emits P (recovered name) → P (Sleep (2 * sec)) → emits P (waitRecovered_go n name).
Proof.
  intros Hr Hs. induction n as [|n IH]; cbn [waitRecovered_go]; [apply emits_fail|].
  apply emits_bind; [done|]. intros b. destruct b; [apply emits_ret|].
  apply emits_bind; [by apply emits_ignore|]. done.
Qed.

Lemma pg_isready_untimed `{World} name : emits untimed (pg_isready name).
Proof. by apply emits_succeeds. Qed.

Lemma waitReady_answers `{World} name h : clock_ok → panics (waitReady name h).1 = false.
Proof.
  intros Hc. unfold waitReady, mbind, prog_bind, call. cbv zeta. cbn [fst].
  apply poll_no_panic; [done|apply pg_isready_untimed|done|done| |lia].
  rewrite elapsed_app. cbn. unfold sec. lia.
Qed.

(** ** Telling commands apart *)

(** The subcommand and the last argument of a command. *)
Definition cmd_verb (a : action) : option string := match a with Exec l _ => l !! 2%nat | _ => None end.
Definition cmd_last (a : action) : option string := match a with Exec l _ => last l | _ => None end.

(** Refutes that two commands are the same one. *)
Ltac other_cmd :=
  let H := fresh in
  intros H;
  first [ discriminate H
        | apply (f_equal cmd_verb) in H; discriminate H
        | apply (f_equal cmd_last) in H; discriminate H ].
