(* ===== verification/HA.v ===== *)
(** * High availability: internal/branch/ha.go

    The standby, failover and failback. The primary pointer is the file
    ~/.oxyndb/primary; docker, psql and the storage driver are the machine. *)
From S2P Require Import Prelude GoStrings GoNum GoPath Effects Storage Container.
Open Scope string_scope.
Open Scope list_scope.

(** ** WAL positions *)

Definition parseLSN (s : string) : option N :=
  '(hi, lo) ← cut_byte "/" (TrimSpace s);
  h ← parse_hex32 hi;
  l ← parse_hex32 lo;
  Some (N.lor (N.shiftl h 32) l).

Definition lsnAtLeast (a b : string) : bool :=
  match parseLSN a, parseLSN b with
  | Some x, Some y => (y <=? x)%N
  | _, _ => false
  end.

Definition checkpoint_line (line : string) : option string :=
  '(k, v) ← cut_byte ":" line;
  if String.eqb (TrimSpace k) "Latest checkpoint location" && lsnAtLeast (TrimSpace v) (TrimSpace v)
  then Some (TrimSpace v) else None.
Fixpoint first_some {A B} (f : A → option B) (l : list A) : option B :=
  match l with
  | [] => None
  | x :: t => match f x with Some y => Some y | None => first_some f t end
  end.
Definition parseControlCheckpoint (out : string) : outcome error string :=
  match first_some checkpoint_line (Split nl out) with
  | Some v => Ok v
  | None => Err (Errorf "pg_controldata didn't report the latest checkpoint location" [])
  end.

(** ** The guard *)

Definition haDanger (action : string) : string :=
  if String.eqb action "enable" then "delete it and rebuild the standby from scratch"
  else if String.eqb action "disable" then "delete it, and every write made since the failover"
  else if String.eqb action "failover" then "stop the only primary"
  else EmptyString.

Definition haGuard (action primary : string) : option error :=
  let failedOver := String.eqb primary (container "standby") in
  if String.eqb action "failback" then
    if negb failedOver
    then Some (Errorf "nothing to fail back: 'main' is served by %s, not by a promoted standby" [primary])
    else None
  else if failedOver
  then Some (Errorf "refusing `odb ha %s`: 'main' is being served by the promoted standby since `odb ha failover`, and this would %s. Run `odb ha failback` first to move 'main' back to its own container"
               [action; haDanger action])
  else None.

Section ha.
Context {W : World} {En : Env} {Em : Embedded}.

Definition check (e : option error) : prog unit :=
  match e with Some e => fail e | None => mret tt end.

Definition pollUntil (what : string) (timeout : Z) (ok : prog bool) : prog unit :=
  start ← call Now;
  poll (Z.to_nat (timeout / (500 * 1000000)) + 3) ok (rnum start + timeout) (500 * 1000000)
    (Errorf "timed out after %s waiting for %s" [what]).

Definition allowReplication (primary : string) : prog unit :=
  _ ← quiet ["docker"; "exec"; "-u"; "postgres"; primary; "bash"; "-c";
    "grep -q '^host replication' " +:+ str1 dquote +:+ "$PGDATA/pg_hba.conf" +:+ str1 dquote
    +:+ " || echo 'host replication all all scram-sha-256' >> " +:+ str1 dquote +:+ "$PGDATA/pg_hba.conf" +:+ str1 dquote];
  run (psql_c primary ["-c"] "SELECT pg_reload_conf();").

Definition standbyRunArgs (dataPath : string) : list string :=
  ["run"; "-d"; "--name"; container "standby"; "--network"; network; "-p"; "0:5432";
   "-e"; "PGPASSWORD=" +:+ pgPass; "-e"; "PGDATA=/var/lib/postgresql/data/pgdata";
   "-v"; dataPath +:+ ":/var/lib/postgresql/data"]
  ++ walgEnv ++ ["-e"; "WALG_COMPRESSION_METHOD=lz4"] ++ [image] ++ postgres_args.

Definition startStandbyContainer : prog unit :=
  run ("docker" :: standbyRunArgs (st_standbyPath activeStorage)).

Definition basebackup_args (path from : string) : list string :=
  ["docker"; "run"; "--rm"; "--user"; pgUID; "--network"; network; "-e"; "PGPASSWORD=" +:+ pgPass;
   "-v"; path +:+ ":/data"; image;
   "pg_basebackup"; "-h"; from; "-U"; pgUser; "-D"; "/data/pgdata"; "-R"; "-X"; "stream"; "-c"; "fast"].

Definition HAEnable : prog unit :=
  primary ← PrimaryContainer;
  _ ← check (haGuard "enable" primary);
  _ ← allowReplication primary;
  _ ← quiet ["docker"; "rm"; "-f"; container "standby"];
  _ ← st_resetStandby activeStorage;
  _ ← run ["chown"; "-R"; pgUID +:+ ":" +:+ pgUID; st_standbyPath activeStorage];
  _ ← run (basebackup_args (st_standbyPath activeStorage) primary);
  _ ← startStandbyContainer;
  waitReady "standby".

Record HAState : Type := mkHAState { Enabled : bool; Standby : string; Streaming : bool; Primary : string }.

Definition HAInfo : prog HAState :=
  p ← PrimaryContainer;
  let primary := if String.eqb p (container "standby") then "standby" else "main" in
  cs ← ContainerState "standby";
  if String.eqb cs "absent" then mret (mkHAState false EmptyString false primary) else
  p' ← PrimaryContainer;
  '(out, _) ← capture (psql_c p' ["-tAc"] "SELECT count(*) FROM pg_stat_replication WHERE state='streaming';");
  let n := TrimSpace out in
  mret (mkHAState true cs (negb (String.eqb n EmptyString) && negb (String.eqb n "0")) primary).

Definition HAStatus : prog unit :=
  cs ← ContainerState "standby";
  if String.eqb cs "absent" then ignore (Print "HA not enabled (no standby). Run: oxyndb ha enable" [])
  else if negb (String.eqb cs "running")
  then ignore (Print "standby exists but is not running. Rebuild it with: oxyndb ha enable" [])
  else
    _ ← ignore (Print "=== primary: connected standbys (pg_stat_replication) ===" []);
    p ← PrimaryContainer;
    _ ← discard (run (psql_c p ["-x"; "-c"]
      "SELECT application_name, client_addr, state, sync_state, replay_lag FROM pg_stat_replication;"));
    _ ← ignore (Print "=== standby: recovery position ===" []);
    discard (run (psql_c (container "standby") ["-c"]
      "SELECT pg_is_in_recovery() AS in_recovery, pg_last_wal_receive_lsn() AS received, pg_last_wal_replay_lsn() AS replayed;")).

Definition promote (cont : string) : prog unit := run (psql_c cont ["-c"] "SELECT pg_promote();").

Definition HAFailover : prog unit :=
  old ← PrimaryContainer;
  _ ← check (haGuard "failover" old);
  cs ← ContainerState "standby";
  if negb (String.eqb cs "running")
  then fail (Errorf "no running standby to promote — run 'oxyndb ha enable' first" []) else
  _ ← promote (container "standby");
  _ ← quiet ["docker"; "stop"; old];
  _ ← setPrimary "standby";
  _ ← ignore (Print "failover complete: standby promoted; 'main' now routes to it via the proxy" []);
  ignore (Print "to move 'main' back to its own container later, keeping every write: odb ha failback" []).

Definition HADisable : prog unit :=
  p ← PrimaryContainer;
  _ ← check (haGuard "disable" p);
  _ ← quiet ["docker"; "rm"; "-f"; container "standby"];
  _ ← st_destroyStandby activeStorage;
  setPrimary "main".

Definition ensurePromotedStandby : prog unit :=
  cs ← ContainerState "standby";
  _ ← (if String.eqb cs "running" then mret tt
       else if String.eqb cs "absent" then
         there ← ok_sudo ["test"; "-d"; st_standbyPath activeStorage +:+ "/pgdata"];
         if negb there
         then fail (Errorf "'main' is recorded as served by the promoted standby, but its data is missing (%s). If you mean to go back to the old main and discard the writes made since the failover, delete ~/.oxyndb/primary and run `odb up`"
                      [st_standbyPath activeStorage])
         else startStandbyContainer
       else run ["docker"; "start"; container "standby"]);
  _ ← waitReady "standby";
  _ ← ignore (Print "note: 'main' is served by the promoted standby since `odb ha failover` — run `odb ha failback` to move it back to its own container" []);
  mode ← haQuery (container "standby") "SELECT current_setting('archive_mode')";
  when (String.eqb mode "off")
    (ignore (Print "note: this standby is not archiving WAL (it predates that change), so backups and point-in-time restore do not cover writes made since the failover — `odb ha failback` then `odb ha enable` rebuilds it with archiving" [])).

(** ** Failback *)

Definition standby_ct : string := container "standby".
Definition main_ct : string := container "main".

Definition stopped (cause : error) : prog unit :=
  _ ← quiet ["docker"; "rm"; "-f"; main_ct];
  fail (Wrapf "failback stopped: %w 'main' is still served by the standby and nothing was lost; fix the problem and run `odb ha failback` again" [] cause).

Definition restart (cause : error) : prog unit :=
  _ ← quiet ["docker"; "rm"; "-f"; main_ct];
  e ← attempt (run ["docker"; "start"; standby_ct]);
  _ ← (match e with inl _ => discard (waitReady "standby") | inr _ => mret tt end);
  stopped cause.

(** Steps 1 and 2: main is rebuilt from the standby and catches up. *)
Definition caught_up : prog bool :=
  out ← haQuery standby_ct
    "SELECT count(*) FROM pg_stat_replication WHERE state='streaming' AND replay_lsn >= pg_current_wal_lsn()";
  mret (0 <? atoi_value out)%Z.

Definition rebuild_main : prog unit :=
  _ ← allowReplication standby_ct;
  _ ← quiet ["docker"; "rm"; "-f"; main_ct];
  _ ← run ["rm"; "-rf"; mountpoint "main" +:+ "/pgdata"];
  _ ← run ["chown"; "-R"; pgUID +:+ ":" +:+ pgUID; mountpoint "main"];
  _ ← run (basebackup_args (mountpoint "main") standby_ct);
  _ ← ignore (Print "2/5 starting main as a replica and letting it catch up…" []);
  _ ← startContainer "main" true;
  _ ← waitReady "main";
  pollUntil "main to catch up with the standby" (120 * sec) caught_up.

(** Steps 3 and 4, after which main is a primary. *)
Definition replayed (final : string) : prog bool :=
  out ← haQuery main_ct "SELECT pg_last_wal_replay_lsn()";
  mret (lsnAtLeast out final).

Definition hand_over : prog unit :=
  _ ← run ["docker"; "stop"; standby_ct];
  out ← wrap "reading the standby's final WAL position: %w" []
    (capture_or_fail ["docker"; "run"; "--rm"; "--user"; pgUID;
      "-v"; st_standbyPath activeStorage +:+ ":/data"; image; "pg_controldata"; "/data/pgdata"]);
  final ← lift (parseControlCheckpoint out);
  _ ← pollUntil ("main to replay the standby's WAL up to " +:+ final) (60 * sec) (replayed final);
  _ ← ignore (Print "4/5 promoting main…" []);
  promote main_ct.

Definition after_promotion : prog unit :=
  _ ← setPrimary "main";
  _ ← wrap "main was promoted but isn't ready yet: %w — check `odb status`" [] (waitRecovered "main");
  _ ← ignore (Print "5/5 removing the old standby…" []);
  _ ← quiet ["docker"; "rm"; "-f"; standby_ct];
  _ ← st_destroyStandby activeStorage;
  _ ← ignore (Print "failback complete: 'main' is served by its own container again, with every write made during the failover." []);
  _ ← ignore (Print "  WAL archiving has resumed. Take a fresh base backup now: odb backup create" []);
  _ ← ignore (Print "  (point-in-time restore can't reach the time 'main' ran on the standby, which didn't archive WAL)." []);
  ignore (Print "  Run `odb ha enable` for a new standby." []).

Definition HAFailback : prog unit :=
  p ← PrimaryContainer;
  _ ← check (haGuard "failback" p);
  cs ← ContainerState "standby";
  if negb (String.eqb cs "running")
  then fail (Errorf "the promoted standby isn't running — bring it up with `odb up`, then run `odb ha failback` again" []) else
  _ ← ignore (Print "1/5 copying the promoted standby into main…" []);
  _ ← on_error rebuild_main stopped;
  _ ← ignore (Print "3/5 stopping the standby and waiting for main to replay its last writes…" []);
  _ ← on_error hand_over restart;
  after_promotion.

End ha.

(** ** Properties of actions *)

(** The command that makes [cont] a primary, the one that stops the standby, and
    what starts a container of a given branch. *)
Section actions.
Context {En : Env}.

Definition promote_action (cont : string) : action := sudo (psql_c cont ["-c"] "SELECT pg_promote();").
Definition stop_action (cont : string) : action := sudo ["docker"; "stop"; cont].

Definition starts (cont : string) (a : action) : Prop :=
  match a with
  | Exec ("sudo" :: "docker" :: "start" :: c :: _) _ => c = cont
  | Exec ("sudo" :: "docker" :: "run" :: "-d" :: "--name" :: c :: _) _ => c = cont
  | _ => False
  end.
Definition writes (a : action) : Prop := match a with WriteFile _ _ _ => True | _ => False end.

(** Neither promotes main nor moves the primary pointer. *)
Definition tame (a : action) : Prop := a ≠ promote_action main_ct ∧ ¬ writes a.
End actions.

Section ha_lemmas.
Context {W : World} {En : Env} {Em : Embedded}.

(** What a chain of programs emits, by its parts. *)
Ltac emits_solve :=
  repeat first
    [ emits_step
    | apply emits_poll
    | apply emits_waitRecovered
    | progress unfold run, quiet, capture, captureCombined, capture_or_fail, ok_sudo, check, on_error, wrap,
        haQuery, pg_isready, recovered, allowReplication, PrimaryContainer, primaryBranch, ContainerState,
        waitReady, pollUntil, startContainer, startStandbyContainer, promote, setPrimary, stopped, restart,
        rebuild_main, caught_up, replayed, waitRecovered ].

Lemma primary_tame : emits tame PrimaryContainer.
Proof. emits_solve. split; [other_cmd|easy]. Qed.

Lemma state_tame name : emits tame (ContainerState name).
Proof. emits_solve. split; [other_cmd|easy]. Qed.

Lemma stopped_tame e : emits tame (stopped e).
Proof. emits_solve. split; [other_cmd|easy]. Qed.

Lemma restart_tame e : emits tame (restart e).
Proof. emits_solve; (split; [other_cmd|easy]). Qed.

Lemma rebuild_tame : emits tame rebuild_main.
Proof. emits_solve; (split; [other_cmd|easy]). Qed.

(** ** Runs that end with one decisive command *)

(** Either every event is ordinary or a failed try of the command, and the run
    fails; or the run succeeds and its last event is the command, done. *)
Definition decides (Q : action → Prop) (L : action) (o : outcome error unit) (t : history) : Prop :=
  (o ≠ Ok tt ∧ Forall (λ e, Q e.1 ∨ e.1 = L ∧ rok e.2 = false) t)
  ∨ (o = Ok tt ∧ ∃ b r, t = b ++ [(L, r)] ∧ rok r = true ∧ Forall (λ e, Q e.1) b).

Lemma decides_bind {A} Q L (m : prog A) f h o t :
  emits Q m → (∀ a h o t, runs (f a) h o t → decides Q L o t) →
  runs (m ≫= f) h o t → decides Q L o t.
Proof.
  intros Hm Hf [(a & t1 & t2 & H1 & H2 & ->)|[(e & H1 & ->)|(w & H1 & ->)]]%runs_bind.
  - apply (emits_runs _ _ _ _ _ Hm) in H1. apply Hf in H2 as [[Ho H2]|(-> & b & r & -> & Hr & H2)].
    + left. split; [done|]. apply Forall_app. split; [|done].
      eapply Forall_impl; [exact H1|]. by left.
    + right. split; [done|]. exists (t1 ++ b), r. split_and!; [by rewrite app_assoc|done|].
      apply Forall_app. done.
  - left. split; [done|]. eapply Forall_impl; [apply (emits_runs _ _ _ _ _ Hm H1)|]. by left.
  - left. split; [done|]. eapply Forall_impl; [apply (emits_runs _ _ _ _ _ Hm H1)|]. by left.
Qed.

Lemma decides_perform Q L h o t : runs (perform L) h o t → decides Q L o t.
Proof.
  intros [-> ->]%runs_perform. destruct (rok (answer h L)) eqn:Hr.
  - right. split; [done|]. exists [], (answer h L). split_and!; [done|done|constructor].
  - left. split; [done|]. apply Forall_singleton. by right.
Qed.

(** ** The hand-over *)

Definition quietly (a : action) : Prop := tame a ∧ ¬ starts standby_ct a.

Ltac quiet_cmd := split; [split; [other_cmd|easy]|easy].

Lemma after_stop_decides h o t :
  runs (out ← wrap "reading the standby's final WAL position: %w" []
          (capture_or_fail ["docker"; "run"; "--rm"; "--user"; pgUID;
            "-v"; st_standbyPath activeStorage +:+ ":/data"; image; "pg_controldata"; "/data/pgdata"]);
        final ← lift (parseControlCheckpoint out);
        _ ← pollUntil ("main to replay the standby's WAL up to " +:+ final) (60 * sec) (replayed final);
        _ ← ignore (Print "4/5 promoting main…" []);
        promote main_ct) h o t →
  decides quietly (promote_action main_ct) o t.
Proof.
  apply decides_bind; [emits_solve; quiet_cmd|]. intros out ? ? ?.
  apply decides_bind; [emits_solve|]. intros final ? ? ?.
  apply decides_bind; [emits_solve; quiet_cmd|]. intros _ ? ? ?.
  apply decides_bind; [emits_solve; quiet_cmd|]. intros _ ? ? ?.
  apply decides_perform.
Qed.

(** Before main is promoted the standby stays the primary: nothing but failed
    tries to promote main, and the pointer is not written. *)
Definition unpromoted (t : history) : Prop :=
  Forall (λ e, ¬ writes e.1 ∧ (e.1 = promote_action main_ct → rok e.2 = false)) t.

Lemma tame_unpromoted t : Forall (λ e, tame e.1) t → unpromoted t.
Proof. intros H2. eapply Forall_impl; [exact H2|]. intros e [Hp Hw]. split; [done|]. by intros. Qed.

Lemma hand_over_runs h o t :
  runs hand_over h o t →
  (o ≠ Ok tt ∧ unpromoted t)
  ∨ (o = Ok tt ∧ ∃ s b r, t = (stop_action standby_ct, s) :: b ++ [(promote_action main_ct, r)]
       ∧ rok s = true ∧ rok r = true ∧ Forall (λ e, quietly e.1) b).
Proof.
  assert (tame (stop_action standby_ct)) as Hst by (split; [other_cmd|easy]).
  unfold hand_over. intros [(a & t1 & t2 & H1 & H2 & ->)|[(e & H1 & ->)|(w & H1 & ->)]]%runs_bind.
  - apply runs_perform in H1 as [-> Ha]. destruct (rok (answer h _)) eqn:Hr; [|done].
    apply after_stop_decides in H2 as [[Ho H2]|(-> & b & r & -> & Hr' & H2)].
    + left. split; [done|]. apply Forall_app. split; [apply tame_unpromoted; by apply Forall_singleton|].
      eapply Forall_impl; [exact H2|]. intros e [[[Hp Hw] _]|[-> Hf]]; split; [done|by intros|easy|done].
    + right. split; [done|]. eexists _, b, r. split; [reflexivity|]. done.
  - left. split; [done|]. apply runs_perform in H1 as [-> _]. apply tame_unpromoted. by apply Forall_singleton.
  - apply runs_perform in H1 as [-> H1]. by destruct (rok _).
Qed.

(** ** After the promotion *)

Lemma destroyStandby_calm : emits (λ a, ¬ starts standby_ct a ∧ a ≠ promote_action main_ct) (st_destroyStandby activeStorage).
Proof.
  unfold activeStorage. destruct (String.eqb _ _); cbn [st_destroyStandby btrfsStorage zfsStorage].
  - unfold btrfs_destroyStandby, btrfs_exists. emits_solve; (split; [easy|other_cmd]).
  - emits_solve. split; [easy|other_cmd].
Qed.

Lemma after_promotion_calm : emits (λ a, ¬ starts standby_ct a ∧ a ≠ promote_action main_ct) after_promotion.
Proof.
  unfold after_promotion. emits_solve; try apply destroyStandby_calm; (split; [easy|other_cmd]).
Qed.

Lemma after_promotion_writes h t :
  runs after_promotion h (Ok tt) t → ∃ w, (WriteFile primaryFile "main" 420, w) ∈ t ∧ rok w = true.
Proof.
  unfold after_promotion. intros (a & t1 & t2 & H1 & _ & ->)%runs_bind_ok.
  unfold setPrimary in H1. apply runs_bind_ok in H1 as (b & u1 & u2 & _ & H1 & ->).
  apply runs_perform in H1 as [-> H1]. destruct (rok (answer _ _)) eqn:Hr; [|done].
  eexists. split; [|exact Hr]. set_solver.
Qed.

(** ** Failback *)

(** No moment with two primaries: main is promoted only after the standby was
    stopped, nothing starts the standby from then on, and the pointer moves only
    then; or main is never promoted and the pointer stays. *)
Definition one_primary (o : outcome error unit) (t : history) : Prop :=
  (o ≠ Ok tt ∧ unpromoted t)
  ∨ ∃ b1 s b2 r after,
      t = b1 ++ (stop_action standby_ct, s) :: b2 ++ (promote_action main_ct, r) :: after
      ∧ rok s = true ∧ rok r = true
      ∧ Forall (λ e, tame e.1) b1 ∧ Forall (λ e, quietly e.1) b2
      ∧ Forall (λ e, ¬ starts standby_ct e.1 ∧ e.1 ≠ promote_action main_ct) after
      ∧ (o = Ok tt → ∃ w, (WriteFile primaryFile "main" 420, w) ∈ after ∧ rok w = true).

Lemma one_primary_bind {A} (m : prog A) f h o t :
  emits tame m → (∀ a h o t, runs (f a) h o t → one_primary o t) →
  runs (m ≫= f) h o t → one_primary o t.
Proof.
  intros Hm Hf [(a & t1 & t2 & H1 & H2 & ->)|[(e & H1 & ->)|(w & H1 & ->)]]%runs_bind.
  - apply (emits_runs _ _ _ _ _ Hm) in H1.
    apply Hf in H2 as [[Ho H2]|(b1 & s & b2 & r & after & -> & Hs & Hr & Hb1 & Hb2 & Ha & Hw)].
    + left. split; [done|]. apply Forall_app. split; [by apply tame_unpromoted|done].
    + right. exists (t1 ++ b1), s, b2, r, after. rewrite <-app_assoc. split_and!; try done.
      apply Forall_app. done.
  - left. split; [done|]. apply tame_unpromoted. by apply (emits_runs _ _ _ _ _ Hm) in H1.
  - left. split; [done|]. apply tame_unpromoted. by apply (emits_runs _ _ _ _ _ Hm) in H1.
Qed.

Lemma one_primary_fail e h o t : runs (fail (A := unit) e) h o t → one_primary o t.
Proof. intros [-> ->]%runs_lift. left. split; [done|constructor]. Qed.

Lemma finish_runs h o t :
  runs (_ ← on_error hand_over restart; after_promotion) h o t → one_primary o t.
Proof.
  unfold on_error. intros [(a & t1 & t2 & H1 & H2 & ->)|H1]%runs_bind.
  - apply runs_bind_ok in H1 as (r & u1 & u2 & Ha & Hb & ->).
    apply runs_attempt in Ha as [(b & Ha & [= ->])|[(e & Ha & [= ->])|(w & _ & [=])]].
    + apply runs_ret in Hb as [[= <-] ->]. rewrite app_nil_r in *.
      apply hand_over_runs in Ha as [[Ho _]|(Ho & s & b' & r & -> & Hs & Hr & Hq)].
      { by destruct a. }
      right. exists [], s, b', r, t2. split_and!; [|done|done|constructor|done| |].
      * cbn. by rewrite <-app_assoc.
      * by apply (emits_runs _ _ _ _ _ after_promotion_calm) in H2.
      * intros ->. by eapply after_promotion_writes.
    + exfalso. clear Ha H2. unfold restart, stopped in Hb.
      do 4 (apply runs_bind_ok in Hb as (? & ? & ? & _ & Hb & _)). by apply runs_lift in Hb as [? _].
  - left. assert (o ≠ Ok tt ∧ ∃ o1, runs (r ← attempt hand_over; match r with inl a => mret a | inr e => restart e end) h o1 t ∧ o1 ≠ Ok tt) as (Ho & o1 & H2 & Ho1).
    { destruct H1 as [(e & H1 & ->)|(w & H1 & ->)]; (split; [done|]); eauto. }
    split; [done|]. clear H1. apply runs_bind in H2 as [(r & u1 & u2 & Ha & Hb & ->)|H2].
    + apply runs_attempt in Ha as [(b & Ha & [= ->])|[(e & Ha & [= ->])|(w & _ & [=])]].
      * apply runs_ret in Hb as [-> _]. by destruct b.
      * apply hand_over_runs in Ha as [[_ Ha]|(? & _)]; [|done]. apply Forall_app. split; [done|].
        apply tame_unpromoted. by apply (emits_runs _ _ _ _ _ (restart_tame e)) in Hb.
    + assert (∃ o2, runs hand_over h o2 t ∧ o2 ≠ Ok tt) as (o2 & H3 & Ho2).
      { destruct H2 as [(e & H2 & _)|(w & H2 & _)]; apply runs_attempt in H2; naive_solver. }
      apply hand_over_runs in H3 as [[_ H3]|[? _]]; done.
Qed.
End ha_lemmas.

(** ** Properties *)

Section ha_props.
Context {W : World} {En : Env} {Em : Embedded}.

(** C2. Failback never makes a second primary. Whatever docker, psql, the storage and
    the clock answer: main is promoted only after the standby's container was
    stopped, nothing starts the standby between the stop and the end, and the
    pointer to the primary is written only after the promotion; a run that ends
    before that (every error and timeout on the way) leaves the pointer alone.
    Success means the pointer now names main. *)
Theorem HAFailback_one_primary h o t : runs HAFailback h o t → one_primary o t.
Proof.
  unfold HAFailback.
  apply one_primary_bind; [apply primary_tame|]. intros p ? ? ?.
  apply one_primary_bind; [unfold check; destruct (haGuard _ _); auto with emits|]. intros _ ? ? ?.
  apply one_primary_bind; [apply state_tame|]. intros cs ? ? ?.
  destruct (negb _); [apply one_primary_fail|].
  apply one_primary_bind; [apply emits_ignore; split; [other_cmd|easy]|]. intros _ ? ? ?.
  apply one_primary_bind; [|intros _ ? ? ?].
  { apply emits_bind; [apply emits_attempt, rebuild_tame|]. intros [a|e]; [apply emits_ret|apply stopped_tame]. }
  apply one_primary_bind; [apply emits_ignore; split; [other_cmd|easy]|]. intros _ ? ? ?.
  apply finish_runs.
Qed.

(** What destroys the standby's data or stops a primary. *)
Definition stops (cont : string) (a : action) : Prop :=
  match a with
  | Exec ("sudo" :: "docker" :: "stop" :: "-t" :: _ :: c :: _) _
  | Exec ("sudo" :: "docker" :: "stop" :: c :: _) _ | Exec ("sudo" :: "docker" :: "rm" :: "-f" :: c :: _) _ => c = cont
  | _ => False
  end.
Definition discards_standby (a : action) : Prop :=
  match a with
  | Exec ("sudo" :: "zfs" :: "destroy" :: _) _ => True
  | Exec ("sudo" :: "btrfs" :: "subvolume" :: "delete" :: _) _ => True
  | _ => stops standby_ct a
  end.

(** The pointer names the promoted standby. *)
Definition failed_over : Prop :=
  ∀ h, rok (answer h (ReadFile primaryFile)) = true
       ∧ TrimSpace (rout (answer h (ReadFile primaryFile))) = "standby".

Lemma PrimaryContainer_failed_over h :
  failed_over → PrimaryContainer h = (Ok standby_ct, [(ReadFile primaryFile, answer h (ReadFile primaryFile))]).
Proof.
  intros Hf. destruct (Hf h) as [Hr Ho]. unfold PrimaryContainer, primaryBranch, mbind, prog_bind, call.
  cbn. by rewrite Hr, Ho.
Qed.

(** After a failover the standby holds every write, so enable, disable and another
    failover refuse: they read the pointer, and do nothing else. *)
Theorem HA_refuses_after_failover h :
  failed_over →
  Forall (λ m : prog unit, ∃ e, runs m h (Err e) [(ReadFile primaryFile, answer h (ReadFile primaryFile))])
    [HAEnable; HADisable; HAFailover].
Proof.
  intros Hf. repeat constructor; eexists; unfold runs, HAEnable, HADisable, HAFailover, mbind, prog_bind;
    rewrite PrimaryContainer_failed_over by done; reflexivity.
Qed.

End ha_props.

(** A machine where everything works except stopping containers. *)
Definition reply_ok (out : string) : reply := mkReply true out out 0.
Definition reply_failed : reply := mkReply false EmptyString EmptyString 1.
Definition stuck_world : World := {| answer := λ _ a,
  match a with
  | ReadFile _ => reply_failed
  | Exec ("sudo" :: "docker" :: "inspect" :: _) _ => reply_ok "running"
  | Exec ("sudo" :: "docker" :: "stop" :: _) _ => reply_failed
  | _ => reply_ok EmptyString
  end |}.
Definition sample_env : Env := {|
  getenv := λ _, EmptyString; pgPass := "secret"; minioUser := "m"; minioPass := "p"; home_dir := Some "/home/u" |}.
Definition plain_errors : ErrorText := {| failure_text := λ _, "exit status 1" |}.
Definition sample_embedded : Embedded := {|
  ledger_Schema := "1"; ledger_SchemaV2 := "2"; ledger_SchemaPolicy := "3"; ledger_SchemaProvenance := "4";
  ledger_SchemaImpact := "5"; restorePITRScript := "6" |}.

(** A failover does not notice that the old primary would not stop: it promotes the
    standby, ignores the failing stop and reports success, with two primaries up. *)
Theorem HAFailover_ignores_stop :
  ∃ (W : World) (En : Env) (h t : history),
    runs HAFailover h (Ok tt) t
    ∧ (∃ r, (promote_action standby_ct, r) ∈ t ∧ rok r = true)
    ∧ (∃ r, (stop_action main_ct, r) ∈ t ∧ rok r = false)
    ∧ Forall (λ e, stops main_ct e.1 → rok e.2 = false) t.
Proof.
  exists stuck_world, sample_env, []. eexists. split; [vm_compute; reflexivity|]. split_and!.
  - exists (reply_ok EmptyString). split; [|reflexivity]. do 2 right. left.
  - exists reply_failed. split; [|reflexivity]. do 3 right. left.
  - repeat (apply Forall_cons; split; [cbv; first [intros _; reflexivity | intros []] |]).
    apply Forall_nil; exact I.
Qed.

(** ** Witnesses *)

(** A machine where every command works and the standby serves main. *)
Definition promoted_world : World := {| answer := λ _ a,
  match a with
  | ReadFile _ => reply_ok ("standby" +:+ str1 nl)
  | Exec ("sudo" :: "docker" :: "inspect" :: _) _ => reply_ok "running"
  | Exec l _ =>
      match last l with
      | Some q =>
          if HasPrefix q "SELECT count" then reply_ok "1"
          else if String.eqb q "SELECT pg_last_wal_replay_lsn()" then reply_ok "0/3000028"
          else if String.eqb q "SELECT pg_is_in_recovery();" then reply_ok "f"
          else if String.eqb q "/data/pgdata" then reply_ok "Latest checkpoint location: 0/3000028"
          else reply_ok EmptyString
      | None => reply_ok EmptyString
      end
  | _ => reply_ok EmptyString
  end |}.

Lemma HAFailback_one_primary_witness :
  ∃ t, @runs unit (@HAFailback promoted_world sample_env) [] (Ok tt) t ∧ @one_primary sample_env (Ok tt) t.
Proof.
  eexists. split; [vm_compute; reflexivity|].
  eapply (@HAFailback_one_primary promoted_world sample_env [] (Ok tt)). vm_compute. reflexivity.
Defined.

Lemma HA_refuses_after_failover_witness :
  ∃ e, @runs unit (@HADisable promoted_world sample_env) [] (Err e)
    [(ReadFile (@primaryFile sample_env), reply_ok ("standby" +:+ str1 nl))].
Proof.
  pose proof (@HA_refuses_after_failover promoted_world sample_env []
    (λ h, conj eq_refl (eq_refl (TrimSpace ("standby" +:+ str1 nl))))) as H.
  apply Forall_cons in H as [_ H]. apply Forall_cons in H as [[e H] _]. exists e. exact H.
Defined.
