(* ===== verification/Branch.v ===== *)
(** * Branches: internal/branch/branch.go

    The lifecycle of a branch (create, delete, reset, suspend, resume, wake),
    the stack's start and stop, agent branches and their reaper. Keys are minted
    and revoked by internal/auth, which is called out to (Serving.v has both). *)
From S2P Require Import Prelude GoStrings GoNum Sha256 GoTime GoTimeParse GoPath GoSort Effects Storage Container HA.
Open Scope string_scope.
Open Scope list_scope.

(** ** Reasons a suspend is refused *)

Definition suspendRefusal (name primary : string) (haEnabled : bool) : option error :=
  if String.eqb name "main" then
    Some (Errorf "refusing to suspend the primary branch 'main': the gateway won't wake it (stop everything with `odb stop`)" [])
  else if String.eqb (container name) primary then
    Some (Errorf "refusing to suspend %q: it is serving 'main' since `odb ha failover`" [name])
  else if String.eqb name "standby" && haEnabled then
    Some (Errorf "refusing to suspend the HA standby: manage it with `odb ha` (e.g. `odb ha disable`)" [])
  else None.

(** ** URLs (net/url), as agentGatewayDSN uses them *)

Definition url_unreserved (c : ascii) : bool :=
  let z := byte_val c in
  ((97 <=? z) && (z <=? 122) || (65 <=? z) && (z <=? 90) || (48 <=? z) && (z <=? 57))%Z
  || existsb (Ascii.eqb c) ["-"; "_"; "."; "~"]%char.
Definition upper_hex (n : Z) : ascii := byte_of (if (n <? 10)%Z then 48 + n else 55 + n).
Definition percent (c : ascii) : string :=
  String "%" (String (upper_hex (byte_val c / 16)) (str1 (upper_hex (byte_val c mod 16)))).
Definition url_escape (keep : list ascii) (s : string) : string :=
  String.concat EmptyString
    ((λ c, if url_unreserved c || existsb (Ascii.eqb c) keep then str1 c else percent c) <$> to_bytes s).
Definition escape_userinfo : string → string := url_escape ["$"; "&"; "+"; ","; ";"; "="]%char.
Definition escape_path : string → string := url_escape ["$"; "&"; "+"; ","; "/"; ":"; ";"; "="; "@"]%char.
Definition escape_host : string → string :=
  url_escape (["!"; "$"; "&"; "'"; "("; ")"; "*"; "+"; ","; ";"; "="; ":"; "["; "]"; "<"; ">"]%char ++ [dquote]).

(** net.SplitHostPort: host and port around the last colon; an IPv6 host stands in
    brackets. *)
Definition split_host_port (hp : string) : option (string * string) :=
  match hp with
  | String "[" rest =>
      match cut_byte "]" rest with
      | Some (host, String ":" port) =>
          if has_byte ":" port || has_byte "[" rest || has_byte "]" port then None else Some (host, port)
      | _ => None
      end
  | _ =>
      match Split ":" hp with
      | [h; p] => if has_byte "[" hp || has_byte "]" hp then None else Some (h, p)
      | _ => None
      end
  end.

Section branch.
Context {W : World} {En : Env} {Em : Embedded}.

Definition AgentRolePassword (branchName : string) : string :=
  hex_encode (hmac_sha256 pgPass ("odb-agent-role:" +:+ branchName)).

(** ** Starting the stack *)

Definition Init : prog unit :=
  _ ← ensureNetwork;
  p ← PrimaryContainer;
  if String.eqb p (container "standby") then ensurePromotedStandby else
  st ← ContainerState "main";
  if String.eqb st "running" then
    _ ← syncRolePassword "main";
    _ ← st_protectPrimary activeStorage;
    _ ← InstallLedger "main";
    _ ← ensureLedgerV2BestEffort "main";
    syncAppRole "main"
  else
    there ← st_exists activeStorage "main";
    _ ← (if (there : bool) then mret tt else st_createEmpty activeStorage "main");
    _ ← run ["chown"; "-R"; pgUID +:+ ":" +:+ pgUID; mountpoint "main"];
    _ ← startContainer "main" true;
    _ ← waitReady "main";
    _ ← syncRolePassword "main";
    _ ← st_protectPrimary activeStorage;
    _ ← InstallLedger "main";
    _ ← ensureLedgerV2BestEffort "main";
    syncAppRole "main".

Definition minioRunning : prog bool :=
  '(out, _) ← capture ["docker"; "ps"; "--filter"; "name=^minio$"; "--format"; "{{.Names}}"];
  mret (String.eqb out "minio").

Definition Up (wd : option string) : prog unit :=
  _ ← Provision wd;
  _ ← ensureNetwork;
  running ← minioRunning;
  _ ← (if (running : bool) then mret tt
       else
         _ ← quiet ["docker"; "rm"; "-f"; "minio"];
         img ← minioImage;
         run ["docker"; "run"; "-d"; "--name"; "minio"; "--network"; network;
              "-e"; "MINIO_ROOT_USER=" +:+ minioUser; "-e"; "MINIO_ROOT_PASSWORD=" +:+ minioPass;
              "-p"; "9000:9000"; "-p"; "9001:9001"; "-v"; "oxyndb-minio:/data";
              img; "server"; "/data"; "--console-address"; ":9001"]);
  mc ← mcImage;
  _ ← run ["docker"; "run"; "--rm"; "--network"; network; "--entrypoint"; "sh"; mc; "-c";
           "until mc alias set local http://minio:9000 " +:+ minioUser +:+ " " +:+ minioPass
             +:+ "; do sleep 1; done; mc mb -p local/oxyndb-wal"];
  Init.

Definition stack_container (n : string) : bool :=
  String.eqb n "minio" || String.eqb n "oxyndb-console" || HasPrefix n "oxyn-".
Definition Down : prog unit :=
  '(out, _) ← capture ["docker"; "ps"; "-a"; "--format"; "{{.Names}}"];
  for_each (λ n, when (stack_container n) (quiet ["docker"; "rm"; "-f"; n])) (Fields out).

(** ** Create, delete, reset *)

Definition or_parent (parent : string) : string := or_main parent.

Definition ErrParentNotFound : error := Errorf "no branch to create from" [].

Definition Create (name parent : string) : prog unit :=
  let parent := or_main parent in
  have_parent ← st_exists activeStorage parent;
  if negb have_parent then fail (Wrapf "%w: %q" [parent] ErrParentNotFound) else
  have ← st_exists activeStorage name;
  if (have : bool) then fail (Errorf "branch %q already exists" [name]) else
  _ ← ensureNetwork;
  _ ← quiet (psql_c (container parent) ["-c"] "CHECKPOINT;");
  _ ← st_clone activeStorage parent name;
  _ ← run ["chown"; "-R"; pgUID +:+ ":" +:+ pgUID; mountpoint name];
  _ ← startContainer name false;
  waitReady name.

Definition Delete (name : string) : prog unit :=
  if String.eqb name "main" then fail (Errorf "refusing to delete the primary branch 'main'" []) else
  _ ← quiet ["docker"; "rm"; "-f"; container name];
  st_destroy activeStorage name.

Definition Reset (name parent : string) : prog unit :=
  if String.eqb name "main" then fail (Errorf "refusing to reset the primary branch 'main'" []) else
  _ ← Delete name;
  Create name (or_main parent).

Definition List_ : prog unit :=
  _ ← (if String.eqb (st_name activeStorage) "zfs"
       then ignore (Print "=== branch datasets (USED shows copy-on-write delta) ===" [])
       else ignore (Print "=== branches (copy-on-write subvolumes) ===" []));
  _ ← st_list activeStorage;
  _ ← ignore (Print "=== postgres containers ===" []);
  run ["docker"; "ps"; "--filter"; "name=oxyn-"; "--format"; "table {{.Names}}" +:+ str1 tab +:+ "{{.Status}}"].

Definition Backup : prog unit :=
  primary ← PrimaryContainer;
  _ ← when (negb (String.eqb primary (container "main")))
        (ignore (Print "backing up %s, which is serving main since the failover" [primary]));
  run ["docker"; "exec"; "-e"; "PGHOST=localhost"; "-e"; "PGUSER=" +:+ pgUser;
       "-e"; "PGPASSWORD=" +:+ pgPass; "-e"; "PGDATABASE=" +:+ pgDatabase;
       primary; "wal-g"; "backup-push"; "/var/lib/postgresql/data/pgdata"].

Definition BackupList : prog unit :=
  run (["docker"; "run"; "--rm"; "--network"; network] ++ walgEnv ++ [image; "wal-g"; "backup-list"; "--detail"]).

Definition Status : prog unit :=
  primary ← PrimaryContainer;
  _ ← (if String.eqb primary (container "main") then ignore (Print "=== main readiness ===" [])
       else ignore (Print "=== main readiness (served by %s since the failover) ===" [primary]));
  _ ← discard (run ["docker"; "exec"; primary; "pg_isready"; "-U"; pgUser; "-d"; pgDatabase]);
  _ ← ignore (Print "=== base backups ===" []);
  _ ← discard BackupList;
  _ ← ignore (Print "=== branches ===" []);
  List_.

(** ** Routing *)

Definition BackendAddr (name : string) : prog string :=
  let name := or_main name in
  cont ← (if String.eqb name "main" then PrimaryContainer else mret (container name));
  ip ← containerIP cont;
  mret (ip +:+ ":5432").

Definition Suspend (name : string) : prog unit :=
  primary ← PrimaryContainer;
  st ← ContainerState "standby";
  _ ← check (suspendRefusal name primary (negb (String.eqb st "absent")));
  run ["docker"; "stop"; container name].

Definition Resume (name : string) : prog unit :=
  _ ← run ["docker"; "start"; container name];
  waitReady name.

Definition EnsureRunning (name : string) : prog string :=
  if String.eqb name "main" then BackendAddr "main" else
  st ← ContainerState name;
  _ ← (if String.eqb st "running" then mret tt
       else if String.eqb st "absent" then
         there ← st_exists activeStorage name;
         if negb there then fail (Errorf "branch %q does not exist" [name]) else
         _ ← startContainer name (String.eqb name "main");
         _ ← waitReady name;
         reconcileGuard name
       else
         _ ← Resume name;
         reconcileGuard name);
  BackendAddr name.

Definition Wake (name : string) : prog unit := _ ← EnsureRunning name; mret tt.

Definition suspendable (n : string) : option string :=
  let bn := TrimPrefix n "oxyn-" in
  if String.eqb bn "main" || String.eqb bn "restore" || String.eqb bn "standby" then None else Some bn.
Definition SuspendableBranches : prog (list string) :=
  out ← capture_or_fail ["docker"; "ps"; "--filter"; "name=oxyn-"; "--format"; "{{.Names}}"];
  mret (omap suspendable (Fields out)).

(** ** Listings *)

Record BranchInfo : Type := mkBranchInfo {
  BName : string; BPrimary : bool; BAgent : bool; BState : string; BUsed : string; BRefer : string;
  BConnections : Z; BPort : string }.

Definition branch_info (u : branchUsage) : prog (option BranchInfo) :=
  let name := UName u in
  if has_byte "/" name then mret None else
  st ← ContainerState name;
  if String.eqb st "running" then
    c ← attempt (ActiveConnections name);
    mret (Some (mkBranchInfo name (String.eqb name "main") (HasPrefix name "agent-") st (UUsed u) (URefer u)
                  (match c with inl n => n | inr _ => 0%Z end) "5432"))
  else mret (Some (mkBranchInfo name (String.eqb name "main") (HasPrefix name "agent-") st (UUsed u) (URefer u)
                     0%Z EmptyString)).

Fixpoint collect {A B} (f : A → prog (option B)) (l : list A) : prog (list B) :=
  match l with
  | [] => mret []
  | x :: t => y ← f x; ys ← collect f t; mret (match y with Some y => y :: ys | None => ys end)
  end.

Definition Branches : prog (list BranchInfo) :=
  us ← st_usage activeStorage; collect branch_info us.

Definition StorageInfo : prog (string * string) :=
  r ← attempt (st_capacity activeStorage);
  mret (match r with inl ua => ua | inr _ => (EmptyString, EmptyString) end).

Definition parsePublishedPort (out : string) : outcome error string :=
  let line := match cut_byte nl out with Some (a, _) => a | None => out end in
  match after_last ":" line with
  | Some p => if String.eqb p EmptyString then Err (Errorf "could not parse published port from %q" [out])
              else Ok (TrimSpace p)
  | None => Err (Errorf "could not parse published port from %q" [out])
  end.

(** ** Agent branches *)

Definition agentBranch (id : string) : string := "agent-" +:+ id.

Definition gatewayHostPort : string :=
  let v := TrimSpace (getenv "OXYNDB_GATEWAY_HOSTPORT") in
  if String.eqb v EmptyString then "localhost:6432" else v.
Definition splitGatewayHostPort : string * string :=
  match split_host_port gatewayHostPort with
  | Some hp => hp
  | None => (gatewayHostPort, EmptyString)
  end.
Definition agentGatewayDSN (branchName key : string) : string :=
  "postgresql://"
  +:+ escape_userinfo branchName +:+ (if String.eqb key EmptyString then EmptyString else ":" +:+ escape_userinfo key)
  +:+ "@" +:+ escape_host gatewayHostPort +:+ escape_path ("/" +:+ branchName) +:+ "?sslmode=require".
Definition dsn (host port : string) : string :=
  "postgresql://" +:+ pgUser +:+ ":" +:+ pgPass +:+ "@" +:+ host +:+ ":" +:+ port +:+ "/" +:+ pgDatabase.

Record Info : Type := mkInfo {
  IAgent : string; IBranch : string; IHost : string; IPort : string; IDSN : string; IStatus : string }.

Definition agentMax : Z :=
  let v := getenv "OXYNDB_AGENT_MAX" in
  if String.eqb v EmptyString then 50%Z
  else match atoi v with
       | Some n => if (0 <=? n)%Z then n else 50%Z
       | None => 50%Z
       end.

Definition agent_info (n : string) : prog (option Info) :=
  let bn := TrimPrefix n "oxyn-" in
  let '(host, port) := splitGatewayHostPort in
  '(d, host, port) ←
    (if AgentSuperuser then
       r ← attempt (containerIP n);
       let ip := match r with inl ip => ip | inr _ => EmptyString end in
       mret (dsn ip "5432", ip, "5432")
     else mret (agentGatewayDSN bn EmptyString, host, port));
  st ← ContainerState bn;
  mret (Some (mkInfo (TrimPrefix bn "agent-") bn host port d
                (if String.eqb st "running" then "ready" else "suspended"))).

Definition ps_agents : list string :=
  ["docker"; "ps"; "-a"; "--filter"; "name=oxyn-agent-"; "--format"; "{{.Names}}"].
Definition ListAgentBranches : prog (list Info) :=
  out ← capture_or_fail ps_agents;
  collect agent_info (Fields out).

Definition mintAgentKey (branchName : string) : prog string :=
  r ← call (CallOut "auth: scoped API key" [branchName]);
  if rok r then mret (rout r) else fail (CommandFailed (CallOut "auth: scoped API key" [branchName])).
Definition revokeAgentKeys (branchName : string) : prog unit :=
  ignore (CallOut "auth: revoke scoped keys" [branchName]).

(** The cap: the listing is only consulted, its failure lets the branch through. *)
Definition over_cap : prog bool :=
  if (0 <? agentMax)%Z then
    r ← attempt ListAgentBranches;
    mret (match r with inl l => (agentMax <=? Z.of_nat (List.length l))%Z | inr _ => false end)
  else mret false.

Definition CreateAgentBranch (agentID : string) : prog Info :=
  over ← over_cap;
  if (over : bool) then
    fail (Errorf "agent branch limit reached (%d) — delete some or raise OXYNDB_AGENT_MAX" [format_int agentMax])
  else
    let name := agentBranch agentID in
    _ ← Create name "main";
    ip ← containerIP (container name);
    let actor := "agent-" +:+ ReplaceByte "'" "''" agentID in
    _ ← discard (psqlStdin name ("ALTER DATABASE " +:+ pgDatabase +:+ " SET odb.actor = '" +:+ actor
          +:+ "'; ALTER DATABASE " +:+ pgDatabase +:+ " SET odb.actor_kind = 'agent';"));
    if AgentSuperuser then mret (mkInfo agentID name ip "5432" (dsn ip "5432") "ready")
    else
      _ ← wrap "creating the agent's database role: %w" [] (ensureLoginRole name name (AgentRolePassword name));
      key ← attempt (mintAgentKey name);
      match key with
      | inr e => _ ← discard (Delete name); fail (Wrapf "minting the agent's branch-scoped key: %w" [] e)
      | inl key =>
          let '(host, port) := splitGatewayHostPort in
          mret (mkInfo agentID name host port (agentGatewayDSN name key) "ready")
      end.

Definition DeleteAgentBranch (agentID : string) : prog unit :=
  let name := agentBranch agentID in
  _ ← revokeAgentKeys name;
  Delete name.

(** One container of the reaper's loop: whether its branch was deleted. *)
Definition reap_one (maxAge : Z) (cont : string) : prog bool :=
  '(created_str, ok) ← capture ["docker"; "inspect"; "-f"; "{{.Created}}"; cont];
  if negb ok then mret false else
  match time_parse rfc3339nano (TrimSpace created_str) with
  | None => mret false
  | Some created =>
      now ← call Now;
      if (time_sub (rnum now) created <=? maxAge)%Z then mret false else
      let agentID := TrimPrefix (TrimPrefix cont "oxyn-") "agent-" in
      r ← attempt (DeleteAgentBranch agentID);
      mret (match r with inl _ => true | inr _ => false end)
  end.
Fixpoint reap_go (maxAge : Z) (conts : list string) (reaped : Z) : prog Z :=
  match conts with
  | [] => mret reaped
  | c :: t => b ← reap_one maxAge c; reap_go maxAge t (if (b : bool) then reaped + 1 else reaped)%Z
  end.
Definition ReapAgentBranches (maxAge : Z) : prog Z :=
  if (maxAge <=? 0)%Z then mret 0%Z else
  out ← capture_or_fail ps_agents;
  reap_go maxAge (Fields out) 0.

End branch.

(** ** Lemmas *)

Lemma container_inj a b : container a = container b → a = b.
Proof. unfold container. apply sapp_inv_head. Qed.

(** Unfolds the programs of this directory down to their actions. *)
Ltac emits_branch :=
  repeat first
    [ emits_step
    | apply emits_poll
    | apply emits_waitRecovered
    | progress unfold run, quiet, capture, captureCombined, capture_or_fail, ok_sudo, check, on_error, wrap,
        haQuery, pg_isready, recovered, allowReplication, PrimaryContainer, primaryBranch, ContainerState,
        waitReady, pollUntil, startContainer, startStandbyContainer, setPrimary, containerIP, BackendAddr,
        ensureNetwork, psqlStdin, reconcileGuard, setGuard, ensurePromotedStandby, Resume ].

Section branch_lemmas.
Context {W : World} {En : Env} {Em : Embedded}.

(** Looking at and changing storage starts and stops no container. *)
Definition no_container (a : action) : Prop := ∀ c, ¬ starts c a ∧ ¬ stops c a.

Lemma storage_no_container (P : action → Prop) :
  (∀ l i, head l ≠ Some "docker" → P (Exec ("sudo" :: l) i)) → (∀ f args, P (Print f args)) →
  (∀ b, emits P (st_exists activeStorage b)) ∧ (∀ b, emits P (st_createEmpty activeStorage b))
  ∧ (∀ a b, emits P (st_clone activeStorage a b)) ∧ (∀ b, emits P (st_destroy activeStorage b))
  ∧ emits P (st_protectPrimary activeStorage) ∧ emits P (st_destroyStandby activeStorage).
Proof.
  intros Hx Hp. unfold activeStorage. destruct (String.eqb _ _);
    cbn [st_exists st_createEmpty st_clone st_destroy st_protectPrimary st_destroyStandby btrfsStorage zfsStorage].
  - unfold btrfs_exists, btrfs_createEmpty, disableCoW, btrfs_clone, btrfs_destroy, btrfs_destroyStandby, btrfs_exists, sudo.
    split_and!; intros; emits_branch; auto; by apply Hx.
  - unfold zfs_createEmpty, zfs_clone, zfs_destroy, setBranchRefquota, reserveMain, sudo.
    split_and!; intros; emits_branch; auto; by apply Hx.
Qed.

Lemma not_docker_starts c l i : head l ≠ Some "docker" → ¬ starts c (Exec ("sudo" :: l) i).
Proof. intros Hl. destruct l as [|x l]; [easy|]. cbn in Hl. cbn. repeat case_match; try easy; congruence. Qed.
Lemma not_docker_stops c l i : head l ≠ Some "docker" → ¬ stops c (Exec ("sudo" :: l) i).
Proof. intros Hl. destruct l as [|x l]; [easy|]. cbn in Hl. cbn. repeat case_match; try easy; congruence. Qed.

(** The names in [docker ps] lines keep what they start with. *)
Lemma starts_run name primary c :
  starts c (sudo ("docker" :: container_args name primary)) → c = container name.
Proof. by intros <-. Qed.

End branch_lemmas.

(** ** Actions that leave the containers and the data alone *)

(** What a command removes from storage (zfs-destroy(8), btrfs-subvolume(8)): a ZFS dataset
    or snapshot alone, with what is below it, or with all that depends on it; a subvolume. *)
Inductive removal : Type := Alone (y : string) | WithChildren (y : string) | WithDependents (y : string) | Subvolume (p : string).
Definition removes (a : action) : option removal :=
  match a with
  | Exec ("sudo" :: "zfs" :: "destroy" :: args) _ =>
      (if bool_decide ("-R" ∈ args) then WithDependents else if bool_decide ("-r" ∈ args) then WithChildren else Alone) <$> last args
  | Exec ["sudo"; "btrfs"; "subvolume"; "delete"; p] _ => Some (Subvolume p)
  | _ => None
  end.

(** What depends on a dataset or snapshot [y], in a pool where [origin] names the snapshot
    each dataset was cloned from: what is below it, its snapshots, and what was cloned from
    those, directly or not. *)
Inductive depends (origin : string → option string) (y : string) : string → Prop :=
| depends_self : depends origin y y
| depends_below x r : depends origin y x → depends origin y (x +:+ "/" +:+ r)
| depends_snapshot x r : depends origin y x → depends origin y (x +:+ "@" +:+ r)
| depends_clone x s : depends origin y s → origin x = Some s → depends origin y x.

Definition loses_dataset (origin : string → option string) (a : action) (x : string) : Prop :=
  match removes a with
  | Some (Alone y) => x = y
  | Some (WithChildren y) => depends (λ _, None) y x
  | Some (WithDependents y) => depends origin y x
  | _ => False
  end.

(** A name that is one path element and no snapshot. *)
Definition plain_name (n : string) : bool := plain_elem n && negb (has_byte "@" n).

(** Of the other branches, only those made from [name] lose their storage. *)
Definition spares (name : string) (a : action) : Prop :=
  ∀ other, plain_name other = true → other ≠ name →
    removes a ≠ Some (Subvolume (mountpoint other))
    ∧ ∀ origin, loses_dataset origin a (dataset other) → depends origin (dataset name) (dataset other).

Lemma idle_spares name a : removes a = None → spares name a.
Proof. intros Hr other _ _. split; [by rewrite Hr|]. intros origin. unfold loses_dataset. by rewrite Hr. Qed.

(** Without clones of what is below it, nothing depends on a dataset but what is below it. *)
Lemma depends_unshared origin y x : (∀ z s, origin z = Some s → ¬ depends (λ _, None) y s) →
  depends origin y x → x = y ∨ ∃ r, x = y +:+ "/" +:+ r ∨ x = y +:+ "@" +:+ r.
Proof.
  intros Hno Hd. assert (depends (λ _, None) y x) as H.
  { induction Hd as [|x r _ IH|x r _ IH|x s _ IH Ho]; [constructor|by constructor|by constructor|]. by destruct (Hno x s). }
  assert (∀ x c r, x = y ∨ (∃ q, x = y +:+ "/" +:+ q ∨ x = y +:+ "@" +:+ q) → (c = "/" ∨ c = "@") →
            ∃ q, x +:+ c +:+ r = y +:+ "/" +:+ q ∨ x +:+ c +:+ r = y +:+ "@" +:+ q) as Hext.
  { clear. intros x c r [->|(q & [->| ->])] [->| ->].
    - exists r. by left.
    - exists r. by right.
    - exists (q +:+ "/" +:+ r). left. by rewrite <-!sapp_assoc.
    - exists (q +:+ "@" +:+ r). left. by rewrite <-!sapp_assoc.
    - exists (q +:+ "/" +:+ r). right. by rewrite <-!sapp_assoc.
    - exists (q +:+ "@" +:+ r). right. by rewrite <-!sapp_assoc. }
  clear Hd Hno. induction H as [|x r _ IH|x r _ IH|x s _ _ [=]]; [by left|right; apply Hext; auto..].
Qed.

Section idle.
Context {W : World} {En : Env} {Em : Embedded}.

(** Starts and stops no container, removes no storage. *)
Definition idle_action (a : action) : Prop := no_container a ∧ removes a = None.

(** Decides an action whose command is spelt out. *)
Ltac idle_cmd := split; [intros c; split; easy|done].

Lemma ledgerLines_idle name sql : emits idle_action (ledgerLines name sql).
Proof. unfold ledgerLines. emits_go. idle_cmd. Qed.

Lemma poll_idle fuel ok deadline pause e : emits idle_action ok → emits idle_action (poll fuel ok deadline pause e).
Proof. intros Hok. apply emits_poll; [done|idle_cmd|idle_cmd]. Qed.

Lemma exists_idle name : emits idle_action (st_exists activeStorage name) ∧ emits idle_action (st_createEmpty activeStorage name).
Proof.
  unfold activeStorage. destruct (String.eqb _ _); cbn [st_exists st_createEmpty btrfsStorage zfsStorage];
    unfold btrfs_exists, btrfs_createEmpty, disableCoW, zfs_createEmpty, datasetExists, setBranchRefquota, reserveMain;
    split; emits_branch; idle_cmd.
Qed.

Lemma primary_idle : emits idle_action PrimaryContainer.
Proof. unfold PrimaryContainer, primaryBranch. emits_go. idle_cmd. Qed.
Lemma state_idle n : emits idle_action (ContainerState n).
Proof. unfold ContainerState, capture. emits_go. idle_cmd. Qed.
Lemma network_idle : emits idle_action ensureNetwork.
Proof. unfold ensureNetwork, ok_sudo, run. emits_go; idle_cmd. Qed.
Lemma guard_idle n : emits idle_action (reconcileGuard n).
Proof. unfold reconcileGuard, setGuard, run. emits_go. idle_cmd. Qed.
Lemma wrap_idle {A} f args (m : prog A) : emits idle_action m → emits idle_action (wrap f args m).
Proof. intros Hm. unfold wrap. emits_go. done. Qed.

Lemma emits_on_error {A} (P : action → Prop) (m : prog A) handler :
  emits P m → (∀ e, emits P (handler e)) → emits P (on_error m handler).
Proof. intros Hm Hh. unfold on_error. emits_go; auto. Qed.

Lemma emits_collect {A B} (P : action → Prop) (f : A → prog (option B)) l :
  (∀ x, emits P (f x)) → emits P (collect f l).
Proof. intros Hf. induction l as [|x l IH]; cbn [collect]; emits_go; auto. Qed.

Lemma psqlStdin_idle name sql : emits idle_action (psqlStdin name sql).
Proof. unfold psqlStdin. emits_go. idle_cmd. Qed.

End idle.

Ltac idle_cmd := split; [intros c; split; easy|done].
#[export] Hint Resolve ledgerLines_idle psqlStdin_idle : emits.

(** ** Properties *)

Section branch_props.
Context {W : World} {En : Env} {Em : Embedded}.

Lemma PrimaryContainer_returns : failed_over → returns (λ p, p = standby_ct) PrimaryContainer.
Proof.
  intros Hf h a t Hr. unfold runs in Hr. rewrite (PrimaryContainer_failed_over h Hf) in Hr.
  by injection Hr as <- _.
Qed.

Lemma EnsureRunning_starts name :
  emits (λ a, ∀ c, starts c a → c = container name ∧ name ≠ "main" ∧ c ≠ main_ct) (EnsureRunning name).
Proof.
  set (P := λ a, _). unfold EnsureRunning. destruct (String.eqb_spec name "main") as [->|Hne].
  { emits_branch; subst P; try done; (intros c Hc; easy). }
  assert (∀ l i, head l ≠ Some "docker" → P (Exec ("sudo" :: l) i)) as Hx.
  { intros l i Hl c Hc. by apply not_docker_starts in Hc. }
  destruct (storage_no_container P Hx) as (He & _); [intros f args c []|].
  emits_branch; try apply He; subst P; intros c Hc; try easy; cbn in Hc; subst c; split_and!; try done;
    intros H%container_inj; done.
Qed.

(** It talks to nothing but the machine's own commands, files and clock. *)
Definition local_action (a : action) : Prop := match a with CallOut _ _ => False | _ => True end.
Lemma EnsureRunning_local name : emits local_action (EnsureRunning name).
Proof.
  unfold EnsureRunning. destruct (storage_no_container local_action) as (He & _); [easy|easy|].
  emits_branch; try apply He; easy.
Qed.

(** Waking a branch can only start that branch's own container, and never main's:
    asked for main it only looks up an address. So no client connecting to a
    stepped-down primary can bring it back. *)
Theorem EnsureRunning_starts_only name :
  emits (λ a, ∀ c, starts c a → c = container name ∧ name ≠ "main" ∧ c ≠ main_ct) (EnsureRunning name).
Proof. apply EnsureRunning_starts. Qed.

(** Starting the stack after a failover never starts the old main: whatever else
    fails or succeeds, no container of main is started or run. *)
Theorem Init_after_failover h o t :
  failed_over → runs Init h o t → Forall (λ e, ¬ starts main_ct e.1) t.
Proof.
  intros Hf Hr. eapply (emits_runs (λ a, ¬ starts main_ct a)); [|exact Hr].
  set (P := λ a, _). unfold Init. apply emits_bind; [emits_branch; subst P; easy|]. intros _.
  eapply emits_bind_returns; [|apply PrimaryContainer_returns, Hf|].
  { emits_branch; subst P; easy. }
  intros p ->. unfold standby_ct. rewrite String.eqb_refl.
  emits_branch; subst P; cbn; try easy; intros H; by vm_compute in H.
Qed.

(** C9. Suspend stops one container at most: the branch's own, and not when the branch
    is main, when its container serves main (after a failover), or when it is the
    standby of a working pair. *)
Theorem Suspend_safe name h o t :
  runs (Suspend name) h o t →
  ∀ e c, e ∈ t → stops c e.1 →
    c = container name ∧ name ≠ "main"
    ∧ ∃ primary st t1 t2, runs PrimaryContainer h (Ok primary) t1 ∧ c ≠ primary
      ∧ runs (ContainerState "standby") (h ++ t1) (Ok st) t2 ∧ (name = "standby" → st = "absent").
Proof.
  intros Hr e c He Hc.
  assert (emits (λ a, ¬ stops c a) PrimaryContainer) as Hp by (emits_branch; easy).
  assert (∀ n, emits (λ a, ¬ stops c a) (ContainerState n)) as Hs by (intros; emits_branch; easy).
  assert (∀ (A : Type) (m : prog A) h o t, emits (λ a, ¬ stops c a) m → runs m h o t → e ∈ t → False) as Hno.
  { intros A m h' o' t' Hm Hr' Hin. apply (emits_runs _ _ _ _ _ Hm) in Hr'.
    rewrite Forall_forall in Hr'. by apply (Hr' e Hin). }
  unfold Suspend in Hr. apply runs_bind in Hr as [(p & t1 & t2 & H1 & Hr & ->)|[(x & H1 & _)|(x & H1 & _)]].
  2-3: exfalso; by eapply Hno.
  apply elem_of_app in He as [He|He]; [exfalso; by eapply Hno|].
  apply runs_bind in Hr as [(st & t3 & t4 & H2 & Hr & ->)|[(x & H2 & _)|(x & H2 & _)]].
  2-3: exfalso; eapply Hno; [apply Hs|done|done].
  apply elem_of_app in He as [He|He]; [exfalso; eapply Hno; [apply Hs|done|done]|].
  unfold check in Hr. destruct (suspendRefusal name p (negb (String.eqb st "absent"))) eqn:Href.
  { apply runs_bind in Hr as [(x & t5 & t6 & H3 & _ & ->)|[(x & H3 & _)|(x & H3 & _)]];
      apply runs_lift in H3 as [? ->]; [done|by apply not_elem_of_nil in He..]. }
  apply runs_bind in Hr as [(x & t5 & t6 & H3 & Hr & ->)|[(x & H3 & _)|(x & H3 & _)]];
    apply runs_ret in H3 as [? ->]; [|done..].
  apply runs_perform in Hr as [-> _]. cbn [app] in He. apply list_elem_of_singleton in He as ->.
  cbn in Hc. subst c. unfold suspendRefusal in Href.
  destruct (String.eqb_spec name "main") as [|Hm]; [done|].
  destruct (String.eqb_spec (container name) p) as [|Hcp]; [done|].
  split_and!; [done|done|]. exists p, st, t1, t3. split_and!; try done.
  intros ->. cbn in Href. destruct (String.eqb_spec st "absent"); [done|done].
Qed.

Lemma own_snapshot_at branch x : own_snapshot branch x → has_byte "@" x = true.
Proof. intros (p & -> & _). rewrite !has_byte_app. cbn. by rewrite !orb_true_r. Qed.

Lemma plain_path other :
  plain_name other = true → has_byte "@" (dataset other) = false ∧ has_byte "@" (mountpoint other) = false.
Proof.
  intros [_ H%negb_true_iff]%andb_true_iff. unfold dataset, mountpoint. by rewrite !has_byte_app, H.
Qed.

(** Destroying a plainly named branch's storage takes no other branch's but those made from it. *)
Lemma destroy_spares name : plain_name name = true → emits (spares name) (st_destroy activeStorage name).
Proof.
  intros Hn. unfold activeStorage. destruct (String.eqb _ _); cbn [st_destroy btrfsStorage zfsStorage].
  - apply emits_perform. intros other Ho Hne. split; [|done]. pose proof Hn as [Hn' _]%andb_true_iff.
    change (Some (Subvolume (btrfsSubvol name)) ≠ Some (Subvolume (mountpoint other))).
    rewrite btrfsSubvol_plain by done. intros [= Heq]. by apply Hne.
  - assert (∀ s, has_byte "@" s = true → spares name (sudo ["zfs"; "destroy"; s])) as Hsnap.
    { intros s Hs other Ho _. split; [cbn; by repeat case_bool_decide|]. destruct (plain_path other Ho) as [Hd _]. intros origin Heq.
      assert (s ≠ "-R" ∧ s ≠ "-r") as [H1 H2] by (split; intros ->; discriminate Hs).
      assert (removes (sudo ["zfs"; "destroy"; s]) = Some (Alone s)) as Hr by
        (cbn; by rewrite !bool_decide_eq_false_2 by (intros ?%list_elem_of_singleton; congruence)).
      unfold loses_dataset in Heq. rewrite Hr in Heq. congruence. }
    unfold zfs_destroy, capture, run, quiet. emits_branch; try by apply idle_spares.
    + intros other Ho Hne. done.
    + apply Hsnap. by eapply own_snapshot_at, isOriginSnapshotFor_spec.
    + apply Hsnap. unfold snapFor. by rewrite !has_byte_app, orb_true_r.
Qed.

(** C6. Deleting a branch spares the branches that do not come from it: for a plain name,
    whatever docker and the storage answer (the origin ZFS reports included), no other
    branch's subvolume is removed, and another branch's dataset only if, in the pool as it is
    then, it was cloned from this branch, directly or through others (those go with it, by
    zfs destroy -R). A branch of which no clone was made takes none with it. For main nothing
    runs. *)
Theorem Delete_spares_others name :
  plain_name name = true →
  emits (spares name) (Delete name)
  ∧ (∀ origin, (∀ x s, origin x = Some s → ¬ depends (λ _, None) (dataset name) s) →
       emits (λ a, ∀ other, plain_name other = true → other ≠ name → ¬ loses_dataset origin a (dataset other)) (Delete name))
  ∧ (name = "main" → ∀ h, (Delete name h).2 = []).
Proof.
  intros Hn. assert (emits (spares name) (Delete name)) as Hs.
  { unfold Delete. destruct (String.eqb name "main"); [apply emits_fail|].
    apply emits_bind; [apply emits_ignore; by apply idle_spares|]. intros _. by apply destroy_spares. }
  split_and!; [done| |by intros ->]. intros origin Hno. eapply emits_mono; [|exact Hs].
  intros a Ha other Ho Hne Hl. destruct (Ha other Ho Hne) as [_ Hd]. apply Hd, depends_unshared in Hl; [|done].
  destruct Hl as [Heq|(r & [Heq|Heq])].
  - by apply dataset_inj in Heq.
  - unfold dataset in Heq. rewrite !sapp_assoc in Heq. do 2 apply sapp_inv_head in Heq. subst other.
    unfold plain_name, plain_elem in Ho. rewrite !has_byte_app in Ho. cbn in Ho. rewrite orb_true_r in Ho. cbn in Ho. by rewrite ?andb_false_r, ?andb_false_l in Ho.
  - destruct (plain_path other Ho) as [H _]. rewrite Heq, !has_byte_app in H. cbn in H. by rewrite orb_true_r in H.
Qed.

(** The reaper only removes agents' containers and branches: every container it
    stops is named oxyn-agent-..., whatever docker lists. *)
Theorem ReapAgentBranches_agents maxAge :
  emits (λ a, ∀ c, stops c a → HasPrefix c "oxyn-agent-" = true) (ReapAgentBranches maxAge).
Proof.
  set (P := λ a, _).
  assert (∀ l i, head l ≠ Some "docker" → P (Exec ("sudo" :: l) i)) as Hx.
  { intros l i Hl c Hc. by apply not_docker_stops in Hc. }
  destruct (storage_no_container P Hx) as (_ & _ & _ & Hd & _); [intros f args c []|].
  assert (∀ id, emits P (DeleteAgentBranch id)) as Hdel.
  { intros id. unfold DeleteAgentBranch, revokeAgentKeys, Delete.
    emits_branch; try apply Hd; intros c Hc; try easy. cbn in Hc. subst c. unfold container, agentBranch.
    apply HasPrefix_spec. by exists id. }
  unfold ReapAgentBranches, ps_agents. destruct (_ <=? _)%Z; [apply emits_ret|].
  apply emits_bind; [emits_branch; subst P; easy|]. intros out.
  generalize 0%Z. induction (Fields out) as [|c l IH]; intros n; cbn [reap_go]; [apply emits_ret|].
  apply emits_bind; [|intros b; apply IH].
  unfold reap_one. emits_branch; try apply Hdel; subst P; easy.
Qed.

End branch_props.

(** An install on btrfs. *)
Definition btrfs_env : Env := {|
  getenv := λ k, if String.eqb k "OXYNDB_STORAGE" then "btrfs" else EmptyString;
  pgPass := "secret"; minioUser := "m"; minioPass := "p"; home_dir := Some "/home/u" |}.
Definition ok_world : World := {| answer := λ _ a,
  match a with ReadFile _ => reply_ok "standby" | _ => reply_ok "running" end |}.

(** The guard on main compares the name's text only. An agent's id is not checked
    before it becomes part of a path: on btrfs, deleting the agent x/../main
    deletes main's subvolume. And after a failover, deleting the branch standby
    removes the container that serves main. *)
Theorem Delete_escapes :
  (∀ h, ∃ e, e ∈ (@DeleteAgentBranch ok_world btrfs_env "x/../main" h).2
       ∧ e.1 = sudo ["btrfs"; "subvolume"; "delete"; mountpoint "main"])
  ∧ (∀ h, @runs string (@PrimaryContainer ok_world btrfs_env) h (Ok (container "standby"))
            [(ReadFile (@primaryFile btrfs_env), reply_ok "standby")]
     ∧ ∃ e, e ∈ (@Delete ok_world btrfs_env "standby" h).2
       ∧ e.1 = sudo ["docker"; "rm"; "-f"; container "standby"]).
Proof.
  split; intros h.
  - eexists. split; [do 2 right; left|]. vm_compute. reflexivity.
  - split; [vm_compute; reflexivity|]. eexists. split; [left|]. vm_compute. reflexivity.
Qed.

(** ** Witnesses *)

Lemma Init_after_failover_witness :
  ∃ o t, @runs unit (@Init promoted_world sample_env sample_embedded) [] o t
         ∧ Forall (λ e, ¬ starts main_ct e.1) t.
Proof.
  do 2 eexists. split; [vm_compute; reflexivity|].
  eapply (@Init_after_failover promoted_world sample_env sample_embedded []);
    [intros h; vm_compute; done|]. vm_compute. reflexivity.
Defined.

Lemma Suspend_safe_witness :
  ∃ e, e ∈ (@Suspend ok_world sample_env "feature" []).2 ∧ stops (container "feature") e.1 ∧ "feature" ≠ "main".
Proof.
  eexists. split; [do 2 right; left|]. split; [reflexivity|].
  refine (proj1 (proj2 (@Suspend_safe ok_world sample_env "feature" [] _ _ _ _ (container "feature") _ _)));
    [reflexivity | do 2 right; left | reflexivity].
Defined.

(** Deleting a branch that another was made from: the other goes, main stays. *)
Definition family (x : string) : option string :=
  if String.eqb x (dataset "feature") then Some (snapFor "main" "feature")
  else if String.eqb x (dataset "fix") then Some (snapFor "feature" "fix") else None.
Lemma Delete_spares_others_witness :
  plain_name "feature" = true
  ∧ Forall (λ e, spares "feature" e.1) (@Delete ok_world sample_env "feature" []).2
  ∧ Exists (λ e, loses_dataset family e.1 (dataset "fix")) (@Delete ok_world sample_env "feature" []).2
  ∧ Forall (λ e, ∀ other, plain_name other = true → other ≠ "fix" → ¬ loses_dataset family e.1 (dataset other)) (@Delete ok_world sample_env "fix" []).2.
Proof.
  split; [reflexivity|]. split; [exact (proj1 (@Delete_spares_others ok_world sample_env "feature" eq_refl) [])|]. split.
  - apply Exists_exists. eexists. split; [do 2 right; left|]. cbn.
    apply (depends_clone _ _ _ (snapFor "feature" "fix")); [|reflexivity]. apply (depends_snapshot _ _ _ "for-fix"), depends_self.
  - refine (proj1 (proj2 (@Delete_spares_others ok_world sample_env "fix" eq_refl)) family _ []).
    intros x s Hx Hd.
    apply (depends_unshared (λ _, None)) in Hd; [|done]. revert Hx. unfold family.
    destruct (String.eqb x _); [|destruct (String.eqb x _); [|done]]; intros [= <-]; by destruct Hd as [Hd|(r & [Hd|Hd])].
Defined.
