(* ===== verification/Store.v ===== *)
(** * The account store: users, sessions, API keys, pipelines (auth/auth.go, auth/pipelines.go)

    The SQLite file is the record [tables]; every statement the code runs is a
    [query] or an [exec] on it, which the machine may make fail ([fault]). The
    constraints of the schema (UNIQUE, PRIMARY KEY, the pipeline_runs foreign
    key with its cascade) are those of the statements here. crypto/rand, the
    clock and bcrypt are the class [Outside]; each use takes the next tick, so
    two draws are never the same draw. Statements of several processes on one
    file are not interleaved here. *)
From S2P Require Import Prelude GoStrings GoNum Sha256 GoTime GoSort.

Open Scope string_scope.
Open Scope list_scope.

(** ** What the store is given *)

Class Outside := {
  rand_byte : nat → nat → ascii;
  now_ns : nat → Z;
  fault : nat → bool;
  bcrypt_generate : nat → string → option string;
  bcrypt_compare : string → string → bool;
  unicode_lower : string → string
}.

(** ** Data *)

Record OAuthApp : Type := mkApp { ClientID : string; ClientSecret : string }.
Definition app_enabled (a : OAuthApp) : bool :=
  negb (String.eqb (ClientID a) "") && negb (String.eqb (ClientSecret a) "").

Record Config : Type := mkConfig {
  WebOrigin : string; PublicURL : string; SignupOpen : bool; GitHub : OAuthApp; Google : OAuthApp }.

Record User : Type := mkUser { UserID : Z; Email : string }.

Record user_row : Type := mkUserRow { u_id : Z; u_email : string; u_pw_hash : string; u_created : Z }.
Record key_row : Type := mkKeyRow {
  k_id : string; k_user : Z; k_name : string; k_hash : string; k_prefix : string;
  k_created : Z; k_last_used : option Z; k_scope : string }.
Record session_row : Type := mkSessionRow { s_token : string; s_user : Z; s_expires : Z }.
Record identity_row : Type := mkIdentityRow { i_provider : string; i_subject : string; i_user : Z }.
Record pipeline_row : Type := mkPipelineRow {
  p_id : string; p_user : Z; p_name : string; p_spec : string; p_created : Z; p_updated : Z }.
Record run_row : Type := mkRunRow {
  r_id : string; r_pipeline : string; r_user : Z; r_status : string; r_started : Z;
  r_finished : option Z; r_tables : Z; r_tests : string; r_log : string }.

(** Rows in insertion order; [next_user] is users' AUTOINCREMENT counter. *)
Record tables : Type := mkTables {
  users : list user_row; next_user : Z; api_keys : list key_row; sessions : list session_row;
  identities : list identity_row; pipelines : list pipeline_row; pipeline_runs : list run_row }.

Definition schema : tables := mkTables [] 1 [] [] [] [] [].

Definition set_users (us : list user_row) (n : Z) (d : tables) : tables :=
  mkTables us n (api_keys d) (sessions d) (identities d) (pipelines d) (pipeline_runs d).
Definition set_keys (ks : list key_row) (d : tables) : tables :=
  mkTables (users d) (next_user d) ks (sessions d) (identities d) (pipelines d) (pipeline_runs d).
Definition set_sessions (ss : list session_row) (d : tables) : tables :=
  mkTables (users d) (next_user d) (api_keys d) ss (identities d) (pipelines d) (pipeline_runs d).
Definition set_identities (ids : list identity_row) (d : tables) : tables :=
  mkTables (users d) (next_user d) (api_keys d) (sessions d) ids (pipelines d) (pipeline_runs d).
Definition set_pipelines (ps : list pipeline_row) (rs : list run_row) (d : tables) : tables :=
  mkTables (users d) (next_user d) (api_keys d) (sessions d) (identities d) ps rs.

(** ** Statements *)

Inductive store_error : Type :=
| NoRows
| StoreFailed
| Constraint
| Message (text : string).

Record state : Type := mkState { tick : nat; db : tables }.

(** A call on the store: its result or error, and the store after it. *)
Definition op (A : Type) : Type := state → outcome store_error A * state.

#[export] Instance op_ret : MRet op := λ A a s, (Ok a, s).
#[export] Instance op_bind : MBind op := λ A B f m s,
  match m s with
  | (Ok a, s') => f a s'
  | (Err e, s') => (Err e, s')
  | (Panic w, s') => (Panic w, s')
  end.

Definition failing {A} (e : store_error) : op A := λ s, (Err e, s).
Definition caught {A} (m : op A) : op (A + store_error) := λ s,
  match m s with
  | (Ok a, s') => (Ok (inl a), s')
  | (Err e, s') => (Ok (inr e), s')
  | (Panic w, s') => (Panic w, s')
  end.
(** [_, _ = f()]. *)
Definition dropped {A} (m : op A) : op unit := _ ← caught m; mret tt.
(** [v, ok := ...; if err != nil { return ..., false }]. *)
Definition option_of {A} (m : op A) : op (option A) :=
  r ← caught m; mret (match r with inl a => Some a | inr _ => None end).
(** Any error becomes this message. *)
Definition or_message {A} (text : string) (m : op A) : op A :=
  r ← caught m; match r with inl a => mret a | inr _ => failing (Message text) end.

Section store.
Context {O : Outside}.

Definition ticked {A} (f : nat → A) : op A := λ s, (Ok (f (tick s)), mkState (S (tick s)) (db s)).

Definition query {A} (f : tables → option A) : op A := λ s,
  let s' := mkState (S (tick s)) (db s) in
  if fault (tick s) then (Err StoreFailed, s')
  else match f (db s) with Some a => (Ok a, s') | None => (Err NoRows, s') end.

Definition exec (f : tables → option tables) : op unit := λ s,
  if fault (tick s) then (Err StoreFailed, mkState (S (tick s)) (db s))
  else match f (db s) with
       | Some d => (Ok tt, mkState (S (tick s)) d)
       | None => (Err Constraint, mkState (S (tick s)) (db s))
       end.

(** time.Now().Unix(), and of a time that much later. *)
Definition unix_in (later : Z) : op Z := ticked (λ k, (now_ns k + later) / second)%Z.
Definition unix : op Z := unix_in 0.

(** ** Tokens: unpadded base64url of random bytes *)

Definition b64url : string := "ABCDEFGHIJKLMNOPQRSTUVWXYZabcdefghijklmnopqrstuvwxyz0123456789-_".
Definition b64_digit (z : Z) : ascii := default "A"%char (String.get (Z.to_nat (z mod 64)) b64url).
Fixpoint b64_encode (l : list ascii) : list ascii :=
  match l with
  | a :: b :: c :: t =>
      let v := (byte_val a * 65536 + byte_val b * 256 + byte_val c)%Z in
      b64_digit (v / 262144) :: b64_digit (v / 4096) :: b64_digit (v / 64) :: b64_digit v :: b64_encode t
  | [a; b] => let v := (byte_val a * 1024 + byte_val b * 4)%Z in [b64_digit (v / 4096); b64_digit (v / 64); b64_digit v]
  | [a] => let v := (byte_val a * 16)%Z in [b64_digit (v / 64); b64_digit v]
  | [] => []
  end.

Definition randToken (n : nat) : op string :=
  ticked (λ k, of_bytes (b64_encode (rand_byte k <$> seq 0 n))).

Definition ToLower (s : string) : string :=
  if forallb (λ c, (byte_val c <? 128)%Z) (to_bytes s) then smap lower_byte s else unicode_lower s.

(** The form in which an e-mail address is stored and looked up. *)
Definition norm_email (email : string) : string := ToLower (TrimSpace email).

(** ** Users *)

Definition user_of (r : user_row) : User := mkUser (u_id r) (u_email r).
Definition find_user (f : user_row → bool) (d : tables) : option user_row := List.find f (users d).

Definition insert_user (email hash : string) (created : Z) (d : tables) : option tables :=
  if existsb (λ r, String.eqb (u_email r) email) (users d) then None
  else Some (set_users (users d ++ [mkUserRow (next_user d) email hash created]) (next_user d + 1) d).

(** The id the last INSERT INTO users gave. *)
Definition last_user_id : op Z := λ s, (Ok (next_user (db s) - 1)%Z, s).

Definition CreateUser (email password : string) : op User :=
  let email := norm_email email in
  if String.eqb email "" then failing (Message "email required") else
  hash ← (if String.eqb password "" then mret "" else
          h ← ticked (λ k, bcrypt_generate k password);
          match h with Some h => mret h | None => failing (Message "bcrypt") end);
  now ← unix;
  _ ← or_message "email already registered" (exec (insert_user email hash now));
  id ← last_user_id;
  mret (mkUser id email).

Definition Login (email password : string) : op User :=
  let email := norm_email email in
  r ← or_message "invalid credentials" (query (find_user (λ r, String.eqb (u_email r) email)));
  if String.eqb (u_pw_hash r) "" || negb (bcrypt_compare (u_pw_hash r) password)
  then failing (Message "invalid credentials") else mret (user_of r).

Definition userByID (id : Z) : op User :=
  r ← query (find_user (λ r, (u_id r =? id)%Z)); mret (user_of r).

Definition UserByEmail (email : string) : op (option User) :=
  option_of (r ← query (find_user (λ r, String.eqb (u_email r) (norm_email email))); mret (user_of r)).

Definition HasAnyUser : op bool :=
  n ← option_of (query (λ d, Some (List.length (users d))));
  mret (match n with Some n => (0 <? n)%nat | None => false end).

(** ORDER BY id LIMIT 1. *)
Definition smallest_id (l : list user_row) : option Z :=
  match l with
  | [] => None
  | r :: t => Some (foldl (λ m r, Z.min m (u_id r)) (u_id r) t)
  end.
Definition AnyUserID : op (option Z) := option_of (query (λ d, smallest_id (users d))).

(** ** Sessions *)

Definition sessionTTL : Z := (30 * 24 * hour)%Z.

Definition insert_session (r : session_row) (d : tables) : option tables :=
  if existsb (λ x, String.eqb (s_token x) (s_token r)) (sessions d) then None
  else Some (set_sessions (sessions d ++ [r]) d).

(** The token is returned with the error, if there is one. *)
Definition createSession (userID : Z) : op (string * bool) :=
  tok ← randToken 24;
  exp ← unix_in sessionTTL;
  r ← caught (exec (insert_session (mkSessionRow tok userID exp)));
  mret (tok, match r with inl _ => true | inr _ => false end).

Definition delete_session (tok : string) (d : tables) : option tables :=
  Some (set_sessions (filter (λ r, s_token r ≠ tok) (sessions d)) d).

Definition deleteSession (tok : string) : op unit := dropped (exec (delete_session tok)).

Definition userBySession (tok : string) : op (option User) :=
  r ← option_of (query (λ d, List.find (λ r, String.eqb (s_token r) tok) (sessions d)));
  match r with
  | None => mret None
  | Some r =>
      now ← unix;
      if (s_expires r <? now)%Z then _ ← deleteSession tok; mret None
      else option_of (userByID (s_user r))
  end.

(** ** API keys *)

Record KeyInfo : Type := mkKeyInfo { KID : string; KName : string; KPrefix : string; KCreated : Z; KScope : string }.

Definition hashKey (k : string) : string := hex_encode (sha256 k).

Definition insert_key (r : key_row) (d : tables) : option tables :=
  if existsb (λ x, String.eqb (k_id x) (k_id r)) (api_keys d) then None
  else Some (set_keys (api_keys d ++ [r]) d).

Definition key_name (name : string) : string := if String.eqb (TrimSpace name) "" then "key" else name.

Definition CreateScopedAPIKey (userID : Z) (name scope : string) : op (string * KeyInfo) :=
  let name := key_name name in
  let scope := TrimSpace scope in
  tok ← randToken 24;
  let secret := "odb_" +:+ tok in
  id ← randToken 8;
  let prefix := String.substring 0 12 secret in
  now ← unix;
  _ ← exec (insert_key (mkKeyRow id userID name (hashKey secret) prefix now None scope));
  mret (secret, mkKeyInfo id name prefix now scope).

Definition CreateAPIKey (userID : Z) (name : string) : op (string * KeyInfo) := CreateScopedAPIKey userID name "".

Definition RevokeScopeKeys (scope : string) : op unit :=
  if String.eqb (TrimSpace scope) "" then mret tt
  else exec (λ d, Some (set_keys (filter (λ r, k_scope r ≠ scope) (api_keys d)) d)).

Definition bump (now : Z) (h : string) (r : key_row) : key_row :=
  if String.eqb (k_hash r) h && match k_last_used r with None => true | Some t => (t <? now - 60)%Z end
  then mkKeyRow (k_id r) (k_user r) (k_name r) (k_hash r) (k_prefix r) (k_created r) (Some now) (k_scope r)
  else r.

Definition VerifyKey (key : string) : op (option (User * string)) :=
  let h := hashKey key in
  r ← option_of (query (λ d, List.find (λ r, String.eqb (k_hash r) h) (api_keys d)));
  match r with
  | None => mret None
  | Some r =>
      now ← unix;
      _ ← dropped (exec (λ d, Some (set_keys (bump now h <$> api_keys d) d)));
      u ← option_of (userByID (k_user r));
      mret (match u with Some u => Some (u, k_scope r) | None => None end)
  end.

(** ORDER BY ... DESC; rows that compare equal keep their order. *)
Definition newest {A} (key : A → Z) (l : list A) : list A := sort_slice (λ a b, key b <? key a)%Z l.

Definition key_info (r : key_row) : KeyInfo := mkKeyInfo (k_id r) (k_name r) (k_prefix r) (k_created r) (k_scope r).

Definition ListKeys (userID : Z) : op (list KeyInfo) :=
  query (λ d, Some (key_info <$> newest k_created (filter (λ r, k_user r = userID) (api_keys d)))).

Definition RevokeKey (userID : Z) (id : string) : op unit :=
  exec (λ d, Some (set_keys (filter (λ r, ¬ (k_id r = id ∧ k_user r = userID)) (api_keys d)) d)).

(** ** OAuth identities *)

Definition insert_identity (provider subject : string) (user : Z) (d : tables) : option tables :=
  if existsb (λ r, String.eqb (i_provider r) provider && String.eqb (i_subject r) subject) (identities d) then None
  else Some (set_identities (identities d ++ [mkIdentityRow provider subject user]) d).

Definition upsertOAuth (provider subject email : string) : op User :=
  known ← option_of (query (λ d,
    List.find (λ r, String.eqb (i_provider r) provider && String.eqb (i_subject r) subject) (identities d)));
  match known with
  | Some r => userByID (i_user r)
  | None =>
      let email := norm_email email in
      by_email ← (if String.eqb email "" then mret None
                  else option_of (query (find_user (λ r, String.eqb (u_email r) email))));
      match by_email with
      | Some r => _ ← dropped (exec (insert_identity provider subject (u_id r))); mret (user_of r)
      | None =>
          let email := if String.eqb email "" then provider +:+ "-" +:+ subject +:+ "@oauth.local" else email in
          nu ← CreateUser email "";
          _ ← dropped (exec (insert_identity provider subject (UserID nu)));
          mret nu
      end
  end.

(** ** Pipelines *)

Record Pipeline : Type := mkPipeline { PID : string; PName : string; PSpec : string; PCreated : Z; PUpdated : Z }.
Record PipelineRun : Type := mkRun {
  RID : string; RPipeline : string; RStatus : string; RStarted : Z; RFinished : Z; RTables : Z; RTests : string }.

Definition pipeline_of (r : pipeline_row) : Pipeline := mkPipeline (p_id r) (p_name r) (p_spec r) (p_created r) (p_updated r).

Definition insert_pipeline (r : pipeline_row) (d : tables) : option tables :=
  if existsb (λ x, String.eqb (p_id x) (p_id r)) (pipelines d) then None
  else Some (set_pipelines (pipelines d ++ [r]) (pipeline_runs d) d).

Definition CreatePipeline (userID : Z) (name spec : string) : op Pipeline :=
  id ← randToken 8;
  now ← unix;
  _ ← exec (insert_pipeline (mkPipelineRow id userID name spec now now));
  mret (mkPipeline id name spec now now).

Definition ListPipelines (userID : Z) : op (list Pipeline) :=
  query (λ d, Some (pipeline_of <$> newest p_updated (filter (λ r, p_user r = userID) (pipelines d)))).

Definition own_pipeline (id : string) (userID : Z) (r : pipeline_row) : bool :=
  String.eqb (p_id r) id && (p_user r =? userID)%Z.

Definition GetPipeline (id : string) (userID : Z) : op (option Pipeline) :=
  option_of (r ← query (λ d, List.find (own_pipeline id userID) (pipelines d)); mret (pipeline_of r)).

Definition update_pipeline (id : string) (userID : Z) (name spec : string) (now : Z) (r : pipeline_row) : pipeline_row :=
  if own_pipeline id userID r then mkPipelineRow (p_id r) (p_user r) name spec (p_created r) now else r.

Definition UpdatePipeline (id : string) (userID : Z) (name spec : string) : op unit :=
  now ← unix;
  before ← (λ s, (Ok (db s), s));
  _ ← exec (λ d, Some (set_pipelines (update_pipeline id userID name spec now <$> pipelines d) (pipeline_runs d) d));
  if existsb (own_pipeline id userID) (pipelines before) then mret tt else failing (Message "pipeline not found").

(** ON DELETE CASCADE takes the runs of what is deleted with it. *)
Definition delete_pipeline (id : string) (userID : Z) (d : tables) : option tables :=
  let gone := existsb (own_pipeline id userID) (pipelines d) in
  Some (set_pipelines (filter (λ r, own_pipeline id userID r = false) (pipelines d))
                      (filter (λ r, ¬ (gone = true ∧ r_pipeline r = id)) (pipeline_runs d)) d).

Definition DeletePipeline (id : string) (userID : Z) : op unit := exec (delete_pipeline id userID).

Definition insert_run (r : run_row) (d : tables) : option tables :=
  if existsb (λ x, String.eqb (r_id x) (r_id r)) (pipeline_runs d) then None
  else if existsb (λ x, String.eqb (p_id x) (r_pipeline r)) (pipelines d)
  then Some (set_pipelines (pipelines d) (pipeline_runs d ++ [r]) d) else None.

(** The new run's id is returned also when it could not be recorded. *)
Definition StartRun (pipelineID : string) (userID : Z) : op (string * option store_error) :=
  id ← randToken 8;
  now ← unix;
  r ← caught (exec (insert_run (mkRunRow id pipelineID userID "running" now None 0 "[]" "")));
  mret (id, match r with inl _ => None | inr e => Some e end).

Definition finish_run (id status : string) (now tables : Z) (tests log : string) (r : run_row) : run_row :=
  if String.eqb (r_id r) id
  then mkRunRow (r_id r) (r_pipeline r) (r_user r) status (r_started r) (Some now) tables tests log else r.

Definition FinishRun (id status : string) (tables : Z) (tests log : string) : op unit :=
  now ← unix;
  exec (λ d, Some (set_pipelines (pipelines d) (finish_run id status now tables tests log <$> pipeline_runs d) d)).

Definition run_of (r : run_row) : PipelineRun :=
  mkRun (r_id r) (r_pipeline r) (r_status r) (r_started r) (default 0%Z (r_finished r)) (r_tables r) (r_tests r).

Definition ListRuns (pipelineID : string) (userID : Z) : op (list PipelineRun) :=
  query (λ d, Some (run_of <$> take 50 (newest r_started
    (filter (λ r, r_pipeline r = pipelineID ∧ r_user r = userID) (pipeline_runs d))))).

(** ** Where the console lives *)

Definition DefaultPublicURL : string := "https://localhost:8080".

Definition trim_url (s : string) : string := trim_right_by (Ascii.eqb "/") (TrimSpace s).
Definition urlDefaults (getenv : string → string) : string * string :=
  let publicURL := trim_url (getenv "OXYNDB_PUBLIC_URL") in
  let publicURL := if String.eqb publicURL "" then DefaultPublicURL else publicURL in
  let webOrigin := trim_url (getenv "OXYNDB_WEB_ORIGIN") in
  (publicURL, if String.eqb webOrigin "" then publicURL else webOrigin).

Definition config_from_env (getenv : string → string) : Config :=
  let '(public, web) := urlDefaults getenv in
  mkConfig web public (negb (String.eqb (getenv "OXYNDB_SIGNUP") "closed"))
    (mkApp (getenv "OXYNDB_GITHUB_CLIENT_ID") (getenv "OXYNDB_GITHUB_CLIENT_SECRET"))
    (mkApp (getenv "OXYNDB_GOOGLE_CLIENT_ID") (getenv "OXYNDB_GOOGLE_CLIENT_SECRET")).

End store.

(** ** Reasoning about calls: a precondition, a postcondition, and what holds on failure *)

Definition hoare {A} (P : tables → Prop) (m : op A) (Q : A → tables → Prop) (E : tables → Prop) : Prop :=
  ∀ s, P (db s) → match m s with (Ok a, s') => Q a (db s') | (_, s') => E (db s') end.

(** The call keeps [I], whatever happens. *)
Definition keeps {A} (I : tables → Prop) (m : op A) : Prop := hoare I m (λ _, I) I.

Create HintDb keeps.

Lemma hoare_bind {A B} P (m : op A) R (f : A → op B) Q E :
  hoare P m R E → (∀ a, hoare (R a) (f a) Q E) → hoare P (m ≫= f) Q E.
Proof.
  intros Hm Hf s Hs. specialize (Hm s Hs). unfold mbind, op_bind.
  destruct (m s) as [[a|e|w] s']; [by apply Hf|done|done].
Qed.

Lemma hoare_ret {A} (P : tables → Prop) (a : A) (Q : A → tables → Prop) E : (∀ d, P d → Q a d) → hoare P (mret a) Q E.
Proof. intros H s Hs. by apply H. Qed.

Lemma hoare_failing {A} (P : tables → Prop) e Q (E : tables → Prop) : (∀ d, P d → E d) → hoare P (failing (A := A) e) Q E.
Proof. intros H s Hs. by apply H. Qed.

Lemma hoare_caught {A} P (m : op A) Q E :
  hoare P m Q E → hoare P (caught m) (λ r d, match r with inl a => Q a d | inr _ => E d end) E.
Proof. intros Hm s Hs. specialize (Hm s Hs). unfold caught. by destruct (m s) as [[a|e|w] s']. Qed.

Lemma hoare_option_of {A} P (m : op A) Q E :
  hoare P m Q E → hoare P (option_of m) (λ r d, match r with Some a => Q a d | None => E d end) E.
Proof.
  intros Hm. eapply hoare_bind; [by apply hoare_caught|].
  intros [a|e]; by apply hoare_ret.
Qed.

Lemma hoare_or_message {A} P (m : op A) Q E text : hoare P m Q E → hoare P (or_message text m) Q E.
Proof.
  intros Hm. eapply hoare_bind; [by apply hoare_caught|].
  intros [a|e]; [by apply hoare_ret|by apply hoare_failing].
Qed.

Lemma hoare_query `{Outside} {A} P (f : tables → option A) (Q : A → tables → Prop) (E : tables → Prop) :
  (∀ d a, P d → f d = Some a → Q a d) → (∀ d, P d → E d) → hoare P (query f) Q E.
Proof.
  intros HQ HE s Hs. unfold query. destruct (fault (tick s)); [by apply HE|].
  destruct (f (db s)) eqn:Hf; [by apply HQ|by apply HE].
Qed.

Lemma hoare_exec `{Outside} P (f : tables → option tables) (Q E : tables → Prop) :
  (∀ d d', P d → f d = Some d' → Q d') → (∀ d, P d → E d) → hoare P (exec f) (λ _, Q) E.
Proof.
  intros HQ HE s Hs. unfold exec. destruct (fault (tick s)); [by apply HE|].
  destruct (f (db s)) eqn:Hf; [by eapply HQ|by apply HE].
Qed.

Lemma hoare_weaken {A} P (m : op A) (Q Q' : A → tables → Prop) (E E' : tables → Prop) :
  hoare P m Q E → (∀ a d, Q a d → Q' a d) → (∀ d, E d → E' d) → hoare P m Q' E'.
Proof.
  intros Hm HQ HE s Hs. specialize (Hm s Hs). destruct (m s) as [[a|e|w] s']; auto.
Qed.

Lemma keeps_ticked {A} I (f : nat → A) : keeps I (ticked f).
Proof. by intros s Hs. Qed.
Lemma keeps_query `{Outside} {A} I (f : tables → option A) : keeps I (query f).
Proof. by apply hoare_query. Qed.
Lemma keeps_exec `{Outside} (I : tables → Prop) f : (∀ d d', I d → f d = Some d' → I d') → keeps I (exec f).
Proof. intros Hf. by apply hoare_exec. Qed.
Lemma keeps_exec_total `{Outside} (I : tables → Prop) f : (∀ d, I d → I (f d)) → keeps I (exec (λ d, Some (f d))).
Proof. intros Hf. apply keeps_exec. intros d d' Hd [= <-]. auto. Qed.
Lemma keeps_bind {A B} I (m : op A) (f : A → op B) : keeps I m → (∀ a, keeps I (f a)) → keeps I (m ≫= f).
Proof. intros. by eapply hoare_bind. Qed.
Lemma keeps_then {A B} I (m : op A) (f : A → op B) Q : keeps I m → (∀ a, hoare I (f a) Q I) → hoare I (m ≫= f) Q I.
Proof. intros. by eapply hoare_bind. Qed.
Lemma keeps_ret {A} I (a : A) : keeps I (mret a).
Proof. by apply hoare_ret. Qed.
Lemma keeps_failing {A} I e : keeps I (failing (A := A) e).
Proof. by apply hoare_failing. Qed.
Lemma keeps_caught {A} I (m : op A) : keeps I m → keeps I (caught m).
Proof. intros Hm. eapply hoare_weaken; [by apply hoare_caught|by intros [a|e]|done]. Qed.
Lemma keeps_dropped {A} I (m : op A) : keeps I m → keeps I (dropped m).
Proof. intros Hm. apply keeps_bind; [by apply keeps_caught|]. intros. apply keeps_ret. Qed.
Lemma keeps_option_of {A} I (m : op A) : keeps I m → keeps I (option_of m).
Proof. intros Hm. apply keeps_bind; [by apply keeps_caught|]. intros. apply keeps_ret. Qed.
Lemma keeps_or_message {A} I text (m : op A) : keeps I m → keeps I (or_message text m).
Proof. intros Hm. by apply hoare_or_message. Qed.
Lemma keeps_state {A} I (f : state → A) : keeps I (λ s, (Ok (f s), s)).
Proof. by intros s Hs. Qed.

(** Walks a call's structure; what remains are the statements that write. *)
Ltac keeps_step :=
  lazymatch goal with
  | |- keeps _ (mbind _ _) => apply keeps_bind; [|intros ?]
  | |- keeps _ (mret _) => apply keeps_ret
  | |- keeps _ (failing _) => apply keeps_failing
  | |- keeps _ (caught _) => apply keeps_caught
  | |- keeps _ (dropped _) => apply keeps_dropped
  | |- keeps _ (option_of _) => apply keeps_option_of
  | |- keeps _ (or_message _ _) => apply keeps_or_message
  | |- keeps _ (ticked _) => apply keeps_ticked
  | |- keeps _ (query _) => apply keeps_query
  | |- keeps _ (λ _, (Ok _, _)) => apply keeps_state
  | |- keeps _ (exec (λ _, Some _)) => apply keeps_exec_total; intros ? ?
  | |- keeps _ (if ?b then _ else _) => destruct b eqn:?
  | |- keeps _ (match ?x with _ => _ end) => destruct x eqn:?
  | |- keeps _ (let _ := _ in _) => cbv zeta
  end.
Ltac keeps_go := repeat (keeps_step || (solve [auto with keeps])).

(** ** The schema's invariant *)

Record wf (d : tables) : Prop := {
  wf_emails : NoDup (u_email <$> users d);
  wf_email_given : Forall (λ r, u_email r ≠ "") (users d);
  wf_ids : NoDup (u_id <$> users d);
  wf_next : Forall (λ r, (0 < u_id r < next_user d)%Z) (users d) ∧ (0 < next_user d)%Z;
  wf_keys : NoDup (k_id <$> api_keys d);
  wf_tokens : NoDup (s_token <$> sessions d);
  wf_identities : NoDup ((λ r, (i_provider r, i_subject r)) <$> identities d);
  wf_identity_users : Forall (λ r, i_user r ∈ u_id <$> users d) (identities d);
  wf_pipelines : NoDup (p_id <$> pipelines d);
  wf_runs : NoDup (r_id <$> pipeline_runs d);
  wf_run_pipelines : Forall (λ r, r_pipeline r ∈ p_id <$> pipelines d) (pipeline_runs d)
}.

Lemma unique_snoc {A B} (f : A → B) (same : A → bool) l r :
  (∀ x, f x = f r → same x = true) → existsb same l = false → NoDup (f <$> l) → NoDup (f <$> l ++ [r]).
Proof.
  intros Hsame Hex Hl. rewrite fmap_app. apply NoDup_app. split; [done|]. split; [|apply NoDup_singleton].
  intros y Hy ->%list_elem_of_singleton. apply list_elem_of_fmap in Hy as (x & Hx & Hin).
  assert (existsb same l = true) as Ht; [|by rewrite Ht in Hex].
  apply existsb_exists. exists x. split; [by apply list_elem_of_In|]. by apply Hsame.
Qed.

Lemma existsb_none {A} (f : A → bool) l : existsb f l = false ↔ Forall (λ x, f x = false) l.
Proof.
  induction l as [|x l IH]; cbn; [split; [constructor|done]|].
  rewrite orb_false_iff, Forall_cons, IH. done.
Qed.

Lemma NoDup_fmap_filter {A B} (f : A → B) (P : A → Prop) `{∀ x, Decision (P x)} l :
  NoDup (f <$> l) → NoDup (f <$> filter P l).
Proof.
  induction l as [|x l IH]; [done|]. rewrite fmap_cons, NoDup_cons, filter_cons. intros [Hx Hl].
  destruct (decide (P x)); [|auto]. rewrite fmap_cons, NoDup_cons. split; [|auto].
  contradict Hx. apply list_elem_of_fmap in Hx as (y & -> & [_ Hy]%list_elem_of_filter).
  by apply list_elem_of_fmap_2.
Qed.

Lemma fmap_same {A B} (f : A → B) (g : A → A) (l : list A) : (∀ x, f (g x) = f x) → f <$> (g <$> l) = f <$> l.
Proof. intros Hg. rewrite <- list_fmap_compose. apply list_fmap_ext. intros. apply Hg. Qed.

#[export] Hint Resolve wf_emails wf_email_given wf_ids wf_next wf_keys wf_tokens wf_identities
  wf_identity_users wf_pipelines wf_runs wf_run_pipelines NoDup_fmap_filter : keeps.

(** The key of a row just inserted is new: the statement checked it. *)
Ltac fresh_row Hex lem :=
  eapply unique_snoc; [|exact Hex|by apply lem]; cbn; intros ? ->; apply String.eqb_refl.

Lemma wf_schema : wf schema.
Proof. split; cbn; try constructor; try constructor; lia. Qed.

Lemma wf_insert_user email hash now d d' :
  email ≠ "" → wf d → insert_user email hash now d = Some d' →
  wf d' ∧ (next_user d' - 1)%Z ∈ u_id <$> users d'.
Proof.
  unfold insert_user. intros Hne Hd. destruct (existsb _ _) eqn:Hex; [done|]. intros [= <-].
  destruct (wf_next d Hd) as [Hnext Hpos]. split.
  - split; cbn; try solve [eauto with keeps].
    + fresh_row Hex wf_emails.
    + apply Forall_app. split; [by apply wf_email_given|by apply Forall_singleton].
    + rewrite fmap_app. apply NoDup_app. split; [by apply wf_ids|]. split; [|apply NoDup_singleton].
      intros y Hy ->%list_elem_of_singleton. apply list_elem_of_fmap in Hy as (x & Hx & Hin). cbn in Hx.
      rewrite Forall_forall in Hnext. specialize (Hnext x Hin). lia.
    + split; [|lia]. apply Forall_app. split; [|apply Forall_singleton; cbn; lia].
      eapply Forall_impl; [exact Hnext|]. cbn. lia.
    + eapply Forall_impl; [by apply wf_identity_users|]. cbn. intros i Hi.
      rewrite fmap_app. apply elem_of_app. by left.
  - cbn. rewrite fmap_app. apply elem_of_app. right. apply list_elem_of_singleton. cbn. lia.
Qed.

Section wf_ops.
Context `{Outside}.

Lemma CreateUser_wf email password :
  hoare wf (CreateUser email password) (λ u d, wf d ∧ UserID u ∈ u_id <$> users d) wf.
Proof.
  unfold CreateUser. cbv zeta. destruct (String.eqb _ "") eqn:Hne; [by apply hoare_failing|].
  apply String.eqb_neq in Hne.
  apply keeps_then; [unfold unix, unix_in; keeps_go|]. intros hash.
  apply keeps_then; [unfold unix, unix_in; keeps_go|]. intros now.
  apply (hoare_bind _ _ (λ _ d, wf d ∧ (next_user d - 1)%Z ∈ u_id <$> users d)).
  { apply hoare_or_message, hoare_exec; [|done]. intros d d' Hd. by apply wf_insert_user. }
  intros _. by intros s [Hs Hin].
Qed.

Lemma wf_createSession user : keeps wf (createSession user).
Proof.
  unfold createSession, randToken, unix_in. keeps_go. apply keeps_exec. unfold insert_session. intros d d' Hd.
  destruct (existsb _ _) eqn:Hex; [done|]. intros [= <-].
  split; cbn; try solve [eauto with keeps].
  fresh_row Hex wf_tokens.
Qed.

Lemma wf_filter_sessions P `{∀ x, Decision (P x)} d : wf d → wf (set_sessions (filter P (sessions d)) d).
Proof. intros Hd. split; cbn; eauto with keeps. Qed.
Lemma wf_filter_keys P `{∀ x, Decision (P x)} d : wf d → wf (set_keys (filter P (api_keys d)) d).
Proof. intros Hd. split; cbn; eauto with keeps. Qed.
#[local] Hint Resolve wf_filter_sessions wf_filter_keys : keeps.

Lemma wf_deleteSession tok : keeps wf (deleteSession tok).
Proof. unfold deleteSession, delete_session. keeps_go. Qed.
#[local] Hint Resolve wf_deleteSession : keeps.

Lemma wf_userBySession tok : keeps wf (userBySession tok).
Proof. unfold userBySession, userByID, unix, unix_in. keeps_go. Qed.

Lemma wf_CreateScopedAPIKey user name scope : keeps wf (CreateScopedAPIKey user name scope).
Proof.
  unfold CreateScopedAPIKey, randToken, unix, unix_in. keeps_go. apply keeps_exec. unfold insert_key. intros d d' Hd.
  destruct (existsb _ _) eqn:Hex; [done|]. intros [= <-].
  split; cbn; try solve [eauto with keeps].
  fresh_row Hex wf_keys.
Qed.

Lemma wf_VerifyKey key : keeps wf (VerifyKey key).
Proof.
  unfold VerifyKey, userByID, unix, unix_in. keeps_go. split; cbn; try solve [eauto with keeps].
  rewrite fmap_same; [eauto with keeps|]. intros r. unfold bump. by destruct (_ && _).
Qed.

Lemma wf_insert_identity provider subject u d d' :
  wf d → u ∈ u_id <$> users d → insert_identity provider subject u d = Some d' → wf d'.
Proof.
  unfold insert_identity. intros Hd Hu. destruct (existsb _ _) eqn:Hex; [done|]. intros [= <-].
  split; cbn; try solve [eauto with keeps].
  - eapply unique_snoc; [|exact Hex|by apply wf_identities]. cbn. intros x [= -> ->].
    by rewrite !String.eqb_refl.
  - apply Forall_app. split; [by apply wf_identity_users|by apply Forall_singleton].
Qed.

Lemma find_user_in f d r : find_user f d = Some r → u_id r ∈ u_id <$> users d.
Proof.
  unfold find_user. intros Hr%List.find_some. apply list_elem_of_fmap_2, list_elem_of_In. apply Hr.
Qed.

(** An identity is linked to the account [u], which stays in the store. *)
Lemma link_wf provider subject u : hoare (λ d, wf d ∧ u ∈ u_id <$> users d)
  (dropped (exec (insert_identity provider subject u))) (λ _, wf) wf.
Proof.
  eapply hoare_bind; [apply hoare_caught, (hoare_exec _ _ wf wf)|].
  - intros d d' [Hd Hu]. by apply wf_insert_identity.
  - by intros d [Hd _].
  - intros [a|e]; by apply hoare_ret.
Qed.

Lemma wf_upsertOAuth provider subject email : keeps wf (upsertOAuth provider subject email).
Proof.
  unfold upsertOAuth. apply keeps_bind; [keeps_go|]. intros [i|]; [unfold userByID; keeps_go|]. cbv zeta.
  eapply (hoare_bind _ _ (λ r d, wf d ∧ match r with Some r => u_id r ∈ u_id <$> users d | None => True end)).
  { destruct (String.eqb _ ""); [by apply hoare_ret|].
    eapply hoare_weaken; [apply hoare_option_of|..].
    - apply (hoare_query wf _ (λ r d, wf d ∧ u_id r ∈ u_id <$> users d) wf); [|done].
      intros d r Hd Hr. split; [done|by eapply find_user_in].
    - by intros [r|] d.
    - done. }
  intros [r|].
  - eapply hoare_bind; [apply link_wf|]. intros ?. by apply hoare_ret.
  - apply (hoare_bind _ _ (λ u d, wf d ∧ UserID u ∈ u_id <$> users d)).
    + intros s [Hs _]. by apply CreateUser_wf.
    + intros u. eapply hoare_bind; [apply link_wf|]. intros ?. by apply hoare_ret.
Qed.

Lemma wf_CreatePipeline user name spec : keeps wf (CreatePipeline user name spec).
Proof.
  unfold CreatePipeline, randToken, unix, unix_in. keeps_go. apply keeps_exec. unfold insert_pipeline. intros d d' Hd.
  destruct (existsb _ _) eqn:Hex; [done|]. intros [= <-].
  split; cbn; try solve [eauto with keeps].
  - fresh_row Hex wf_pipelines.
  - eapply Forall_impl; [by apply wf_run_pipelines|]. cbn. intros r Hr.
    rewrite fmap_app. apply elem_of_app. by left.
Qed.

Lemma wf_UpdatePipeline id user name spec : keeps wf (UpdatePipeline id user name spec).
Proof.
  unfold UpdatePipeline, unix, unix_in. keeps_go.
  assert (∀ l : list pipeline_row, p_id <$> (update_pipeline id user name spec a <$> l) = p_id <$> l) as Hid.
  { intros l. apply fmap_same. intros r. unfold update_pipeline. by destruct (own_pipeline _ _ _). }
  split; cbn; rewrite ?Hid; eauto with keeps.
Qed.

Lemma wf_DeletePipeline id user : keeps wf (DeletePipeline id user).
Proof.
  unfold DeletePipeline, delete_pipeline. keeps_go. split; cbn; eauto with keeps.
  apply Forall_forall. intros r [Hkeep Hr]%list_elem_of_filter.
  pose proof (wf_run_pipelines d H0) as Href. rewrite Forall_forall in Href.
  specialize (Href r Hr). apply list_elem_of_fmap in Href as (p & Hp & Hin).
  rewrite Hp. apply list_elem_of_fmap_2, list_elem_of_filter. split; [|done].
  destruct (own_pipeline id user p) eqn:Hown; [|done]. exfalso. apply Hkeep. split.
  - apply existsb_exists. exists p. by rewrite <- list_elem_of_In.
  - unfold own_pipeline in Hown. apply andb_true_iff in Hown as [Hown%String.eqb_eq _]. congruence.
Qed.

Lemma wf_StartRun pipeline user : keeps wf (StartRun pipeline user).
Proof.
  unfold StartRun, randToken, unix, unix_in. keeps_go. apply keeps_exec. unfold insert_run. intros d d' Hd.
  destruct (existsb _ (pipeline_runs d)) eqn:Hex; [done|]. destruct (existsb _ (pipelines d)) eqn:Href; [|done]. intros [= <-].
  split; cbn; try solve [eauto with keeps].
  - fresh_row Hex wf_runs.
  - apply Forall_app. split; [by apply wf_run_pipelines|]. apply Forall_singleton. cbn in *.
    apply existsb_exists in Href as (p & Hin & Heq%String.eqb_eq). rewrite <- Heq.
    by apply list_elem_of_fmap_2, list_elem_of_In.
Qed.

Lemma wf_FinishRun id status n tests log : keeps wf (FinishRun id status n tests log).
Proof.
  unfold FinishRun, unix, unix_in. keeps_go.
  assert (∀ B (f : run_row → B) (l : list run_row), (∀ r, f (finish_run id status a n tests log r) = f r) →
    f <$> (finish_run id status a n tests log <$> l) = f <$> l) as Hid.
  { intros B f l Hf. by apply fmap_same. }
  split; cbn; eauto with keeps.
  - rewrite Hid; [eauto with keeps|]. intros r. unfold finish_run. by destruct (String.eqb _ _).
  - apply Forall_fmap. eapply Forall_impl; [by apply wf_run_pipelines|]. cbn. intros r Hr.
    unfold finish_run. by destruct (String.eqb _ _).
Qed.

End wf_ops.

(** ** What is reachable *)

Inductive operation : Type :=
| DoCreateUser (email password : string)
| DoLogin (email password : string)
| DoCreateSession (user : Z)
| DoUserBySession (token : string)
| DoDeleteSession (token : string)
| DoCreateKey (user : Z) (name scope : string)
| DoVerifyKey (key : string)
| DoRevokeScope (scope : string)
| DoRevokeKey (user : Z) (id : string)
| DoOAuth (provider subject email : string)
| DoCreatePipeline (user : Z) (name spec : string)
| DoUpdatePipeline (id : string) (user : Z) (name spec : string)
| DoDeletePipeline (id : string) (user : Z)
| DoStartRun (pipeline : string) (user : Z)
| DoFinishRun (id status : string) (tables : Z) (tests log : string).

Definition do_operation `{Outside} (x : operation) : op unit :=
  match x with
  | DoCreateUser e p => dropped (CreateUser e p)
  | DoLogin e p => dropped (Login e p)
  | DoCreateSession u => dropped (createSession u)
  | DoUserBySession t => dropped (userBySession t)
  | DoDeleteSession t => deleteSession t
  | DoCreateKey u n sc => dropped (CreateScopedAPIKey u n sc)
  | DoVerifyKey k => dropped (VerifyKey k)
  | DoRevokeScope sc => dropped (RevokeScopeKeys sc)
  | DoRevokeKey u i => dropped (RevokeKey u i)
  | DoOAuth p s e => dropped (upsertOAuth p s e)
  | DoCreatePipeline u n sp => dropped (CreatePipeline u n sp)
  | DoUpdatePipeline i u n sp => dropped (UpdatePipeline i u n sp)
  | DoDeletePipeline i u => dropped (DeletePipeline i u)
  | DoStartRun p u => dropped (StartRun p u)
  | DoFinishRun i st n t l => dropped (FinishRun i st n t l)
  end.

Definition do_operations `{Outside} (l : list operation) (s : state) : state :=
  foldl (λ s x, (do_operation x s).2) s l.

Lemma keeps_state_after {A} I (m : op A) s : keeps I m → I (db s) → I (db (m s).2).
Proof. intros Hm Hs. specialize (Hm s Hs). by destruct (m s) as [[a|e|w] s']. Qed.

Lemma wf_operation `{Outside} x : keeps wf (do_operation x).
Proof.
  destruct x; cbn [do_operation];
    first [apply wf_deleteSession | apply keeps_dropped].
  all: first [apply wf_createSession | apply wf_userBySession | apply wf_CreateScopedAPIKey | apply wf_VerifyKey
    | apply wf_upsertOAuth | apply wf_CreatePipeline | apply wf_UpdatePipeline | apply wf_DeletePipeline
    | apply wf_StartRun | apply wf_FinishRun | idtac].
  - eapply hoare_weaken; [apply CreateUser_wf| |done]. by intros u d [Hd _].
  - unfold Login. keeps_go.
  - unfold RevokeScopeKeys. keeps_go. by apply wf_filter_keys.
  - unfold RevokeKey. keeps_go. by apply wf_filter_keys.
Qed.

(** C25. From a new store, whatever the operations, the randomness and the
    statements that fail: e-mail addresses, ids, session tokens, key ids and
    identities stay unique, no account has an empty address, every identity
    belongs to an account and every run to a pipeline that still exists. *)
Theorem wf_reachable `{Outside} l k : wf (db (do_operations l (mkState k schema))).
Proof.
  assert (∀ s, wf (db s) → wf (db (do_operations l s))) as Hall; [|by apply Hall, wf_schema].
  induction l as [|x l IH]; intros s Hs; cbn; [done|].
  apply IH, keeps_state_after; [apply wf_operation|done].
Qed.

(** ** Runs of the calls *)

Lemma op_bind_ok {A B} (m : op A) (f : A → op B) s b s' :
  (m ≫= f) s = (Ok b, s') ↔ ∃ a s1, m s = (Ok a, s1) ∧ f a s1 = (Ok b, s').
Proof.
  unfold mbind, op_bind. destruct (m s) as [[a|e|w] s1].
  - split; [intros Hf; eauto|]. by intros (a' & s2 & [= <- <-] & Hf).
  - split; [done|]. by intros (a' & s2 & [=] & _).
  - split; [done|]. by intros (a' & s2 & [=] & _).
Qed.

Lemma option_of_some {A} (m : op A) s a s' : option_of m s = (Ok (Some a), s') → m s = (Ok a, s').
Proof.
  unfold option_of, mbind, op_bind, caught. destruct (m s) as [[b|e|w] s2]; cbn.
  - by intros [= -> ->].
  - by intros [=].
  - by intros [=].
Qed.

Lemma query_ok `{Outside} {A} (f : tables → option A) s a s' :
  query f s = (Ok a, s') → f (db s) = Some a ∧ db s' = db s.
Proof. unfold query. destruct (fault _); [done|]. destruct (f (db s)); naive_solver. Qed.

Lemma query_tick `{Outside} {A} (f : tables → option A) s : tick (query f s).2 = S (tick s).
Proof. unfold query. by destruct (fault _), (f (db s)). Qed.

Lemma exec_ok `{Outside} f s u s' : exec f s = (Ok u, s') → f (db s) = Some (db s').
Proof. unfold exec. destruct (fault _); [done|]. destruct (f (db s)); naive_solver. Qed.

Lemma ticked_ok {A} (f : nat → A) s a s' : ticked f s = (Ok a, s') → a = f (tick s) ∧ db s' = db s.
Proof. by intros [= <- <-]. Qed.

Lemma db_ticked {A} (f : nat → A) s : db (ticked f s).2 = db s.
Proof. done. Qed.

(** Walks what a call that returned did. *)
Ltac op_inv :=
  repeat match goal with
  | H : (mbind _ _) _ = (Ok _, _) |- _ => apply op_bind_ok in H as (? & ? & ? & H)
  | H : option_of _ _ = (Ok (Some _), _) |- _ => apply option_of_some in H
  | H : query _ _ = (Ok _, _) |- _ => apply query_ok in H as [? ?]
  | H : exec _ _ = (Ok _, _) |- _ => apply exec_ok in H
  | H : ticked _ _ = (Ok _, _) |- _ => apply ticked_ok in H as [? ?]
  | H : failing _ _ = (Ok _, _) |- _ => discriminate H
  | H : (mret ?a) ?s = (Ok ?b, ?s') |- _ =>
      let E := fresh in let F := fresh in
      assert (a = b ∧ s = s') as [E F] by (unfold mret, op_ret in H; by simplify_eq); clear H
  end.

(** Who a stored id stands for. *)
Definition account (d : tables) (id : Z) (u : User) : Prop :=
  ∃ r, r ∈ users d ∧ u = user_of r ∧ u_id r = id.

Lemma userByID_account `{Outside} id s u s' :
  userByID id s = (Ok u, s') → account (db s) id u ∧ db s' = db s.
Proof.
  unfold userByID. intros Hrun. op_inv. subst. split; [|congruence].
  unfold find_user in *. match goal with F : List.find _ _ = Some _ |- _ => apply List.find_some in F as [Hin Hid] end.
  eexists. split; [by apply list_elem_of_In|]. split; [done|lia].
Qed.

Lemma userByID_tick `{Outside} id s u s' : userByID id s = (Ok u, s') → tick s' = S (tick s).
Proof.
  unfold userByID. intros (r & s1 & Hq & Hrun)%op_bind_ok. unfold mret, op_ret in Hrun. injection Hrun as _ <-.
  pose proof (query_tick (find_user (λ r, (u_id r =? id)%Z)) s) as Ht. by rewrite Hq in Ht.
Qed.

(** A session authenticates only the account it was made for, until it expires by the
    clock as the call reads it. *)
Lemma userBySession_sound `{Outside} tok s u s' :
  userBySession tok s = (Ok (Some u), s') →
  ∃ r k, r ∈ sessions (db s) ∧ s_token r = tok ∧ (tick s <= k < tick s')%nat ∧
    (now_ns k / second <= s_expires r)%Z ∧ account (db s) (s_user r) u.
Proof.
  unfold userBySession. rewrite op_bind_ok. intros ([r|] & s1 & Hq & Hrun); [|by unfold mret, op_ret in Hrun].
  apply option_of_some in Hq. pose proof (query_tick (λ d, List.find (λ r, String.eqb (s_token r) tok) (sessions d)) s) as Ht1.
  rewrite Hq in Ht1. cbn in Ht1. apply query_ok in Hq as [Hf Hdb].
  rewrite op_bind_ok in Hrun. destruct Hrun as (now & s2 & Hnow & Hrun).
  injection Hnow as Hnow <-. apply List.find_some in Hf as [Hin Htok].
  destruct (s_expires r <? now)%Z eqn:Hexp.
  { rewrite op_bind_ok in Hrun. by destruct Hrun as ([] & s3 & _ & Hret). }
  apply option_of_some in Hrun. pose proof (userByID_tick _ _ _ _ Hrun) as Ht2. apply userByID_account in Hrun as [Hacc _].
  cbn in Ht2, Hacc. exists r, (tick s1). split; [by apply list_elem_of_In|]. split; [by apply String.eqb_eq|].
  split; [lia|]. rewrite Z.add_0_r in Hnow. split; [lia|]. by rewrite <- Hdb.
Qed.

Lemma VerifyKey_sound `{Outside} key s u scope s' :
  VerifyKey key s = (Ok (Some (u, scope)), s') →
  ∃ r, List.find (λ r, String.eqb (k_hash r) (hashKey key)) (api_keys (db s)) = Some r ∧
    scope = k_scope r ∧ account (db s) (k_user r) u.
Proof.
  unfold VerifyKey. rewrite op_bind_ok. intros ([r|] & s1 & Hq & Hrun); [|by unfold mret, op_ret in Hrun].
  apply option_of_some in Hq. apply query_ok in Hq as [Hf Hdb].
  apply op_bind_ok in Hrun as (now & s2 & Hnow & Hrun). apply ticked_ok in Hnow as [_ Hdb2].
  apply op_bind_ok in Hrun as ([] & s3 & Hbump & Hrun).
  apply op_bind_ok in Hrun as ([v|] & s4 & Hu & Hrun); unfold mret, op_ret in Hrun; [|done].
  apply option_of_some, userByID_account in Hu as [Hacc _].
  exists r. split; [done|]. assert (v = u ∧ k_scope r = scope) as [<- <-] by (split; congruence).
  split; [done|].
  assert (users (db s3) = users (db s)) as Husers.
  { rewrite <- Hdb, <- Hdb2. clear -Hbump. unfold dropped, caught, exec, mbind, op_bind, mret, op_ret in Hbump.
    destruct (fault _); by injection Hbump as <-. }
  unfold account. by rewrite <- Husers.
Qed.

(** ** The life of a scoped key *)

(** No key opens the branch [scope]. *)
Definition scope_dead (scope : string) (d : tables) : Prop := Forall (λ r, k_scope r ≠ scope) (api_keys d).

Definition mints (scope : string) (x : operation) : Prop :=
  match x with DoCreateKey _ _ sc => TrimSpace sc = scope | _ => False end.

Lemma scope_dead_exec scope f `{Outside} :
  (∀ d d', f d = Some d' → api_keys d' = api_keys d) → keeps (scope_dead scope) (exec f).
Proof. intros Hf. apply keeps_exec. intros d d' Hd Hfd. unfold scope_dead. by rewrite (Hf _ _ Hfd). Qed.

Lemma scope_dead_filter scope P `{∀ r, Decision (P r)} d :
  scope_dead scope d → scope_dead scope (set_keys (filter P (api_keys d)) d).
Proof.
  unfold scope_dead. cbn. rewrite !Forall_forall. intros Hd r [_ Hr]%list_elem_of_filter. auto.
Qed.

(** The statements on other tables leave the keys alone. *)
Ltac other_table :=
  intros ? ?; unfold insert_user, insert_session, insert_identity, insert_pipeline, insert_run,
    delete_session, delete_pipeline; repeat destruct (existsb _ _); intros [= <-]; reflexivity.
#[export] Hint Extern 1 (keeps (scope_dead _) (exec _)) => (apply scope_dead_exec; other_table) : keeps.

Lemma scope_dead_CreateUser `{Outside} scope email password : keeps (scope_dead scope) (CreateUser email password).
Proof. unfold CreateUser, last_user_id, unix, unix_in. keeps_go. Qed.
#[export] Hint Resolve scope_dead_CreateUser : keeps.

Lemma scope_dead_operation `{Outside} scope x : ¬ mints scope x → keeps (scope_dead scope) (do_operation x).
Proof.
  intros Hx. destruct x; cbn [do_operation] in *;
    unfold Login, createSession, userBySession, deleteSession, delete_session, CreateScopedAPIKey, VerifyKey,
      RevokeScopeKeys, RevokeKey, upsertOAuth, CreatePipeline, UpdatePipeline, DeletePipeline, delete_pipeline, StartRun,
      FinishRun, userByID, randToken, unix, unix_in; keeps_go; try done.
  all: try (by apply scope_dead_filter).
  - apply keeps_exec. unfold insert_key. intros d d' Hd. destruct (existsb _ _); [done|]. intros [= <-].
    apply Forall_app. split; [done|]. by apply Forall_singleton.
  - unfold scope_dead in *. cbn. apply Forall_fmap. eapply Forall_impl; [done|]. intros r. cbn.
    unfold bump. by destruct (_ && _).
Qed.

Lemma scope_dead_operations `{Outside} scope l s :
  Forall (λ x, ¬ mints scope x) l → scope_dead scope (db s) → scope_dead scope (db (do_operations l s)).
Proof.
  revert s. induction l as [|x l IH]; intros s Hl Hs; cbn; [done|].
  apply Forall_cons in Hl as [Hx Hl]. apply IH; [done|].
  apply keeps_state_after; [by apply scope_dead_operation|done].
Qed.

(** C27. Revoking a branch's scope deletes exactly the keys stored under it, and
    from then on, whatever happens short of minting one for that branch again,
    no key resolves to the branch; keys of other scopes and account keys stay. *)
Theorem RevokeScopeKeys_final `{Outside} scope s s' l key u sc s2 :
  TrimSpace scope ≠ "" → RevokeScopeKeys scope s = (Ok tt, s') →
  db s' = set_keys (filter (λ r, k_scope r ≠ scope) (api_keys (db s))) (db s)
  ∧ (Forall (λ x, ¬ mints scope x) l →
     VerifyKey key (do_operations l s') = (Ok (Some (u, sc)), s2) → sc ≠ scope).
Proof.
  intros Hne Hrun. unfold RevokeScopeKeys in Hrun. apply String.eqb_neq in Hne. rewrite Hne in Hrun.
  apply exec_ok in Hrun. injection Hrun as Hdb. split; [done|]. intros Hl Hverify.
  apply VerifyKey_sound in Hverify as (r & Hr & -> & _). apply List.find_some in Hr as [Hin _].
  assert (scope_dead scope (db (do_operations l s'))) as Hdead.
  { apply scope_dead_operations; [done|]. rewrite <- Hdb. unfold scope_dead. cbn.
    apply Forall_forall. by intros x [Hx _]%list_elem_of_filter. }
  unfold scope_dead in Hdead. rewrite Forall_forall in Hdead. apply Hdead. by apply list_elem_of_In.
Qed.

(** A statement that does not fail. *)
Lemma query_runs `{Outside} {A} (f : tables → option A) s a :
  fault (tick s) = false → f (db s) = Some a → query f s = (Ok a, mkState (S (tick s)) (db s)).
Proof. intros Hk Hf. unfold query. by rewrite Hk, Hf. Qed.

Lemma find_app_none {A} (f : A → bool) l k : Forall (λ x, f x = false) l → List.find f (l ++ k) = List.find f k.
Proof. induction 1 as [|x l Hx Hl IH]; cbn; [done|]. by rewrite Hx. Qed.

Lemma randToken_ok `{Outside} n s t s' : randToken n s = (Ok t, s') → db s' = db s.
Proof. by intros [_ Hdb]%ticked_ok. Qed.
Lemma unix_ok `{Outside} s t s' : unix s = (Ok t, s') → db s' = db s.
Proof. by intros [_ Hdb]%ticked_ok. Qed.

(** What a mint returns and stores. *)
Lemma mint_ok `{Outside} user name scope s secret info s1 :
  CreateScopedAPIKey user name scope s = (Ok (secret, info), s1) →
  info = mkKeyInfo (KID info) (key_name name) (String.substring 0 12 secret) (KCreated info) (TrimSpace scope)
  ∧ db s1 = set_keys (api_keys (db s) ++ [mkKeyRow (KID info) user (key_name name) (hashKey secret)
      (String.substring 0 12 secret) (KCreated info) None (TrimSpace scope)]) (db s).
Proof.
  unfold CreateScopedAPIKey. cbv zeta. intros Hmint.
  apply op_bind_ok in Hmint as (tok & t1 & Htok%randToken_ok & Hmint).
  apply op_bind_ok in Hmint as (id & t2 & Hid%randToken_ok & Hmint).
  apply op_bind_ok in Hmint as (now & t3 & Hnow%unix_ok & Hmint).
  apply op_bind_ok in Hmint as ([] & t4 & Hexec%exec_ok & Hmint).
  unfold insert_key in Hexec. destruct (existsb _ _); [done|]. injection Hexec as Hdb.
  unfold mret, op_ret in Hmint. injection Hmint as <- <- <-. split; [done|].
  rewrite <- Hdb. rewrite Hnow, Hid, Htok. reflexivity.
Qed.

Lemma newest_in {A} (key : A → Z) x l : x ∈ newest key l ↔ x ∈ l.
Proof. unfold newest. by rewrite sort_slice_perm. Qed.

(** The key a mint returns resolves to its owner and to the branch it was
    minted for, its surrounding blanks removed; the stored row holds the
    secret's hash and its first twelve characters, and the account keys listed
    for the owner contain it. *)
Theorem VerifyKey_minted `{Outside} user name scope s secret info s1 r :
  (∀ k, fault k = false) →
  CreateScopedAPIKey user name scope s = (Ok (secret, info), s1) →
  Forall (λ k, k_hash k ≠ hashKey secret) (api_keys (db s)) →
  find_user (λ r, u_id r =? user)%Z (db s) = Some r →
  (VerifyKey secret s1).1 = Ok (Some (user_of r, TrimSpace scope))
  ∧ KScope info = TrimSpace scope ∧ KPrefix info = String.substring 0 12 secret
  ∧ ∃ infos s2, ListKeys user s1 = (Ok infos, s2) ∧ info ∈ infos.
Proof.
  intros Hfault Hmint Hfresh Huser. apply mint_ok in Hmint as [Hinfo Hdb].
  set (row := mkKeyRow _ _ _ _ _ _ _ _) in Hdb. split; [|split; [by rewrite Hinfo|split; [by rewrite Hinfo|]]].
  - unfold VerifyKey, option_of, dropped, caught, mbind, op_bind, unix, unix_in, ticked, exec, userByID. cbn [tick db].
    rewrite (query_runs _ s1 row); [|apply Hfault|].
    2: { rewrite Hdb. cbn [api_keys set_keys]. rewrite find_app_none; [cbn; by rewrite String.eqb_refl|].
         eapply Forall_impl; [exact Hfresh|]. cbn. intros k. apply String.eqb_neq. }
    unfold mret, op_ret. cbn [tick db]. rewrite Hfault. cbn [tick db]. unfold mbind, op_bind.
    rewrite (query_runs _ _ r); [done|apply Hfault|]. by rewrite Hdb.
  - eexists _, _. split; [apply query_runs; [apply Hfault|reflexivity]|].
    apply list_elem_of_fmap. exists row. split; [by rewrite Hinfo|].
    apply newest_in, list_elem_of_filter. split; [done|]. rewrite Hdb. cbn.
    apply elem_of_app. right. by apply list_elem_of_singleton.
Qed.

(** ** One user's calls and another's rows *)

(** What belongs to an account: its keys and its pipelines. *)
Definition rows_of (user : Z) (d : tables) : list key_row * list pipeline_row :=
  (filter (λ r, k_user r = user) (api_keys d), filter (λ r, p_user r = user) (pipelines d)).

Definition acts_for (x : operation) : option Z :=
  match x with
  | DoCreateKey u _ _ | DoRevokeKey u _ | DoCreatePipeline u _ _
  | DoUpdatePipeline _ u _ _ | DoDeletePipeline _ u | DoStartRun _ u | DoCreateSession u => Some u
  | _ => None
  end.

Lemma filter_snoc_other {A} (P : A → Prop) `{∀ x, Decision (P x)} l r : ¬ P r → filter P (l ++ [r]) = filter P l.
Proof. intros Hr. by rewrite filter_app, filter_cons_False, app_nil_r. Qed.

Lemma filter_filter_other {A} (P Q : A → Prop) `{∀ x, Decision (P x), ∀ x, Decision (Q x)} (l : list A) :
  (∀ x, P x → Q x) → filter P (filter Q l) = filter P l.
Proof.
  intros HPQ. induction l as [|x l IH]; [done|]. rewrite (filter_cons Q).
  destruct (decide (Q x)) as [HQ|HQ]; rewrite !filter_cons; destruct (decide (P x)); rewrite ?IH; naive_solver.
Qed.

Lemma filter_fmap_other {A} (P : A → Prop) `{∀ x, Decision (P x)} (f : A → A) (l : list A) :
  (∀ x, P (f x) ↔ P x) → (∀ x, P x → f x = x) → filter P (f <$> l) = filter P l.
Proof.
  intros HP Hf. induction l as [|x l IH]; [done|]. rewrite fmap_cons, !filter_cons, IH.
  destruct (decide (P x)), (decide (P (f x))); rewrite ?Hf by done; naive_solver.
Qed.

(** C26. What one account's calls do to keys and pipelines never touches another
    account's: creating, renaming, deleting and revoking with any id leave every
    row of the other account as it was. *)
Theorem tenants_isolated `{Outside} x a b s :
  acts_for x = Some a → a ≠ b → rows_of b (db (do_operation x s).2) = rows_of b (db s).
Proof.
  intros Hx Hab. apply (keeps_state_after (λ d, rows_of b d = rows_of b (db s))); [|done].
  unfold rows_of. destruct x; cbn [acts_for do_operation] in *; try discriminate Hx; injection Hx as ->;
    unfold createSession, CreateScopedAPIKey, RevokeKey, CreatePipeline, UpdatePipeline, DeletePipeline, delete_pipeline,
      StartRun, randToken, unix, unix_in; keeps_go.
  all: try (apply keeps_exec; unfold insert_session, insert_key, insert_pipeline, insert_run; intros d d' Hd;
    repeat destruct (existsb _ _); intros [= <-]).
  all: cbn [api_keys pipelines set_keys set_sessions set_pipelines]; rewrite ?filter_snoc_other by (cbn; congruence); try done.
  - rewrite filter_filter_other; [done|]. intros r <- [_ Hr]. congruence.
  - rewrite filter_fmap_other; [done|..]; unfold update_pipeline, own_pipeline; intros r;
      destruct (_ && _) eqn:Hown; cbn; try done. lia.
  - rewrite filter_filter_other; [done|]. unfold own_pipeline. intros r Hr.
    apply andb_false_iff. right. lia.
Qed.

(** A password login succeeds only for an account whose stored hash bcrypt
    accepts for that password; accounts without a password (made by OAuth) can
    never log in by one, and every failure gives the same message. *)
Theorem Login_sound `{Outside} email password s :
  match Login email password s with
  | (Ok u, s') => db s' = db s ∧ ∃ r, r ∈ users (db s) ∧ u = user_of r ∧ u_email r = norm_email email ∧
      u_pw_hash r ≠ "" ∧ bcrypt_compare (u_pw_hash r) password = true
  | (Err e, s') => db s' = db s ∧ e = Message "invalid credentials"
  | (Panic _, _) => False
  end.
Proof.
  unfold Login, or_message, caught, query, mbind, op_bind. cbv zeta. destruct (fault (tick s)); [done|].
  destruct (find_user _ _) as [r|] eqn:Hr; [|done]. unfold mret, op_ret.
  destruct (_ || _) eqn:Hbad; [done|]. split; [done|]. apply List.find_some in Hr as [Hin Hemail].
  apply orb_false_iff in Hbad as [Hhash%String.eqb_neq Hcmp%negb_false_iff].
  exists r. split; [by apply list_elem_of_In|]. split; [done|]. split; [by apply String.eqb_eq|]. done.
Qed.

(** ** Witnesses *)

Definition sample_outside : Outside := {|
  rand_byte := λ k i, ascii_of_nat (k + i);
  now_ns := λ k, (1700000000 * second + Z.of_nat k)%Z;
  fault := λ _, false;
  bcrypt_generate := λ k p, Some ("$2a$" +:+ p);
  bcrypt_compare := λ h p, String.eqb h ("$2a$" +:+ p);
  unicode_lower := λ s, s
|}.

Section samples.
#[local] Existing Instance sample_outside.

Definition sample_state : state := do_operations [DoCreateUser " Ann@Example.com" "password"] (mkState 0 schema).
Definition sample_secret : string := "odb_" +:+ of_bytes (b64_encode (ascii_of_nat <$> seq 3 24)).

Lemma VerifyKey_minted_witness : ∃ info s1,
  (VerifyKey sample_secret s1).1 = Ok (Some (mkUser 1 "ann@example.com", "agent-1"))
  ∧ KScope info = "agent-1" ∧ KPrefix info = String.substring 0 12 sample_secret
  ∧ ∃ infos s2, ListKeys 1 s1 = (Ok infos, s2) ∧ info ∈ infos.
Proof.
  eexists _, _.
  exact (VerifyKey_minted 1 "agent" " agent-1 " sample_state sample_secret _ _ (mkUserRow 1 "ann@example.com" "$2a$password" 1700000000)
    (λ _, eq_refl) eq_refl (Forall_nil_2 _) eq_refl).
Defined.

Definition agent_state : state :=
  do_operations [DoCreateKey 1 "agent" "agent-1"; DoCreateKey 1 "" "agent-2"] sample_state.
Definition second_secret : string := "odb_" +:+ of_bytes (b64_encode (ascii_of_nat <$> seq 7 24)).

Lemma RevokeScopeKeys_final_witness :
  let s' := (RevokeScopeKeys "agent-1" agent_state).2 in
  List.length (api_keys (db agent_state)) = 2%nat ∧
  db s' = set_keys (filter (λ r, k_scope r ≠ "agent-1") (api_keys (db agent_state))) (db agent_state)
  ∧ "agent-2" ≠ "agent-1".
Proof.
  intros s'. split; [vm_compute; reflexivity|].
  destruct (RevokeScopeKeys_final "agent-1" agent_state s' [DoCreateSession 1] second_secret (mkUser 1 "ann@example.com")
    "agent-2" (VerifyKey second_secret (do_operations [DoCreateSession 1] s')).2) as [Hrows Hverify].
  - vm_compute. discriminate.
  - reflexivity.
  - split; [exact Hrows|]. apply Hverify; [by repeat constructor; intros []|]. vm_compute. reflexivity.
Defined.

Lemma tenants_isolated_witness :
  rows_of 1 (db (do_operation (DoRevokeKey 2 "AQID") agent_state).2) = rows_of 1 (db agent_state).
Proof. apply (tenants_isolated (DoRevokeKey 2 "AQID") 2 1); [reflexivity|lia]. Defined.

End samples.
