(* ===== verification/Login.v ===== *)
(** * Signing in over HTTP (auth/http.go, auth/oauth.go)

    A request is what the handlers read of it: its cookies, two headers, path
    and query values, and the JSON body as the decoder left it in the handler's
    struct. A response is its status, its body and the cookies it sets. The
    OAuth provider's answers (golang.org/x/oauth2 and the provider's JSON) are
    the class [Provider]. *)
From S2P Require Import Prelude GoStrings GoNum GoTime Store.

Open Scope string_scope.
Open Scope list_scope.

Record request : Type := mkRequest {
  cookies : list (string * string); authorization : string; x_api_key : string;
  path_value : string → string; query_value : string → string }.

Inductive same_site : Type := Lax | SameSiteNone | SameSiteDefault.
Record cookie : Type := mkCookie {
  c_name : string; c_value : string; c_http_only : bool; c_secure : bool; c_same_site : same_site;
  c_max_age : Z; c_expires : option Z }.

Inductive body : Type :=
| JError (message : string)
| JUser (u : option User)
| JStatus (status : string)
| JProviders (github google signup : bool)
| JKeys (keys : list KeyInfo)
| JKey (secret : string) (info : KeyInfo)
| Text (message : string)
| Redirect (url : string)
| Next (u : User).

Record response : Type := mkResponse { status : Z; sent : body; set_cookies : list cookie }.

Class Provider := {
  (** oauth2's AuthCodeURL and Exchange. *)
  auth_code_url : string → string → string;
  exchange : string → string → option string;
  (** The provider's answers for a token: id and e-mail; all e-mails, with which
      one is primary; Google's subject and e-mail. *)
  github_user : string → option (Z * string);
  github_emails : string → option (list (string * bool));
  google_user : string → option (string * string)
}.

Section http.
Context {O : Outside} {Pr : Provider} (cfg : Config).

Definition cookieName : string := "odb_session".
Definition stateCookie : string := "odb_oauth_state".

(** r.Cookie: the first cookie of that name. *)
Definition request_cookie (r : request) (name : string) : option string :=
  snd <$> List.find (λ c, String.eqb (fst c) name) (cookies r).

Definition session_cookie (tok : string) (expires : Z) : cookie :=
  let secure := HasPrefix (WebOrigin cfg) "https" in
  mkCookie cookieName tok true secure
    (if secure && negb (String.eqb (WebOrigin cfg) (PublicURL cfg)) then SameSiteNone else Lax) 0 (Some expires).

Definition setCookie (tok : string) : op cookie := exp ← unix_in sessionTTL; mret (session_cookie tok exp).

Definition clearCookie : cookie := mkCookie cookieName "" true false SameSiteDefault (-1) None.

(** The API key a request carries. *)
Definition request_key (r : request) : string :=
  let key := default "" (strip_prefix "Bearer " (authorization r)) in
  if String.eqb key "" then x_api_key r else key.

Definition by_session (r : request) : op (option User) :=
  match request_cookie r cookieName with
  | Some tok => if String.eqb tok "" then mret None else userBySession tok
  | None => mret None
  end.

Definition by_key (r : request) : op (option User) :=
  let key := request_key r in
  if String.eqb key "" then mret None else
  v ← VerifyKey key;
  mret (match v with
        | Some (u, scope) => if String.eqb scope "" then Some u else None
        | None => None
        end).

Definition userFromRequest (r : request) : op (option User) :=
  u ← by_session r;
  match u with Some u => mret (Some u) | None => by_key r end.

Definition reply_json (code : Z) (b : body) : op response := mret (mkResponse code b []).

Definition Authn (next : User → request → op response) (r : request) : op response :=
  u ← userFromRequest r;
  match u with
  | None => reply_json 401 (JError "authentication required")
  | Some u => next u r
  end.

(** The text an error is reported with. *)
Definition error_text (e : store_error) : string :=
  match e with Message m => m | NoRows => "sql: no rows in result set" | _ => "store error" end.

(** The account just signed in gets a session, whatever becomes of its row. *)
Definition signed_in (code : Z) (u : User) : op response :=
  t ← createSession (UserID u);
  c ← setCookie (fst t);
  mret (mkResponse code (JUser (Some u)) [c]).

Definition handleRegister (email password : string) : op response :=
  if negb (SignupOpen cfg) then reply_json 403 (JError "signups are closed") else
  if (String.length password <? 8)%nat then reply_json 400 (JError "password must be at least 8 characters") else
  u ← caught (CreateUser email password);
  match u with
  | inr e => reply_json 409 (JError (error_text e))
  | inl u => signed_in 201 u
  end.

Definition handleLogin (email password : string) : op response :=
  u ← caught (Login email password);
  match u with
  | inr _ => reply_json 401 (JError "invalid credentials")
  | inl u => signed_in 200 u
  end.

Definition handleLogout (r : request) : op response :=
  _ ← match request_cookie r cookieName with Some tok => deleteSession tok | None => mret tt end;
  mret (mkResponse 200 (JStatus "ok") [clearCookie]).

Definition handleMe (r : request) : op response := u ← userFromRequest r; reply_json 200 (JUser u).

Definition handleProviders : op response :=
  reply_json 200 (JProviders (app_enabled (GitHub cfg)) (app_enabled (Google cfg)) (SignupOpen cfg)).

Definition handleListKeys (u : User) (r : request) : op response :=
  keys ← option_of (ListKeys (UserID u)); reply_json 200 (JKeys (default [] keys)).

Definition handleCreateKey (u : User) (name : string) : op response :=
  k ← caught (CreateAPIKey (UserID u) name);
  match k with
  | inr e => reply_json 500 (JError (error_text e))
  | inl (secret, info) => reply_json 201 (JKey secret info)
  end.

Definition handleRevokeKey (u : User) (r : request) : op response :=
  _ ← dropped (RevokeKey (UserID u) (path_value r "id")); reply_json 200 (JStatus "revoked").

(** ** OAuth *)

Definition oauthConfig (provider : string) : bool :=
  if String.eqb provider "github" then app_enabled (GitHub cfg)
  else if String.eqb provider "google" then app_enabled (Google cfg) else false.

Definition http_error (code : Z) (message : string) : op response := mret (mkResponse code (Text message) []).

Definition handleOAuthStart (r : request) : op response :=
  let provider := path_value r "provider" in
  if negb (oauthConfig provider) then http_error 404 "provider not configured" else
  state ← randToken 12;
  mret (mkResponse 302 (Redirect (auth_code_url provider state))
    [mkCookie stateCookie state true false SameSiteDefault 600 None]).

(** The last address marked primary. *)
Definition primary_email (emails : list (string * bool)) : string :=
  foldl (λ acc e, if snd e : bool then fst e else acc) "" emails.

Definition fetchIdentity (provider tok : string) : option (string * string) :=
  if String.eqb provider "github" then
    match github_user tok with
    | None => None
    | Some (id, email) =>
        Some (format_int id,
          if String.eqb email "" then match github_emails tok with Some l => primary_email l | None => "" end else email)
    end
  else if String.eqb provider "google" then google_user tok else None.

Definition handleOAuthCallback (r : request) : op response :=
  let provider := path_value r "provider" in
  if negb (oauthConfig provider) then http_error 404 "provider not configured" else
  match request_cookie r stateCookie with
  | None => http_error 400 "bad oauth state"
  | Some st =>
      if negb (String.eqb (query_value r "state") st) then http_error 400 "bad oauth state" else
      match exchange provider (query_value r "code") with
      | None => http_error 400 "oauth exchange failed"
      | Some tok =>
          match fetchIdentity provider tok with
          | None => http_error 400 "could not read identity"
          | Some (subject, email) =>
              if String.eqb subject "" then http_error 400 "could not read identity" else
              u ← caught (upsertOAuth provider subject email);
              match u with
              | inr _ => http_error 500 "login failed"
              | inl u =>
                  t ← createSession (UserID u);
                  c ← setCookie (fst t);
                  mret (mkResponse 302 (Redirect (WebOrigin cfg +:+ "/dashboard")) [c])
              end
          end
      end
  end.

End http.

(** ** Who a request can be *)

(** What a request answered between the ticks [from] and [to_] must carry to act as [u]: a
    session of that account that has not expired by a reading of the clock made meanwhile,
    or a key of it that is limited to no branch. *)
Definition entitled `{Outside} (r : request) (u : User) (from to_ : nat) (d : tables) : Prop :=
  (∃ row k, row ∈ sessions d ∧ request_cookie r cookieName = Some (s_token row) ∧
     (from <= k < to_)%nat ∧ (now_ns k / second <= s_expires row)%Z ∧ account d (s_user row) u)
  ∨ (∃ row, row ∈ api_keys d ∧ k_hash row = hashKey (request_key r) ∧ request_key r ≠ "" ∧
     k_scope row = "" ∧ account d (k_user row) u).

Lemma by_session_users `{Outside} r s o s' :
  by_session r s = (o, s') → users (db s') = users (db s) ∧ api_keys (db s') = api_keys (db s).
Proof.
  intros Hrun. assert (keeps (λ d, users d = users (db s) ∧ api_keys d = api_keys (db s)) (by_session r)) as Hk.
  { unfold by_session, userBySession, deleteSession, delete_session, userByID, unix, unix_in. keeps_go. }
  specialize (Hk s). cbn beta in Hk. rewrite Hrun in Hk. destruct o; by apply Hk.
Qed.

(** C17. Authentication is sound: a request acts as an account only with that
    account's session cookie, unexpired by the clock as this very request reads it, or
    with one of its unscoped API keys. A key limited to a branch, an expired session, an unknown token or an empty
    one authenticates nothing, whatever fails in the store. *)
Theorem userFromRequest_sound `{Outside} r s u s' :
  userFromRequest r s = (Ok (Some u), s') → entitled r u (tick s) (tick s') (db s).
Proof.
  unfold userFromRequest. intros (v & s1 & Hsession & Hrun)%op_bind_ok.
  destruct v as [v|].
  - unfold mret, op_ret in Hrun. injection Hrun as -> <-. left. unfold by_session in Hsession.
    destruct (request_cookie r cookieName) as [tok|]; [|by unfold mret, op_ret in Hsession].
    destruct (String.eqb tok ""); [by unfold mret, op_ret in Hsession|].
    apply userBySession_sound in Hsession as (row & k & Hin & <- & Hrest). by exists row, k.
  - right. apply by_session_users in Hsession as [Husers Hkeys]. unfold by_key in Hrun. cbv zeta in Hrun.
    destruct (String.eqb (request_key r) "") eqn:Hkey; [by unfold mret, op_ret in Hrun|].
    apply op_bind_ok in Hrun as ([[v scope]|] & s2 & Hv & Hrun); unfold mret, op_ret in Hrun; [|done].
    destruct (String.eqb scope "") eqn:Hscope; [|done]. injection Hrun as -> _.
    apply VerifyKey_sound in Hv as (row & Hrow & -> & Hacc). apply List.find_some in Hrow as [Hin Hhash].
    exists row. rewrite Hkeys in Hin. unfold account in *. rewrite Husers in Hacc.
    split; [by apply list_elem_of_In|]. split; [by apply String.eqb_eq|]. split; [by apply String.eqb_neq|].
    split; [by apply String.eqb_eq|done].
Qed.

(** The OAuth callback signs nobody in unless the request carries the state
    cookie with the very state of the redirect, the provider is configured and
    vouches for a subject; otherwise it answers with an error, sets no cookie
    and leaves the store as it was. *)
Theorem handleOAuthCallback_guarded `{Outside} `{Provider} cfg r s :
  let provider := path_value r "provider" in
  (oauthConfig cfg provider = true ∧ request_cookie r stateCookie = Some (query_value r "state")
   ∧ ∃ tok subject email, exchange provider (query_value r "code") = Some tok
     ∧ fetchIdentity provider tok = Some (subject, email) ∧ subject ≠ "")
  ∨ (∃ code message, handleOAuthCallback cfg r s = (Ok (mkResponse code (Text message) []), s) ∧ (400 <= code)%Z).
Proof.
  intros provider. unfold handleOAuthCallback, http_error, mret, op_ret. fold provider. cbv zeta.
  destruct (oauthConfig cfg provider) eqn:Hcfg; cbn [negb]; [|right; eexists _, _; split; [reflexivity|lia]].
  destruct (request_cookie r stateCookie) as [st|] eqn:Hst; [|right; eexists _, _; split; [reflexivity|lia]].
  destruct (String.eqb (query_value r "state") st) eqn:Heq; cbn [negb];
    [apply String.eqb_eq in Heq as <-|right; eexists _, _; split; [reflexivity|lia]].
  destruct (exchange _ _) as [tok|] eqn:Htok; [|right; eexists _, _; split; [reflexivity|lia]].
  destruct (fetchIdentity _ _) as [[subject email]|] eqn:Hid; [|right; eexists _, _; split; [reflexivity|lia]].
  destruct (String.eqb subject "") eqn:Hsub; [right; eexists _, _; split; [reflexivity|lia]|].
  left. split; [done|]. split; [done|]. exists tok, subject, email. split; [done|]. split; [done|].
  by apply String.eqb_neq.
Qed.

Section samples.
#[local] Existing Instance sample_outside.

Definition key_request : request := mkRequest [("odb_session", "nothing")] "" sample_secret (λ _, "") (λ _, "").
Definition account_state : state := do_operations [DoCreateKey 1 "laptop" ""] sample_state.

Lemma userFromRequest_sound_witness :
  entitled key_request (mkUser 1 "ann@example.com") (tick account_state) (tick (userFromRequest key_request account_state).2) (db account_state).
Proof.
  apply (userFromRequest_sound key_request account_state _ (userFromRequest key_request account_state).2).
  vm_compute. reflexivity.
Defined.

End samples.
