(* ===== verification/Json.v ===== *)
(** * JSON as encoding/json reads it

    The value a text denotes, or none where the decoder reports a syntax error;
    numbers keep their literal. Strings are decoded with their escapes; bytes
    outside ASCII are kept as they are (the decoder replaces only what is not
    UTF-8). Then the decoding of the few Go types the structs here hold: a JSON
    null leaves a field alone, a value of another type is an error, and keys
    match a field without regard to ASCII case, the last one winning. *)
From S2P Require Import Prelude GoStrings GoNum GoRunes.

Open Scope string_scope.
Open Scope list_scope.

#[warnings="-register-all"]
Inductive json : Type :=
| JNull
| JBool (b : bool)
| JNum (literal : string)
| JStr (s : string)
| JArr (l : list json)
| JObj (l : list (string * json)).

Definition json_space (c : ascii) : bool :=
  Ascii.eqb c " " || Ascii.eqb c nl || Ascii.eqb c tab || Ascii.eqb c "013".
Definition skip_ws (l : list ascii) : list ascii := drop_while json_space l.

Fixpoint take_digits (l : list ascii) : list ascii * list ascii :=
  match l with
  | c :: t => if is_digit c then let '(d, r) := take_digits t in (c :: d, r) else ([], l)
  | [] => ([], [])
  end.

(** The sign, the integer part, the fraction and the exponent of a number. *)
Definition take_int (l : list ascii) : option (list ascii * list ascii) :=
  match l with
  | "0"%char :: t => Some (["0"%char], t)
  | _ => match take_digits l with ([], _) => None | r => Some r end
  end.
Definition take_frac (l : list ascii) : option (list ascii * list ascii) :=
  match l with
  | "."%char :: t => match take_digits t with ([], _) => None | (d, r) => Some ("."%char :: d, r) end
  | _ => Some ([], l)
  end.
Definition is_exp (c : ascii) : bool := Ascii.eqb c "e" || Ascii.eqb c "E".
Definition is_sign (c : ascii) : bool := Ascii.eqb c "+" || Ascii.eqb c "-".
Definition take_exp (l : list ascii) : option (list ascii * list ascii) :=
  match l with
  | c :: t =>
      if negb (is_exp c) then Some ([], l) else
      let '(sign, u) := match t with s :: u => if is_sign s then ([s], u) else ([], t) | [] => ([], t) end in
      match take_digits u with ([], _) => None | (d, r) => Some (c :: sign ++ d, r) end
  | [] => Some ([], [])
  end.
Definition take_number (l : list ascii) : option (string * list ascii) :=
  let '(neg, l1) := match l with "-"%char :: t => (["-"%char], t) | _ => ([], l) end in
  '(i, l2) ← take_int l1; '(f, l3) ← take_frac l2; '(e, l4) ← take_exp l3;
  Some (of_bytes (neg ++ i ++ f ++ e), l4).

Definition hex4 (a b c d : ascii) : option N :=
  a ← hex_val a; b ← hex_val b; c ← hex_val c; d ← hex_val d; Some (a * 4096 + b * 256 + c * 16 + d)%N.

Definition high_surrogate (n : N) : bool := ((0xD800 <=? n) && (n <? 0xDC00))%N.
Definition low_surrogate (n : N) : bool := ((0xDC00 <=? n) && (n <? 0xE000))%N.

Definition simple_escape (c : ascii) : option ascii :=
  if Ascii.eqb c dquote then Some dquote else
  if Ascii.eqb c "\" then Some "\"%char else
  if Ascii.eqb c "/" then Some "/"%char else
  if Ascii.eqb c "b" then Some "008"%char else
  if Ascii.eqb c "f" then Some "012"%char else
  if Ascii.eqb c "n" then Some nl else
  if Ascii.eqb c "r" then Some "013"%char else
  if Ascii.eqb c "t" then Some tab else None.

(** The rest of a string literal, after its opening quote. [pending] is a high
    surrogate waiting for its partner. *)
Definition flush_surrogate (pending : option N) : list ascii := match pending with Some _ => utf8 0xFFFD | None => [] end.
Definition escaped_unit (pending : option N) (n : N) : list ascii * option N :=
  match pending with
  | Some h => if low_surrogate n then (utf8 (0x10000 + (h - 0xD800) * 1024 + (n - 0xDC00))%N, None)
              else if high_surrogate n then (utf8 0xFFFD, Some n)
              else (utf8 0xFFFD ++ utf8 n, None)
  | None => if high_surrogate n then ([], Some n) else if low_surrogate n then (utf8 0xFFFD, None) else (utf8 n, None)
  end.

Fixpoint take_string (pending : option N) (l : list ascii) : option (list ascii * list ascii) :=
  match l with
  | [] => None
  | c :: t =>
      if Ascii.eqb c dquote then Some (flush_surrogate pending, t) else
      if Ascii.eqb c "\" then
        match t with
        | "u"%char :: a :: b :: x :: y :: u =>
            n ← hex4 a b x y;
            let '(out, p) := escaped_unit pending n in
            '(s, r) ← take_string p u; Some (out ++ s, r)
        | e :: u => v ← simple_escape e; '(s, r) ← take_string None u; Some (flush_surrogate pending ++ v :: s, r)
        | [] => None
        end
      else if (byte_val c <? 32)%Z then None
      else '(s, r) ← take_string None t; Some (flush_surrogate pending ++ c :: s, r)
  end.

Fixpoint take_word (w l : list ascii) : option (list ascii) :=
  match w, l with
  | [], _ => Some l
  | c :: w, d :: l => if Ascii.eqb c d then take_word w l else None
  | _ :: _, [] => None
  end.

(** Each nested value is shorter than what it stands in, so the text's length is
    fuel enough; deeper than 10000 values is an error of the decoder's. *)
Fixpoint take_value (fuel : nat) (depth : N) (l : list ascii) : option (json * list ascii) :=
  match fuel with
  | O => None
  | S fuel =>
      match skip_ws l with
      | "{"%char :: t =>
          if (10000 <=? depth)%N then None else
          match skip_ws t with
          | "}"%char :: r => Some (JObj [], r)
          | _ => '(m, r) ← take_members fuel (N.succ depth) t; Some (JObj m, r)
          end
      | "["%char :: t =>
          if (10000 <=? depth)%N then None else
          match skip_ws t with
          | "]"%char :: r => Some (JArr [], r)
          | _ => '(m, r) ← take_elements fuel (N.succ depth) t; Some (JArr m, r)
          end
      | "t"%char :: t => r ← take_word ["r"; "u"; "e"]%char t; Some (JBool true, r)
      | "f"%char :: t => r ← take_word ["a"; "l"; "s"; "e"]%char t; Some (JBool false, r)
      | "n"%char :: t => r ← take_word ["u"; "l"; "l"]%char t; Some (JNull, r)
      | c :: t =>
          if Ascii.eqb c dquote then '(s, r) ← take_string None t; Some (JStr (of_bytes s), r)
          else '(n, r) ← take_number (c :: t); Some (JNum n, r)
      | [] => None
      end
  end
with take_members (fuel : nat) (depth : N) (l : list ascii) : option (list (string * json) * list ascii) :=
  match fuel with
  | O => None
  | S fuel =>
      match skip_ws l with
      | c :: t =>
          if negb (Ascii.eqb c dquote) then None else
          '(k, r) ← take_string None t;
          match skip_ws r with
          | ":"%char :: r =>
              '(v, r) ← take_value fuel depth r;
              match skip_ws r with
              | ","%char :: r => '(m, r) ← take_members fuel depth r; Some ((of_bytes k, v) :: m, r)
              | "}"%char :: r => Some ([(of_bytes k, v)], r)
              | _ => None
              end
          | _ => None
          end
      | [] => None
      end
  end
with take_elements (fuel : nat) (depth : N) (l : list ascii) : option (list json * list ascii) :=
  match fuel with
  | O => None
  | S fuel =>
      '(v, r) ← take_value fuel depth l;
      match skip_ws r with
      | ","%char :: r => '(m, r) ← take_elements fuel depth r; Some (v :: m, r)
      | "]"%char :: r => Some ([v], r)
      | _ => None
      end
  end.

(** The one value a text holds, with nothing but blanks around it. *)
Definition json_parse (s : string) : option json :=
  let l := to_bytes s in
  '(v, r) ← take_value (S (2 * List.length l)) 0 l;
  match skip_ws r with [] => Some v | _ => None end.

(** json.NewDecoder(r).Decode: the first value of a text. After a literal only a blank
    may follow; after an object or an array anything. *)
Definition json_first (s : string) : option json :=
  let l := to_bytes s in
  '(v, r) ← take_value (S (2 * List.length l)) 0 l;
  match v, r with
  | JObj _, _ | JArr _, _ | JStr _, _ => Some v
  | _, [] => Some v
  | _, c :: _ => if json_space c then Some v else None
  end.

(** The members of an object with the text each value is written in (json.RawMessage). *)
Fixpoint raw_members (fuel : nat) (l : list ascii) : option (list (string * (json * string))) :=
  match fuel with
  | O => None
  | S fuel =>
      match skip_ws l with
      | c :: t =>
          if negb (Ascii.eqb c dquote) then None else
          '(k, r) ← take_string None t;
          match skip_ws r with
          | ":"%char :: r =>
              let v := skip_ws r in
              '(j, r) ← take_value (S (2 * List.length v)) 1 v;
              let raw := of_bytes (take (List.length v - List.length r) v) in
              match skip_ws r with
              | ","%char :: r => m ← raw_members fuel r; Some ((of_bytes k, (j, raw)) :: m)
              | "}"%char :: _ => Some [(of_bytes k, (j, raw))]
              | _ => None
              end
          | _ => None
          end
      | [] => None
      end
  end.
Definition raw_object (s : string) : list (string * (json * string)) :=
  match skip_ws (to_bytes s) with
  | "{"%char :: t => default [] (raw_members (S (String.length s)) t)
  | _ => []
  end.

(** ** Decoding into Go values *)

(** Every value given for a field, in order. *)
Definition field_values (name : string) (m : list (string * json)) : list json :=
  snd <$> filter (λ kv, EqualFold (fst kv) name = true) m.

(** The field after decoding, from what it held before. *)
Fixpoint decode_field {A} (decode : json → option A) (before : A) (l : list json) : option A :=
  match l with
  | [] => Some before
  | JNull :: t => decode_field decode before t
  | v :: t => a ← decode v; decode_field decode a t
  end.

Definition field {A} (decode : json → option A) (before : A) (name : string) (m : list (string * json)) : option A :=
  decode_field decode before (field_values name m).

Definition as_bool (j : json) : option bool := match j with JBool b => Some b | _ => None end.
Definition as_string (j : json) : option string := match j with JStr s => Some s | _ => None end.
Definition as_int (j : json) : option Z := match j with JNum l => atoi l | _ => None end.
Definition as_list {A} (decode : json → option A) (j : json) : option (list A) :=
  match j with JArr l => mapM decode l | _ => None end.
(** A struct: null leaves it zero. *)
Definition as_object (j : json) : option (list (string * json)) :=
  match j with JObj m => Some m | JNull => Some [] | _ => None end.

(** Decoding whose error is thrown away: a value of another type leaves its field
    alone, and the other fields are set all the same. *)
Definition lenient {A} (decode : json → option A) (before : A) (name : string) (m : list (string * json)) : A :=
  foldl (λ a v, match v with JNull => a | _ => default a (decode v) end) before (field_values name m).
Definition lenient_object (j : option json) : list (string * json) := match j with Some (JObj m) => m | _ => [] end.

(** A pointer: null is no value. *)
Fixpoint decode_pointer {A} (decode : json → option A) (before : option A) (l : list json) : option (option A) :=
  match l with
  | [] => Some before
  | JNull :: t => decode_pointer decode None t
  | v :: t => a ← decode v; decode_pointer decode (Some a) t
  end.
Definition pointer {A} (decode : json → option A) (name : string) (m : list (string * json)) : option (option A) :=
  decode_pointer decode None (field_values name m).

(** ** Writing strings, with the HTML escapes json.Marshal adds *)

Definition hex_lower (n : N) : ascii := ascii_of_N (if n <? 10 then 48 + n else 87 + n)%N.
Definition json_escape (c : ascii) : string :=
  if Ascii.eqb c dquote then String "\" (str1 dquote)
  else if Ascii.eqb c "\" then "\\"
  else if Ascii.eqb c nl then "\n" else if Ascii.eqb c tab then "\t" else if Ascii.eqb c "013" then "\r"
  else if Ascii.eqb c "008" then "\b" else if Ascii.eqb c "012" then "\f"
  else if (byte_val c <? 32)%Z || Ascii.eqb c "<" || Ascii.eqb c ">" || Ascii.eqb c "&"
  then "\u00" +:+ str1 (hex_lower (N_of_ascii c / 16)) +:+ str1 (hex_lower (N_of_ascii c mod 16))
  else str1 c.
(** One character: the line and paragraph separators are escaped, and a byte that
    starts no well-formed character becomes the replacement character. *)
Definition json_chunk (c : rune * list ascii) : string :=
  if ill_formed c then "\ufffd"
  else if (c.1 =? 0x2028)%N then "\u2028" else if (c.1 =? 0x2029)%N then "\u2029"
  else match c.2 with [b] => json_escape b | l => of_bytes l end.
Definition json_string (s : string) : string :=
  str1 dquote +:+ foldr (λ c t, json_chunk c +:+ t) EmptyString (chunks (to_bytes s)) +:+ str1 dquote.
#[global] Arguments json_string : simpl never.

(** json.MarshalIndent of a flat object, by two blanks: its fields with their texts. *)
Definition json_indent (fields : list (string * string)) : string :=
  "{" +:+ str1 nl +:+ Join ("," +:+ str1 nl) ((λ kv, "  " +:+ json_string kv.1 +:+ ": " +:+ kv.2) <$> fields) +:+ str1 nl +:+ "}".

(** ** Lemmas: what is written is read back *)

Lemma take_string_plain c l :
  (32 <= byte_val c)%Z → c ≠ dquote → c ≠ "\"%char →
  take_string None (c :: l) = '(s, r) ← take_string None l; Some (c :: s, r).
Proof.
  intros Hc Hq Hb. cbn [take_string]. rewrite (proj2 (Ascii.eqb_neq c dquote)), (proj2 (Ascii.eqb_neq c "\")) by done.
  by rewrite (proj2 (Z.ltb_ge _ _)).
Qed.

Lemma take_string_escape b l :
  (N_of_ascii b < 0x80)%N →
  take_string None (to_bytes (json_escape b) ++ l) = '(s, r) ← take_string None l; Some (b :: s, r).
Proof.
  intros Hb. destruct (decide (b = dquote ∨ b = "\"%char ∨ b = "<"%char ∨ b = ">"%char ∨ b = "&"%char ∨ (byte_val b < 32)%Z)) as [Hs|Hs].
  - assert (∀ x y, take_string None (to_bytes x ++ l) = y → json_escape b = x → take_string None (to_bytes (json_escape b) ++ l) = y)
      as Hcase by (by intros x y H ->).
    destruct b as [[] [] [] [] [] [] [] []]; try (vm_compute in Hb; discriminate);
      try (exfalso; clear -Hs; revert Hs; vm_compute; intuition discriminate); reflexivity.
  - assert (json_escape b = str1 b) as ->.
    { destruct b as [[] [] [] [] [] [] [] []]; try reflexivity; exfalso; apply Hs; vm_compute; tauto. }
    apply take_string_plain; [lia| |]; intros ->; apply Hs; tauto.
Qed.

Lemma utf8_high n : scalar n = true → (0x80 <= n)%N → Forall (λ c, (0x80 <= N_of_ascii c)%N) (utf8 n) ∧ (2 <= List.length (utf8 n))%nat.
Proof.
  intros Hs Hn. pose proof (base64_digits n) as (E1 & B1 & E2 & B2 & E3 & B3).
  assert (n <= 0x10FFFF)%N as Hmax.
  { unfold scalar in Hs. apply orb_true_iff in Hs as [H|H]; [apply N.ltb_lt in H; lia|apply within_spec in H; lia]. }
  unfold utf8. rewrite (proj2 (N.ltb_ge n 0x80)) by done.
  set (q1 := (n / 64)%N) in *. set (r1 := (n mod 64)%N) in *. set (q2 := (n / 4096)%N) in *.
  set (r2 := (q1 mod 64)%N) in *. set (q3 := (n / 262144)%N) in *. set (r3 := (q2 mod 64)%N) in *.
  clearbody r1 r2 r3 q1 q2 q3.
  destruct (N.ltb_spec n 0x800); [|destruct (N.ltb_spec n 0x10000)]; (split; [|cbn; lia]);
    repeat constructor; rewrite N_of_ascii_mod; lia.
Qed.

Lemma take_string_high bs l :
  Forall (λ c, (0x80 <= N_of_ascii c)%N) bs →
  take_string None (bs ++ l) = '(s, r) ← take_string None l; Some (bs ++ s, r).
Proof.
  induction 1 as [|c bs Hc _ IH]; cbn [app]; [by destruct (take_string None l) as [[s r]|]|].
  rewrite take_string_plain, IH; [by destruct (take_string None l) as [[s r]|]| | |].
  - unfold byte_val. lia.
  - intros ->. vm_compute in Hc. done.
  - intros ->. vm_compute in Hc. done.
Qed.

(** A character, as it is written, reads as its bytes. *)
Lemma take_string_chunk c l : proper c → ill_formed c = false →
  take_string None (to_bytes (json_chunk c) ++ l) = '(s, r) ← take_string None l; Some (c.2 ++ s, r).
Proof.
  intros [Hp|[Hs Hu]] Hf; [congruence|]. destruct c as [n bs]. cbn in Hs, Hu. subst bs. unfold json_chunk. rewrite Hf. cbn [fst snd].
  destruct (N.eqb_spec n 0x2028) as [->|_]; [by destruct l|].
  destruct (N.eqb_spec n 0x2029) as [->|_]; [by destruct l|].
  destruct (N.ltb_spec n 0x80) as [Hn|Hn].
  - unfold utf8. rewrite (proj2 (N.ltb_lt _ _) Hn). apply take_string_escape. rewrite N_of_ascii_mod; lia.
  - destruct (utf8_high n Hs Hn) as [Hh Hlen]. destruct (utf8 n) as [|b [|b' u]]; [cbn in Hlen; lia..|].
    rewrite to_of_bytes. by apply take_string_high.
Qed.

Lemma take_string_written cs l :
  Forall proper cs → forallb (λ c, negb (ill_formed c)) cs = true →
  take_string None (to_bytes (foldr (λ c t, json_chunk c +:+ t) EmptyString cs) ++ dquote :: l) = Some (mjoin cs.*2, l).
Proof.
  induction 1 as [|c cs Hc _ IH]; [done|]. cbn [forallb foldr]. intros [Hf%negb_true_iff Hcs]%andb_true_iff.
  rewrite to_bytes_app, <- app_assoc, take_string_chunk, IH by done. done.
Qed.

(** After its opening quote, a string that was written reads back as itself, for
    well-formed text. *)
Lemma json_string_read s l : well_formed s = true →
  ∃ t, to_bytes (json_string s) = dquote :: t ∧ take_string None (t ++ l) = Some (to_bytes s, l).
Proof.
  intros Hs. set (cs := chunks (to_bytes s)). set (body := foldr (λ c t, json_chunk c +:+ t) EmptyString cs).
  exists (to_bytes body ++ [dquote]). split.
  - unfold json_string. fold cs body. by rewrite !to_bytes_app.
  - rewrite <- app_assoc. cbn [app]. unfold body. rewrite (take_string_written cs l (chunks_proper _) Hs).
    unfold cs. by rewrite chunks_bytes.
Qed.

(** Two texts that start with written strings and agree have the same strings. *)
Lemma json_string_inj a b l k : well_formed a = true → well_formed b = true →
  json_string a +:+ l = json_string b +:+ k → a = b ∧ l = k.
Proof.
  intros Ha Hb Heq. destruct (json_string_read a (to_bytes l) Ha) as (t & Ht & Hta).
  destruct (json_string_read b (to_bytes k) Hb) as (u & Hu & Hub).
  apply (f_equal to_bytes) in Heq. rewrite !to_bytes_app, Ht, Hu in Heq. cbn in Heq. apply cons_inv in Heq as [_ Heq].
  rewrite Heq, Hub in Hta. injection Hta as H1 H2. split.
  - by rewrite <- (of_to_bytes a), <- (of_to_bytes b), H1.
  - by rewrite <- (of_to_bytes l), <- (of_to_bytes k), H2.
Qed.
