(* ===== verification/JsonText.v ===== *)
(** * JSON that is written and read back

    What the marshallers write of flat objects (strings, integers, null and truth values,
    in any layout) is what the decoder reads. *)
From S2P Require Import Prelude GoStrings GoNum GoRunes Json.
Open Scope list_scope.

(** ** Numbers *)

Lemma format_go_head fuel n acc : (0 < n)%N → (n < 10 ^ N.of_nat fuel)%N →
  ∃ c t, format_go fuel n acc = String c t ∧ c ≠ "0"%char ∧ is_digit c = true.
Proof.
  revert n acc. induction fuel as [|f IH]; intros n acc Hn Hf.
  { change (10 ^ N.of_nat 0)%N with 1%N in Hf. lia. }
  cbn [format_go]. destruct (N.ltb_spec n 10) as [Hlt|Hge].
  - exists (digit_char n), acc. split; [done|]. split; [|by apply is_digit_char].
    intros H. apply (f_equal digit_val) in H. rewrite digit_val_char in H by done. vm_compute in H. lia.
  - apply IH; [apply N.div_str_pos; lia|]. rewrite Nat2N.inj_succ, N.pow_succ_r' in Hf. apply N.Div0.div_lt_upper_bound. lia.
Qed.

(** Digits with no leading zero, or a single zero. *)
Lemma format_N_shape n : format_N n = "0"%string ∨ ∃ c t, format_N n = String c t ∧ c ≠ "0"%char ∧ is_digit c = true ∧ all_digits t = true.
Proof.
  destruct (decide (n = 0)%N) as [->|Hn]; [by left|]. right. pose proof (format_N_digits n) as Hd. unfold format_N in *.
  destruct (format_go_head (S (N.size_nat n)) n EmptyString) as (c & t & Hf & Hc & Hdc); [lia|apply size_pow10|].
  exists c, t. rewrite Hf in Hd. unfold all_digits in Hd. cbn in Hd. apply andb_true_iff in Hd as [_ Hd]. done.
Qed.

(** What ends a number. *)
Definition stops (l : list ascii) : bool :=
  match l with c :: _ => negb (is_digit c || Ascii.eqb c "." || is_exp c) | [] => true end.

Lemma take_digits_all t l : all_digits t = true → stops l = true → take_digits (to_bytes t ++ l) = (to_bytes t, l).
Proof.
  intros Ht Hl. induction t as [|c t IH]; cbn.
  - destruct l as [|c l]; [done|]. cbn in Hl |- *. apply negb_true_iff in Hl. rewrite !orb_false_iff in Hl. destruct Hl as [[-> _] _]. done.
  - unfold all_digits in Ht. cbn in Ht. apply andb_true_iff in Ht as [Hc Ht]. rewrite Hc, IH by done. done.
Qed.

Lemma take_int_digits n l : stops l = true → take_int (to_bytes (format_N n) ++ l) = Some (to_bytes (format_N n), l).
Proof.
  intros Hl. destruct (format_N_shape n) as [->|(c & t & -> & Hc & Hd & Ht)]; [done|]. cbn [to_bytes app].
  pose proof (take_digits_all (String c t) l) as Ha. unfold all_digits in Ha. cbn in Ha. rewrite Hd in Ha. specialize (Ha Ht Hl).
  unfold take_int. cbn. rewrite Hd in *.
  destruct c as [[] [] [] [] [] [] [] []]; try done; cbn; by rewrite (take_digits_all t l).
Qed.

(** ** Values *)

(** A text that is read as a value, whatever follows it that ends a value. *)
Definition reads (t : string) (j : json) : Prop :=
  ∀ fuel depth l, stops l = true → take_value (S fuel) depth (to_bytes t ++ l) = Some (j, l).

Lemma reads_string s : well_formed s = true → reads (json_string s) (JStr s).
Proof.
  intros Hs fuel depth l _. destruct (json_string_read s l Hs) as (t & Ht & Hr). rewrite Ht. cbn [app take_value].
  change (skip_ws (dquote :: t ++ l)) with (dquote :: t ++ l). cbn. rewrite Hr. cbn. by rewrite of_to_bytes.
Qed.
Lemma reads_null : reads "null" JNull.
Proof. intros fuel depth l _. done. Qed.
Lemma reads_bool (b : bool) : reads (if b then "true" else "false")%string (JBool b).
Proof. intros fuel depth l _. by destruct b. Qed.

Lemma take_number_int z l : stops l = true → take_number (to_bytes (format_int z) ++ l) = Some (format_int z, l).
Proof.
  intros Hl. unfold take_number. assert (take_frac l = Some ([], l) ∧ take_exp l = Some ([], l)) as [Hf He].
  { destruct l as [|c l]; [done|]. cbn in Hl. apply negb_true_iff in Hl. rewrite !orb_false_iff in Hl. destruct Hl as [[_ Hdot] Hexp]. split.
    - destruct c as [[] [] [] [] [] [] [] []]; done.
    - cbn. by rewrite Hexp. }
  unfold format_int. destruct (z <? 0)%Z.
  - cbn [to_bytes String.append app]. rewrite take_int_digits by done. cbn. rewrite Hf. cbn. rewrite He. cbn. by rewrite app_nil_r, of_to_bytes.
  - destruct (format_N_head (Z.to_N z)) as (c & t & Ht & Hc).
    assert (match to_bytes (format_N (Z.to_N z)) ++ l with "-"%char :: t => (["-"%char], t) | _ => ([], to_bytes (format_N (Z.to_N z)) ++ l) end
            = ([], to_bytes (format_N (Z.to_N z)) ++ l)) as ->.
    { rewrite Ht. cbn. destruct c as [[] [] [] [] [] [] [] []]; done. }
    rewrite take_int_digits by done. cbn. rewrite Hf. cbn. rewrite He. cbn. by rewrite app_nil_r, of_to_bytes.
Qed.
Lemma reads_int z : reads (format_int z) (JNum (format_int z)).
Proof.
  intros fuel depth l Hl. assert (∃ c t, to_bytes (format_int z) = c :: t ∧ (is_digit c = true ∨ c = "-"%char)) as (c & t & Ht & Hc).
  { unfold format_int. destruct (z <? 0)%Z; [by eexists _, _; split; [|right]|]. destruct (format_N_head (Z.to_N z)) as (c & t & -> & Hc). by eexists _, _; split; [|left]. }
  pose proof (take_number_int z l Hl) as Hn. rewrite Ht in *. cbn [app] in *.
  assert (skip_ws (c :: t ++ l) = c :: t ++ l) as Hw by (destruct Hc as [Hc| ->]; [|done]; by destruct c as [[] [] [] [] [] [] [] []]).
  cbn [take_value]. rewrite Hw. destruct Hc as [Hc| ->]; [|by rewrite Hn].
  destruct c as [[] [] [] [] [] [] [] []]; try done; by rewrite Hn.
Qed.

(** ** Objects *)

Definition blank (w : string) : bool := forallb json_space (to_bytes w).
Lemma skip_blank w l : blank w = true → skip_ws (to_bytes w ++ l) = skip_ws l.
Proof.
  unfold blank, skip_ws. induction (to_bytes w) as [|c k IH]; [done|]. cbn. intros [Hc Hk]%andb_true_iff. rewrite Hc. by apply IH.
Qed.

(** A member: its name, its text and the value that is read from it. *)
Definition json_member : Type := string * (string * json).
Definition member_text (before colon : string) (m : json_member) : string := before +:+ json_string m.1 +:+ ":" +:+ colon +:+ m.2.1.
Definition good_member (m : json_member) : Prop := well_formed m.1 = true ∧ reads m.2.1 m.2.2.

(** The members and what closes the object. *)
Fixpoint members_text (before colon after : string) (m : json_member) (ms : list json_member) : string :=
  member_text before colon m +:+ match ms with [] => after +:+ "}" | m' :: ms' => "," +:+ members_text before colon after m' ms' end.
Definition member_value (m : json_member) : string * json := (m.1, m.2.2).

Lemma members_Join before colon after m ms :
  Join "," (member_text before colon <$> m :: ms) +:+ after +:+ "}" = members_text before colon after m ms.
Proof.
  revert m. induction ms as [|m' ms IH]; intros m; [done|]. cbn [members_text]. rewrite <-(IH m').
  change (Join "," (member_text before colon <$> m :: m' :: ms)) with (member_text before colon m +:+ "," +:+ Join "," (member_text before colon <$> m' :: ms)).
  by rewrite !sapp_assoc.
Qed.

Lemma stops_blank w c l : blank w = true → stops (c :: l) = true → stops (to_bytes w ++ c :: l) = true.
Proof.
  unfold blank. destruct w as [|d w]; [done|]. cbn. intros [Hd _]%andb_true_iff _. destruct d as [[] [] [] [] [] [] [] []]; done.
Qed.

Lemma take_value_blank w fuel depth l : blank w = true → take_value fuel depth (to_bytes w ++ l) = take_value fuel depth l.
Proof. intros Hw. destruct fuel as [|fuel]; [done|]. cbn [take_value]. by rewrite skip_blank. Qed.

(** A member, and what the decoder does after it. *)
Lemma take_members_step before colon m w c l fuel depth : blank before = true → blank colon = true → blank w = true → good_member m →
  stops (c :: l) = true → json_space c = false →
  take_members (S (S fuel)) depth (to_bytes (member_text before colon m) ++ to_bytes w ++ c :: l)
  = match c with
    | ","%char => '(r, l) ← take_members (S fuel) depth l; Some (member_value m :: r, l)
    | "}"%char => Some ([member_value m], l)
    | _ => None
    end.
Proof.
  intros Hb Hco Hw [Hk Ht] Hs Hc. destruct m as [k [t j]]. unfold member_text, member_value. cbn [fst snd] in *.
  rewrite !to_bytes_app, <-!app_assoc. destruct (json_string_read k (to_bytes ":" ++ to_bytes colon ++ to_bytes t ++ to_bytes w ++ c :: l) Hk) as (kt & Hkt & Hkr).
  rewrite Hkt. cbn [take_members app]. rewrite skip_blank by done.
  change (skip_ws (dquote :: kt ++ to_bytes ":" ++ to_bytes colon ++ to_bytes t ++ to_bytes w ++ c :: l))
    with (dquote :: kt ++ to_bytes ":" ++ to_bytes colon ++ to_bytes t ++ to_bytes w ++ c :: l).
  cbn [negb Ascii.eqb Bool.eqb dquote]. rewrite Hkr.
  change (to_bytes ":" ++ to_bytes colon ++ to_bytes t ++ to_bytes w ++ c :: l) with (":"%char :: to_bytes colon ++ to_bytes t ++ to_bytes w ++ c :: l).
  unfold mbind, option_bind. change (skip_ws (":"%char :: to_bytes colon ++ to_bytes t ++ to_bytes w ++ c :: l))
    with (":"%char :: to_bytes colon ++ to_bytes t ++ to_bytes w ++ c :: l). cbv iota.
  rewrite take_value_blank, Ht by (done || by apply stops_blank). rewrite skip_blank, of_to_bytes by done.
  assert (skip_ws (c :: l) = c :: l) as -> by (unfold skip_ws; cbn; by rewrite Hc).
  by destruct c as [[] [] [] [] [] [] [] []].
Qed.

Lemma take_members_read before colon after m ms l depth : blank before = true → blank colon = true → blank after = true →
  Forall good_member (m :: ms) → ∀ fuel, (List.length ms <= fuel)%nat →
  take_members (S (S fuel)) depth (to_bytes (members_text before colon after m ms) ++ l) = Some (member_value <$> m :: ms, l).
Proof.
  intros Hb Hco Ha Hms. revert m Hms. induction ms as [|m' ms IH]; intros m Hms fuel Hf; inversion Hms as [|? ? Hm Hms' Heq]; subst; cbn [members_text].
  - rewrite !to_bytes_app, <-!app_assoc. change (to_bytes "}" ++ l) with ("}"%char :: l). by rewrite take_members_step.
  - rewrite to_bytes_app, <-app_assoc. destruct fuel as [|fuel]; [cbn in Hf; lia|].
    pose proof (take_members_step before colon m "" ","%char (to_bytes (members_text before colon after m' ms) ++ l) (S fuel) depth Hb Hco eq_refl Hm eq_refl eq_refl) as Hs.
    cbn [to_bytes app] in Hs. rewrite to_bytes_app. cbn [to_bytes app]. rewrite Hs, IH; [done|done|]. cbn in Hf. lia.
Qed.

Lemma members_text_length before colon after m ms :
  (List.length ms + 1 <= List.length (to_bytes (members_text before colon after m ms)))%nat.
Proof.
  revert m. induction ms as [|m' ms IH]; intros m; cbn [members_text]; rewrite !to_bytes_app, !length_app; [cbn; lia|].
  specialize (IH m'). cbn [to_bytes List.length]. lia.
Qed.

Lemma members_text_head before colon after m ms l : blank before = true → good_member m →
  ∃ k, skip_ws (to_bytes (members_text before colon after m ms) ++ l) = dquote :: k.
Proof.
  intros Hb [Hk _]. assert (∃ r, members_text before colon after m ms = before +:+ json_string m.1 +:+ r) as [r ->].
  { destruct ms; cbn [members_text]; unfold member_text; eexists; rewrite !sapp_assoc; reflexivity. }
  rewrite !to_bytes_app, <-!app_assoc, skip_blank by done.
  destruct (json_string_read m.1 (to_bytes r ++ l) Hk) as (t & -> & _). by exists (t ++ to_bytes r ++ l).
Qed.

(** An object in any layout, parsed. *)
Lemma json_parse_object before colon after m ms trailing :
  blank before = true → blank colon = true → blank after = true → blank trailing = true → Forall good_member (m :: ms) →
  json_parse ("{" +:+ Join "," (member_text before colon <$> m :: ms) +:+ after +:+ "}" +:+ trailing) = Some (JObj (member_value <$> m :: ms)).
Proof.
  intros Hb Hco Ha Ht Hms. replace (Join "," (member_text before colon <$> m :: ms) +:+ after +:+ "}" +:+ trailing)
    with (members_text before colon after m ms +:+ trailing) by (by rewrite <-members_Join, !sapp_assoc).
  unfold json_parse. pose proof (members_text_length before colon after m ms) as Hlen.
  replace (to_bytes ("{" +:+ members_text before colon after m ms +:+ trailing))
    with ("{"%char :: to_bytes (members_text before colon after m ms) ++ to_bytes trailing) by (cbn [String.append to_bytes]; by rewrite <-to_bytes_app).
  cbn [List.length]. rewrite length_app.
  remember (2 * S (List.length (to_bytes (members_text before colon after m ms)) + List.length (to_bytes trailing)))%nat as n eqn:Hn.
  assert (∃ k, n = S (S k) ∧ (List.length ms <= k)%nat) as (k & -> & Hk) by (exists (n - 2)%nat; lia).
  pose proof (take_members_read before colon after m ms (to_bytes trailing) 1 Hb Hco Ha Hms k Hk) as Hr.
  destruct (members_text_head before colon after m ms (to_bytes trailing) Hb) as [x Hx]; [by inversion Hms|].
  assert (skip_ws (to_bytes trailing) = []) as Hend by (by rewrite <-(app_nil_r (to_bytes trailing)), skip_blank).
  assert (∀ t, skip_ws ("{"%char :: t) = "{"%char :: t) as Hopen by done.
  cbn [take_value]. rewrite Hopen. cbv iota. change (10000 <=? 0)%N with false. cbv iota. rewrite Hx. cbv iota.
  change (N.succ 0) with 1%N. unfold dquote. rewrite Hr. unfold mbind, option_bind. by rewrite Hend.
Qed.

Lemma Join_lines sep (l : list string) x :
  str1 nl +:+ Join (sep +:+ str1 nl) (x :: l) = Join sep (String.append (str1 nl) <$> x :: l).
Proof.
  revert x. induction l as [|y l IH]; intros x; [done|].
  change (Join (sep +:+ str1 nl) (x :: y :: l)) with (x +:+ (sep +:+ str1 nl) +:+ Join (sep +:+ str1 nl) (y :: l)).
  change (Join sep (String.append (str1 nl) <$> x :: y :: l)) with ((str1 nl +:+ x) +:+ sep +:+ Join sep (String.append (str1 nl) <$> y :: l)).
  by rewrite <-IH, !sapp_assoc.
Qed.

(** An object as MarshalIndent writes it, parsed. *)
Lemma json_indent_read m (ms : list json_member) trailing : Forall good_member (m :: ms) → blank trailing = true →
  json_parse (json_indent ((λ m, (m.1, m.2.1)) <$> m :: ms) +:+ trailing) = Some (JObj (member_value <$> m :: ms)).
Proof.
  intros Hms Ht. rewrite <-(json_parse_object (str1 nl +:+ "  ") " " (str1 nl) m ms trailing) by done. f_equal.
  unfold json_indent. rewrite !sapp_assoc. f_equal. rewrite <-(sapp_assoc (str1 nl) (Join _ _)).
  rewrite !fmap_cons, Join_lines. f_equal. f_equal. cbn [fmap list_fmap fst snd]. f_equal.
  rewrite <-!list_fmap_compose. apply list_fmap_ext. done.
Qed.
