(* ===== verification/Disk.v ===== *)
(** * A disk whose calls can fail

    The update code promises what is on disk at every moment, also between two calls
    and when one fails. A program runs on a disk (paths to files and directories) and
    goes through a list of disks; each system call can be refused by the machine, and a
    copy that is refused has got some of its bytes through. *)
From S2P Require Import Prelude GoStrings Effects.
Open Scope string_scope.
Open Scope list_scope.

(** ** Disks *)

(** A directory's entries by their path below it; a directory inside has no file. *)
Inductive node : Type :=
| File (content : string) (mode : Z)
| Dir (entries : gmap string (option (string * Z))).
Abbreviation disk := (gmap string node).

(** The calls, as the machine may refuse them. *)
Inductive call_kind : Type :=
| CStat (p : string) | COpen (p : string) | CCreate (p : string) | CWrite (p : string) | CClose (p : string) | CChmod (p : string)
| CRename (a b : string) | CRemove (p : string) | CRemoveAll (p : string) | CMkdir (p : string) | CTemp (dir : string) | CSudo.

Class Faults := { refuses : nat → call_kind → bool; gets_through : nat → nat }.

(** ** Programs on a disk *)

Record machine : Type := mkMachine { call_no : nat; files : disk }.

(** The result, the machine after it, and the disks gone through on the way. *)
Definition io (A : Type) : Type := machine → (A + error) * machine * list disk.

#[export] Instance io_ret : MRet io := λ A a s, (inl a, s, []).
#[export] Instance io_bind : MBind io := λ A B f m s,
  match m s with
  | (inl a, s', v) => let '(o, s'', w) := f a s' in (o, s'', v ++ w)
  | (inr e, s', v) => (inr e, s', v)
  end.
Definition io_fail {A} (e : error) : io A := λ s, (inr e, s, []).
Definition io_try {A} (m : io A) : io (A + error) := λ s,
  match m s with
  | (inl a, s', v) => (inl (inl a), s', v)
  | (inr e, s', v) => (inl (inr e), s', v)
  end.
(** [_ = f()]. *)
Definition io_drop {A} (m : io A) : io unit := _ ← io_try m; mret tt.
(** What is done about an error, which is then the result. *)
Definition io_on_error {A} (m : io A) (f : error → io A) : io A :=
  r ← io_try m; match r with inl a => mret a | inr e => f e end.
Definition io_wrap {A} (format : string) (args : list string) (m : io A) : io A :=
  io_on_error m (λ e, io_fail (Wrapf format args e)).

Section calls.
Context {F : Faults}.

Definition os_error : error := Errorf "os error" [].

(** One call: refused, failing on this disk, or done. *)
Definition syscall {A} (c : call_kind) (f : disk → option (A * disk)) : io A := λ s,
  let k := call_no s in
  if refuses k c then (inr os_error, mkMachine (S k) (files s), [])
  else match f (files s) with
       | Some (a, d) => (inl a, mkMachine (S k) d, [d])
       | None => (inr os_error, mkMachine (S k) (files s), [])
       end.

Definition stat (p : string) : io unit := syscall (CStat p) (λ d, match d !! p with Some _ => Some (tt, d) | None => None end).
Definition open_read (p : string) : io unit :=
  syscall (COpen p) (λ d, match d !! p with Some (File _ _) => Some (tt, d) | _ => None end).
(** O_WRONLY|O_CREATE|O_TRUNC: a file that is there keeps its mode. *)
Definition create (p : string) (mode : Z) : io unit :=
  syscall (CCreate p) (λ d, match d !! p with
                            | Some (Dir _) => None
                            | Some (File _ m) => Some (tt, <[p := File "" m]> d)
                            | None => Some (tt, <[p := File "" mode]> d)
                            end).
Definition set_content (p data : string) (d : disk) : disk :=
  match d !! p with Some (File _ m) => <[p := File data m]> d | _ => d end.
(** Writing to an open file: bit by bit, and not always to the end. *)
Definition write_into (data p : string) : io unit := λ s,
  let k := call_no s in
  let n := if refuses k (CWrite p) then Nat.min (gets_through k) (String.length data) else String.length data in
  let upto i := set_content p (substring 0 i data) (files s) in
  (if refuses k (CWrite p) then inr os_error else inl tt, mkMachine (S k) (upto n), upto <$> seq 0 (S n)).
(** io.Copy from an open file. *)
Definition copy_into (src p : string) : io unit := λ s,
  write_into (match files s !! src with Some (File c _) => c | _ => "" end) p s.
Definition close (p : string) : io unit := syscall (CClose p) (λ d, Some (tt, d)).
Definition chmod (p : string) (mode : Z) : io unit :=
  syscall (CChmod p) (λ d, match d !! p with
                           | Some (File c _) => Some (tt, <[p := File c mode]> d)
                           | Some (Dir _) => Some (tt, d)
                           | None => None
                           end).
Definition may_replace (a : node) (b : option node) : bool :=
  match a, b with
  | _, None => true
  | File _ _, Some (File _ _) => true
  | Dir _, Some (Dir es) => bool_decide (es = ∅)
  | _, _ => false
  end.
Definition rename (a b : string) : io unit :=
  syscall (CRename a b) (λ d, match d !! a with
                              | Some n => if String.eqb a b then Some (tt, d)
                                          else if may_replace n (d !! b) then Some (tt, <[b := n]> (delete a d)) else None
                              | None => None
                              end).
Definition unlink (p : string) : io unit :=
  syscall (CRemove p) (λ d, match d !! p with
                            | Some (File _ _) => Some (tt, delete p d)
                            | Some (Dir es) => if bool_decide (es = ∅) then Some (tt, delete p d) else None
                            | None => None
                            end).
(** Refused on the way, it has removed some entries. *)
Definition removeAll (p : string) : io unit := λ s,
  let k := call_no s in
  let some_gone es := Dir (list_to_map (drop (gets_through k) (map_to_list es))) in
  let d := match files s !! p with
           | Some (Dir es) => if refuses k (CRemoveAll p) then <[p := some_gone es]> (files s) else delete p (files s)
           | _ => if refuses k (CRemoveAll p) then files s else delete p (files s)
           end in
  (if refuses k (CRemoveAll p) then inr os_error else inl tt, mkMachine (S k) d, [d]).
(** Directories above a path are not part of the disk; one that is kept is made. *)
Definition mkdirAll (p : string) : io unit := syscall (CMkdir p) (λ d, Some (tt, d)).
Definition mkdirTree (p : string) : io unit :=
  syscall (CMkdir p) (λ d, match d !! p with
                           | Some (Dir _) => Some (tt, d)
                           | Some (File _ _) => None
                           | None => Some (tt, <[p := Dir ∅]> d)
                           end).
(** A temporary file of a fresh name, made and removed. *)
Definition create_temp (dir : string) : io unit := syscall (CTemp dir) (λ d, Some (tt, d)).

(** os.ReadFile and os.WriteFile. *)
Definition read_file (p : string) : io string :=
  syscall (COpen p) (λ d, match d !! p with Some (File c _) => Some (c, d) | _ => None end).
Definition write_file (p data : string) (mode : Z) : io unit :=
  _ ← create p mode;
  r ← io_try (write_into data p);
  c ← io_try (close p);
  match r, c with
  | inl _, inl _ => mret tt
  | inr e, _ | _, inr e => io_fail e
  end.

Definition io_exists (p : string) : io bool := r ← io_try (stat p); mret (match r with inl _ => true | inr _ => false end).

End calls.

(** What takes time but leaves the disk alone. *)
Definition moment {A} (f : nat → A) : io A := λ s, (inl (f (call_no s)), mkMachine (S (call_no s)) (files s), []).

(** ** What holds all along *)

(** From a disk with [P], every disk gone through has [I] and the result and the last
    disk have [Q]. *)
Definition along {A} (I P : disk → Prop) (m : io A) (Q : A + error → disk → Prop) : Prop :=
  ∀ k d, P d → match m (mkMachine k d) with (o, s, v) => Forall I v ∧ Q o (files s) end.

Lemma along_ret {A} (I P : disk → Prop) (a : A) (Q : A + error → disk → Prop) : (∀ d, P d → Q (inl a) d) → along I P (mret a) Q.
Proof. intros HQ k d Hd. by split; [|apply HQ]. Qed.
Lemma along_fail {A} (I P : disk → Prop) e (Q : A + error → disk → Prop) : (∀ d, P d → Q (inr e) d) → along I P (io_fail e) Q.
Proof. intros HQ k d Hd. by split; [|apply HQ]. Qed.

Lemma along_bind {A B} (I P : disk → Prop) (m : io A) (f : A → io B) R (Q : B + error → disk → Prop) :
  along I P m R → (∀ a, along I (R (inl a)) (f a) Q) → (∀ e d, R (inr e) d → Q (inr e) d) →
  along I P (m ≫= f) Q.
Proof.
  intros Hm Hf He k d Hd. specialize (Hm k d Hd). unfold mbind, io_bind.
  destruct (m _) as [[[a|e] [k' d']] v]; destruct Hm as [Hv HR]; cbn [files] in *; [|by auto].
  specialize (Hf a k' d' HR). destruct (f a _) as [[o s] w]. destruct Hf as [Hw HQ]. split; [by apply Forall_app|done].
Qed.

Lemma along_try {A} (I P : disk → Prop) (m : io A) R (Q : (A + error) + error → disk → Prop) :
  along I P m R → (∀ a d, R (inl a) d → Q (inl (inl a)) d) → (∀ e d, R (inr e) d → Q (inl (inr e)) d) →
  along I P (io_try m) Q.
Proof.
  intros Hm H1 H2 k d Hd. specialize (Hm k d Hd). unfold io_try.
  destruct (m _) as [[[a|e] s] v]; destruct Hm as [Hv HR]; cbn [files] in *; auto.
Qed.

(** A step whose result is known. *)
Lemma along_known {A B} (I P P' : disk → Prop) (m : io A) (f : A → io B) a Q :
  along I P m (λ r d, r = inl a ∧ P' d) → along I P' (f a) Q → along I P (m ≫= f) Q.
Proof.
  intros Hm Hf. apply (along_bind I P m f (λ r d, r = inl a ∧ P' d)); [done| |by intros e d []].
  intros b k d [[= ->] Hd]. by apply Hf.
Qed.
(** What is done about an error takes over from there. *)
Lemma along_recover {A} (I P : disk → Prop) (m : io A) f R (Q : A + error → disk → Prop) :
  along I P m R → (∀ a d, R (inl a) d → Q (inl a) d) → (∀ e, along I (R (inr e)) (f e) Q) → along I P (io_on_error m f) Q.
Proof.
  intros Hm Ha Hf. apply (along_bind I P _ _ (λ o d, match o with inl (inl a) => R (inl a) d | inl (inr e) => R (inr e) d | inr _ => False end)).
  - by eapply along_try; [exact Hm|..].
  - intros [a|e]; [by apply along_ret, Ha|apply Hf].
  - done.
Qed.

Lemma along_dropped {A} I P (x : io A) R :
  along I P x (λ _, R) → along I P (io_drop x) (λ o d, o = inl tt ∧ R d).
Proof.
  intros Hx. unfold io_drop. apply along_bind with (R := λ o d, match o with inl _ => R d | inr _ => False end); [|intros a; by apply along_ret|done].
  by eapply along_try; [exact Hx|..].
Qed.

Lemma along_weaken {A} (I I' P P' : disk → Prop) (m : io A) (Q Q' : A + error → disk → Prop) :
  along I' P' m Q' → (∀ d, I' d → I d) → (∀ d, P d → P' d) → (∀ o d, Q' o d → Q o d) → along I P m Q.
Proof.
  intros Hm HI HP HQ k d Hd. specialize (Hm k d (HP d Hd)). destruct (m _) as [[o s] v]. destruct Hm as [Hv Ho].
  split; [by eapply Forall_impl|by apply HQ].
Qed.

Lemma along_syscall `{Faults} {A} (I P : disk → Prop) c (f : disk → option (A * disk)) (Q : A + error → disk → Prop) :
  (∀ d, P d → Q (inr os_error) d) → (∀ d a d', P d → f d = Some (a, d') → I d' ∧ Q (inl a) d') → along I P (syscall c f) Q.
Proof.
  intros He Hf k d Hd. unfold syscall. cbn [call_no files]. destruct (refuses k c); [by split; [|apply He]|].
  destruct (f d) as [[a d']|] eqn:Hfd; [|by split; [|apply He]]. destruct (Hf d a d' Hd Hfd). split; [by constructor|done].
Qed.

Lemma along_moment {A} (I P : disk → Prop) (f : nat → A) : along I P (moment f) (λ o d, P d ∧ ∃ k, o = inl (f k)).
Proof. intros k d Hd. split; [constructor|]. by eauto. Qed.

(** ** What the calls leave alone *)

Section frames.
Context {F : Faults}.

Lemma upto_all (data : string) : substring 0 (String.length data) data = data.
Proof. induction data as [|c s IH]; [done|]. cbn. by rewrite IH. Qed.

(** A property that holds whatever file is at [p]. *)
Definition apart_from (p : string) (R : disk → Prop) : Prop := ∀ d c m, R d → R (<[p := File c m]> d).

(** A write to [p] touches nothing else. *)
Lemma along_write (R : disk → Prop) data p : apart_from p R →
  along R (λ d, R d ∧ ∃ m, d !! p = Some (File "" m)) (write_into data p)
    (λ o d, R d ∧ (∃ c m, d !! p = Some (File c m)) ∧ (o = inl tt → ∃ m, d !! p = Some (File data m))).
Proof.
  intros Hap k d [Hd (m & Hp)]. unfold write_into. cbn [call_no files].
  assert (∀ i, set_content p (substring 0 i data) d = <[p := File (substring 0 i data) m]> d) as Hset.
  { intros i. unfold set_content. by rewrite Hp. }
  split; [apply Forall_fmap, Forall_forall; intros i _; cbn; rewrite Hset; by apply Hap|]. rewrite Hset.
  split_and!; [by apply Hap|by eexists _, _; rewrite lookup_insert_eq|]. destruct (refuses k _); [done|]. intros _. rewrite upto_all.
  exists m. by rewrite lookup_insert_eq.
Qed.

(** A copy into [p] touches nothing else, and what is copied whole is the source. *)
Lemma along_copy (R : disk → Prop) src p : src ≠ p → apart_from p R →
  along R (λ d, R d ∧ ∃ c m m', d !! src = Some (File c m) ∧ d !! p = Some (File "" m')) (copy_into src p)
    (λ o d, R d ∧ (o = inl tt → ∃ c m m', d !! src = Some (File c m) ∧ d !! p = Some (File c m'))).
Proof.
  intros Hne Hap k d [Hd (c & m & m' & Hsrc & Hp)]. unfold copy_into. cbn [files]. rewrite Hsrc.
  pose proof (along_write (λ d, R d ∧ d !! src = Some (File c m)) c p) as Hw.
  specialize (Hw ltac:(intros ? ? ? [? ?]; split; [by apply Hap|by rewrite lookup_insert_ne]) k d (conj (conj Hd Hsrc) (ex_intro _ m' Hp))).
  destruct (write_into _ _ _) as [[o s] v]. destruct Hw as (Hv & [Hs Hss] & _ & Ho).
  split; [eapply Forall_impl; [exact Hv|by intros ? []]|]. split; [done|]. intros Hok. destruct (Ho Hok) as [m2 H2]. by exists c, m, m2.
Qed.

(** Steps in a row, where every step keeps [R] whatever happens. *)
Lemma along_step {A B} (R : disk → Prop) P (m : io A) (f : A → io B) (S : A → disk → Prop) Q :
  along R (λ d, R d ∧ P d) m (λ o d, R d ∧ ∀ a, o = inl a → S a d) →
  (∀ a, along R (λ d, R d ∧ S a d) (f a) (λ o d, R d ∧ ∀ b, o = inl b → Q b d)) →
  along R (λ d, R d ∧ P d) (m ≫= f) (λ o d, R d ∧ ∀ b, o = inl b → Q b d).
Proof.
  intros Hm Hf. eapply along_bind; [exact Hm| |by intros e d [Hd _]; split].
  intros a. eapply along_weaken; [apply (Hf a)|done| |done]. intros d [Hd Hs]. split; [done|by apply Hs].
Qed.

Lemma along_call {A} (R P : disk → Prop) c (f : disk → option (A * disk)) (Q : A → disk → Prop) :
  (∀ d a d', R d → P d → f d = Some (a, d') → R d' ∧ Q a d') →
  along R (λ d, R d ∧ P d) (syscall c f) (λ o d, R d ∧ ∀ a, o = inl a → Q a d).
Proof.
  intros Hf. apply along_syscall; [by intros d [Hd _]|]. intros d a d' [Hd Hp] Hfd. destruct (Hf d a d' Hd Hp Hfd).
  split_and!; [done|done|]. by intros b [= <-].
Qed.

Lemma along_keep {A} (R P : disk → Prop) (a : A) : along R (λ d, R d ∧ P d) (mret a) (λ o d, R d ∧ ∀ b, o = inl b → P d).
Proof. apply along_ret. by intros d [? ?]. Qed.

Lemma along_give_up {A} (R P : disk → Prop) e (Q : A → disk → Prop) :
  along R (λ d, R d ∧ P d) (io_fail e) (λ o d, R d ∧ ∀ a, o = inl a → Q a d).
Proof. apply along_fail. by intros d [Hd _]. Qed.
Lemma along_attempt {A} (R P : disk → Prop) (m : io A) (Q : A → disk → Prop) :
  along R (λ d, R d ∧ P d) m (λ o d, R d ∧ ∀ a, o = inl a → Q a d) →
  along R (λ d, R d ∧ P d) (io_try m) (λ o d, R d ∧ ∀ r, o = inl r → match r with inl a => Q a d | inr _ => True end).
Proof.
  intros Hm. eapply along_try; [exact Hm|..].
  - intros a d [Hd HQ]. split; [done|]. intros r [= <-]. by apply HQ.
  - intros e d [Hd _]. split; [done|]. by intros r [= <-].
Qed.
(** A call that does nothing to the disk. *)
Lemma along_idle R P c : along R (λ d, R d ∧ P d) (io_try (syscall c (λ d, Some (tt, d)))) (λ o d, R d ∧ ∀ r, o = inl r → P d).
Proof.
  eapply along_try with (R := λ _ d, R d ∧ P d); [|intros ? d [? ?]; by split; [|intros]..].
  apply along_syscall; [done|]. intros d [] d' Hd [= <-]. split; [apply Hd|done].
Qed.
(** An error that is dealt with by steps that keep [R] too. *)
Lemma along_on_error {A} (R P : disk → Prop) (m : io A) f (Q : A → disk → Prop) :
  along R (λ d, R d ∧ P d) m (λ o d, R d ∧ ∀ a, o = inl a → Q a d) →
  (∀ e, along R (λ d, R d ∧ True) (f e) (λ o d, R d ∧ ∀ a, o = inl a → Q a d)) →
  along R (λ d, R d ∧ P d) (io_on_error m f) (λ o d, R d ∧ ∀ a, o = inl a → Q a d).
Proof.
  intros Hm Hf. unfold io_on_error.
  apply (along_step _ _ _ _ (λ r d, match r with inl a => Q a d | inr _ => True end)); [by apply along_attempt|].
  intros [a|e]; [|apply Hf]. apply along_ret. intros d [Hd HQ]. split; [done|]. by intros b [= <-].
Qed.
Lemma along_forget {A} (R P : disk → Prop) (m : io A) (Q : A → disk → Prop) :
  along R (λ d, R d ∧ True) m (λ o d, R d ∧ ∀ a, o = inl a → Q a d) → along R (λ d, R d ∧ P d) m (λ o d, R d ∧ ∀ a, o = inl a → Q a d).
Proof. intros Hm. eapply along_weaken; [exact Hm|done|by intros d [Hd _]|done]. Qed.
(** Keeps [R] and promises nothing else. *)
Lemma along_quiet {A} (R P : disk → Prop) (m : io A) (Q : A → disk → Prop) :
  along R (λ d, R d ∧ P d) m (λ o d, R d ∧ ∀ a, o = inl a → Q a d) → along R (λ d, R d ∧ P d) m (λ o d, R d ∧ ∀ a, o = inl a → True).
Proof. intros Hm. eapply along_weaken; [exact Hm|done|done|]. intros o d [Hd _]. by split; [|intros]. Qed.
Lemma along_drop {A} (R P : disk → Prop) (m : io A) :
  along R (λ d, R d ∧ P d) m (λ o d, R d ∧ ∀ a, o = inl a → True) →
  along R (λ d, R d ∧ P d) (io_drop m) (λ o d, R d ∧ ∀ u, o = inl u → True).
Proof.
  intros Hm. unfold io_drop. apply (along_step _ _ _ _ (λ _ _, True)); [|intros a; apply along_keep].
  eapply along_weaken; [exact (along_attempt R P m (λ _ _, True) Hm)|done|done|]. intros o d [Hd _]. split; [done|by intros].
Qed.

End frames.
