(* ===== verification/Secrets.v ===== *)
(** * The secrets of an install (src/internal/secrets)

    The engine's passwords are made once and kept in ~/.oxyndb/secrets.json; every process
    reads them from there, and the environment may override each. *)
From S2P Require Import Prelude GoStrings GoNum GoRunes GoPath Sha256 Json JsonText Effects Storage Disk.
Open Scope string_scope.
Open Scope list_scope.

(** ** Definitions *)

Record Secrets : Type := mkSecrets { PGPassword : string; MinioUser : string; MinioPassword : string }.

#[export] Instance Secrets_eq : EqDecision Secrets.
Proof. solve_decision. Defined.

(** crypto/rand.Read of 16 bytes at a moment, if it does not fail. *)
Class Random := { random_bytes : nat → option string }.

Section secrets.
Context {F : Faults} {R : Random} {En : Env}.

Definition secrets_dir : string := JoinPath [user_home; ".oxyndb"].
Definition secrets_path : string := JoinPath [secrets_dir; "secrets.json"].

(** json.Unmarshal, its error thrown away. *)
Definition decode_secrets (b : string) : Secrets :=
  let m := lenient_object (json_parse b) in
  mkSecrets (lenient as_string "" "pg_password" m) (lenient as_string "" "minio_user" m) (lenient as_string "" "minio_password" m).
Definition readFile (path : string) : io Secrets :=
  b ← io_try (read_file path);
  mret (match b with inl b => decode_secrets b | inr _ => mkSecrets "" "" "" end).

Definition secrets_json (s : Secrets) : string :=
  json_indent [("pg_password", json_string (PGPassword s)); ("minio_user", json_string (MinioUser s)); ("minio_password", json_string (MinioPassword s))].

Definition writeFile (path : string) (s : Secrets) : io unit :=
  r ← io_try (mkdirAll (path_dir path));
  match r with
  | inr _ => mret tt
  | inl _ =>
      let tmp := path +:+ ".tmp" in
      w ← io_try (write_file tmp (secrets_json s) 384);
      match w with inr _ => mret tt | inl _ => io_drop (rename tmp path) end
  end.

(** A failure to read random bytes is a panic: it ends the process. *)
Definition randToken : io string :=
  b ← moment random_bytes;
  match b with Some b => mret (hex_encode b) | None => io_fail (Errorf "secrets: crypto/rand failed: %v" []) end.

(** What is missing is made up. *)
Definition fill (s : Secrets) : io Secrets :=
  pg ← (if String.eqb (PGPassword s) "" then randToken else mret (PGPassword s));
  mu ← (if String.eqb (MinioUser s) "" then t ← randToken; mret ("odb" +:+ substring 0 12 t) else mret (MinioUser s));
  mp ← (if String.eqb (MinioPassword s) "" then randToken else mret (MinioPassword s));
  mret (mkSecrets pg mu mp).
Definition lacking (s : Secrets) : bool := String.eqb (PGPassword s) "" || String.eqb (MinioUser s) "" || String.eqb (MinioPassword s) "".

(** The secrets on file, completed there. *)
Definition stored : io Secrets :=
  s ← readFile secrets_path;
  s' ← fill s;
  _ ← (if lacking s then writeFile secrets_path s' else mret tt);
  mret s'.

Definition overriding (key own : string) : string := let v := getenv key in if String.eqb v "" then own else v.
Definition overridden (s : Secrets) : Secrets :=
  mkSecrets (overriding "OXYNDB_PG_PASSWORD" (PGPassword s)) (overriding "OXYNDB_MINIO_USER" (MinioUser s))
            (overriding "OXYNDB_MINIO_PASSWORD" (MinioPassword s)).

Definition loadOrCreate : io Secrets := s ← stored; mret (overridden s).

(** Load, with what the process has cached. *)
Definition Load (cached : option Secrets) : io Secrets := match cached with Some s => mret s | None => loadOrCreate end.

End secrets.

(** ** What is written reads back *)

Definition well_formed_secrets (s : Secrets) : bool := well_formed (PGPassword s) && well_formed (MinioUser s) && well_formed (MinioPassword s).

Lemma decode_secrets_json s : well_formed_secrets s = true → decode_secrets (secrets_json s) = s.
Proof.
  unfold well_formed_secrets. rewrite !andb_true_iff. intros [[H1 H2] H3].
  set (ms := [("pg_password", (json_string (PGPassword s), JStr (PGPassword s))); ("minio_user", (json_string (MinioUser s), JStr (MinioUser s)));
              ("minio_password", (json_string (MinioPassword s), JStr (MinioPassword s)))] : list json_member).
  assert (json_parse (secrets_json s) = Some (JObj (member_value <$> ms))) as Hp.
  { change (secrets_json s) with (json_indent ((λ m : json_member, (m.1, m.2.1)) <$> ms)).
    rewrite <-(sapp_nil_r (json_indent _)). apply json_indent_read; [|done]. by repeat constructor; try apply reads_string. }
  unfold decode_secrets. rewrite Hp. by destruct s.
Qed.

Lemma well_formed_plain s : ascii_only s = true → well_formed s = true.
Proof.
  unfold ascii_only, well_formed. induction (to_bytes s) as [|c l IH]; [done|]. cbn [forallb chunks]. intros [Hc Hl]%andb_true_iff. rewrite Hc.
  cbn [forallb]. rewrite IH by done. unfold ill_formed. cbn [fst snd]. apply N.ltb_lt in Hc.
  by rewrite (proj2 (N.eqb_neq _ _)) by (unfold RuneError; lia).
Qed.
Lemma ascii_hex s : ascii_only (hex_encode s) = true.
Proof.
  unfold ascii_only. induction s as [|c s IH]; [done|]. cbn [hex_encode to_bytes forallb]. rewrite IH, andb_true_r.
  by destruct c as [[] [] [] [] [] [] [] []].
Qed.
Lemma ascii_cut n s : ascii_only s = true → ascii_only (substring 0 n s) = true.
Proof.
  unfold ascii_only. revert n. induction s as [|c s IH]; intros [|n]; try done. cbn [substring to_bytes forallb]. intros [-> Hs]%andb_true_iff. by apply IH.
Qed.

(** ** The file at every moment *)

Section theorems.
Context {F : Faults} {R : Random} {En : Env}.

Definition complete (s : Secrets) : bool := negb (lacking s).
(** [s'] has what [s] has. *)
Definition keeps (s s' : Secrets) : Prop :=
  (PGPassword s ≠ "" → PGPassword s' = PGPassword s) ∧ (MinioUser s ≠ "" → MinioUser s' = MinioUser s)
  ∧ (MinioPassword s ≠ "" → MinioPassword s' = MinioPassword s).

Lemma append_neq a b : b ≠ "" → a +:+ b ≠ a.
Proof. intros Hb H. apply (f_equal String.length) in H. rewrite length_sapp in H. destruct b; [done|cbn in H; lia]. Qed.

Section file.
Variables (path : string) (d0 : disk).

(** The file as it was, or with [s] whole. *)
Definition file_kept (d : disk) : Prop := d !! path = d0 !! path.
Definition file_is (s : Secrets) (d : disk) : Prop := ∃ m, d !! path = Some (File (secrets_json s) m).

Lemma along_write_tmp s : along file_kept file_kept (write_file (path +:+ ".tmp") (secrets_json s) 384)
  (λ o d, file_kept d ∧ ∀ u, o = inl u → file_is s (<[path := default (Dir ∅) (d !! (path +:+ ".tmp"))]> d)).
Proof.
  assert (path +:+ ".tmp" ≠ path) as Hne by (by apply append_neq).
  assert (apart_from (path +:+ ".tmp") file_kept) as Hap by (intros d c m Hd; unfold file_kept; by rewrite lookup_insert_ne).
  unfold write_file. apply along_bind with (R := λ o d, file_kept d ∧ (o = inl tt → ∃ m, d !! (path +:+ ".tmp") = Some (File "" m))).
  - apply along_syscall; [intros d Hd; by split|]. intros d [] d' Hd Hf.
    destruct (d !! (path +:+ ".tmp")) as [[c m|es]|] eqn:Hp; [|done|]; injection Hf as <-; (split; [by apply Hap|]); (split; [by apply Hap|]); intros _;
      eexists; apply lookup_insert_eq.
  - intros []. apply along_bind with (R := λ o d, match o with
      | inl (inl _) => file_kept d ∧ ∃ m, d !! (path +:+ ".tmp") = Some (File (secrets_json s) m)
      | inl (inr _) => file_kept d | inr _ => False end); [| |done].
    { eapply along_try with (R := λ o d, file_kept d ∧ (o = inl tt → ∃ m, d !! (path +:+ ".tmp") = Some (File (secrets_json s) m))).
      - eapply along_weaken; [apply (along_write file_kept (secrets_json s) (path +:+ ".tmp") Hap)|done|intros d [Hd Hm]; split; [done|by apply Hm]|].
        intros o d (Hd & _ & Ho). split; [done|exact Ho].
      - intros [] d [Hd Hm]. split; [done|by apply Hm].
      - by intros e d []. }
    intros r. apply along_bind with (R := λ o d, match o with
      | inl _ => file_kept d ∧ (r = inl tt → ∃ m, d !! (path +:+ ".tmp") = Some (File (secrets_json s) m)) | inr _ => False end); [| |done].
    { eapply along_try with (R := λ _ d, file_kept d ∧ (r = inl tt → ∃ m, d !! (path +:+ ".tmp") = Some (File (secrets_json s) m))); [|done|done].
      apply along_syscall.
      - intros d Hd. destruct r as [[]|]; [destruct Hd; by split|by split].
      - intros d [] d' Hd [= <-]. destruct r as [[]|]; [destruct Hd as [Hd Hm]; split; [done|]; by split|split; [done|]; by split]. }
    intros c. destruct r as [[]|e]; [|by apply along_fail; intros d [Hd _]].
    destruct c as [[]|e]; [|by apply along_fail; intros d [Hd _]].
    apply along_ret. intros d [Hd Hm]. split; [done|]. intros _ _. destruct (Hm eq_refl) as [m Hp]. rewrite Hp. exists m. cbn. by rewrite lookup_insert_eq.
  - intros e d [Hd _]. split; [done|by intros].
Qed.

Lemma along_writeFile s : along (λ d, file_kept d ∨ file_is s d) file_kept (writeFile path s) (λ o d, o = inl tt ∧ (file_kept d ∨ file_is s d)).
Proof.
  assert (path +:+ ".tmp" ≠ path) as Hne by (by apply append_neq).
  unfold writeFile. apply along_bind with (R := λ o d, match o with inl _ => file_kept d | inr _ => False end); [| |done].
  { eapply along_try with (R := λ _, file_kept); [|done|done]. apply along_syscall; [done|]. intros d [] d' Hd [= <-]. by split; [left|]. }
  intros [[]|e]; [|apply along_ret; by auto].
  apply along_bind with (R := λ o d, match o with
    | inl (inl _) => file_kept d ∧ file_is s (<[path := default (Dir ∅) (d !! (path +:+ ".tmp"))]> d) | inl (inr _) => file_kept d | inr _ => False end); [| |done].
  { eapply along_try; [eapply along_weaken; [apply (along_write_tmp s)|by left|done|]|..].
    - intros o d H. exact H.
    - intros [] d [Hd Hs]. split; [done|by apply (Hs tt)].
    - by intros e d []. }
  intros [[]|e]; [|apply along_ret; by auto].
  eapply along_weaken; [eapply (along_dropped (λ d, file_kept d ∨ file_is s d) _ _ (λ d, file_kept d ∨ file_is s d))| | |].
  - apply along_syscall with (P := λ d, file_kept d ∧ file_is s (<[path := default (Dir ∅) (d !! (path +:+ ".tmp"))]> d)); [intros d [Hd _]; by left|].
    intros d [] d' [Hd [m Hs]] Hf. rewrite lookup_insert_eq in Hs. destruct (d !! (path +:+ ".tmp")) as [n|] eqn:Hp; [|done].
    cbn in Hs. injection Hs as ->. rewrite (proj2 (String.eqb_neq _ _)) in Hf by done. destruct (may_replace _ _); [|done]. injection Hf as <-.
    assert (file_is s (<[path:=File (secrets_json s) m]> (delete (path +:+ ".tmp") d))) by (exists m; by rewrite lookup_insert_eq). by split; right.
  - done.
  - done.
  - done.
Qed.
End file.

(** What reading the file gives: nothing when it cannot be read. *)
Definition on_file (d : disk) : Secrets := match d !! secrets_path with Some (File c _) => decode_secrets c | _ => mkSecrets "" "" "" end.
Hypothesis random_16 : ∀ k b, random_bytes k = Some b → String.length b = 16%nat.

Lemma along_readFile d0 (I : disk → Prop) : I d0 → along I (λ d, d = d0) (readFile secrets_path)
  (λ o d, d = d0 ∧ ∃ s, o = inl s ∧ (s = on_file d0 ∨ s = mkSecrets "" "" "" ∧ ∃ k, refuses k (COpen secrets_path) = true)).
Proof.
  intros HI k d ->. unfold readFile, io_try, read_file, syscall, mbind, io_bind, on_file. cbn [call_no files].
  destruct (refuses k _) eqn:Hr; [split; [constructor|]; split; [done|]; eexists; split; [done|]; right; by eauto|].
  destruct (d0 !! secrets_path) as [[c m|es]|]; cbn; (split; [by repeat constructor|]); split; eauto.
Qed.

Lemma hex_nonempty b : String.length b = 16%nat → hex_encode b ≠ "".
Proof. intros Hb H. apply (f_equal String.length) in H. rewrite length_hex_encode, Hb in H. done. Qed.

Definition token (t : string) : Prop := t ≠ "" ∧ ascii_only t = true.
Lemma along_randToken (I P : disk → Prop) : along I P randToken (λ o d, P d ∧ ∀ t, o = inl t → token t).
Proof.
  unfold randToken. apply along_bind with (R := λ o d, P d ∧ ∃ k, o = inl (random_bytes k)); [apply along_moment| |by intros e d [_ [? ?]]].
  intros [b|]; [|apply along_fail; by intros d [Hd _]]. apply along_ret. intros d [Hd [k [= Hk]]]. split; [done|]. intros t [= <-].
  split; [by eapply hex_nonempty, random_16|apply ascii_hex].
Qed.

(** One secret: made up when there is none. *)
Lemma along_made {B} (I P : disk → Prop) old (make : string → io string) (f : string → io B) Q :
  (∀ t, along I P (make t) (λ o d, P d ∧ ∀ t, o = inl t → token t)) →
  (∀ t, t ≠ "" → (old ≠ "" → t = old) → (well_formed old = true → well_formed t = true) → along I P (f t) (λ o d, P d ∧ ∀ x, o = inl x → Q x)) →
  along I P ((if String.eqb old "" then make old else mret old) ≫= f) (λ o d, P d ∧ ∀ x, o = inl x → Q x).
Proof.
  intros Hmake Hf. destruct (String.eqb_spec old "") as [->|Hne].
  - apply along_bind with (R := λ o d, P d ∧ ∀ t, o = inl t → token t); [apply Hmake| |].
    + intros t k d [Hd Ht]. destruct (Ht t eq_refl) as [Htn Hta]. apply Hf; [done|done| |done]. intros _. by apply well_formed_plain.
    + intros e d [Hd _]. by split.
  - apply along_known with (a := old) (P' := P); [by apply along_ret|]. by apply Hf.
Qed.

Lemma along_fill (I P : disk → Prop) s : along I P (fill s)
  (λ o d, P d ∧ ∀ s', o = inl s' → complete s' = true ∧ keeps s s' ∧ (well_formed_secrets s = true → well_formed_secrets s' = true)).
Proof.
  unfold fill. apply (along_made I P (PGPassword s) (λ _, randToken)); [intros; apply along_randToken|]. intros pg Hpg Kpg Wpg.
  apply (along_made I P (MinioUser s) (λ _, t ← randToken; mret ("odb" +:+ substring 0 12 t))).
  { intros _. apply along_bind with (R := λ o d, P d ∧ ∀ t, o = inl t → token t); [apply along_randToken| |intros e d [Hd _]; by split].
    intros t. apply along_ret. intros d [Hd Ht]. split; [done|]. intros u [= <-]. split; [done|]. destruct (Ht t eq_refl) as [_ Ha].
    change (ascii_only (substring 0 12 t) = true). by apply ascii_cut. }
  intros mu Hmu Kmu Wmu. apply (along_made I P (MinioPassword s) (λ _, randToken)); [intros; apply along_randToken|]. intros mp Hmp Kmp Wmp.
  apply along_ret. intros d Hd. split; [done|]. intros s' [= <-]. unfold complete, lacking, keeps, well_formed_secrets. cbn [PGPassword MinioUser MinioPassword].
  rewrite !(proj2 (String.eqb_neq _ _)) by done. split; [done|]. split; [done|]. rewrite !andb_true_iff. naive_solver.
Qed.

(** What may be on file: the file as it was, or complete secrets in one piece that keep
    those it had, if reading it was not refused. *)
Definition good_file (d0 d : disk) : Prop :=
  file_kept secrets_path d0 d
  ∨ ∃ s, complete s = true ∧ file_is secrets_path s d ∧ (keeps (on_file d0) s ∨ ∃ k, refuses k (COpen secrets_path) = true).

Lemma along_stored d0 : along (good_file d0) (λ d, d = d0) stored
  (λ o d, good_file d0 d ∧ ∀ s, o = inl s → complete s = true ∧ (keeps (on_file d0) s ∨ ∃ k, refuses k (COpen secrets_path) = true)).
Proof.
  unfold stored. apply along_bind with (R := λ o d, d = d0 ∧ ∃ s, o = inl s ∧ (s = on_file d0 ∨ s = mkSecrets "" "" "" ∧ ∃ k, refuses k (COpen secrets_path) = true));
    [apply along_readFile; by left| |by intros e d [_ (s & [=] & _)]].
  intros s. apply along_bind with (R := λ o d, d = d0 ∧ ∀ s', o = inl s' → complete s' = true ∧ (keeps (on_file d0) s' ∨ ∃ k, refuses k (COpen secrets_path) = true)).
  - intros k d [-> (s1 & [= <-] & Hs)]. pose proof (along_fill (good_file d0) (λ d, d = d0) s k d0 eq_refl) as Hfill.
    destruct (fill s _) as [[o m] v]. destruct Hfill as (Hv & Hd & Ho). split; [done|]. split; [done|]. intros s' ->.
    destruct (Ho s' eq_refl) as (Hc & Hk & _). split; [done|]. destruct Hs as [->|[_ Hr]]; [by left|by right].
  - intros s' k d [-> Hs']. destruct (Hs' s' eq_refl) as [Hc Hk]. destruct (lacking s).
    + pose proof (along_writeFile secrets_path d0 s' k d0 eq_refl) as Hw. unfold mbind, io_bind.
      destruct (writeFile _ _ _) as [[o m] v]. destruct Hw as (Hv & -> & Hd). cbn. rewrite app_nil_r.
      assert (∀ d, file_kept secrets_path d0 d ∨ file_is secrets_path s' d → good_file d0 d) as Hgood by (intros d [H|H]; [by left|right; by eauto]).
      split; [by eapply Forall_impl|]. split; [by apply Hgood|]. by intros s1 [= <-].
    + cbn. split; [constructor|]. split; [by left|]. by intros s1 [= <-].
  - intros e d [-> _]. split; [by left|by intros].
Qed.

(** The secrets' file is never half-written, and what it had is kept: on every disk gone
    through it is as it was or holds complete secrets; whatever is refused but the reading of
    the file, these have every secret that was on file. *)
Theorem loadOrCreate_whole d0 : along (good_file d0) (λ d, d = d0) loadOrCreate (λ o d, good_file d0 d).
Proof.
  unfold loadOrCreate. eapply along_bind; [apply along_stored| |by intros e d []]. intros s. by apply along_ret; intros d [].
Qed.
End theorems.

(** ** Loading again *)

Definition no_dir (d : disk) (p : string) : Prop := ∀ es, d !! p ≠ Some (Dir es).

Section complete.
Context {F : Faults} {R : Random} {En : Env}.

Lemma fill_complete s st : complete s = true → fill s st = (inl s, st, []).
Proof.
  unfold complete, lacking, fill. rewrite negb_true_iff, !orb_false_iff. intros [[-> ->] ->]. by destruct s.
Qed.

(** A load that finds complete secrets on file, and can read them. *)
Lemma load_complete k d own :
  on_file d = own → complete own = true → no_dir d secrets_path → (∀ k, refuses k (COpen secrets_path) = false) →
  ∃ k' w, loadOrCreate (mkMachine k d) = (inl (overridden own), mkMachine k' d, w).
Proof.
  intros Hon Hc Hnd Hr. pose proof Hc as Hl%negb_true_iff.
  assert (∃ k1 v1, readFile secrets_path (mkMachine k d) = (inl own, mkMachine k1 d, v1)) as (k1 & v1 & Hread).
  { unfold readFile, io_try, read_file, syscall, mbind, io_bind. cbn [call_no files]. rewrite Hr.
    unfold on_file in Hon. destruct (d !! secrets_path) as [[c m|es]|]; cbn; subst own; by do 2 eexists. }
  unfold loadOrCreate, stored, mbind, io_bind. rewrite Hread, fill_complete, Hl by done. cbn.
  by do 2 eexists.
Qed.

End complete.

Section again.
Context {F : Faults} {R : Random} {En : Env}.
Hypothesis nothing_refused : ∀ k c, refuses k c = false.
Hypothesis random_16 : ∀ k b, random_bytes k = Some b → String.length b = 16%nat.

Lemma writeFile_done path s k d : no_dir d path → no_dir d (path +:+ ".tmp") →
  ∃ k' d' v, writeFile path s (mkMachine k d) = (inl tt, mkMachine k' d', v) ∧ file_is path s d'.
Proof.
  intros Hp Ht. assert (path +:+ ".tmp" ≠ path) as Hne by (by apply append_neq).
  unfold writeFile, io_drop, write_file, mkdirAll, create, write_into, close, rename, syscall, io_try, mbind, io_bind, mret, io_ret. cbn [call_no files].
  rewrite !nothing_refused. cbn [call_no files fst snd].
  assert (∀ m, set_content (path +:+ ".tmp") (substring 0 (String.length (secrets_json s)) (secrets_json s)) (<[path +:+ ".tmp" := File "" m]> d)
          = <[path +:+ ".tmp" := File (secrets_json s) m]> d) as Hset.
  { intros m. unfold set_content. rewrite lookup_insert_eq, insert_insert_eq, upto_all. done. }
  assert (∀ m, may_replace (File (secrets_json s) m) (<[path +:+ ".tmp" := File (secrets_json s) m]> d !! path) = true) as Hmay.
  { intros m. rewrite lookup_insert_ne by done. destruct (d !! path) as [[]|] eqn:E; [done| |done]. by destruct (Hp _ E). }
  destruct (d !! (path +:+ ".tmp")) as [[c m|es]|] eqn:E; [|by destruct (Ht _ E)|];
    cbn [call_no files]; rewrite ?nothing_refused; cbn [call_no files]; rewrite ?nothing_refused; cbn [call_no files]; rewrite Hset, lookup_insert_eq, (proj2 (String.eqb_neq _ _)), Hmay by done;
    do 3 eexists; (split; [reflexivity|]); eexists; apply lookup_insert_eq.
Qed.

Lemma stored_settles k d s st v : no_dir d secrets_path → no_dir d (secrets_path +:+ ".tmp") → well_formed_secrets (on_file d) = true →
  stored (mkMachine k d) = (inl s, st, v) → complete s = true ∧ on_file (files st) = s ∧ no_dir (files st) secrets_path.
Proof.
  intros Hp Ht Hw. unfold stored, mbind, io_bind.
  pose proof (along_readFile d (λ _, True) I k d eq_refl) as Hread. destruct (readFile secrets_path _) as [[o1 [k1 d1]] v1].
  destruct Hread as (_ & Hd1 & (s1 & -> & [->|[_ [? Hr]]])); [|by rewrite nothing_refused in Hr]. cbn in Hd1. subst d1.
  pose proof (along_fill random_16 (λ _, True) (λ x, x = d) (on_file d) k1 d eq_refl) as Hfill.
  destruct (fill _ _) as [[o2 [k2 d2]] v2] eqn:Hfe. destruct Hfill as (_ & Hd2 & Ho2). cbn in Hd2. subst d2. destruct o2 as [s2|e]; [|done].
  destruct (Ho2 s2 eq_refl) as (Hc & Hk & Hws). destruct (lacking (on_file d)) eqn:Hl.
  - destruct (writeFile_done secrets_path s2 k2 d Hp Ht) as (k3 & d3 & v3 & -> & [m Hm]). intros [= <- <- _]. cbn.
    split; [done|]. split; [|intros es; by rewrite Hm]. unfold on_file. rewrite Hm. apply decode_secrets_json. by apply Hws.
  - rewrite fill_complete in Hfe by (unfold complete; by rewrite Hl). injection Hfe as <- _ _. intros [= <- <- _]. done.
Qed.

(** C24. The install has one set of secrets from the first load on. After one load that was
    refused nothing and found no directory in the file's place, there are secrets such that
    that load gave them, under the overrides of its own environment, and so does every later
    load of any process with the same home, under the overrides of that process's
    environment, leaving the disk alone: whatever else on the disk has changed, whatever its
    random source and whatever else it is refused, as long as it may read the file. *)
Theorem loadOrCreate_again k d s st v : no_dir d secrets_path → no_dir d (secrets_path +:+ ".tmp") → well_formed_secrets (on_file d) = true →
  loadOrCreate (mkMachine k d) = (inl s, st, v) →
  ∃ own, complete own = true ∧ s = overridden own
    ∧ ∀ (F' : Faults) (R' : Random) (En' : Env) k' d',
        @user_home En' = @user_home En → d' !! @secrets_path En = files st !! @secrets_path En → (∀ k, @refuses F' k (COpen (@secrets_path En)) = false) →
        ∃ k'' w, @loadOrCreate F' R' En' (mkMachine k' d') = (inl (@overridden En' own), mkMachine k'' d', w).
Proof.
  intros Hp Ht Hw. unfold loadOrCreate at 1, mbind, io_bind. destruct (stored (mkMachine k d)) as [[[s0|e] st0] v0] eqn:Hs; [|done].
  intros [= <- <- _]. destruct (stored_settles k d s0 st0 v0 Hp Ht Hw Hs) as (Hc & Hon & Hnd).
  exists s0. split_and!; [done|done|]. intros F' R' En' k' d' Hh Hd Hr.
  assert (@secrets_path En' = @secrets_path En) as Hpath by (unfold secrets_path, secrets_dir; by rewrite Hh).
  apply load_complete.
  - unfold on_file. rewrite Hpath, Hd. exact Hon.
  - done.
  - unfold no_dir. rewrite Hpath, Hd. exact Hnd.
  - rewrite Hpath. exact Hr.
Qed.
End again.

(** What overrides a secret is never written: two environments with the same home have
    the same disks, whatever else they say. *)
Theorem loadOrCreate_env `{Faults} `{Random} (E1 E2 : Env) st : @user_home E1 = @user_home E2 →
  (@loadOrCreate _ _ E1 st).1.2 = (@loadOrCreate _ _ E2 st).1.2 ∧ (@loadOrCreate _ _ E1 st).2 = (@loadOrCreate _ _ E2 st).2.
Proof.
  intros Hh. assert (@stored _ _ E1 st = @stored _ _ E2 st) as Hs by (unfold stored, secrets_path, secrets_dir; by rewrite Hh).
  unfold loadOrCreate, mbind, io_bind. rewrite Hs. by destruct (@stored _ _ E2 st) as [[[s|e] m] v].
Qed.

(** ** Examples *)

Module Sample.
Definition env (own : string) : Env :=
  {| getenv := λ k, if String.eqb k "OXYNDB_PG_PASSWORD" then own else ""; pgPass := ""; minioUser := ""; minioPass := ""; home_dir := Some "/home/u" |}.
(** Sixteen times the number of the call. *)
#[export] Instance random : Random := {| random_bytes := λ k, Some (of_bytes (repeat (ascii_of_N (N.of_nat k)) 16)) |}.
Lemma random_16 : ∀ k b, random_bytes k = Some b → String.length b = 16%nat.
Proof. intros k b [= <-]. done. Qed.
Definition willing : Faults := {| refuses := λ _ _, false; gets_through := λ _, 0%nat |}.
(** The reading of the secrets' file is refused. *)
Definition unreadable : Faults :=
  {| refuses := λ _ c, match c with COpen _ => true | _ => false end; gets_through := λ _, 0%nat |}.
Definition old_secrets : Secrets := mkSecrets "old" "odb1" "older".
Definition installed : disk := {["/home/u/.oxyndb/secrets.json" := File (secrets_json old_secrets) 384]}.
Definition half : disk := {["/home/u/.oxyndb/secrets.json" := File "{}" 384]}.

Lemma loadOrCreate_whole_witness :
  along (good_file (F := willing) (En := env "") half) (λ d, d = half) (loadOrCreate (F := willing) (En := env "")) (λ _, good_file (F := willing) (En := env "") half).
Proof. apply (loadOrCreate_whole (F := willing) (En := env "")). exact random_16. Defined.

(** The first load makes the secrets, under one password; another process has another. *)
Lemma loadOrCreate_again_witness :
  match loadOrCreate (F := willing) (En := env "mine") (mkMachine 0 half) with
  | (inl s, st, _) => PGPassword s = "mine" ∧ ∃ own, s = overridden (En := env "mine") own
      ∧ ∃ k'' w, loadOrCreate (F := willing) (En := env "yours") (mkMachine 100 (<["/etc/motd" := File "" 420]> (files st)))
          = (inl (mkSecrets "yours" (MinioUser s) (MinioPassword s)), mkMachine k'' (<["/etc/motd" := File "" 420]> (files st)), w)
  | _ => False
  end.
Proof.
  destruct (loadOrCreate (F := willing) (En := env "mine") (mkMachine 0 half)) as [[o st] v] eqn:Hl.
  destruct o as [s|e].
  2: { assert (match (loadOrCreate (F := willing) (En := env "mine") (mkMachine 0 half)).1.1 with inl _ => True | inr _ => False end) as Hx
         by (vm_compute; exact I). rewrite Hl in Hx. destruct Hx. }
  assert (match (loadOrCreate (F := willing) (En := env "mine") (mkMachine 0 half)).1.1 with inl s => PGPassword s = "mine" | inr _ => True end) as Hx
    by (vm_compute; reflexivity). rewrite Hl in Hx. split; [exact Hx|].
  destruct (loadOrCreate_again (F := willing) (En := env "mine") (λ _ _, eq_refl) random_16 0 half s st v) as (own & _ & -> & Hlater);
    [intros es; vm_compute; discriminate..|reflexivity|exact Hl|].
  exists own. split; [reflexivity|].
  apply (Hlater willing random (env "yours") 100%nat (<["/etc/motd" := File "" 420]> (files st)));
    [reflexivity|apply lookup_insert_ne; by apply (bool_decide_unpack _)|reflexivity].
Defined.

Lemma loadOrCreate_env_witness :
  (loadOrCreate (F := willing) (En := env "mine") (mkMachine 0 half)).2 = (loadOrCreate (F := willing) (En := env "yours") (mkMachine 0 half)).2.
Proof. apply (@loadOrCreate_env willing random (env "mine") (env "yours") (mkMachine 0 half)). reflexivity. Defined.

(** A reading that is refused once loses the install's secrets for good: new ones are
    written over them. *)
Example refused_read_replaces :
  let d := files (loadOrCreate (F := unreadable) (En := env "") (mkMachine 0 installed)).1.2 in
  bool_decide (on_file (En := env "") d = old_secrets) = false ∧ lacking (on_file (En := env "") d) = false.
Proof. vm_compute. done. Qed.

(** Two processes that both find no file: the second writes between the first's reading
    and its writing, and goes on with secrets that are not on file. *)
Example first_loads_differ :
  let first := (fill (mkSecrets "" "" "") (mkMachine 10 ∅)).1.1 in
  let second := loadOrCreate (F := willing) (En := env "") (mkMachine 20 ∅) in
  match first, second.1.1 with
  | inl s, inl s' =>
      let d := files (writeFile (F := willing) (secrets_path (En := env "")) s second.1.2).1.2 in
      on_file (En := env "") d = s ∧ bool_decide (PGPassword s = PGPassword s') = false
  | _, _ => False
  end.
Proof. vm_compute. done. Qed.
End Sample.
