(* ===== verification/Install.v ===== *)
(** * Putting a release in place (internal/update/install.go)

    Copying, replacing a binary (also a running one), and replacing a directory by an
    archive's content. Reading a .tar.gz is the class [Archives]: the entries it holds,
    up to where reading fails. *)
From S2P Require Import Prelude GoStrings GoPath Effects Disk.
Open Scope string_scope.
Open Scope list_scope.

(** ** Files *)

Section install.
Context {F : Faults}.

Definition CopyFile (src dst : string) (mode : Z) : io unit :=
  _ ← open_read src;
  _ ← create dst mode;
  r ← io_try (copy_into src dst);
  match r with
  | inr e => _ ← io_drop (close dst); io_fail e
  | inl _ => _ ← close dst; chmod dst mode
  end.

(** Whether a file can be made in a directory. *)
Definition dirWritable (dir : string) : io bool := r ← io_try (create_temp dir); mret (match r with inl _ => true | inr _ => false end).

Definition keepPrevious (dest prev : string) : io unit :=
  there ← (if String.eqb prev "" then mret false else io_exists dest);
  if negb there then mret tt else
  _ ← io_wrap "keeping the previous binary: %w" [] (mkdirAll (path_dir prev));
  io_wrap "keeping the previous binary: %w" [] (CopyFile dest prev 493).

(** What the script run with sudo does: install, then mv. *)
Definition sudo_install (src tmp dest : string) : io unit :=
  _ ← syscall CSudo (λ d, Some (tt, d));
  _ ← CopyFile src tmp 493;
  rename tmp dest.

(** Where the new binary is written before it is moved in. *)
Definition new_name (dest : string) : string := JoinPath [path_dir dest; ".odb.new"].

Definition InstallBinary (src dest prev : string) : io unit :=
  there ← io_exists src;
  if negb there then io_fail (Errorf "%s: no such file" [src]) else
  _ ← keepPrevious dest prev;
  let tmp := new_name dest in
  w ← dirWritable (path_dir dest);
  if (w : bool) then
    _ ← io_on_error (CopyFile src tmp 493) (λ e, _ ← io_drop (unlink tmp); io_fail e);
    io_on_error (rename tmp dest) (λ e, _ ← io_drop (unlink tmp); io_fail e)
  else io_wrap "installing %s (with sudo): %w" [dest] (sudo_install src tmp dest).

(** ** A running executable *)

(** Ten tries; the pauses between them are left out. *)
Fixpoint retry_go (n : nat) (last_ : error) (f : io unit) : io unit :=
  match n with
  | O => io_fail last_
  | S n => r ← io_try f; match r with inl _ => mret tt | inr e => retry_go n e f end
  end.
Definition retry (f : io unit) : io unit := retry_go 10 os_error f.

Definition SwapExecutable (src dest prev : string) : io unit :=
  there ← io_exists src;
  if negb there then io_fail (Errorf "%s: no such file" [src]) else
  _ ← keepPrevious dest prev;
  let old := dest +:+ ".old" in
  _ ← io_drop (unlink old);
  moved ← io_exists dest;
  _ ← (if (moved : bool) then io_wrap "moving the running %s aside: %w" [Base dest] (retry (rename dest old)) else mret tt);
  io_on_error (retry (CopyFile src dest 493)) (λ e,
    _ ← io_drop (unlink dest);
    _ ← (if (moved : bool) then io_drop (rename old dest) else mret tt);
    io_fail (Wrapf "installing %s: %w" [Base dest] e)).

(** ** An archive's content as a directory *)

Inductive tar_kind : Type := TarDir | TarReg (content : string) (mode : Z) | TarOther.
Record tar_entry : Type := mkTar { h_name : string; h_kind : tar_kind }.
Class Archives := {
  (** The entries of a .tar.gz, and whether it can be read to the end. *)
  untar : string → option (list tar_entry * bool);
  (** The working directory. *)
  cwd : string }.
Context {Ar : Archives}.

Definition Abs (p : string) : string := if is_rooted p then Clean p else JoinPath [cwd; p].

(** The directories a path below a directory goes through. *)
Fixpoint parents_go (before : string) (elems : list string) : list string :=
  match elems with
  | [] => []
  | e :: t => let p := if String.eqb before "" then e else before +:+ "/" +:+ e in p :: parents_go p t
  end.
Definition parents (rel : string) : list string := parents_go "" (Split "/" rel).

(** Where an absolute path is: the directory being unpacked or one above it (they are
    there), an entry below it, or anywhere else. *)
Inductive place : Type := AtRoot | Below (rel : string) | Elsewhere.
Definition above (root target : string) : bool := String.eqb target root || String.eqb target "/" || HasPrefix root (target +:+ "/").
Definition place_of (root target : string) : place :=
  if above root target then AtRoot else match strip_prefix (root +:+ "/") target with Some rel => Below rel | None => Elsewhere end.
Definition is_file (n : option (option (string * Z))) : bool := match n with Some (Some _) => true | _ => false end.
Definition is_dir (n : option (option (string * Z))) : bool := match n with Some None => true | _ => false end.
(** What a step does to the entries of the directory, or to a path elsewhere. *)
Definition entries_step (dest : string) (f : gmap string (option (string * Z)) → option (gmap string (option (string * Z)))) (d : disk) : option (unit * disk) :=
  match d !! dest with
  | Some (Dir es) => es' ← f es; Some (tt, <[dest := Dir es']> d)
  | _ => None
  end.

(** os.MkdirAll, os.OpenFile and io.Copy of an entry. *)
Definition tar_mkdir (dest root target : string) : io unit :=
  syscall (CMkdir target) (λ d,
    match place_of root target with
    | AtRoot => Some (tt, d)
    | Below rel => entries_step dest (λ es, if existsb (λ p, is_file (es !! p)) (parents rel) then None
                                            else Some (foldl (λ es p, <[p := None]> es) es (parents rel))) d
    | Elsewhere => match d !! target with Some (File _ _) => None | Some (Dir _) => Some (tt, d) | None => Some (tt, <[target := Dir ∅]> d) end
    end).
Definition tar_open (dest root target : string) (mode : Z) : io unit :=
  syscall (CCreate target) (λ d,
    match place_of root target with
    | AtRoot => None
    | Below rel => entries_step dest (λ es,
        if is_dir (es !! rel) || existsb (λ p, is_file (es !! p)) (removelast (parents rel)) then None
        else Some (<[rel := Some ("", match es !! rel with Some (Some (_, m)) => m | _ => mode end)]> es)) d
    | Elsewhere => match d !! target with
                   | Some (Dir _) => None
                   | Some (File _ m) => Some (tt, <[target := File "" m]> d)
                   | None => Some (tt, <[target := File "" mode]> d)
                   end
    end).
(** Refused on the way, it has written a part. *)
Definition tar_copy (dest root target content : string) : io unit := λ s,
  let k := call_no s in
  let n := if refuses k (CWrite target) then Nat.min (gets_through k) (String.length content) else String.length content in
  let put i d := match place_of root target with
    | AtRoot => d
    | Below rel => match d !! dest with
                   | Some (Dir es) => match es !! rel with Some (Some (_, m)) => <[dest := Dir (<[rel := Some (substring 0 i content, m)]> es)]> d | _ => d end
                   | _ => d
                   end
    | Elsewhere => set_content target (substring 0 i content) d
    end in
  (if refuses k (CWrite target) then inr os_error else inl tt, mkMachine (S k) (put n (files s)), (λ i, put i (files s)) <$> seq 0 (S n)).
Definition tar_write (dest root target content : string) (mode : Z) : io unit :=
  _ ← tar_open dest root target mode;
  r ← io_try (tar_copy dest root target content);
  match r with
  | inr e => _ ← io_drop (close target); io_fail e
  | inl _ => close target
  end.

Definition tar_entry_out (archive dest root : string) (h : tar_entry) : io unit :=
  let name := Clean (h_name h) in
  if String.eqb name "." then mret tt else
  let target := JoinPath [root; name] in
  if negb (String.eqb target root) && negb (HasPrefix target (root +:+ "/"))
  then io_fail (Errorf "%s: entry %q points outside the directory" [Base archive; h_name h]) else
  match h_kind h with
  | TarDir => tar_mkdir dest root target
  | TarReg content mode => _ ← tar_mkdir dest root (path_dir target); tar_write dest root target content (Z.lor (Z.land mode 511) 384)
  | TarOther => mret tt
  end.

Fixpoint tar_loop (archive dest root : string) (l : list tar_entry) (whole : bool) : io unit :=
  match l with
  | [] => if whole then mret tt else io_fail (Wrapf "%s: %w" [Base archive] os_error)
  | h :: t => _ ← tar_entry_out archive dest root h; tar_loop archive dest root t whole
  end.

Definition extractTarGz (archive dest : string) : io unit :=
  _ ← open_read archive;
  match untar archive with
  | None => io_fail (Wrapf "%s: %w" [Base archive] os_error)
  | Some (entries, whole) => _ ← mkdirTree dest; tar_loop archive dest (Abs dest) entries whole
  end.

Definition ReplaceDirFromTarGz (archive dir : string) : io unit :=
  let next := dir +:+ ".new" in
  let prev := dir +:+ ".prev" in
  _ ← io_drop (removeAll next);
  _ ← io_on_error (extractTarGz archive next) (λ e, _ ← io_drop (removeAll next); io_fail e);
  there ← io_exists dir;
  _ ← (if (there : bool) then
         _ ← io_drop (removeAll prev);
         io_on_error (rename dir prev) (λ e, _ ← io_drop (removeAll next); io_fail e)
       else mret tt);
  io_on_error (rename next dir) (λ e,
    back ← io_exists prev;
    _ ← (if (back : bool) then io_drop (rename prev dir) else mret tt);
    io_fail e).

End install.

(** ** What is on disk while a binary is installed *)

Section safe.
Context {F : Faults}.

Definition copied (src dst : string) (mode : Z) (d : disk) : Prop :=
  ∃ c m, d !! src = Some (File c m) ∧ d !! dst = Some (File c mode).

Lemma along_CopyFile R P src dst mode : src ≠ dst → apart_from dst R →
  along R (λ d, R d ∧ P d) (CopyFile src dst mode) (λ o d, R d ∧ ∀ u, o = inl u → copied src dst mode d).
Proof.
  intros Hne Hap. unfold CopyFile.
  apply (along_step _ _ _ _ (λ _ d, ∃ c m, d !! src = Some (File c m))).
  { apply along_call. intros d [] d' Hd _ Hf. destruct (d !! src) as [[c m|]|] eqn:Hs; simplify_eq. eauto. }
  intros []. apply (along_step _ _ _ _ (λ _ d, ∃ c m m', d !! src = Some (File c m) ∧ d !! dst = Some (File "" m'))).
  { apply along_call. intros d [] d' Hd (c & m & Hc) Hf.
    destruct (d !! dst) as [[c2 m2|]|]; simplify_eq; split; auto; eexists c, m, _; by rewrite lookup_insert_ne, lookup_insert_eq. }
  intros []. apply (along_step _ _ _ _ (λ r d, match r with
    | inl _ => ∃ c m m', d !! src = Some (File c m) ∧ d !! dst = Some (File c m') | inr _ => True end)).
  { apply along_attempt. eapply along_weaken; [by apply along_copy|done|done|]. intros o d [Hd Hs]. split; [done|]. by intros [] ->; apply Hs. }
  intros [[]|e].
  - apply (along_step _ _ _ _ (λ _ d, ∃ c m m', d !! src = Some (File c m) ∧ d !! dst = Some (File c m'))).
    { apply along_call. by intros d [] d' Hd Hs [= <-]. }
    intros []. apply along_call. intros d [] d' Hd (c & m & m' & Hs & Hc) Hf. rewrite Hc in Hf. simplify_eq. split; [auto|].
    exists c, m. by rewrite lookup_insert_ne, lookup_insert_eq.
  - apply (along_step _ _ _ _ (λ _ _, True)); [|intros; apply along_give_up]. apply along_drop, along_call. by intros d [] d' Hd Hs [= <-].
Qed.

Lemma along_wrap {A} (R P : disk → Prop) format args (m : io A) (Q : A → disk → Prop) :
  along R (λ d, R d ∧ P d) m (λ o d, R d ∧ ∀ a, o = inl a → Q a d) →
  along R (λ d, R d ∧ P d) (io_wrap format args m) (λ o d, R d ∧ ∀ a, o = inl a → Q a d).
Proof. intros Hm. apply along_on_error; [done|]. intros e. apply along_give_up. Qed.

Lemma along_exists R P p : along R (λ d, R d ∧ P d) (io_exists p) (λ o d, R d ∧ ∀ b, o = inl b → P d ∧ (b = true → is_Some (d !! p))).
Proof.
  unfold io_exists. apply (along_step _ _ _ _ (λ r d, P d ∧ match r with inl _ => is_Some (d !! p) | inr _ => True end)).
  - eapply along_try with (R := λ o d, R d ∧ P d ∧ ∀ u : unit, o = inl u → is_Some (d !! p)).
    + apply along_syscall; [by intros d [Hd Hp]|]. intros d [] d' [Hd Hp] Hf. destruct (d !! p) eqn:Hl; simplify_eq. split_and!; eauto.
    + intros [] d (Hd & Hp & Hs). split; [done|]. intros r [= <-]. eauto.
    + intros e d (Hd & Hp & Hs). split; [done|]. by intros r [= <-].
  - intros [u|e]; apply along_ret; intros d (Hd & Hp & Hs); (split; [done|]); by intros b [= <-].
Qed.

Lemma along_keepPrevious R P dest prev : dest ≠ prev → (prev ≠ "" → apart_from prev R) →
  along R (λ d, R d ∧ P d) (keepPrevious dest prev) (λ o d, R d ∧ ∀ u, o = inl u → True).
Proof.
  intros Hne Hap. unfold keepPrevious. apply (along_step _ _ _ _ (λ b d, b = true → prev ≠ "")).
  { destruct (String.eqb_spec prev "").
    - apply along_ret. intros d [Hd _]. split; [done|]. by intros b [= <-].
    - eapply along_weaken; [apply (along_exists R P)|done|done|]. intros o d [Hd _]. by split; [|intros]. }
  intros [|]; cbn [negb]; [|apply along_ret; by intros d [Hd _]].
  destruct (String.eqb_spec prev "") as [->|Hp].
  { intros k d [_ Hd]. by destruct (Hd eq_refl). }
  apply (along_step _ _ _ _ (λ _ _, True)).
  { apply along_wrap, along_call. by intros d [] d' Hd _ [= <-]. }
  intros []. apply along_wrap. eapply along_weaken; [apply (along_CopyFile R (λ _, True)); auto|done|done|].
  intros o d [Hd _]. by split; [|intros].
Qed.

(** Only the new binary, whole and executable, or what was there. *)
Definition old_or_new (dest : string) (old : option node) (c : string) (d : disk) : Prop :=
  d !! dest = old ∨ d !! dest = Some (File c 493).


Lemma along_unlink R P p : (∀ d, R d → R (delete p d)) →
  along R (λ d, R d ∧ P d) (unlink p) (λ o d, R d ∧ ∀ u, o = inl u → True).
Proof.
  intros Hd. apply along_call. intros d [] d' HR _ Hf. destruct (d !! p) as [[c m|es]|]; simplify_eq; [by split; [apply Hd|]|].
  case_bool_decide; simplify_eq. by split; [apply Hd|].
Qed.

Section binary.
Context (src dest : string) (old : option node) (c : string) (m : Z).
#[local] Abbreviation tmp := (new_name dest).
Context (Hst : src ≠ tmp) (Hdt : dest ≠ tmp).

(** Before the new binary is moved in, and all along. *)
Definition untouched (d : disk) : Prop := d !! dest = old ∧ d !! src = Some (File c m).
Definition settled (o : unit + error) (d : disk) : Prop :=
  match o with inl _ => d !! dest = Some (File c 493) | _ => d !! dest = old end.

Lemma untouched_apart p : p ≠ dest → p ≠ src → apart_from p untouched.
Proof. intros H1 H2 d c' m' [Hd Hs]. split; by rewrite lookup_insert_ne. Qed.
Lemma untouched_delete p : p ≠ dest → p ≠ src → ∀ d, untouched d → untouched (delete p d).
Proof. intros H1 H2 d [Hd Hs]. split; by rewrite lookup_delete_ne. Qed.

Lemma along_before {A} P (x : io A) f Q :
  along untouched (λ d, untouched d ∧ P d) x (λ o d, untouched d ∧ ∀ a, o = inl a → Q a d) →
  (∀ a, along (old_or_new dest old c) (λ d, untouched d ∧ Q a d) (f a) settled) →
  along (old_or_new dest old c) (λ d, untouched d ∧ P d) (x ≫= f) settled.
Proof.
  intros Hx Hf. apply along_bind with (R := λ o d, untouched d ∧ ∀ a, o = inl a → Q a d).
  - eapply along_weaken; [exact Hx|by intros d [? _]; left|done|done].
  - intros a. eapply along_weaken; [apply (Hf a)|done| |done]. intros d [Hd Hq]. split; [done|by apply Hq].
  - by intros e d [[Hd _] _].
Qed.

Lemma along_move_in : along (old_or_new dest old c) (λ d, untouched d ∧ copied src tmp 493 d) (rename tmp dest)
  (λ o d, match o with inl _ => d !! dest = Some (File c 493) | _ => untouched d end).
Proof.
  apply along_syscall; [by intros d [Hd _]|]. intros d [] d' [[Hd Hs] (c' & m' & Hs' & Ht)] Hf. rewrite Hs in Hs'. simplify_eq. rewrite Ht in Hf.
  destruct (String.eqb_spec tmp dest); [by subst|]. destruct (may_replace _ _); simplify_eq.
  unfold old_or_new. rewrite lookup_insert_eq. split; [by right|done].
Qed.

Lemma along_error {A} (x : io unit) e :
  along untouched (λ d, untouched d ∧ True) x (λ o d, untouched d ∧ ∀ u, o = inl u → True) →
  along (A := A) untouched untouched (_ ← io_drop x; io_fail e) (λ o d, untouched d ∧ ∀ a, o ≠ inl a).
Proof.
  intros Hx. eapply along_bind with (R := λ _, untouched).
  - eapply along_weaken; [exact (along_drop untouched (λ _, True) x Hx)|done|done|by intros ? ? []].
  - intros _. by apply along_fail.
  - by intros.
Qed.

Lemma along_installed handler : (∀ e, along untouched untouched (handler e) (λ o d, untouched d ∧ ∀ u, o ≠ inl u)) →
  along (old_or_new dest old c) (λ d, untouched d ∧ copied src tmp 493 d) (io_on_error (rename tmp dest) handler) settled.
Proof.
  intros Hh. unfold io_on_error. apply along_bind with (R := λ o d, match o with
    | inl (inl _) => d !! dest = Some (File c 493) | _ => untouched d end).
  - eapply along_try; [apply along_move_in|done|done].
  - intros [[]|e]; [by apply along_ret|]. eapply along_weaken; [apply Hh|by intros d [? _]; left|done|].
    intros [u|e'] d [[Hd _] Ho]; [by destruct (Ho u)|done].
  - by intros e d [Hd _].
Qed.

Lemma InstallBinary_along prev : (prev ≠ "" → prev ≠ src) → prev ≠ dest →
  along (old_or_new dest old c) (λ d, untouched d ∧ True) (InstallBinary src dest prev) settled.
Proof.
  intros Hps Hpd. assert (∀ e, along untouched untouched (_ ← io_drop (unlink tmp); io_fail e) (λ o d, untouched d ∧ ∀ u : unit, o ≠ inl u)) as Hclean.
  { intros e. apply along_error, along_unlink, untouched_delete; done. }
  assert (apart_from tmp untouched) as Htmp by by apply untouched_apart.
  unfold InstallBinary. apply (along_before _ _ _ (λ _ _, True)).
  { by eapply along_quiet, along_exists. }
  intros [|]; cbn [negb]; [|by apply along_fail; intros d [[? _] _]].
  apply (along_before _ _ _ (λ _ _, True)); [apply along_keepPrevious; [done|intros; apply untouched_apart; auto]|].
  intros []. apply (along_before _ _ _ (λ _ _, True)).
  { unfold dirWritable. apply (along_step _ _ _ _ (λ _ _, True)); [|by intros []; apply along_keep].
    eapply along_quiet, (along_attempt _ _ _ (λ _ _, True)), along_call. by intros d [] d' Hd _ [= <-]. }
  intros [|].
  - apply (along_before _ _ _ (λ _, copied src tmp 493)).
    + apply along_on_error; [by apply along_CopyFile|]. intros e. eapply along_weaken; [apply (Hclean e)|done|by intros d [? _]|].
      intros o d [Hd Ho]. split; [done|]. intros a ->. by destruct (Ho a).
    + intros []. by apply along_installed.
  - unfold io_wrap, io_on_error. apply along_bind with (R := λ o d, match o with
      | inl (inl _) => d !! dest = Some (File c 493) | _ => d !! dest = old end).
    + apply along_try with (R := settled); [|by intros []|done]. unfold sudo_install. apply (along_before _ _ _ (λ _ _, True)).
      { apply along_call. by intros d [] d' Hd _ [= <-]. }
      intros []. apply (along_before _ _ _ (λ _, copied src tmp 493)); [by apply along_CopyFile|]. intros [].
      eapply along_weaken; [apply along_move_in|done|done|]. by intros [] d; [|intros [? _]].
    + intros [[]|e]; [by apply along_ret|by apply along_fail].
    + done.
Qed.
End binary.

(** Installing a binary is atomic and total: whatever call the machine refuses and
    wherever a copy breaks off, at every moment the binary's path holds what it held
    before or the whole new binary, executable, and nothing else. If the installation
    succeeds it holds the new one, and if it fails, the old. *)
Theorem InstallBinary_atomic src dest prev c m k d :
  d !! src = Some (File c m) → src ≠ new_name dest → dest ≠ new_name dest → prev ≠ src → prev ≠ dest →
  match InstallBinary src dest prev (mkMachine k d) with
  | (o, s, v) => Forall (old_or_new dest (d !! dest) c) v
      ∧ files s !! dest = match o with inl _ => Some (File c 493) | inr _ => d !! dest end
  end.
Proof.
  intros Hs Hst Hdt Hps Hpd.
  pose proof (InstallBinary_along src dest (d !! dest) c m Hst Hdt prev (λ _, Hps) Hpd k d (conj (conj eq_refl Hs) I)) as Hi.
  destruct (InstallBinary _ _ _ _) as [[o s] v]. destruct Hi as [Hv Ho]. split; [done|]. by destruct o.
Qed.

(** *** A running executable *)

Lemma along_retry I A B (f : io unit) :
  along I A f (λ o d, match o with inl _ => B d | _ => A d end) → along I A (retry f) (λ o d, match o with inl _ => B d | _ => A d end).
Proof.
  intros Hf. unfold retry. generalize 10%nat os_error. intros n. induction n as [|n IH]; intros e; cbn [retry_go]; [by apply along_fail|].
  apply along_bind with (R := λ o d, match o with inl (inl _) => B d | _ => A d end).
  - eapply along_try; [exact Hf|done|done].
  - intros [[]|e']; [by apply along_ret|apply IH].
  - done.
Qed.

Section running.
Context (src dest : string) (n0 : node) (c : string) (m : Z).
#[local] Abbreviation old := (dest +:+ ".old").
Context (Hsd : src ≠ dest) (Hso : src ≠ old) (Hfile : ∃ c0 m0, n0 = File c0 m0)
  (Hstat : ∀ k p, refuses k (CStat p) = false).

Definition kept (d : disk) : Prop := d !! dest = Some n0 ∨ d !! old = Some n0.
Definition in_place (d : disk) : Prop := d !! dest = Some n0 ∧ d !! src = Some (File c m).
Definition set_aside (d : disk) : Prop :=
  d !! old = Some n0 ∧ d !! src = Some (File c m) ∧ match d !! dest with Some (Dir _) => False | _ => True end.
Definition swapped (o : unit + error) (d : disk) : Prop :=
  match o with inl _ => d !! dest = Some (File c 493) ∧ d !! old = Some n0
  | _ => (∀ k, refuses k (CRename old dest) = false) → d !! dest = Some n0 end.

Lemma dest_old : dest ≠ old.
Proof. intros H. apply (f_equal String.length) in H. rewrite length_sapp in H. cbn in H. lia. Qed.
Lemma in_place_apart p : p ≠ dest → p ≠ src → apart_from p in_place.
Proof. intros H1 H2 d c' m' [Hd Hs]. split; by rewrite lookup_insert_ne. Qed.
Lemma set_aside_apart : apart_from dest set_aside.
Proof. intros d c' m' (Ho & Hs & _). unfold set_aside. pose proof dest_old. by rewrite lookup_insert_eq, !lookup_insert_ne. Qed.

Lemma along_aside : along kept in_place (rename dest old) (λ o d, match o with inl _ => set_aside d | _ => in_place d end).
Proof.
  pose proof dest_old as Hdo. apply along_syscall; [done|]. intros d [] d' [Hd Hs] Hf. rewrite Hd in Hf.
  destruct (String.eqb_spec dest old); [done|]. destruct (may_replace _ _); simplify_eq.
  unfold kept, set_aside. rewrite lookup_insert_eq. split; [by right|].
  rewrite !lookup_insert_ne, lookup_delete_ne, lookup_delete_eq by done. done.
Qed.

Lemma along_copy_in : along kept set_aside (CopyFile src dest 493)
  (λ o d, match o with inl _ => set_aside d ∧ d !! dest = Some (File c 493) | _ => set_aside d end).
Proof.
  eapply along_weaken; [apply (along_CopyFile set_aside (λ _, True)); [done|apply set_aside_apart]|by intros d [? _]; right|done|].
  intros o d [Hd Ho]. destruct o; [|done..]. split; [done|]. destruct (Ho _ eq_refl) as (c' & m' & Hs & Hc).
  destruct Hd as (_ & Hs' & _). rewrite Hs in Hs'. by simplify_eq.
Qed.
Lemma along_there : along kept in_place (io_exists dest) (λ o d, in_place d ∧ o = inl true).
Proof.
  intros k d [Hd Hs]. unfold io_exists, stat, io_try, syscall, mbind, io_bind. cbn [call_no files]. rewrite Hstat, Hd. cbn.
  split; [|done]. constructor; [by left|constructor].
Qed.

Lemma along_clear : along kept set_aside (io_drop (unlink dest)) (λ o d, o = inl tt ∧ set_aside d).
Proof.
  pose proof dest_old as Hdo. apply along_dropped, along_syscall; [done|]. intros d [] d' (Ho & Hs & Hd) Hf.
  destruct (d !! dest) as [[c' m'|]|]; simplify_eq. unfold kept, set_aside. rewrite lookup_delete_eq, !lookup_delete_ne by done. auto.
Qed.

Lemma along_put_back : along kept set_aside (io_drop (rename old dest))
  (λ o d, o = inl tt ∧ ((∀ k, refuses k (CRename old dest) = false) → d !! dest = Some n0)).
Proof.
  pose proof dest_old as Hdo. apply along_dropped. intros k d (Ho & Hs & Hd). unfold rename, syscall. cbn [call_no files].
  destruct (refuses k _) eqn:Hr; [split; [constructor|intros Hall; by rewrite Hall in Hr]|]. rewrite Ho.
  destruct (String.eqb_spec old dest); [done|]. destruct Hfile as (c0 & m0 & ->).
  assert (kept (<[dest:=File c0 m0]> (delete old d))) by (left; subst n0; by rewrite lookup_insert_eq).
  destruct (d !! dest) as [[c' m'|]|]; [|done|]; cbn; rewrite lookup_insert_eq; (split; [by constructor|done]).
Qed.

Lemma along_swap_in : along kept set_aside
  (io_on_error (retry (CopyFile src dest 493)) (λ e,
     _ ← io_drop (unlink dest); _ ← (if true then io_drop (rename old dest) else mret tt); io_fail (Wrapf "installing %s: %w" [Base dest] e)))
  swapped.
Proof.
  unfold io_on_error. apply along_bind with (R := λ o d, match o with inl (inl _) => set_aside d ∧ d !! dest = Some (File c 493)
    | inl (inr _) => set_aside d | inr _ => False end).
  - eapply along_try; [apply (along_retry _ _ _ _ along_copy_in)|done|done].
  - intros [u|e]; [apply along_ret; by intros d [(? & _) ?]|].
    apply along_bind with (R := λ o d, o = inl tt ∧ set_aside d); [apply along_clear| |by intros ? ? []].
    intros []. eapply along_bind with (R := λ o d, o = inl tt ∧ ((∀ k, refuses k (CRename old dest) = false) → d !! dest = Some n0)).
    + eapply along_weaken; [apply along_put_back|done|by intros d []|done].
    + intros []. apply along_fail. by intros d [].
    + by intros ? ? [].
  - done.
Qed.

(** The steps before the executable is moved. *)
Lemma along_unmoved {A} P (x : io A) f Q :
  along in_place (λ d, in_place d ∧ P d) x (λ o d, in_place d ∧ ∀ a, o = inl a → Q a d) →
  (∀ a, along kept (λ d, in_place d ∧ Q a d) (f a) swapped) →
  along kept (λ d, in_place d ∧ P d) (x ≫= f) swapped.
Proof.
  intros Hx Hf. apply along_bind with (R := λ o d, in_place d ∧ ∀ a, o = inl a → Q a d).
  - eapply along_weaken; [exact Hx|by intros d [? _]; left|done|done].
  - intros a. eapply along_weaken; [apply (Hf a)|done| |done]. intros d [Hd Hq]. split; [done|by apply Hq].
  - intros e d [[Hd _] _] _. done.
Qed.

Lemma SwapExecutable_along prev : prev ≠ src → prev ≠ dest →
  along kept (λ d, in_place d ∧ True) (SwapExecutable src dest prev) swapped.
Proof.
  intros Hps Hpd. pose proof dest_old as Hdo. unfold SwapExecutable. apply (along_unmoved _ _ _ (λ _ _, True)).
  { by eapply along_quiet, along_exists. }
  intros [|]; cbn [negb]; [|apply along_fail; by intros d [[? _] _] _].
  apply (along_unmoved _ _ _ (λ _ _, True)); [apply along_keepPrevious; [done|intros; by apply in_place_apart]|].
  intros []. apply (along_unmoved _ _ _ (λ _ _, True)).
  { apply along_drop, along_unlink. intros d [Hd Hs]. split; by rewrite lookup_delete_ne. }
  intros []. apply along_bind with (R := λ o d, in_place d ∧ o = inl true).
  { eapply along_weaken; [apply along_there|done|by intros d [? _]|done]. }
  - intros moved. apply along_bind with (R := λ o d, moved = true ∧ match o with inl _ => set_aside d | inr _ => in_place d end).
    + destruct moved; [|intros k d [_ [=]]]. unfold io_wrap, io_on_error.
      apply along_bind with (R := λ o d, match o with inl (inl _) => set_aside d | _ => in_place d end).
      * eapply along_try; [eapply along_weaken; [apply (along_retry _ _ _ _ along_aside)|done|by intros d [? _]|done]|done|done].
      * intros [[]|e]; [by apply along_ret|by apply along_fail].
      * done.
    + intros []. destruct moved; [|intros k d [[=] _]]. eapply along_weaken; [apply along_swap_in|done|by intros d []|done].
    + by intros e d [_ [Hd _]] _.
  - intros e d [[Hd _] _] _. done.
Qed.
End running.

(** Replacing a running executable never loses it: at every moment the original is at
    its path or next to it as .old, whatever call the machine refuses and wherever a copy
    breaks off. If the replacement succeeds the path holds the whole new executable and
    the original is kept as .old; if it fails the original is back at its path, unless
    moving it back is refused too. (The machine must be able to say what is there.) *)
Theorem SwapExecutable_keeps src dest prev c m c0 m0 k d :
  (∀ k p, refuses k (CStat p) = false) → d !! src = Some (File c m) → d !! dest = Some (File c0 m0) →
  src ≠ dest → src ≠ dest +:+ ".old" → prev ≠ src → prev ≠ dest →
  match SwapExecutable src dest prev (mkMachine k d) with
  | (o, s, v) =>
      Forall (λ d', d' !! dest = Some (File c0 m0) ∨ d' !! (dest +:+ ".old") = Some (File c0 m0)) v
      ∧ match o with
        | inl _ => files s !! dest = Some (File c 493) ∧ files s !! (dest +:+ ".old") = Some (File c0 m0)
        | inr _ => (∀ k, refuses k (CRename (dest +:+ ".old") dest) = false) → files s !! dest = Some (File c0 m0)
        end
  end.
Proof.
  intros Hstat Hs Hd Hsd Hso Hps Hpd.
  pose proof (SwapExecutable_along src dest (File c0 m0) c m Hsd Hso (ex_intro _ c0 (ex_intro _ m0 eq_refl)) Hstat prev Hps Hpd k d
                (conj (conj Hd Hs) I)) as Hi.
  destruct (SwapExecutable _ _ _ _) as [[o s] v]. destruct Hi as [Hv Ho]. split; [done|]. by destruct o.
Qed.
End safe.

(** ** Unpacking an archive *)

Section archives.
Context {F : Faults} {Ar : Archives}.
#[local] Abbreviation entries := (gmap string (option (string * Z))).

(** What an archive's entries are below the directory, in order: a later entry replaces
    the file of an earlier one (which keeps its mode), and a file is in the way of a
    directory and the other way round. [None]: it cannot be unpacked. *)
Definition make_dirs (rel : string) (es : entries) : option entries :=
  if existsb (λ p, is_file (es !! p)) (parents rel) then None else Some (foldl (λ es p, <[p := None]> es) es (parents rel)).
Definition make_dirs_at (root target : string) (es : entries) : option entries :=
  match place_of root target with AtRoot => Some es | Below rel => make_dirs rel es | Elsewhere => None end.
Definition make_file (rel content : string) (mode : Z) (es : entries) : option entries :=
  if is_dir (es !! rel) || existsb (λ p, is_file (es !! p)) (removelast (parents rel)) then None
  else Some (<[rel := Some (content, match es !! rel with Some (Some (_, m)) => m | _ => mode end)]> es).
Definition unpack_entry (root : string) (h : tar_entry) (es : entries) : option entries :=
  let target := JoinPath [root; Clean (h_name h)] in
  if String.eqb (Clean (h_name h)) "." then Some es else
  match place_of root target, h_kind h with
  | Elsewhere, _ => None
  | _, TarOther => Some es
  | _, TarDir => make_dirs_at root target es
  | AtRoot, TarReg _ _ => None
  | Below rel, TarReg content mode => es' ← make_dirs_at root (path_dir target) es; make_file rel content (Z.lor (Z.land mode 511) 384) es'
  end.
Fixpoint unpack (root : string) (l : list tar_entry) (es : entries) : option entries :=
  match l with [] => Some es | h :: t => es' ← unpack_entry root h es; unpack root t es' end.

(** *** One entry *)

Section entry.
Context (archive dest root : string) (d0 : disk).

(** Nothing but the directory that is unpacked into changes. *)
Definition only_dest (d : disk) : Prop := ∀ p, p ≠ dest → d !! p = d0 !! p.
Definition holds_entries (es : entries) (d : disk) : Prop := d !! dest = Some (Dir es).

Lemma only_dest_insert n d : only_dest d → only_dest (<[dest := n]> d).
Proof. intros H p Hp. rewrite lookup_insert_ne by done. by apply H. Qed.

Lemma along_entries_step c f es (es' : option entries) : f es = es' →
  along only_dest (λ d, only_dest d ∧ holds_entries es d) (syscall c (entries_step dest f))
    (λ o d, only_dest d ∧ ∀ u, o = inl u → ∃ e, es' = Some e ∧ holds_entries e d).
Proof.
  intros <-. apply along_call. intros d [] d' Hd He Hf. unfold entries_step in Hf. rewrite He in Hf.
  destruct (f es) as [e|]; cbn in Hf; simplify_eq. split; [by apply only_dest_insert|]. exists e. split; [done|].
  unfold holds_entries. by rewrite lookup_insert_eq.
Qed.

Lemma along_tar_mkdir target es : place_of root target ≠ Elsewhere →
  along only_dest (λ d, only_dest d ∧ holds_entries es d) (tar_mkdir dest root target)
    (λ o d, only_dest d ∧ ∀ u, o = inl u → ∃ e, make_dirs_at root target es = Some e ∧ holds_entries e d).
Proof.
  intros Hp. unfold tar_mkdir, make_dirs_at. destruct (place_of root target) as [|rel|]; [|by apply along_entries_step|done].
  apply along_call. intros d [] d' Hd He [= <-]. split; [done|]. by exists es.
Qed.

Lemma along_tar_copy rel target content es mode : place_of root target = Below rel →
  along only_dest (λ d, only_dest d ∧ holds_entries (<[rel := Some ("", mode)]> es) d) (tar_copy dest root target content)
    (λ o d, only_dest d ∧ ∀ u, o = inl u → holds_entries (<[rel := Some (content, mode)]> es) d).
Proof.
  intros Hp k d [Hd He]. unfold tar_copy. cbn [call_no files]. rewrite Hp. unfold holds_entries in *. rewrite He, lookup_insert_eq.
  split; [|split].
  - apply Forall_fmap, Forall_forall. intros i _. cbn. by apply only_dest_insert.
  - by apply only_dest_insert.
  - intros u. destruct (refuses k _); [done|]. intros _. rewrite lookup_insert_eq, upto_all, insert_insert_eq. done.
Qed.

Lemma along_tar_write rel target content mode es : place_of root target = Below rel →
  along only_dest (λ d, only_dest d ∧ holds_entries es d) (tar_write dest root target content mode)
    (λ o d, only_dest d ∧ ∀ u, o = inl u → ∃ e, make_file rel content mode es = Some e ∧ holds_entries e d).
Proof.
  intros Hp. set (m' := match es !! rel with Some (Some (_, m)) => m | _ => mode end).
  unfold tar_write. apply (along_step _ _ _ _ (λ _ d, make_file rel content mode es = Some (<[rel := Some (content, m')]> es)
    ∧ holds_entries (<[rel := Some ("", m')]> es) d)).
  - unfold tar_open, make_file. rewrite Hp. eapply along_weaken; [by apply (along_entries_step _ _ es)|done|done|].
    intros o d [Hd Ho]. split; [done|]. intros u Hu. destruct (Ho u Hu) as (e & He & Hh). fold m'. destruct (_ || _); by simplify_eq.
  - intros []. apply (along_step _ _ _ _ (λ r d, match r with
      | inl _ => make_file rel content mode es = Some (<[rel := Some (content, m')]> es) ∧ holds_entries (<[rel := Some (content, m')]> es) d
      | inr _ => True end)).
    + intros k d (Hd & Hm & He). pose proof (along_attempt _ _ _ _ (along_tar_copy rel target content es m' Hp) k d (conj Hd He)) as Ha.
      destruct (io_try _ _) as [[o s] v]. destruct Ha as (Hv & Hs & Ho). split_and!; [done|done|]. intros [u|e] ->; [|done].
      split; [done|]. by apply (Ho (inl u)).
    + intros [u|e].
      * apply along_call. intros d [] d' Hd [Hm He] [= <-]. split; [done|]. eauto.
      * apply (along_step _ _ _ _ (λ _ _, True)); [|intros; apply along_give_up]. apply along_drop, along_call. by intros d [] d' Hd Hs [= <-].
Qed.

(** The two checks on a name and its place agree, and what is above an entry is still
    inside. *)
Lemma inside_place target : (negb (String.eqb target root) && negb (HasPrefix target (root +:+ "/"))) = false → place_of root target ≠ Elsewhere.
Proof.
  unfold place_of, above. destruct (String.eqb target root); [done|]. cbn. intros Hh%negb_false_iff%HasPrefix_spec. destruct Hh as [r ->].
  rewrite strip_prefix_app. by destruct (_ || _).
Qed.
Lemma above_rooted u t : Forall (λ e, plain_elem e = true) (u ++ t) → above (rooted_path (u ++ t)) (rooted_path u) = true.
Proof.
  intros Hp. unfold above. destruct t as [|e t]; [by rewrite app_nil_r, String.eqb_refl|]. destruct u as [|w u]; [cbn; by rewrite orb_true_r|].
  rewrite orb_true_iff. right. apply HasPrefix_spec. exists (Join "/" (e :: t)). unfold rooted_path. rewrite Join_app_sep by done. by rewrite !sapp_assoc.
Qed.
Lemma place_above_dir rl : Forall (λ e, plain_elem e = true) rl → place_of (rooted_path rl) (path_dir (rooted_path rl)) = AtRoot.
Proof.
  intros Hr. unfold place_of. destruct rl as [|w rl _] using rev_ind; [done|]. rewrite path_dir_rooted by done. by rewrite (above_rooted rl [w] Hr).
Qed.
Lemma place_dir rl tl : Forall (λ e, plain_elem e = true) rl → Forall (λ e, plain_elem e = true) tl →
  place_of (rooted_path rl) (rooted_path tl) ≠ Elsewhere → place_of (rooted_path rl) (path_dir (rooted_path tl)) ≠ Elsewhere.
Proof.
  intros Hr Ht. unfold place_of at 1. destruct (above _ _) eqn:Ha.
  { intros _. unfold above in Ha. rewrite !orb_true_iff, !String.eqb_eq in Ha. destruct Ha as [[->| ->]|Ha]; [by rewrite place_above_dir| |].
    - unfold place_of, above. change (path_dir "/") with "/". by rewrite String.eqb_refl, orb_true_r.
    - apply HasPrefix_spec in Ha as [r Hr']. rewrite sapp_assoc in Hr'. destruct (rooted_below tl rl r Ht Hr Hr') as [Hne ->].
      destruct (exists_last Hne) as (u & e & ->). rewrite path_dir_rooted by done. unfold place_of. rewrite <-app_assoc in Hr |- *. by rewrite above_rooted. }
  destruct (strip_prefix _ _) as [r|] eqn:Hp; [|done].
  apply strip_prefix_Some in Hp. rewrite sapp_assoc in Hp. destruct (rooted_below rl tl r Hr Ht Hp) as [Hne ->]. intros _.
  destruct (exists_last (Split_nonempty "/" r)) as (u & e & Hu). rewrite Hu, app_assoc in *.
  rewrite path_dir_rooted by done. unfold place_of.
  destruct u as [|x u]; [pose proof (above_rooted rl []) as Ha0; rewrite !app_nil_r in *; by rewrite Ha0|]. destruct (above _ (rooted_path (rl ++ x :: u))); [done|].
  replace (rooted_path (rl ++ x :: u)) with ((rooted_path rl +:+ "/") +:+ Join "/" (x :: u)); [by rewrite strip_prefix_app|].
  unfold rooted_path. rewrite (Join_app_sep rl) by done. by rewrite !sapp_assoc.
Qed.

Lemma along_tar_entry rl h es : root = rooted_path rl → Forall (λ e, plain_elem e = true) rl →
  along only_dest (λ d, only_dest d ∧ holds_entries es d) (tar_entry_out archive dest root h)
    (λ o d, only_dest d ∧ ∀ u, o = inl u → ∃ e, unpack_entry root h es = Some e ∧ holds_entries e d).
Proof.
  intros Hroot Hrl. unfold tar_entry_out, unpack_entry. destruct (String.eqb (Clean _) ".").
  { apply along_ret. intros d [Hd He]. split; [done|]. eauto. }
  destruct (negb _ && negb _) eqn:Hc; [apply along_give_up|]. apply inside_place in Hc.
  destruct (JoinPath_is_rooted root (Clean (h_name h))) as (tl & Htl & Ht).
  { by rewrite Hroot. }
  rewrite Ht in *. destruct (h_kind h) as [|content mode|].
  - eapply along_weaken; [by apply (along_tar_mkdir _ es)|done|done|]. intros o d [Hd Ho]. split; [done|]. intros u Hu.
    destruct (Ho u Hu) as (e & He & Hh). exists e. by destruct (place_of root _).
  - assert (place_of root (path_dir (rooted_path tl)) ≠ Elsewhere) as Hup by (rewrite Hroot in *; by apply place_dir).
    apply (along_step _ _ _ _ (λ _ d, ∃ e, make_dirs_at root (path_dir (rooted_path tl)) es = Some e ∧ holds_entries e d)).
    { by apply along_tar_mkdir. }
    intros _ k d [Hd (e & Hm & He)]. destruct (place_of root (rooted_path tl)) as [|rel|] eqn:Hp; [|rewrite Hm; cbn|done].
    + unfold tar_write, tar_open, mbind, io_bind, syscall. cbn [call_no files]. rewrite Hp. destruct (refuses k _); by split.
    + by apply (along_tar_write rel _ content _ e Hp).
  - apply along_ret. intros d [Hd He]. split; [done|]. intros u _. exists es. by destruct (place_of root _).
Qed.

Lemma along_tar_loop rl l whole : root = rooted_path rl → Forall (λ e, plain_elem e = true) rl → ∀ es,
  along only_dest (λ d, only_dest d ∧ holds_entries es d) (tar_loop archive dest root l whole)
    (λ o d, only_dest d ∧ ∀ u, o = inl u → whole = true ∧ ∃ e, unpack root l es = Some e ∧ holds_entries e d).
Proof.
  intros Hroot Hrl. induction l as [|h l IH]; intros es; cbn [tar_loop unpack].
  - destruct whole; [|apply along_give_up]. apply along_ret. intros d [Hd He]. split; [done|]. eauto.
  - apply (along_step _ _ _ _ (λ _ d, ∃ e, unpack_entry root h es = Some e ∧ holds_entries e d)).
    { by apply (along_tar_entry rl). }
    intros _ k d [Hd (e & Hu & He)]. rewrite Hu. cbn. by apply IH.
Qed.
End entry.

Lemma Abs_rooted p : is_rooted cwd = true → ∃ rl, Forall (λ e, plain_elem e = true) rl ∧ Abs p = rooted_path rl.
Proof. intros Hc. unfold Abs. destruct (is_rooted p) eqn:Hp; [by apply Clean_is_rooted|by apply JoinPath_is_rooted]. Qed.

(** What unpacking leaves: the directory with all that the archive holds. *)
Definition whole_archive (archive dest : string) (es0 es : entries) : Prop :=
  ∃ l, untar archive = Some (l, true) ∧ unpack (Abs dest) l es0 = Some es.

Lemma along_extractTarGz archive dest d0 es0 : is_rooted cwd = true →
  along (only_dest dest d0) (λ d, only_dest dest d0 d ∧ (d !! dest = None ∧ es0 = ∅ ∨ holds_entries dest es0 d)) (extractTarGz archive dest)
    (λ o d, only_dest dest d0 d ∧ ∀ u, o = inl u → ∃ es, whole_archive archive dest es0 es ∧ holds_entries dest es d).
Proof.
  intros Hc. destruct (Abs_rooted dest Hc) as (rl & Hrl & Hr). unfold extractTarGz.
  apply (along_step _ _ _ _ (λ _ d, d !! dest = None ∧ es0 = ∅ ∨ holds_entries dest es0 d)).
  { apply along_call. intros d [] d' Hd Hp Hf. destruct (d !! archive) as [[|]|]; by simplify_eq. }
  intros _. destruct (untar archive) as [[l whole]|] eqn:Hl; [|apply along_give_up].
  apply (along_step _ _ _ _ (λ _ d, holds_entries dest es0 d)).
  - apply along_call. intros d [] d' Hd [[Hn ->]|He] Hf.
    + rewrite Hn in Hf. simplify_eq. split; [by apply only_dest_insert|]. unfold holds_entries. by rewrite lookup_insert_eq.
    + rewrite He in Hf. by simplify_eq.
  - intros _. eapply along_weaken; [exact (along_tar_loop archive dest (Abs dest) d0 rl l whole Hr Hrl es0)|done|done|].
    intros o d [Hd Ho]. split; [done|]. intros u Hu. destruct (Ho u Hu) as [-> (e & He & Hh)]. exists e. split; [by exists l|done].
Qed.
End archives.

(** ** Replacing a directory *)

Section replace.
Context {F : Faults} {Ar : Archives}.
Context (archive dir : string) (es0 : gmap string (option (string * Z))) (d0 : disk).
#[local] Abbreviation next := (dir +:+ ".new").
#[local] Abbreviation prev := (dir +:+ ".prev").
Context (Hcwd : is_rooted cwd = true) (Hstat : ∀ k p, refuses k (CStat p) = false).

Definition elsewhere_same (d : disk) : Prop := ∀ p, p ≠ dir → p ≠ next → p ≠ prev → d !! p = d0 !! p.
Definition not_yet (d : disk) : Prop := elsewhere_same d ∧ d !! dir = Some (Dir es0).
Definition unpacked (d : disk) (p : string) : Prop := ∃ es, whole_archive archive next ∅ es ∧ d !! p = Some (Dir es).
(** The old directory, or nothing or the whole new one with the old one kept. *)
Definition never_half (d : disk) : Prop :=
  elsewhere_same d ∧ (d !! dir = Some (Dir es0) ∨ d !! prev = Some (Dir es0) ∧ (d !! dir = None ∨ unpacked d dir)).
Definition moved_aside (d : disk) : Prop := elsewhere_same d ∧ d !! prev = Some (Dir es0) ∧ d !! dir = None.
Definition replaced (o : unit + error) (d : disk) : Prop :=
  match o with
  | inl _ => d !! prev = Some (Dir es0) ∧ unpacked d dir
  | inr _ => (∀ k, refuses k (CRename prev dir) = false) → d !! dir = Some (Dir es0)
  end.

Lemma suffix_apart a b : a ≠ b → dir +:+ a ≠ dir +:+ b.
Proof. by intros Hab ?%sapp_inv_head. Qed.
Lemma dir_apart c s : dir ≠ dir +:+ String c s.
Proof. intros H. apply (f_equal String.length) in H. rewrite length_sapp in H. cbn in H. lia. Qed.
Lemma next_prev : next ≠ prev.
Proof. by apply suffix_apart. Qed.

Lemma elsewhere_insert p n d : p = dir ∨ p = next ∨ p = prev → elsewhere_same d → elsewhere_same (<[p := n]> d).
Proof. intros Hp Hd q H1 H2 H3. rewrite lookup_insert_ne by naive_solver. by apply Hd. Qed.
Lemma elsewhere_delete p d : p = dir ∨ p = next ∨ p = prev → elsewhere_same d → elsewhere_same (delete p d).
Proof. intros Hp Hd q H1 H2 H3. rewrite lookup_delete_ne by naive_solver. by apply Hd. Qed.
Lemma not_yet_half d : not_yet d → never_half d.
Proof. intros [? ?]. split; [done|by left]. Qed.
Lemma moved_half d : moved_aside d → never_half d.
Proof. intros (? & ? & ?). split; [done|]. right. split; [done|by left]. Qed.

Lemma only_not_yet p d d' : p = next ∨ p = prev → not_yet d → only_dest p d d' → not_yet d'.
Proof.
  intros Hp [Hd Ho] Hs. split; [|rewrite Hs; [done|destruct Hp as [->| ->]; apply dir_apart]]. intros q H1 H2 H3.
  rewrite Hs by (destruct Hp as [->| ->]; done). by apply Hd.
Qed.
(** Clearing one of the two directories next to it, whatever comes of it. *)
Lemma removeAll_only p k d : match removeAll p (mkMachine k d) with (o, s, v) => Forall (only_dest p d) v ∧ only_dest p d (files s) end.
Proof.
  unfold removeAll. cbn [call_no files]. assert (∀ n, only_dest p d (<[p := n]> d)) as Hi by (intros n q Hq; by rewrite lookup_insert_ne).
  assert (only_dest p d (delete p d)) as Hdel by (intros q Hq; by rewrite lookup_delete_ne).
  assert (only_dest p d d) as Hid by done. destruct (d !! p) as [[|]|], (refuses k _); by repeat constructor.
Qed.
Lemma along_clear_dir p P : p = next ∨ p = prev →
  along not_yet (λ d, not_yet d ∧ P d) (io_drop (removeAll p)) (λ o d, not_yet d ∧ ∀ u, o = inl u → True).
Proof.
  intros Hp. apply along_drop. intros k d [Hd _]. pose proof (removeAll_only p k d) as Hc.
  destruct (removeAll _ _) as [[o s] v]. destruct Hc as [Hv Hs]. pose proof (λ d', only_not_yet p d d' Hp Hd) as Hk.
  split_and!; [by eapply Forall_impl|by apply Hk|done].
Qed.
Lemma along_clear_prev : along not_yet (λ d, not_yet d ∧ unpacked d next) (io_drop (removeAll prev)) (λ o d, not_yet d ∧ unpacked d next).
Proof.
  eapply along_weaken; [apply (along_dropped not_yet (λ d, not_yet d ∧ unpacked d next) _ (λ d, not_yet d ∧ unpacked d next))|done|done|by intros o d []].
  intros k d [Hd (es & Hw & Hn)]. pose proof (removeAll_only prev k d) as Hc. destruct (removeAll _ _) as [[o s] v]. destruct Hc as [Hv Hs].
  pose proof (λ d', only_not_yet prev d d' (or_intror eq_refl) Hd) as Hk. split; [by eapply Forall_impl|]. split; [by apply Hk|].
  exists es. rewrite Hs by apply next_prev. done.
Qed.
Lemma along_fresh : along not_yet (λ d, not_yet d ∧ (d !! next = None ∨ ∀ k, refuses k (CRemoveAll next) = false)) (io_drop (removeAll next))
  (λ o d, not_yet d ∧ ∀ u, o = inl u → d !! next = None).
Proof.
  unfold io_drop. apply along_bind with (R := λ o d, not_yet d ∧ d !! next = None).
  - intros k d [Hd Hn]. unfold io_try. pose proof (removeAll_only next k d) as Hc.
    pose proof (λ d', only_not_yet next d d' (or_introl eq_refl) Hd) as Hk.
    assert (files (removeAll next (mkMachine k d)).1.2 !! next = None) as Hf.
    { unfold removeAll. cbn [call_no files fst snd]. destruct Hn as [Hn|Hr]; [rewrite Hn; destruct (refuses _ _); [done|apply lookup_delete_eq]|].
      rewrite Hr. destruct (d !! next) as [[|]|]; apply lookup_delete_eq. }
    destruct (removeAll _ _) as [[[a|e] s] v]; destruct Hc as [Hv Hs]; (split_and!; [by eapply Forall_impl|by apply Hk|done]).
  - intros a. apply along_ret. by intros d [? ?].
  - by intros e d [? ?].
Qed.

Lemma along_unpack : along not_yet (λ d, not_yet d ∧ d !! next = None) (extractTarGz archive next)
  (λ o d, not_yet d ∧ ∀ u, o = inl u → unpacked d next).
Proof.
  intros k d [[Hd Ho] Hn]. assert (∀ d', only_dest next d d' → not_yet d') as Hk.
  { intros d' Hd'. split; [|by rewrite Hd' by apply dir_apart]. intros p H1 H2 H3. rewrite Hd' by done. by apply Hd. }
  pose proof (along_extractTarGz archive next d ∅ Hcwd k d (conj (λ _ _, eq_refl) (or_introl (conj Hn eq_refl)))) as He.
  destruct (extractTarGz _ _ _) as [[o s] v]. destruct He as (Hv & Hs & Hes). split; [by eapply Forall_impl|]. split; [by apply Hk|exact Hes].
Qed.

Lemma along_old_aside : along never_half (λ d, not_yet d ∧ unpacked d next) (rename dir prev)
  (λ o d, match o with inl _ => moved_aside d ∧ unpacked d next | inr _ => not_yet d end).
Proof.
  pose proof (dir_apart "." "prev") as Hdp. pose proof (dir_apart "." "new") as Hdn. pose proof next_prev as Hnp.
  apply along_syscall; [by intros d []|]. intros d [] d' [[Hd Ho] (es & Hw & Hn)] Hf. rewrite Ho in Hf.
  destruct (String.eqb_spec dir prev); [done|]. destruct (may_replace _ _); simplify_eq.
  assert (moved_aside (<[prev:=Dir es0]> (delete dir d))) as Hm.
  { split_and!; [apply elsewhere_insert; [auto|]; apply elsewhere_delete; auto|by rewrite lookup_insert_eq|]. by rewrite lookup_insert_ne, lookup_delete_eq. }
  split; [by apply moved_half|]. split; [done|]. exists es. split; [done|]. by rewrite lookup_insert_ne, lookup_delete_ne.
Qed.

Lemma along_new_in : along never_half (λ d, moved_aside d ∧ unpacked d next) (rename next dir)
  (λ o d, match o with inl _ => replaced o d | inr _ => moved_aside d end).
Proof.
  pose proof (dir_apart "." "prev") as Hdp. pose proof (dir_apart "." "new") as Hdn. pose proof next_prev as Hnp.
  apply along_syscall; [by intros d []|]. intros d [] d' [(Hd & Ho & Hno) (es & Hw & Hn)] Hf. rewrite Hn, Hno in Hf.
  destruct (String.eqb_spec next dir); [done|]. cbn in Hf. simplify_eq.
  assert ((<[dir:=Dir es]> (delete next d)) !! prev = Some (Dir es0)) as Hp by by rewrite lookup_insert_ne, lookup_delete_ne.
  assert (unpacked (<[dir:=Dir es]> (delete next d)) dir) as Hu by (exists es; by rewrite lookup_insert_eq).
  split; [|by split]. split; [|by right; split; [|right]]. apply elsewhere_insert; [auto|]. apply elsewhere_delete; auto.
Qed.

Lemma along_old_back : along never_half moved_aside (rename prev dir) (λ o d, (∀ k, refuses k (CRename prev dir) = false) → d !! dir = Some (Dir es0)).
Proof.
  pose proof (dir_apart "." "prev") as Hdp. intros k d (Hd & Ho & Hno). unfold rename, syscall. cbn [call_no files].
  destruct (refuses k _) eqn:Hr; [split; [constructor|intros Hall; by rewrite Hall in Hr]|]. rewrite Ho, Hno.
  destruct (String.eqb_spec prev dir); [done|]. cbn. rewrite lookup_insert_eq. split; [|done]. constructor; [|constructor].
  split; [|left; by rewrite lookup_insert_eq]. apply elsewhere_insert; [auto|]. apply elsewhere_delete; auto.
Qed.

(** What is there, when the machine can say. *)
Lemma along_sure_exists (I P : disk → Prop) p (b : bool) : (∀ d, P d → I d) → (∀ d, P d → (if b then is_Some (d !! p) else d !! p = None)) →
  along I P (io_exists p) (λ o d, P d ∧ o = inl b).
Proof.
  intros HI Hp k d Hd. unfold io_exists, stat, io_try, syscall, mbind, io_bind. cbn [call_no files]. rewrite Hstat. specialize (Hp d Hd).
  destruct b; [destruct Hp as [n ->]|rewrite Hp]; cbn; by repeat constructor; auto.
Qed.

Lemma along_replaced : along never_half (λ d, not_yet d ∧ (d !! next = None ∨ ∀ k, refuses k (CRemoveAll next) = false)) (ReplaceDirFromTarGz archive dir) replaced.
Proof.
  assert (∀ P (e : error), along never_half (λ d, not_yet d ∧ P d) (_ ← io_drop (removeAll next); io_fail e) (λ o d, not_yet d ∧ ∀ u : unit, o ≠ inl u)) as Hclean.
  { intros P e. apply along_bind with (R := λ _, not_yet); [|intros; by apply along_fail|by intros].
    eapply along_weaken; [apply (along_clear_dir next P); by left|apply not_yet_half|done|by intros o d []]. }
  assert (∀ o d, not_yet d ∧ (∀ u : unit, o ≠ inl u) → replaced o d) as Hfail.
  { intros [u|e] d [[_ Hd] Ho]; [by destruct (Ho u)|by intros _]. }
  unfold ReplaceDirFromTarGz. apply along_bind with (R := λ o d, not_yet d ∧ ∀ u, o = inl u → d !! next = None).
  { eapply along_weaken; [apply along_fresh|apply not_yet_half|done|done]. }
  2: by intros e d [[_ Hd] _] _.
  intros []. apply along_bind with (R := λ o d, not_yet d ∧ ∀ u, o = inl u → unpacked d next).
  { eapply along_recover with (R := λ o d, not_yet d ∧ ∀ u, o = inl u → unpacked d next).
    - eapply along_weaken; [apply along_unpack|apply not_yet_half| |done]. intros d [Hd Hn]. split; [done|by apply (Hn tt)].
    - done.
    - intros e. eapply along_weaken; [apply (Hclean (λ _, True))|done|by intros d [? _]|]. intros o d [Hd Ho]. split; [done|]. intros u ->. by destruct (Ho u). }
  2: by intros e d [[_ Hd] _] _.
  intros []. apply along_bind with (R := λ o d, (not_yet d ∧ unpacked d next) ∧ o = inl true).
  { eapply along_weaken; [apply (along_sure_exists never_half (λ d, not_yet d ∧ unpacked d next) dir true)|done| |done].
    - by intros d [?%not_yet_half _].
    - by intros d [[_ ->] _].
    - intros d [Hd Hu]. split; [done|by apply (Hu tt)]. }
  2: by intros e d [[[_ Hd] _] _] _.
  intros there. apply along_bind with (R := λ o d, match o with inl _ => moved_aside d ∧ unpacked d next | inr _ => not_yet d end).
  { destruct there; [|by intros k d [_ [=]]]. apply along_bind with (R := λ _ d, not_yet d ∧ unpacked d next).
    - eapply along_weaken; [apply along_clear_prev|apply not_yet_half|by intros d []|done].
    - intros []. eapply along_recover; [apply along_old_aside|done|]. intros e. cbn.
      eapply along_weaken; [apply (Hclean (λ _, True))|done|done|]. intros [u|e'] d [Hd Ho]; [by destruct (Ho u)|done].
    - by intros e d []. }
  2: by intros e d [_ Hd] _.
  intros []. eapply along_recover; [apply along_new_in|done|]. intros e. cbn.
  apply along_bind with (R := λ o d, moved_aside d ∧ o = inl true).
  { apply along_sure_exists; [apply moved_half|by intros d (_ & -> & _)]. }
  2: by intros e' d [_ [=]].
  intros back. apply along_bind with (R := λ o d, o = inl tt ∧ ((∀ k, refuses k (CRename prev dir) = false) → d !! dir = Some (Dir es0))).
  { destruct back; [|by intros k d [_ [=]]]. apply along_dropped. eapply along_weaken; [apply along_old_back|done|by intros d []|done]. }
  - intros []. apply along_fail. by intros d [_ Hd].
  - by intros e' d [].
Qed.
End replace.

(** C19. Unpacking an archive into a directory's place never leaves it half-written and
    touches nothing else, whatever the archive's entries are called: at every moment, the
    paths other than the directory, its .new and its .prev are as they were, and the
    directory is the old one, or missing or the whole new one with the old one kept as
    .prev. If it succeeds the directory is the whole archive's content and the old one is
    kept; if it fails it is the old one, unless moving it back is refused too. (There is
    no .new from an earlier run, or it can be removed, and the machine can say what is
    there.) *)
Theorem ReplaceDirFromTarGz_whole {F : Faults} {Ar : Archives} archive dir es0 k d :
  is_rooted cwd = true → (∀ k p, refuses k (CStat p) = false) → d !! dir = Some (Dir es0) →
  d !! (dir +:+ ".new") = None ∨ (∀ k, refuses k (CRemoveAll (dir +:+ ".new")) = false) →
  match ReplaceDirFromTarGz archive dir (mkMachine k d) with
  | (o, s, v) => Forall (never_half archive dir es0 d) v ∧ replaced archive dir es0 o (files s)
  end.
Proof.
  intros Hc Hs Hd Hn. apply (along_replaced archive dir es0 d Hc Hs k d). by repeat split.
Qed.

(** ** Examples *)

(** A machine that refuses one kind of call. *)
Definition refusing (c : call_kind → bool) : Faults := {| refuses := λ _, c; gets_through := λ _, 2%nat |}.
Definition refuse_rename_to (p : string) : Faults := refusing (λ c, match c with CRename _ b => String.eqb b p | _ => false end).
Definition refuse_write_to (p : string) : Faults := refusing (λ c, match c with CWrite q => String.eqb q p | _ => false end).
Definition sample_disk : disk := {["/tmp/odb" := File "new" 420; "/usr/bin/odb" := File "old" 493]}.

Definition fails {A} (r : (A + error) * machine * list disk) : bool := match r with (inr _, _, _) => true | _ => false end.

Lemma InstallBinary_atomic_witness :
  let '(o, s, v) := @InstallBinary (refuse_write_to "/usr/bin/.odb.new") "/tmp/odb" "/usr/bin/odb" "/var/odb/prev" (mkMachine 0 sample_disk) in
  fails (o, s, v) = true ∧ files s !! "/usr/bin/odb" = Some (File "old" 493).
Proof.
  pose proof (@InstallBinary_atomic (refuse_write_to "/usr/bin/.odb.new") "/tmp/odb" "/usr/bin/odb" "/var/odb/prev" "new" 420 0 sample_disk
    ltac:(vm_compute; reflexivity) ltac:(vm_compute; discriminate) ltac:(vm_compute; discriminate) ltac:(discriminate) ltac:(discriminate)) as H.
  assert (fails (@InstallBinary (refuse_write_to "/usr/bin/.odb.new") "/tmp/odb" "/usr/bin/odb" "/var/odb/prev" (mkMachine 0 sample_disk)) = true) as He
    by (vm_compute; reflexivity).
  destruct (@InstallBinary _ _ _ _ _) as [[[u|e] s] v]; [discriminate He|]. destruct H as [_ H]. split; [reflexivity|]. rewrite H. vm_compute. reflexivity.
Defined.

Lemma SwapExecutable_keeps_witness :
  let '(o, s, v) := @SwapExecutable (refuse_write_to "/usr/bin/odb") "/tmp/odb" "/usr/bin/odb" "" (mkMachine 0 sample_disk) in
  fails (o, s, v) = true ∧ files s !! "/usr/bin/odb" = Some (File "old" 493).
Proof.
  pose proof (@SwapExecutable_keeps (refuse_write_to "/usr/bin/odb") "/tmp/odb" "/usr/bin/odb" "" "new" 420 "old" 493 0 sample_disk
    ltac:(intros; reflexivity) ltac:(vm_compute; reflexivity) ltac:(vm_compute; reflexivity) ltac:(discriminate) ltac:(discriminate)
    ltac:(discriminate) ltac:(discriminate)) as H.
  assert (fails (@SwapExecutable (refuse_write_to "/usr/bin/odb") "/tmp/odb" "/usr/bin/odb" "" (mkMachine 0 sample_disk)) = true) as He
    by (vm_compute; reflexivity).
  destruct (@SwapExecutable _ _ _ _ _) as [[[u|e] s] v]; [discriminate He|]. destruct H as [_ H]. split; [reflexivity|]. apply H. intros. reflexivity.
Defined.

Definition sample_archive (l : list tar_entry) : Archives := {| untar := λ _, Some (l, true); cwd := "/home/me" |}.
Definition good_archive : Archives := sample_archive [mkTar "./a/" TarDir; mkTar "a/b.go" (TarReg "b" 420)].
Definition bad_archive : Archives := sample_archive [mkTar "ok" (TarReg "b" 420); mkTar "../../etc/passwd" (TarReg "b" 420)].
Definition sample_sources : gmap string (option (string * Z)) := {["main.go" := Some ("old", 420%Z)]}.
Definition sample_tree : disk := {["/tmp/a.tgz" := File "" 420; "src" := Dir sample_sources]}.
Definition well : Faults := refusing (λ _, false).

Lemma ReplaceDirFromTarGz_whole_witness :
  replaced (F := well) (Ar := good_archive) "/tmp/a.tgz" "src" sample_sources (inl tt)
    (files (@ReplaceDirFromTarGz well good_archive "/tmp/a.tgz" "src" (mkMachine 0 sample_tree)).1.2)
  ∧ fails (@ReplaceDirFromTarGz well bad_archive "/tmp/a.tgz" "src" (mkMachine 0 sample_tree)) = true
  ∧ files (@ReplaceDirFromTarGz well bad_archive "/tmp/a.tgz" "src" (mkMachine 0 sample_tree)).1.2 !! "src" = Some (Dir sample_sources).
Proof.
  pose proof (@ReplaceDirFromTarGz_whole well good_archive "/tmp/a.tgz" "src" sample_sources 0 sample_tree ltac:(reflexivity) ltac:(intros; reflexivity)
    ltac:(vm_compute; reflexivity) ltac:(left; vm_compute; reflexivity)) as H.
  pose proof (@ReplaceDirFromTarGz_whole well bad_archive "/tmp/a.tgz" "src" sample_sources 0 sample_tree ltac:(reflexivity) ltac:(intros; reflexivity)
    ltac:(vm_compute; reflexivity) ltac:(left; vm_compute; reflexivity)) as H'.
  assert (fails (@ReplaceDirFromTarGz well good_archive "/tmp/a.tgz" "src" (mkMachine 0 sample_tree)) = false) as He by (vm_compute; reflexivity).
  assert (fails (@ReplaceDirFromTarGz well bad_archive "/tmp/a.tgz" "src" (mkMachine 0 sample_tree)) = true) as He' by (vm_compute; reflexivity).
  destruct (@ReplaceDirFromTarGz well good_archive _ _ _) as [[[[]|e] s] v]; [|discriminate He].
  destruct (@ReplaceDirFromTarGz well bad_archive _ _ _) as [[[u|e'] s'] v']; [discriminate He'|].
  destruct H as [_ H], H' as [_ H']. split; [exact H|]. split; [reflexivity|]. apply H'. intros. reflexivity.
Defined.
