(* ===== verification/Github.v ===== *)
(** * The release client and the start-time notice (internal/update/github.go, notice.go)

    Lists, downloads and their checks on a disk whose calls can fail. What a server
    answers, the clock and the deadlines are the class [Network]: an answer depends on
    the request and on when it is made. *)
From S2P Require Import Prelude GoStrings GoNum GoRunes GoUrl GoPath Sha256 GoTime GoTimeParse GoDuration Json Version Checksums Select Effects Storage Disk.
Open Scope string_scope.
Open Scope list_scope.

(** ** Requests *)

(** An answer's body may break off. *)
Inductive http_answer : Type :=
| NoAnswer
| Answer (status : Z) (etag body : string) (cut : bool).
Class Network := {
  answer : nat → string → list (string * string) → http_answer;
  clock : nat → time;
  (** How the machine writes a time (RFC 3339, in its own zone). *)
  time_text : time → string;
  (** Whether a deadline has passed, before the i-th thing done at a moment. *)
  expired : nat → nat → bool }.

Section client.
Context {F : Faults} {Net : Network} {IP : IPLiterals} {E : Env} {U : Unicode}.

Definition agent_header : string * string := ("User-Agent", "odb-updater").
Definition request (url : string) : io unit :=
  match url_parse url with Some _ => mret tt | None => io_fail (Errorf "parse %q" [url]) end.
Definition http_error : error := Errorf "Get: no answer" [].
Definition http_do (url : string) (headers : list (string * string)) : io (Z * string * (string * bool)) :=
  a ← moment (λ k, answer k url headers);
  match a with
  | NoAnswer => io_fail http_error
  | Answer status etag body cut => mret (status, etag, (body, cut))
  end.
(** io.ReadAll(io.LimitReader(body, limit)). *)
Definition limited (limit : N) (b : string * bool) : option string :=
  if (limit <=? N.of_nat (String.length b.1))%N then Some (substring 0 (N.to_nat limit) b.1) else if (b.2 : bool) then None else Some b.1.
Definition read_body (limit : N) (b : string * bool) : io string :=
  match limited limit b with Some t => mret t | None => io_fail (Errorf "unexpected EOF" []) end.

(** ** The client *)

Record Client : Type := mkClient { BaseURL : string; Repo : string; CachePath : string; NoticePath : string }.
Definition DefaultBaseURL : string := "https://api.github.com".
Definition DefaultRepo : string := "OxynDB/oxyndb".

Definition NewClient (cachePath : string) : Client :=
  let base := trim_right_by (Ascii.eqb "/") (TrimSpace (getenv "ODB_UPDATE_BASE_URL")) in
  let base := if String.eqb base "" then DefaultBaseURL else base in
  let repo := TrimSpace (getenv "ODB_REPO") in
  let repo := if String.eqb repo "" then DefaultRepo else repo in
  mkClient base repo cachePath (if String.eqb cachePath "" then "" else JoinPath [path_dir cachePath; "update-notice.json"]).

(** ** The releases list and its cache *)

Definition decode_asset (j : json) : option Asset :=
  m ← as_object j;
  name ← field as_string "" "name" m; size ← field as_int 0%Z "size" m; url ← field as_string "" "browser_download_url" m;
  Some (mkAsset name size url).
Definition decode_release (j : json) : option Release :=
  m ← as_object j;
  tag ← field as_string "" "tag_name" m; draft ← field as_bool false "draft" m; pre ← field as_bool false "prerelease" m;
  html ← field as_string "" "html_url" m; assets ← field (as_list decode_asset) [] "assets" m;
  Some (mkRelease tag draft pre html assets).
Definition decode_releases (j : json) : option (list Release) :=
  match j with JNull => Some [] | _ => as_list decode_release j end.
Definition ParseReleases (body : string) : io (list Release) :=
  match json_first body ≫= decode_releases with
  | Some rels => mret rels
  | None => io_fail (Errorf "github: reading releases: %w" [])
  end.

(** json.Compact of valid JSON with the HTML escapes of json.Marshal: white space
    outside strings is dropped. *)
Fixpoint compact_go (in_str esc : bool) (l : list ascii) : list ascii :=
  match l with
  | [] => []
  | c :: t =>
      if negb in_str then
        if json_space c then compact_go false false t else c :: compact_go (Ascii.eqb c dquote) false t
      else
        let stays := esc || negb (Ascii.eqb c dquote) in
        let esc' := negb esc && Ascii.eqb c "\" in
        match c, t with
        | "226"%char, "128"%char :: d :: t' =>
            if Ascii.eqb d "168" then to_bytes "\u2028" ++ compact_go true false t'
            else if Ascii.eqb d "169" then to_bytes "\u2029" ++ compact_go true false t'
            else c :: compact_go stays esc' t
        | _, _ =>
            (if Ascii.eqb c "<" || Ascii.eqb c ">" || Ascii.eqb c "&" then to_bytes (json_escape c) else [c]) ++ compact_go stays esc' t
        end
  end.
Definition compact (s : string) : string := of_bytes (compact_go false false (to_bytes s)).

(** An object's text. *)
Definition json_key (k v : string) : string := json_string k +:+ ":" +:+ v.
Definition json_members (l : list (string * string)) : string := "{" +:+ Join "," ((λ kv, json_key (fst kv) (snd kv)) <$> l) +:+ "}".

Record releaseCache : Type := mkCache { CURL : string; CETag : string; CBody : string }.
Definition decode_cache (b : string) : option releaseCache :=
  m ← json_parse b ≫= as_object;
  url ← field as_string "" "url" m; etag ← field as_string "" "etag" m;
  Some (mkCache url etag (List.last (snd ∘ snd <$> filter (λ kv, EqualFold (fst kv) "body" = true) (raw_object b)) "")).
Definition cache_text (rc : releaseCache) : option string :=
  _ ← json_parse (CBody rc);
  Some (json_members [("url", json_string (CURL rc)); ("etag", json_string (CETag rc)); ("body", compact (CBody rc))]).

(** Written next to it and moved in; problems are nobody's concern. *)
Definition keep_file (path : string) (data : option string) : io unit :=
  if String.eqb path "" then mret tt else
  match data with
  | None => mret tt
  | Some b =>
      _ ← io_drop (mkdirAll (path_dir path));
      let tmp := path +:+ ".tmp" in
      w ← io_try (write_file tmp b 420);
      match w with inl _ => io_drop (rename tmp path) | inr _ => mret tt end
  end.

Definition readCache (c : Client) (url : string) : io (option releaseCache) :=
  if String.eqb (CachePath c) "" then mret None else
  b ← io_try (read_file (CachePath c));
  mret (match b with
        | inr _ => None
        | inl b => match decode_cache b with
                   | Some rc => if negb (String.eqb (CURL rc) url) || String.eqb (CBody rc) "" then None else Some rc
                   | None => None
                   end
        end).
Definition writeCache (c : Client) (rc : releaseCache) : io unit := keep_file (CachePath c) (cache_text rc).

Definition releases_url (c : Client) : string := BaseURL c +:+ "/repos/" +:+ Repo c +:+ "/releases?per_page=50".
(** Eight MB. *)
Definition list_limit : N := 8388608.
Definition ListReleases (c : Client) : io (list Release) :=
  let url := releases_url c in
  _ ← request url;
  cached ← readCache c url;
  let conditional := match cached with Some rc => if String.eqb (CETag rc) "" then [] else [("If-None-Match", CETag rc)] | None => [] end in
  '(status, etag, b) ← http_do url (agent_header :: ("Accept", "application/vnd.github+json") :: conditional);
  if (status =? 304)%Z then
    match cached with
    | None => io_fail (Errorf "github: unexpected 304 without a cached list" [])
    | Some rc => ParseReleases (CBody rc)
    end
  else if (status =? 200)%Z then
    body ← read_body list_limit b;
    rels ← ParseReleases body;
    _ ← (if String.eqb etag "" then mret tt else writeCache c (mkCache url etag body));
    mret rels
  else io_fail (Errorf "github: listing releases: HTTP %d" [format_int status]).

(** ** Offers: select.go's methods on the client *)

(** One MB, at most. *)
Definition sums_limit : N := 1048576.
Definition fetchSmall (k : nat) (url : string) : option string :=
  _ ← url_parse url;
  match answer k url [agent_header] with
  | Answer status _ body cut => if (status =? 200)%Z then limited sums_limit (body, cut) else None
  | NoAnswer => None
  end.

Definition select_text (e : select_error) : error :=
  match e with
  | BadVersion pin => Errorf "invalid version %q" [pin]
  | NotNewer tag cur =>
      Errorf "%s is not newer than the installed %s — to go back to an older version, reinstall it with the installer (ODB_VERSION=%s)" [tag; VString cur; tag]
  | MissingFiles tag names => Errorf "release %s is missing %s" [tag; Join ", " names]
  | NoSuchRelease pin => Errorf "no published release %s" [pin]
  | ListFailed => http_error
  | Canceled => Errorf "context deadline exceeded" []
  | FetchFailed tag => Wrapf "%s: fetching %s: %w" [tag; SumsAsset] http_error
  | BadSums tag _ => Wrapf "%s: %w" [tag] (Errorf "SHA256SUMS" [])
  | Unlisted tag names => Errorf "release %s: SHA256SUMS doesn't list %s" [tag; Join ", " names]
  | NothingPinned tag => Errorf "no published release %s with the files this platform needs" [tag]
  | NothingUsable => Errorf "no published release has the files this platform needs" []
  end.
(** The choice made at a moment. *)
Definition chosen {A} (f : nat → outcome select_error A) : io A :=
  r ← moment f;
  match r with Ok a => mret a | Err e => io_fail (select_text e) | Panic w => io_fail (Errorf w []) end.

Definition client_Resolve (c : Client) (current : Version) (t : Target) (pin : string) : io (option Offer) :=
  rels ← ListReleases c;
  chosen (λ k, Resolve (fetchSmall k) (expired k) (Some rels) current t pin).
Definition client_Release (c : Client) (tag : string) (t : Target) : io Offer :=
  rels ← ListReleases c;
  chosen (λ k, FindRelease (fetchSmall k) (Some rels) tag t).
Definition client_Available (c : Client) (current : Version) (t : Target) : io (option Offer) :=
  rels ← ListReleases c;
  chosen (λ _, Available (Some rels) current t).

(** ** Downloads *)

Definition download_mode (name : string) : Z := if HasSuffix name ".tar.gz" then 420 else 493.

Definition Download (c : Client) (a : Asset) (wantSHA dir : string) : io string :=
  _ ← mkdirAll dir;
  let dest := JoinPath [dir; AName a] in
  let part := dest +:+ ".part" in
  _ ← request (AURL a);
  '(status, _, (body, cut)) ← io_wrap "downloading %s: %w" [AName a] (http_do (AURL a) [agent_header]);
  if negb (status =? 200)%Z then io_fail (Errorf "downloading %s: HTTP %d" [AName a; format_int status]) else
  let mode := download_mode (AName a) in
  _ ← create part mode;
  copied ← io_try (write_into body part);
  closed ← io_try (close part);
  let fail {B} (e : error) : io B := _ ← io_drop (unlink part); io_fail e in
  match copied, closed with
  | inr e, _ => fail (Wrapf "downloading %s: %w" [AName a] e)
  | inl _, inr e => if (cut : bool) then fail (Wrapf "downloading %s: %w" [AName a] (Errorf "unexpected EOF" [])) else fail e
  | inl _, inl _ =>
      if (cut : bool) then fail (Wrapf "downloading %s: %w" [AName a] (Errorf "unexpected EOF" [])) else
      let n := Z.of_nat (String.length body) in
      if (0 <? ASize a)%Z && negb (n =? ASize a)%Z
      then fail (Errorf "%s: downloaded %d bytes, expected %d" [AName a; format_int n; format_int (ASize a)])
      else if negb (EqualFold wantSHA (hex_encode (sha256 body)))
      then fail (Errorf "%s: checksum mismatch — the download doesn't match SHA256SUMS; nothing was installed" [AName a])
      else
        _ ← io_drop (chmod part mode);
        _ ← io_on_error (rename part dest) fail;
        mret dest
  end.

(** ** The notice *)

Definition EnvNoCheck : string := "OXYNDB_NO_UPDATE_CHECK".
Definition EnvCheckInterval : string := "OXYNDB_UPDATE_CHECK_INTERVAL".

Definition CheckInterval : Z :=
  let v := TrimSpace (getenv EnvCheckInterval) in
  if String.eqb v "" then (6 * hour)%Z else
  match ParseDuration v with Some d => if (0 <=? d)%Z then d else (6 * hour)%Z | None => (6 * hour)%Z end.

Record noticeCache : Type := mkNotice { CheckedAt : time; NRepo : string; NCurrent : string; NNotice : string }.
(** time.Time's zero value, and its JSON: RFC 3339 by the letter. *)
Definition no_time : time := (- 62135596800 * second)%Z.
Definition strict_rfc3339 (s : string) : bool :=
  negb (match String.get 12 s with Some c => Ascii.eqb c ":" | None => false end)
  && negb (match String.get 19 s with Some c => Ascii.eqb c "," | None => false end)
  && (match String.get (String.length s - 1) s with
      | Some "Z"%char => true
      | _ => let at_ i := default 0%Z (z ← num2 (substring (String.length s - i) 2 s); Some (fst z)) in (at_ 5%nat <? 24)%Z && (at_ 2%nat <? 60)%Z
      end).
Definition decode_time (j : json) : option time :=
  s ← as_string j; t ← time_parse rfc3339nano s; if strict_rfc3339 s then Some t else None.
Definition decode_notice (b : string) : option noticeCache :=
  m ← json_parse b ≫= as_object;
  t ← field decode_time no_time "checked_at" m; repo ← field as_string "" "repo" m; cur ← field as_string "" "current" m;
  n ← field as_string "" "notice" m;
  Some (mkNotice t repo cur n).
Definition notice_text (n : noticeCache) : string :=
  json_members [("checked_at", json_string (time_text (CheckedAt n))); ("repo", json_string (NRepo n));
                ("current", json_string (NCurrent n)); ("notice", json_string (NNotice n))].

(** Whether a remembered notice still answers, at a time. *)
Definition still_good (n : noticeCache) (repo current : string) (within now : Z) : bool :=
  String.eqb (NRepo n) repo && String.eqb (NCurrent n) current && negb (String.eqb (NNotice n) "")
  && let age := time_sub now (CheckedAt n) in negb ((within <? age)%Z || (age <? - minute)%Z).
Definition cachedNotice (c : Client) (current : string) (within : Z) : io (option string) :=
  if String.eqb (NoticePath c) "" || (within <=? 0)%Z then mret None else
  b ← io_try (read_file (NoticePath c));
  match b with
  | inr _ => mret None
  | inl b =>
      match decode_notice b with
      | None => mret None
      | Some n => now ← moment clock; mret (if still_good n (Repo c) current within now then Some (NNotice n) else None)
      end
  end.
Definition rememberNotice (c : Client) (current notice : string) : io unit :=
  now ← moment clock;
  keep_file (NoticePath c) (Some (notice_text (mkNotice now (Repo c) current notice))).

Definition truthy (v : string) : bool := existsb (String.eqb (string_lower (TrimSpace v))) ["1"; "true"; "yes"; "on"].
Definition ShouldCheck (current : string) : bool :=
  if truthy (getenv EnvNoCheck) then false else
  match ParseVersion current with Some v => negb (IsDev v) | None => false end.
Definition CheckTimeout : Z :=
  match ParseDuration (TrimSpace (getenv "OXYNDB_UPDATE_CHECK_TIMEOUT")) with
  | Some d => if (0 <? d)%Z then d else 1500000000
  | None => 1500000000
  end.
Definition Notice (current : string) (o : Offer) : string :=
  "OxynDB " +:+ Tag (ORelease o) +:+ " is available (you have " +:+ current +:+ "). Run `odb update` to get the new capabilities.".

(** What the background check does, and what is there to print when the start is done:
    nothing if the deadline comes first. *)
Definition look (c : Client) (current : string) (cur : Version) (t : Target) : io string :=
  o ← io_try (client_Available c cur t);
  match o with
  | inl (Some o) => let s := Notice current o in _ ← rememberNotice c current s; mret s
  | inl None | inr _ => mret ""
  end.
Definition BackgroundCheck (c : Client) (current : string) (t : Target) : io string :=
  match ParseVersion current with
  | None => mret ""
  | Some cur =>
      r ← cachedNotice c current CheckInterval;
      match r with
      | Some s => mret s
      | None => s ← look c current cur t; late ← moment (λ k, expired k 0); mret (if (late : bool) then "" else s)
      end
  end.

End client.

(** ** What a download leaves *)

Section download.
Context {F : Faults} {Net : Network} {IP : IPLiterals}.
Context (a : Asset) (wantSHA dir : string) (d0 : disk).
#[local] Abbreviation dest := (JoinPath [dir; AName a]).
#[local] Abbreviation part := (dest +:+ ".part").

Definition verified (content : string) : Prop :=
  ((0 < ASize a)%Z → Z.of_nat (String.length content) = ASize a) ∧ EqualFold wantSHA (hex_encode (sha256 content)) = true.
Definition others_same (d : disk) : Prop := ∀ p, p ≠ dest → p ≠ part → d !! p = d0 !! p.
Definition before_move (d : disk) : Prop := others_same d ∧ d !! dest = d0 !! dest.
(** At the file's path: what was there, or a whole verified file. *)
Definition only_verified (d : disk) : Prop :=
  others_same d ∧ (d !! dest = d0 !! dest ∨ ∃ c m, d !! dest = Some (File c m) ∧ verified c).
Definition downloaded (o : string + error) (d : disk) : Prop :=
  others_same d ∧ match o with
  | inl path => path = dest ∧ d !! part = None ∧ ∃ c m, d !! dest = Some (File c m) ∧ verified c
  | inr _ => d !! dest = d0 !! dest ∧ ((∀ k, refuses k (CRemove part) = false) → d !! part = None ∨ d !! part = d0 !! part)
  end.

Lemma dest_part : dest ≠ part.
Proof. intros H. apply (f_equal String.length) in H. rewrite length_sapp in H. cbn [String.length] in H. lia. Qed.
Lemma before_only d : before_move d → only_verified d.
Proof. intros [? ?]. split; [done|by left]. Qed.
Lemma before_apart : apart_from part before_move.
Proof. intros d c m [Ho Hd]. pose proof dest_part. split; [|by rewrite lookup_insert_ne]. intros p H1 H2. rewrite lookup_insert_ne by done. by apply Ho. Qed.
Lemma before_removed d : before_move d → before_move (delete part d).
Proof. intros [Ho Hd]. pose proof dest_part. split; [|by rewrite lookup_delete_ne]. intros p H1 H2. rewrite lookup_delete_ne by done. by apply Ho. Qed.

(** Nothing done to the disk yet. *)
Definition at_start (d : disk) : Prop := before_move d ∧ d !! part = d0 !! part.
Definition has_part (d : disk) : Prop := before_move d ∧ ∃ c m, d !! part = Some (File c m).

Lemma along_http url headers I P : along I P (http_do url headers) (λ _, P).
Proof.
  unfold http_do. apply along_bind with (R := λ _, P); [|intros [|]; by apply along_ret || by apply along_fail|done].
  eapply along_weaken; [apply along_moment|done|done|by intros o d []].
Qed.

Definition gave_up {B} (o : B + error) (d : disk) : Prop :=
  (∀ b, o ≠ inl b) ∧ others_same d ∧ d !! dest = d0 !! dest ∧ ((∀ k, refuses k (CRemove part) = false) → d !! part = None ∨ d !! part = d0 !! part).

(** Giving up: the part is removed. *)
Lemma along_cleaned {B} (e : error) : along (A := B) only_verified has_part (_ ← io_drop (unlink part); io_fail e) gave_up.
Proof.
  apply along_bind with (R := λ o d, o = inl tt ∧ before_move d ∧ ((∀ k, refuses k (CRemove part) = false) → d !! part = None)).
  - apply along_dropped. intros k d [Hd (c & m & Hp)]. unfold unlink, syscall. cbn [call_no files].
    destruct (refuses k _) eqn:Hr; [split; [constructor|split; [done|intros Hall; by rewrite Hall in Hr]]|]. rewrite Hp.
    pose proof (before_removed d Hd) as Hrm. split; [|split; [done|intros _; apply lookup_delete_eq]]. constructor; [by apply before_only|constructor].
  - intros u. apply along_fail. intros d (_ & [Hs Hd] & Hp). split_and!; [done|done|done|auto].
  - by intros e' d [].
Qed.

Lemma gave_up_downloaded (o : string + error) d : gave_up o d → downloaded o d.
Proof. intros (Ho & Hs & Hd). destruct o as [p|e]; [by destruct (Ho p)|done]. Qed.

Lemma along_moved_in body m : along only_verified (λ d, before_move d ∧ d !! part = Some (File body m) ∧ verified body) (rename part dest)
  (λ o d, match o with inl _ => others_same d ∧ d !! part = None ∧ ∃ c m, d !! dest = Some (File c m) ∧ verified c | inr _ => has_part d end).
Proof.
  pose proof dest_part as Hdp. apply along_syscall; [intros d (Hd & Hp & _); split; [done|eauto]|]. intros d [] d' (Hd & Hp & Hv) Hf. rewrite Hp in Hf.
  destruct (String.eqb_spec part dest); [by exfalso; apply Hdp|]. destruct (may_replace _ _); simplify_eq.
  assert (∃ c m0, (<[dest:=File body m]> (delete part d)) !! dest = Some (File c m0) ∧ verified c) as Hc by (exists body, m; by rewrite lookup_insert_eq).
  assert (others_same (<[dest:=File body m]> (delete part d))) as Hs.
  { intros p H1 H2. rewrite lookup_insert_ne, lookup_delete_ne by done. by apply Hd. }
  split; [split; [done|by right]|]. split; [done|]. split; [by rewrite lookup_insert_ne, lookup_delete_eq|done].
Qed.

Lemma along_Download c : along only_verified at_start (Download c a wantSHA dir) downloaded.
Proof.
  assert (∀ d, at_start d → only_verified d) as Hso by (intros d [? _]; by apply before_only).
  assert (∀ (o : string + error) d, (∀ p, o ≠ inl p) → at_start d → downloaded o d) as Hfail.
  { intros [p|e] d Ho [[Hs Hd] Hp]; [by destruct (Ho p)|]. split_and!; [done|done|]. by right. }
  assert (∀ e d, at_start d → downloaded (inr e) d) as Hs by (intros e d; by apply Hfail).
  unfold Download. apply along_bind with (R := λ _, at_start); [| |auto].
  { apply along_syscall; [done|]. intros d [] d' Hd [= <-]. auto. }
  intros []. apply along_bind with (R := λ _, at_start); [unfold request; destruct (url_parse _); by apply along_ret || by apply along_fail| |auto].
  intros _. apply along_bind with (R := λ _, at_start); [| |auto].
  { apply along_recover with (R := λ _, at_start); [apply along_http|done|intros e; by apply along_fail]. }
  intros [[status etag] [body cut]]. destruct (negb _); [apply along_fail; auto|].
  apply along_bind with (R := λ o d, match o with inl _ => before_move d ∧ ∃ m, d !! part = Some (File "" m) | inr _ => at_start d end); [| |auto].
  { apply along_syscall; [done|]. intros d [] d' [Hd Hp] Hf.
    destruct (d !! part) as [[c0 m0|]|]; simplify_eq; (split; [apply before_only|split; [|eexists; by rewrite lookup_insert_eq]]); by apply before_apart. }
  intros []. apply along_bind with (R := λ o d, match o with
    | inl (inl _) => before_move d ∧ ∃ m, d !! part = Some (File body m) | inl (inr _) => has_part d | inr _ => False end); [| |done].
  { eapply along_try with (R := λ o d, before_move d ∧ (∃ c m, d !! part = Some (File c m)) ∧ (o = inl tt → ∃ m, d !! part = Some (File body m))).
    - eapply along_weaken; [apply (along_write before_move body part), before_apart|apply before_only|done|done].
    - intros [] d (Hd & _ & Hb). split; [done|auto].
    - intros e d (Hd & Hp & _). by split. }
  intros copied. apply along_bind with (R := λ o d, (∃ r, o = inl r) ∧ match copied with
    | inl _ => before_move d ∧ ∃ m, d !! part = Some (File body m) | inr _ => has_part d end).
  { eapply along_try with (R := λ o d, match copied with
      | inl _ => before_move d ∧ ∃ m, d !! part = Some (File body m) | inr _ => has_part d end); [|by eauto..].
    apply along_syscall; [by destruct copied|]. intros d [] d' Hd [= <-]. split; [|done]. destruct copied, Hd; auto using before_only. }
  2: by intros e d [[r [=]] _].
  intros closed. assert (∀ e, along only_verified has_part (_ ← io_drop (unlink part); io_fail e) downloaded) as Hclean.
  { intros e. eapply along_weaken; [apply along_cleaned|done|done|apply gave_up_downloaded]. }
  destruct copied as [[]|e]; [|eapply along_weaken; [apply Hclean|done|by intros d []|done]].
  assert (∀ e, along only_verified (λ d, (∃ r : () + error, inl closed = (inl r : (() + error) + error)) ∧ before_move d ∧ ∃ m, d !! part = Some (File body m))
    (_ ← io_drop (unlink part); io_fail e) downloaded) as Hclean'.
  { intros e. eapply along_weaken; [apply Hclean|done|intros d (_ & Hd & m & Hm); split; eauto|done]. }
  destruct closed as [[]|e]; destruct cut; [apply Hclean'| |apply Hclean'..].
  destruct (_ && _) eqn:Hsize; [apply Hclean'|]. destruct (EqualFold _ _) eqn:Hsha; cbn [negb]; [|apply Hclean'].
  assert (verified body) as Hv.
  { split; [|done]. intros Hpos. apply Z.ltb_lt in Hpos. rewrite Hpos in Hsize. cbn in Hsize. apply negb_false_iff, Z.eqb_eq in Hsize. done. }
  apply along_bind with (R := λ o d, o = inl tt ∧ before_move d ∧ ∃ m, d !! part = Some (File body m)); [| |by intros ? ? []].
  { apply along_dropped. eapply along_weaken with (I' := only_verified) (P' := λ d, before_move d ∧ ∃ m, d !! part = Some (File body m)) (Q' := λ _ d, before_move d ∧ ∃ m, d !! part = Some (File body m)); [|done|by intros d []|done].
    apply along_syscall; [done|]. intros d [] d' [Hd [m Hm]] Hf. rewrite Hm in Hf. simplify_eq. split; [by apply before_only; apply before_apart|].
    split; [by apply before_apart|]. eexists. by rewrite lookup_insert_eq. }
  intros []. apply along_bind with (R := λ o d, match o with
    | inl _ => others_same d ∧ d !! part = None ∧ ∃ c m, d !! dest = Some (File c m) ∧ verified c | inr e => downloaded (inr e) d end).
  - apply along_recover with (R := λ o d, match o with inl _ => others_same d ∧ d !! part = None ∧ ∃ c m, d !! dest = Some (File c m) ∧ verified c | inr _ => has_part d end).
    + intros k d (_ & Hd & m & Hm). by apply (along_moved_in body m).
    + by intros [] d.
    + intros e. eapply along_weaken; [apply along_cleaned|done|done|]. intros [u|e'] d (Ho & Hot & Hd); [by destruct (Ho u)|done].
  - intros []. apply along_ret. by intros d (Hot & Hp & Hd).
  - done.
Qed.
End download.

(** C20. Only a verified download is ever installable: whatever the server answers (an
    error page, a body that breaks off, other bytes) and whatever call the machine
    refuses, at every moment the file's path holds what it held before or the whole file,
    of the release's size and with the SHA-256 it lists. A download that succeeds has put
    it there; one that fails has changed nothing there and left no part behind, unless
    removing it is refused too. No other file changes. *)
Theorem Download_verified {F : Faults} {Net : Network} {IP : IPLiterals} c a wantSHA dir k d :
  match Download c a wantSHA dir (mkMachine k d) with
  | (o, s, v) => Forall (only_verified a wantSHA dir d) v ∧ downloaded a wantSHA dir d o (files s)
  end.
Proof. by apply (along_Download a wantSHA dir d c k d). Qed.

(** ** What the notice says and what is remembered *)

Section notice.
Context {F : Faults} {Net : Network} {IP : IPLiterals} {E : Env}.

(** A property that does not look at a path. *)
Definition blind_to (p : string) (R : disk → Prop) : Prop := ∀ d, R d → (∀ n, R (<[p := n]> d)) ∧ R (delete p d).
Lemma blind_apart p R : blind_to p R → apart_from p R.
Proof. intros H d c m Hd. by apply (H d Hd). Qed.

Lemma along_same {A} (R P : disk → Prop) (m : io A) (Q : A → disk → Prop) :
  along R (λ d, R d ∧ P d) m (λ o d, R d ∧ ∀ a, o = inl a → Q a d) → (∀ d, R d → P d) → along R R m (λ _, R).
Proof. intros Hm HP. eapply along_weaken; [exact Hm|done|intros d Hd; split; [done|by apply HP]|by intros o d []]. Qed.

(** Writing a file leaves it whole or an error. *)
Lemma along_write_file (R P : disk → Prop) p data mode : apart_from p R →
  along R (λ d, R d ∧ P d) (write_file p data mode) (λ o d, R d ∧ ∀ u, o = inl u → ∃ m, d !! p = Some (File data m)).
Proof.
  intros Hap. unfold write_file. apply (along_step _ _ _ _ (λ _ d, ∃ m, d !! p = Some (File "" m))).
  { apply along_call. intros d [] d' Hd _ Hf. destruct (d !! p) as [[c m|]|]; simplify_eq; (split; [by apply Hap|eexists; by rewrite lookup_insert_eq]). }
  intros []. apply (along_step _ _ _ _ (λ r d, match r with inl _ => ∃ m, d !! p = Some (File data m) | inr _ => True end)).
  { apply along_attempt. eapply along_weaken; [by apply along_write|done|done|]. intros o d (Hd & _ & Ho). split; [done|]. by intros [] ->; apply Ho. }
  intros w. apply (along_step _ _ _ _ (λ (_ : () + error) d, match w with inl _ => ∃ m, d !! p = Some (File data m) | inr _ => True end)).
  { apply along_idle. }
  intros [[]|e]; destruct w as [[]|e']; [|apply along_give_up..]. apply along_ret. intros d [Hd Hp]. by split; [|intros].
Qed.

Lemma along_rename_blind (R P : disk → Prop) a b : blind_to a R → blind_to b R →
  along R (λ d, R d ∧ P d) (rename a b) (λ o d, R d ∧ ∀ u, o = inl u → True).
Proof.
  intros Ha Hb. apply along_call. intros d [] d' Hd _ Hf. split; [|done]. destruct (d !! a) as [n|]; [|done].
  destruct (String.eqb a b); simplify_eq; [done|]. destruct (may_replace _ _); simplify_eq. apply Hb, Ha, Hd.
Qed.

Lemma along_keep_file (R P : disk → Prop) path data : blind_to path R → blind_to (path +:+ ".tmp") R →
  along R (λ d, R d ∧ P d) (keep_file path data) (λ o d, R d ∧ ∀ u, o = inl u → True).
Proof.
  intros Hp Ht. unfold keep_file. destruct (String.eqb path ""); [apply along_ret; by intros d [Hd _]|].
  destruct data as [b|]; [|apply along_ret; by intros d [Hd _]].
  apply (along_step _ _ _ _ (λ _ _, True)); [apply along_drop, along_call; by intros d [] d' Hd _ [= <-]|].
  intros []. apply (along_step _ _ _ _ (λ _ _, True)).
  { eapply along_weaken; [apply (along_attempt R (λ _, True)), along_write_file, blind_apart, Ht|done|by intros d [? _]|].
    intros o d [Hd _]. by split; [|intros]. }
  intros [u|e]; [by apply along_drop, along_rename_blind|apply along_ret; by intros d [Hd _]].
Qed.

(** Looking for releases touches nothing but the list's cache. *)
Lemma along_moment_same {A} (R P : disk → Prop) (f : nat → A) : along R (λ d, R d ∧ P d) (moment f) (λ o d, R d ∧ ∀ a, o = inl a → P d).
Proof. intros k d [Hd Hp]. split; [constructor|]. by split; [|intros]. Qed.
Lemma along_read_file (R P : disk → Prop) p : along R (λ d, R d ∧ P d) (read_file p) (λ o d, R d ∧ ∀ a, o = inl a → P d ∧ ∃ m, d !! p = Some (File a m)).
Proof. apply along_call. intros d b d' Hd Hp Hf. destruct (d !! p) as [[c m|]|] eqn:Hl; simplify_eq. eauto. Qed.

Lemma along_ListReleases (R P : disk → Prop) c : blind_to (CachePath c) R → blind_to (CachePath c +:+ ".tmp") R →
  along R (λ d, R d ∧ P d) (ListReleases c) (λ o d, R d ∧ ∀ a, o = inl a → True).
Proof.
  intros Hp Ht. assert (∀ b, along R (λ d, R d ∧ True) (ParseReleases b) (λ o d, R d ∧ ∀ a, o = inl a → True)) as Hparse.
  { intros b. unfold ParseReleases. destruct (_ ≫= _); [apply along_keep|apply along_give_up]. }
  unfold ListReleases. apply (along_step _ _ _ _ (λ _ _, True)).
  { unfold request. destruct (url_parse _); [apply along_ret; by intros d [Hd _]|apply along_give_up]. }
  intros _. apply (along_step _ _ _ _ (λ _ _, True)).
  { unfold readCache. destruct (String.eqb _ ""); [apply along_keep|]. apply (along_step _ _ _ _ (λ _ _, True)); [|intros; apply along_keep].
    eapply along_quiet, along_attempt, along_read_file. }
  intros cached. apply (along_step _ _ _ _ (λ _ _, True)).
  { eapply along_weaken; [apply (along_http _ _ R R)|done|by intros d [? _]|by intros o d Hd; split; [|intros]]. }
  intros [[status etag] b]. destruct (status =? 304)%Z; [destruct cached; [apply Hparse|apply along_give_up]|].
  destruct (status =? 200)%Z; [|apply along_give_up]. apply (along_step _ _ _ _ (λ _ _, True)).
  { unfold read_body. destruct (limited _ _); [apply along_keep|apply along_give_up]. }
  intros body. apply (along_step _ _ _ _ (λ _ _, True)); [apply Hparse|]. intros rels.
  apply (along_step _ _ _ _ (λ _ _, True)); [|intros; apply along_keep].
  destruct (String.eqb _ ""); [apply along_keep|by apply along_keep_file].
Qed.

Section check.
Context (c : Client) (current : string) (t : Target) (d0 : disk) (cur : Version).
#[local] Abbreviation path := (NoticePath c).
Context (Hcur : ParseVersion current = Some cur) (Hpc : path ≠ CachePath c) (Hpt : path ≠ CachePath c +:+ ".tmp").

(** A notice of a release that can be installed over the current one. *)
Definition newer_notice (s : string) : Prop := ∃ o, s = Notice current o ∧ installable cur t (ORelease o).
Definition as_before (d : disk) : Prop := d !! path = d0 !! path.
(** The remembered notice is the one from before, or of a newer release. *)
Definition remembers (d : disk) : Prop :=
  as_before d ∨ ∃ now s m, d !! path = Some (File (notice_text (mkNotice now (Repo c) current s)) m) ∧ newer_notice s.
(** What a notice remembered from before says. *)
Definition remembered_notice (s : string) : Prop :=
  ∃ b m n now, d0 !! path = Some (File b m) ∧ decode_notice b = Some n ∧ still_good n (Repo c) current CheckInterval now = true ∧ s = NNotice n.

Lemma blind_as_before p : p ≠ path → blind_to p as_before.
Proof. intros Hp d Hd. unfold as_before. split; [intros n; by rewrite lookup_insert_ne|by rewrite lookup_delete_ne]. Qed.

Lemma along_remember s : newer_notice s →
  along remembers (λ d, as_before d ∧ True) (rememberNotice c current s) (λ o d, o = inl tt).
Proof.
  intros Hs. assert (path +:+ ".tmp" ≠ path) as Htmp.
  { intros H. apply (f_equal String.length) in H. rewrite length_sapp in H. cbn [String.length] in H. lia. }
  unfold rememberNotice. apply along_bind with (R := λ o d, as_before d ∧ ∃ now, o = inl now); [|intros now|by intros ? ? [_ [? [=]]]].
  { intros k d [Hd _]. split; [constructor|]. split; [done|]. by eexists. }
  unfold keep_file. destruct (String.eqb path ""); [by apply along_ret|].
  apply along_bind with (R := λ o d, o = inl tt ∧ as_before d); [|intros []|by intros ? ? [[=] _]].
  { apply along_dropped, along_syscall; [by intros d []|]. intros d [] d' [Hd _] [= <-]. split; [by left|done]. }
  apply along_bind with (R := λ o d, match o with
    | inl (inl _) => as_before d ∧ ∃ m, d !! (path +:+ ".tmp") = Some (File (notice_text (mkNotice now (Repo c) current s)) m)
    | inl (inr _) => as_before d | inr _ => False end); [| |by intros ? ? []].
  - eapply along_try with (R := λ o d, as_before d ∧ ∀ u, o = inl u → ∃ m, d !! (path +:+ ".tmp") = Some (File (notice_text (mkNotice now (Repo c) current s)) m)).
    + eapply along_weaken; [apply (along_write_file as_before (λ _, True)), blind_apart, blind_as_before, Htmp|intros d Hd; by left|by intros d [_ ?]|intros o d Hd; exact Hd].
    + intros u d [Hd Hm]. split; [done|by apply (Hm u)].
    + by intros e d [Hd _].
  - intros [u|e]; [|by apply along_ret].
    eapply along_weaken; [apply (along_dropped remembers (λ d, as_before d ∧ ∃ m, d !! (path +:+ ".tmp") = Some (File (notice_text (mkNotice now (Repo c) current s)) m)) _ (λ _, True))|done|done|by intros o d []].
    apply along_syscall; [done|]. intros d [] d' [Hd [m Hm]] Hf. rewrite Hm in Hf. destruct (String.eqb _ _); simplify_eq; [split; [by left|done]|].
    destruct (may_replace _ _); simplify_eq. split; [|done]. right. exists now, s, m. by rewrite lookup_insert_eq.
Qed.

Lemma along_look : along remembers (λ d, as_before d ∧ True) (look c current cur t) (λ o d, ∃ s, o = inl s ∧ (s = "" ∨ newer_notice s)).
Proof.
  unfold look. apply along_bind with (R := λ o d, as_before d ∧ match o with
    | inl (inl (Some o)) => installable cur t (ORelease o) | inl _ => True | inr _ => False end); [| |by intros ? ? []].
  - eapply along_try with (R := λ o d, as_before d ∧ match o with inl (Some o) => installable cur t (ORelease o) | _ => True end).
    + unfold client_Available. apply along_bind with (R := λ _ d, as_before d ∧ True); [| |by intros e d []].
      * eapply along_weaken; [apply (along_ListReleases as_before (λ _, True) c); by apply blind_as_before|intros d Hd; by left|done|by intros o d [? _]].
      * intros rels. unfold chosen. apply along_bind with (R := λ o d, as_before d ∧ o = inl (Available (Some rels) cur t)); [|intros r|by intros ? ? [_ [=]]].
        { intros k d [Hd _]. split; [constructor|done]. }
        destruct r as [[o|]|e|w]; first [apply along_ret|apply along_fail]; intros d [Hd Ho]; (split; [done|]); try done.
        assert (Available (Some rels) cur t = Ok (Some o)) as Ha by congruence. by apply Available_sound in Ha.
    + by intros [o|] d.
    + by intros e d.
  - intros [[o|]|e]; [|apply along_ret; eauto..]. apply along_bind with (R := λ o' d, o' = inl tt ∧ installable cur t (ORelease o)); [| |by intros ? ? [[=] _]].
    + intros k d [Hd Ho]. pose proof (along_remember (Notice current o) (ex_intro _ o (conj eq_refl Ho)) k d (conj Hd I)) as Hr.
      destruct (rememberNotice _ _ _ _) as [[o' s] v]. by destruct Hr.
    + intros []. apply along_ret. intros d [_ Ho]. eexists. split; [done|]. right. by exists o.
Qed.

Lemma along_BackgroundCheck : along remembers (λ d, as_before d ∧ True) (BackgroundCheck c current t)
  (λ o d, ∃ s, o = inl s ∧ (s = "" ∨ remembered_notice s ∨ newer_notice s)).
Proof.
  unfold BackgroundCheck. rewrite Hcur. apply along_bind with (R := λ o d, as_before d ∧ ∃ r, o = inl r ∧ ∀ s, r = Some s → remembered_notice s).
  - unfold cachedNotice. destruct (_ || _); [apply along_ret; intros d [Hd _]; split; [done|]; by eexists|].
    apply along_bind with (R := λ o d, as_before d ∧ ∃ r, o = inl r ∧ ∀ b, r = inl b → ∃ m, d0 !! path = Some (File b m)); [| |by intros e d (? & r & [=] & _)].
    { eapply along_try with (R := λ o d, as_before d ∧ ∀ b, o = inl b → ∃ m, d0 !! path = Some (File b m)).
      - apply along_syscall; [by intros d []|]. intros d b d' [Hd _] Hf. destruct (d !! path) as [[c' m|]|] eqn:Hp; simplify_eq.
        split; [by left|]. split; [done|]. intros b' [= <-]. exists m. by rewrite <-Hd.
      - intros b d [Hd Hb]. split; [done|]. eexists. split; [done|]. intros b' [= <-]. by apply Hb.
      - intros e d [Hd _]. split; [done|]. by eexists. }
    intros [b|e]; [|apply along_ret; intros d [Hd _]; split; [done|]; by eexists].
    destruct (decode_notice b) as [n|] eqn:Hn; [|apply along_ret; intros d [Hd _]; split; [done|]; by eexists].
    intros k d (Hd & r & [= <-] & Hb). destruct (Hb b eq_refl) as [m Hm]. cbn. split; [constructor|]. split; [done|]. eexists. split; [done|].
    intros s. destruct (still_good _ _ _ _ _) eqn:Hg; [|done]. intros [= <-]. by exists b, m, n, (clock k).
  - intros [s|]; [apply along_ret; intros d (Hd & r & [= <-] & Hs); exists s; split; [done|]; right; left; by apply Hs|].
    apply along_bind with (R := λ o d, ∃ s, o = inl s ∧ (s = "" ∨ newer_notice s)).
    + intros k d (Hd & _). by apply along_look.
    + intros s k d (s' & [= <-] & Hs). cbn. split; [constructor|]. eexists; split; [done|]. destruct (expired _ 0); [by left|]. destruct Hs as [Hs|Hs]; auto.
    + by intros e d (s & [=] & _).
  - by intros e d (Hd & r & [=] & _).
Qed.
End check.
End notice.

(** The check a start makes never fails and never lies: whatever the network and the
    disk do it gives a text, which is empty, or the remembered notice of this repository
    and installed version within the interval, or announces a release of the list that
    is newer than what is installed, promoted and complete for this platform. And all
    along the notice file is as it was or holds a whole notice of such a release. *)
Theorem BackgroundCheck_honest {F : Faults} {Net : Network} {IP : IPLiterals} {E : Env} c current cur t k d :
  ParseVersion current = Some cur → NoticePath c ≠ CachePath c → NoticePath c ≠ CachePath c +:+ ".tmp" →
  match BackgroundCheck c current t (mkMachine k d) with
  | (o, s, v) => Forall (remembers c current t d cur) v
      ∧ ∃ text, o = inl text ∧ (text = "" ∨ remembered_notice c current d text ∨ newer_notice current t cur text)
  end.
Proof. intros Hc H1 H2. by apply (along_BackgroundCheck c current t d cur Hc H1 H2 k d). Qed.

(** ** Example *)

Definition quoted (s : string) : string := smap (λ c, if Ascii.eqb c "'" then dquote else c) s.
Definition one_release : string :=
  quoted "[{'tag_name': 'v0.9.0', 'assets': [{'name': 'SHA256SUMS'}, {'name': 'odb-linux-amd64', 'size': 3}]}]".
Definition github_up : Network := {|
  answer := λ _ url _, if HasSuffix url "per_page=50" then Answer 200 "" one_release false else NoAnswer;
  clock := λ _, 0%Z; time_text := format_rfc3339; expired := λ _ _, false |}.
Definition plain_env : Env := {| getenv := λ _, ""; pgPass := ""; minioUser := ""; minioPass := ""; home_dir := Some "/root" |}.
Definition calm : Faults := {| refuses := λ _ _, false; gets_through := λ _, 0%nat |}.
Definition no_ips : IPLiterals := {| ip_literal := λ _, false |}.
Definition sample_client : Client := @NewClient plain_env "/root/.oxyndb/update-check.json".
Definition linux : Target := mkTarget "linux" "amd64" "amd64".

Lemma BackgroundCheck_honest_witness :
  ∃ text, (@BackgroundCheck calm github_up no_ips plain_env sample_client "0.8.1" linux (mkMachine 0 ∅)).1.1 = inl text
    ∧ newer_notice "0.8.1" linux (mkVersion 0 8 1 "") text.
Proof.
  pose proof (@BackgroundCheck_honest calm github_up no_ips plain_env sample_client "0.8.1" (mkVersion 0 8 1 "") linux 0 ∅
    ltac:(vm_compute; reflexivity) ltac:(vm_compute; discriminate) ltac:(vm_compute; discriminate)) as H.
  assert (∃ c s, (@BackgroundCheck calm github_up no_ips plain_env sample_client "0.8.1" linux (mkMachine 0 ∅)).1.1 = inl (String c s)) as (c & s & He)
    by (vm_compute; eexists _, _; reflexivity).
  destruct (@BackgroundCheck _ _ _ _ _ _ _ _) as [[o m] v]. cbn in He |- *. destruct H as [_ (text & Ho & [->|[(b & mo & n & now & Hb & _)|Hn]])].
  - rewrite He in Ho. discriminate Ho.
  - discriminate Hb.
  - exists text. split; [exact Ho|exact Hn].
Defined.
