(* ===== verification/Update.v ===== *)
(** * odb update (internal/host/host_update*.go, internal/host/host.go, cmd/odb/update.go)

    The update from the check to the last note, over the interface of the place where the
    engine runs; that of a Linux machine is here too. What is printed is left out. A
    program that is run is the class [Programs]: it can do what it likes with the disk. *)
From S2P Require Import Prelude GoStrings GoNum GoRunes GoUrl GoPath Sha256 GoTime Json Version Checksums Select Effects Storage Disk Github Install.
Open Scope string_scope.
Open Scope list_scope.

#[export] Instance target_eq : EqDecision Target.
Proof. solve_decision. Defined.

(** ** What runs elsewhere *)

Class Programs := {
  (** A program with its arguments: what it writes, and whether it fails. *)
  exec : string → list string → io (string * option error);
  (** os.Executable and filepath.EvalSymlinks. *)
  executable : option string;
  eval_symlinks : string → option string;
  (** The platform the program was built for. *)
  goos : string;
  goarch : string }.

Section update.
Context {F : Faults} {Ar : Archives} {Net : Network} {IP : IPLiterals} {E : Env} {U : Unicode} {Pr : Programs}.

Abbreviation downloads := (gmap string string).
Definition file_of (files : downloads) (name : string) : string := default "" (files !! name).

Definition cacheDir : string := JoinPath [user_home; ".oxyndb"].
Definition updateCheckCache : string := JoinPath [cacheDir; "update-check.json"].

(** ** Where the engine runs *)

Record engineHost : Type := mkEngineHost {
  where_ : string;
  prepare : io unit;
  stage : string → io string;
  installed : io string;
  run_there : string → list string → io unit;
  output : string → list string → io (string * option error) }.
Record updateHooks : Type := mkHooks {
  target : io Target;
  preflight : option (io unit);
  afterEngine : option (downloads → io unit);
  replaceHost : option (downloads → Target → io unit);
  checkServers : option (io unit) }.

(** *** A Linux machine *)

Definition hostExecutable : io string :=
  match executable with
  | None => io_fail (Errorf "os.Executable" [])
  | Some exe => mret (default exe (eval_symlinks exe))
  end.
Definition local_run (bin : string) (args : list string) : io unit :=
  r ← exec bin args; match snd r with Some e => io_fail e | None => mret tt end.
Definition localEngine : engineHost := {|
  where_ := "this machine";
  prepare := if String.eqb goos "linux" then mret tt else io_fail (Errorf "unsupported host OS %q" [goos]);
  stage := λ local, mret local;
  installed := hostExecutable;
  run_there := local_run;
  output := exec |}.

(** Up to 20 tries. *)
Fixpoint check_go (n : nat) (last_ : error) : io unit :=
  match n with
  | O => io_fail last_
  | S n => r ← io_try (http_do "https://localhost:8080/api/status" []);
           match r with inl _ => mret tt | inr e => check_go n e end
  end.
Definition checkControlPlane : io unit := check_go 20 http_error.
Definition local_hooks : updateHooks := {|
  target := mret (mkTarget "linux" goarch goarch);
  preflight := None; afterEngine := None; replaceHost := None;
  checkServers := Some checkControlPlane |}.

(** *** The files on the host that follow the engine *)

Definition regularFile (p : string) : io bool :=
  r ← io_try (syscall (CStat p) (λ d, match d !! p with Some (File _ _) => Some (true, d) | Some (Dir _) => Some (false, d) | None => None end));
  mret (match r with inl b => b | inr _ => false end).
Definition refreshEngineCache (files : downloads) (t : Target) : io unit :=
  let name := EngineAsset t in
  r ← io_try (mkdirAll cacheDir);
  match r with
  | inl _ => io_drop (CopyFile (file_of files name) (JoinPath [cacheDir; name]) 493)
  | inr _ => mret tt
  end.
(** On macOS, and on Windows, where the running odb.exe has to be renamed. *)
Definition preflightHostBinary : io unit :=
  exe ← hostExecutable;
  if Contains exe "/Cellar/" || Contains exe "/homebrew/"
  then io_fail (Errorf "odb at %s is managed by Homebrew — update it with Homebrew instead" [exe]) else
  w ← dirWritable (path_dir exe);
  if (w : bool) then mret tt else
  io_wrap "sudo is needed to replace %s: %w" [exe] (local_run "sudo" ["-v"]).
Definition replaceHostBinary_darwin (files : downloads) (t : Target) : io unit :=
  exe ← hostExecutable;
  let prev := JoinPath [cacheDir; "updates"; "prev"; "odb"] in
  _ ← InstallBinary (file_of files (HostAsset t)) exe prev;
  refreshEngineCache files t.
Definition installDir : string :=
  match executable with
  | Some exe => path_dir exe
  | None => JoinPath [getenv "LOCALAPPDATA"; "Programs"; "oxyndb"]
  end.
Definition replaceHostBinary_windows (files : downloads) (t : Target) : io unit :=
  exe ← hostExecutable;
  let prev := JoinPath [cacheDir; "updates"; "prev"; "odb.exe"] in
  _ ← SwapExecutable (file_of files (HostAsset t)) exe prev;
  _ ← refreshEngineCache files t;
  let engine := JoinPath [installDir; EngineAsset t] in
  there ← regularFile engine;
  if (there : bool) then io_drop (CopyFile (file_of files (EngineAsset t)) engine 493) else mret tt.
(** The Postgres image context: in the distro by a script, next to odb.exe here. *)
Definition refreshImageContext (in_distro : string → io unit) (archive : string) : io unit :=
  if String.eqb archive "" then mret tt else
  _ ← io_wrap "refreshing the image build context in the distro: %w" [] (in_distro archive);
  io_wrap "refreshing the image build context next to odb.exe: %w" [] (ReplaceDirFromTarGz archive (JoinPath [installDir; "docker-context"])).

Definition darwin_hooks (guestArch : io string) : updateHooks := {|
  target := a ← guestArch; mret (mkTarget "darwin" goarch a);
  preflight := Some preflightHostBinary; afterEngine := None; replaceHost := Some replaceHostBinary_darwin;
  checkServers := Some checkControlPlane |}.
Definition windows_hooks (in_distro : string → io unit) : updateHooks := {|
  target := mret (mkTarget "windows" "amd64" "amd64");
  preflight := Some (e ← io_try hostExecutable; match e with inl exe => io_drop (unlink (exe +:+ ".old")) | inr _ => mret tt end);
  afterEngine := Some (λ files, refreshImageContext in_distro (file_of files ImageContextAsset));
  replaceHost := Some replaceHostBinary_windows;
  checkServers := Some checkControlPlane |}.

(** ** The update *)

Record UpdateOptions : Type := mkOptions { OCheck : bool; OYes : bool; OPin : string }.
Record updater : Type := mkUpdater {
  opts : UpdateOptions;
  current : string;
  client : Client;
  eh : engineHost;
  hooks : updateHooks;
  input : string;
  u_home : string;
  interactive : bool }.

Definition reportedVersion (out : string) : option Version :=
  match Fields out with [] => None | f => ParseVersion (List.last f "") end.

(** The answer to the question: up to a line's end or the end of the input. *)
Definition confirm (u : updater) : io bool :=
  if OYes (opts u) then mret true else
  if negb (interactive u) then io_fail (Errorf "not a terminal — run `odb update --yes` to update without the confirmation prompt" []) else
  let '(line, ended) := match cut_byte nl (input u) with Some (l, _) => (l, false) | None => (input u, true) end in
  let a := string_lower (TrimSpace line) in
  if (ended : bool) && String.eqb a "" then io_fail (Errorf "no answer — run `odb update --yes` to update without the confirmation prompt" [])
  else mret (String.eqb a "y" || String.eqb a "yes").

Fixpoint download_all (u : updater) (o : Offer) (dir : string) (names : list string) (files : downloads) : io downloads :=
  match names with
  | [] => mret files
  | name :: t =>
      path ← io_on_error
        (Download (client u) (default (mkAsset "" 0 "") (find_asset (ORelease o) name)) (default "" (OSums o !! name)) dir)
        (λ e, io_fail (Wrapf "%w\nNothing was changed" [] e));
      download_all u o dir t (<[name := path]> files)
  end.

Definition hook (h : option (io unit)) : io unit := default (mret tt) h.
Definition stop_args : list string := ["_update-guest"; "stop-services"].
Definition install_args (src dest : string) : list string := ["_update-guest"; "install-engine"; "--src"; src; "--dest"; dest].

(** The steps once the release is known and agreed to. *)
Definition check_engine (u : updater) (o : Offer) (staged : string) : io unit :=
  '(out, err) ← output (eh u) staged ["version"];
  let refuse := io_fail (Errorf "the new engine doesn't run in %s (it printed %q, err %v)\nNothing was changed" [where_ (eh u); TrimSpace out]) in
  match err, reportedVersion out with
  | None, Some got => if (Compare got (OVersion o) =? 0)%Z then mret tt else refuse
  | _, _ => refuse
  end.
Definition replace_engine (u : updater) (o : Offer) (files : downloads) (staged installed : string) : io unit :=
  _ ← io_on_error (run_there (eh u) staged stop_args) (λ e,
    _ ← io_drop (run_there (eh u) installed ["start"]);
    io_fail (Wrapf "stopping the servers: %w\nNothing was changed" [] e));
  _ ← io_on_error (run_there (eh u) staged (install_args staged installed)) (λ e,
    _ ← io_drop (run_there (eh u) installed ["start"]);
    io_fail (Wrapf "installing the new engine: %w\nOxynDB is still on %s" [current u] e));
  match afterEngine (hooks u) with Some f => io_drop (f files) | None => mret tt end.
Definition restart (u : updater) (o : Offer) (files : downloads) (t : Target) (installed : string) : io unit :=
  _ ← io_wrap "the new engine is installed but `odb up` failed: %w\nFix the problem above, then run `odb start`" []
        (run_there (eh u) installed ["up"]);
  _ ← io_drop (run_there (eh u) installed ["ledger"; "upgrade"; "--all"]);
  _ ← io_wrap "the new engine is installed but `odb start` failed: %w\nFix the problem above, then run `odb start`" []
        (run_there (eh u) installed ["start"]);
  _ ← match replaceHost (hooks u) with
      | Some f => io_wrap "the engine is on %s, but odb on this computer wasn't replaced: %w\nReinstall with the installer to finish (ODB_VERSION=%s)"
                    [Tag (ORelease o); Tag (ORelease o)] (f files t)
      | None => mret tt
      end;
  _ ← io_drop (output (eh u) installed ["version"]);
  io_drop (hook (checkServers (hooks u))).
Definition install_release (u : updater) (cur : Version) (t : Target) (o : Offer) : io unit :=
  _ ← prepare (eh u);
  t2 ← target (hooks u);
  '(t, o) ← (if decide (t2 = t) then mret (t, o) else
    o' ← io_wrap "checking for updates: %w" [] (client_Resolve (client u) cur t2 (Tag (ORelease o)));
    match o' with
    | Some o' => mret (t2, o')
    | None => io_fail (Errorf "the release has no build for this computer's VM (%s)" [EngineAsset t2])
    end);
  installed ← installed (eh u);
  files ← download_all u o (JoinPath [u_home u; "updates"; Tag (ORelease o)]) (ORequired o) ∅;
  staged ← io_wrap "copying the new engine into %s: %w\nNothing was changed" [where_ (eh u)] (stage (eh u) (file_of files (EngineAsset t)));
  _ ← check_engine u o staged;
  _ ← io_wrap "%w\nNothing was changed" [] (hook (preflight (hooks u)));
  _ ← replace_engine u o files staged installed;
  restart u o files t installed.
Definition run (u : updater) : io unit :=
  let dev := io_fail (Errorf "this is a development build (%s) — `odb update` updates installed releases; install one with the installer first" [current u]) in
  match ParseVersion (current u) with
  | None => dev
  | Some cur =>
      if IsDev cur then dev else
      t ← target (hooks u);
      o ← io_wrap "checking for updates: %w" [] (client_Resolve (client u) cur t (OPin (opts u)));
      match o with
      | None => mret tt
      | Some o =>
          if OCheck (opts u) then mret tt else
          go ← confirm u;
          if (go : bool) then install_release u cur t o else mret tt
      end
  end.

(** What a start prints in the end. *)
Definition StartUpdateNotice (version_ : string) : io string :=
  if negb (ShouldCheck version_) then mret "" else
  let guest := if String.eqb goos "windows" then "amd64" else goarch in
  BackgroundCheck (NewClient updateCheckCache) version_ (mkTarget goos goarch guest).

(** ** The command (cmd/odb/update.go) *)

Fixpoint update_args (o : UpdateOptions) (args : list string) : UpdateOptions + error :=
  match args with
  | [] => inl o
  | a :: t =>
      if String.eqb a "--check" then update_args (mkOptions true (OYes o) (OPin o)) t
      else if String.eqb a "--yes" || String.eqb a "-y" then update_args (mkOptions (OCheck o) true (OPin o)) t
      else if String.eqb a "--version" then
        match t with
        | v :: t' => if HasPrefix v "-" then inr (Errorf "--version needs a release, e.g. --version v0.9.0" [])
                     else update_args (mkOptions (OCheck o) (OYes o) v) t'
        | [] => inr (Errorf "--version needs a release, e.g. --version v0.9.0" [])
        end
      else if HasPrefix a "--version=" then update_args (mkOptions (OCheck o) (OYes o) (TrimPrefix a "--version=")) t
      else inr (Errorf "unknown argument %q" [a])
  end.
Definition parseUpdateArgs (args : list string) : UpdateOptions + error :=
  match update_args (mkOptions false false "") args with
  | inl o => if negb (String.eqb (OPin o) "") && match ParseVersion (OPin o) with None => true | Some _ => false end
             then inr (Errorf "invalid version %q" [OPin o]) else inl o
  | inr e => inr e
  end.
Definition updateCmd (version_ typed : string) (terminal : bool) (hooks : updateHooks) (eh : engineHost) (args : list string) : io unit :=
  if existsb (λ a, String.eqb a "-h" || String.eqb a "--help") args then mret tt else
  match parseUpdateArgs args with
  | inr e => io_fail e
  | inl o => run (mkUpdater o version_ (NewClient updateCheckCache) eh hooks typed cacheDir terminal)
  end.

(** The value after a flag. *)
Fixpoint optValue (args : list string) (flag : string) : string :=
  match args with
  | a :: ((v :: _) as t) => if String.eqb a flag then v else optValue t flag
  | _ => ""
  end.
(** The steps the new engine does where it runs; stopping a server is the daemon
    component's. *)
Definition default_prev : string := JoinPath [cacheDir; "updates"; "prev"; "odb"].
Definition updateGuestCmd (stop : string → io unit) (args : list string) : io unit :=
  match args with
  | [] => io_fail (Errorf "usage" [])
  | a :: rest =>
      if String.eqb a "stop-services" then
        foldr (λ name k, _ ← io_drop (stop name); k) (mret tt) ["controlplane"; "gateway"; "api"]
      else if String.eqb a "install-engine" then
        let src := optValue rest "--src" in let dest := optValue rest "--dest" in let prev := optValue rest "--prev" in
        if String.eqb src "" || String.eqb dest "" then io_fail (Errorf "usage" []) else
        InstallBinary src dest (if String.eqb prev "" then default_prev else prev)
      else io_fail (Errorf "unknown _update-guest step: %s" [a])
  end.

(** ** The engine setup installs (host.go) *)

Definition truthyEnv (key : string) : bool := truthy (getenv key).
Definition envOr (key def : string) : string := let v := TrimSpace (getenv key) in if String.eqb v "" then def else v.

Definition downloadFile (url dest : string) : io unit :=
  _ ← request url;
  '(status, _, (body, cut)) ← http_do url [];
  if negb (status =? 200)%Z then io_fail (Errorf "http %d" [format_int status]) else
  _ ← mkdirAll (path_dir dest);
  let tmp := dest +:+ ".tmp" in
  _ ← create tmp 493;
  copied ← io_try (write_into body tmp);
  match copied, (cut : bool) with
  | inl _, false =>
      _ ← io_on_error (close tmp) (λ e, _ ← io_drop (unlink tmp); io_fail e);
      rename tmp dest
  | inl _, true => _ ← io_drop (close tmp); _ ← io_drop (unlink tmp); io_fail (Errorf "unexpected EOF" [])
  | inr e, _ => _ ← io_drop (close tmp); _ ← io_drop (unlink tmp); io_fail e
  end.
Definition elf_magic : string := String "127" "ELF".
Definition isELF (path : string) : io bool :=
  r ← io_try (read_file path);
  mret (match r with inl c => HasPrefix c elf_magic | inr _ => false end).

Definition direct_url (asset : string) : string :=
  let repo := envOr "ODB_REPO" "OxynDB/oxyndb" in
  let v := envOr "ODB_VERSION" "latest" in
  if String.eqb v "latest" then "https://github.com/" +:+ repo +:+ "/releases/latest/download/" +:+ asset
  else "https://github.com/" +:+ repo +:+ "/releases/download/" +:+ v +:+ "/" +:+ asset.
(** The verified way, and the one that is asked for by name. *)
Definition fetch_verified (arch asset : string) : io string :=
  let c := NewClient updateCheckCache in
  offer ← io_try (client_Release c (envOr "ODB_VERSION" "latest") (mkTarget "linux" arch ""));
  match offer with
  | inr _ => mret ""
  | inl offer =>
      match find_asset (ORelease offer) asset with
      | None => mret ""
      | Some a =>
          p ← io_try (Download c a (default "" (OSums offer !! asset)) cacheDir);
          match p with
          | inr _ => mret ""
          | inl path =>
              elf ← isELF path;
              if (elf : bool) then mret path else _ ← io_drop (unlink path); mret ""
          end
      end
  end.
Definition fetch_unverified (asset dest : string) : io string :=
  r ← io_try (downloadFile (direct_url asset) dest);
  elf ← match r with inl _ => isELF dest | inr _ => mret false end;
  if (elf : bool) then mret dest else _ ← io_drop (unlink dest); mret "".
Definition refreshEngineBinary (arch : string) : io string :=
  let off := getenv "OXYNDB_NO_REFRESH" in
  if String.eqb off "1" || String.eqb off "true" then mret "" else
  let asset := "odb-linux-" +:+ arch in
  if truthyEnv "ODB_NO_VERIFY" then fetch_unverified asset (JoinPath [cacheDir; asset]) else fetch_verified arch asset.

(** A build to install: the one in the cache, else one next to the program. *)
Fixpoint first_regular (l : list string) : io string :=
  match l with
  | [] => mret ""
  | p :: t => b ← regularFile p; if (b : bool) then mret p else first_regular t
  end.
Definition bundledLinuxBinary (arch : string) : io string :=
  let name := "odb-linux-" +:+ arch in
  let cached := JoinPath [cacheDir; name] in
  c ← regularFile cached;
  if (c : bool) then mret cached else
  match executable with
  | None => mret ""
  | Some exe =>
      let dir := path_dir exe in
      first_regular [JoinPath [dir; name]; JoinPath [dir; ".."; "share"; "oxyndb"; name]; JoinPath [dir; ".."; "dist"; name]; JoinPath [dir; "dist"; name]]
  end.

End update.

(** ** What is at the engine's path during an update *)

Section linux.
Context {F : Faults} {Net : Network} {IP : IPLiterals} {E : Env} {U : Unicode} {Pr : Programs}.

(** Whatever a program does, a file keeps what it has. *)
Definition leaves_alone {A} (p : string) (m : io A) : Prop :=
  ∀ n, along (λ d, d !! p = n) (λ d, d !! p = n) m (λ _ d, d !! p = n).

Context (u : updater) (exe : string) (old : option node) (cur : Version).
#[local] Abbreviation t := (mkTarget "linux" goarch goarch).
#[local] Abbreviation asset := (EngineAsset t).

Definition staged_path (tag : string) : string := JoinPath [JoinPath [u_home u; "updates"; tag]; asset].

(** The machine: programs other than the one that installs leave the engine and its
    download alone, and that one does what this version's does. *)
Record updates_here : Prop := {
  up_local : eh u = localEngine ∧ hooks u = local_hooks;
  up_exe : ∃ e, executable = Some e ∧ exe = default e (eval_symlinks e);
  up_quiet : ∀ bin args, (∀ src dest, args ≠ install_args src dest) → leaves_alone exe (exec bin args) ∧ ∀ tag, leaves_alone (staged_path tag) (exec bin args);
  up_guest : ∀ bin src dest, exec bin (install_args src dest)
    = (r ← io_try (updateGuestCmd (λ _, mret tt) (tail (install_args src dest))); mret ("", match r with inl _ => None | inr e => Some e end));
  up_version : ParseVersion (current u) = Some cur;
  up_cache : exe ≠ CachePath (client u) ∧ exe ≠ CachePath (client u) +:+ ".tmp";
  up_paths : ∀ tag, is_rooted (staged_path tag) = true ∧ staged_path tag ≠ exe ∧ staged_path tag +:+ ".part" ≠ exe ∧ staged_path tag ≠ new_name exe ∧ staged_path tag ≠ default_prev;
  up_install : exe ≠ "" ∧ exe ≠ new_name exe ∧ default_prev ≠ exe }.
Context (H : updates_here).

(** A file that a release newer than the installed one lists for this machine. *)
Definition released (c : string) : Prop :=
  ∃ k o sum, sound_offer (fetchSmall k) cur t o ∧ OSums o !! asset = Some sum ∧ EqualFold sum (hex_encode (sha256 c)) = true.
Definition new_engine (d : disk) : Prop := ∃ c, d !! exe = Some (File c 493) ∧ released c.
Definition engine_ok (d : disk) : Prop := d !! exe = old ∨ new_engine d.
(** An error that says nothing was changed. *)
Definition says_unchanged (e : error) : bool :=
  match e with
  | Wrapf f _ _ | Errorf f _ => HasSuffix f "Nothing was changed" || HasSuffix f "OxynDB is still on %s"
  | CommandFailed _ => false
  end.
Definition honest (o : unit + error) (d : disk) : Prop :=
  engine_ok d ∧ match o with inr e => says_unchanged e = true → d !! exe = old | inl _ => True end.

#[local] Abbreviation kept := (λ d : disk, d !! exe = old).

(** Steps that leave the engine alone. *)
Lemma along_alone {A} (m : io A) : leaves_alone exe m → along engine_ok kept m (λ _, kept).
Proof. intros Hm. eapply along_weaken; [apply (Hm old)|intros d Hd; by left|done|done]. Qed.
Lemma along_untouched {A B} (m : io A) (f : A → io B) (P : disk → Prop) R Q :
  along kept (λ d, kept d ∧ P d) m (λ o d, kept d ∧ ∀ a, o = inl a → R a d) →
  (∀ a, along engine_ok (λ d, kept d ∧ R a d) (f a) Q) → (∀ e d, kept d → Q (inr e) d) →
  along engine_ok (λ d, kept d ∧ P d) (m ≫= f) Q.
Proof.
  intros Hm Hf He. apply along_bind with (R := λ o d, kept d ∧ ∀ a, o = inl a → R a d).
  - eapply along_weaken; [exact Hm|intros d Hd; by left|done|done].
  - intros a. eapply along_weaken; [apply (Hf a)|done| |done]. intros d [Hd Hr]. split; [done|by apply Hr].
  - intros e d [Hd _]. by apply He.
Qed.
Lemma kept_honest (o : unit + error) d : kept d → honest o d.
Proof. intros Hd. split; [by left|]. by destruct o. Qed.

Lemma blind_kept p : p ≠ exe → blind_to p kept.
Proof. intros Hp d Hd. split; [intros n; by rewrite lookup_insert_ne|by rewrite lookup_delete_ne]. Qed.

Lemma along_Resolve P cur' t' pin : along kept (λ d, kept d ∧ P d) (client_Resolve (client u) cur' t' pin)
  (λ o d, kept d ∧ ∀ r, o = inl r → ∀ off, r = Some off → ∃ k, sound_offer (fetchSmall k) cur' t' off).
Proof.
  destruct (up_cache H) as [H1 H2]. unfold client_Resolve. apply (along_step _ _ _ _ (λ _ _, True)).
  { apply (along_ListReleases kept P); by apply blind_kept, not_eq_sym. }
  intros rels. unfold chosen. apply (along_step _ _ _ _ (λ r _, ∃ k, r = Resolve (fetchSmall k) (expired k) (Some rels) cur' t' pin)).
  { intros k d [Hd _]. split; [constructor|]. split; [done|]. intros r [= <-]. by exists k. }
  intros r. destruct r as [o|e|w]; [|apply along_give_up..]. apply along_ret. intros d [Hd [k Hk]]. split; [done|]. intros r [= <-] off ->.
  exists k. by eapply Resolve_sound.
Qed.

(** The engine's download, before and after it is checked. *)
Definition ready (o : Offer) (d : disk) : Prop :=
  ∃ c m, d !! staged_path (Tag (ORelease o)) = Some (File c m) ∧ EqualFold (default "" (OSums o !! asset)) (hex_encode (sha256 c)) = true.
Lemma find_required r name : missingAssets r (RequiredAssets t) = [] → name ∈ RequiredAssets t → ∃ a, find_asset r name = Some a ∧ AName a = name.
Proof.
  intros Hm Hin. destruct (find_asset r name) as [a|] eqn:Ha.
  - exists a. split; [done|]. apply find_some in Ha as [_ Ha]. by apply String.eqb_eq.
  - exfalso. assert (name ∈ missingAssets r (RequiredAssets t)) as Hx; [|rewrite Hm in Hx; by apply not_elem_of_nil in Hx].
    unfold missingAssets. apply list_elem_of_In, filter_In. split; [apply list_elem_of_In; by right|]. unfold has_asset. by rewrite Ha.
Qed.

Lemma along_download o fetch P : sound_offer fetch cur t o →
  along kept (λ d, kept d ∧ P d) (download_all u o (JoinPath [u_home u; "updates"; Tag (ORelease o)]) (ORequired o) ∅)
    (λ r d, kept d ∧ ∀ files, r = inl files → file_of files asset = staged_path (Tag (ORelease o)) ∧ ready o d).
Proof.
  intros ((_ & Hm & _) & _ & Hreq & _). rewrite Hreq. destruct (find_required _ asset Hm) as (a & Ha & Han); [apply list_elem_of_here|].
  change (RequiredAssets t) with [asset]. cbn [download_all]. rewrite Ha. cbn [default].
  set (dir := JoinPath _). assert (JoinPath [dir; AName a] = staged_path (Tag (ORelease o))) as Hpath by by rewrite Han.
  destruct (up_paths H (Tag (ORelease o))) as (_ & Hse & Hpe & _).
  apply (along_step _ _ _ _ (λ path d, path = staged_path (Tag (ORelease o)) ∧ ready o d)).
  - apply along_on_error; [|intros e; apply along_give_up]. intros k d [Hd _].
    pose proof (along_Download a (default "" (OSums o !! asset)) dir d (client u) k d (conj (conj (λ _ _ _, eq_refl) eq_refl) eq_refl)) as Hdl.
    destruct (Download _ _ _ _ _) as [[r s] v]. destruct Hdl as [Hv Hr]. unfold only_verified, downloaded, others_same in *. rewrite Hpath in *.
    assert (∀ d', (∀ p, p ≠ staged_path (Tag (ORelease o)) → p ≠ staged_path (Tag (ORelease o)) +:+ ".part" → d' !! p = d !! p) → kept d') as Hk.
    { intros d' Hd'. by rewrite Hd' by (by apply not_eq_sym). }
    destruct Hr as [Hs Hr]. split; [eapply Forall_impl; [exact Hv|]; intros d' [Hd' _]; apply Hk; exact Hd'|]. split; [apply Hk; exact Hs|].
    intros path ->. destruct Hr as (-> & _ & c & m & Hc & _ & Hv'). split; [done|]. by exists c, m.
  - intros path. apply along_ret. intros d [Hd [-> Hr]]. split; [done|]. intros files [= <-]. split; [|done].
    unfold file_of. by rewrite lookup_insert_eq.
Qed.

(** *** The steps that change the engine *)

Lemma exec_alone bin args : (∀ src dest, args ≠ install_args src dest) → leaves_alone exe (exec bin args) ∧ ∀ tag, leaves_alone (staged_path tag) (exec bin args).
Proof. apply (up_quiet H). Qed.
Lemma along_both {A} (I1 P1 I2 P2 : disk → Prop) (m : io A) Q1 Q2 : along I1 P1 m Q1 → along I2 P2 m Q2 →
  along I1 (λ d, P1 d ∧ P2 d) m (λ o d, Q1 o d ∧ Q2 o d).
Proof.
  intros H1 H2 k d [Hp1 Hp2]. specialize (H1 k d Hp1). specialize (H2 k d Hp2). destruct (m _) as [[o s] v].
  destruct H1, H2. by split_and!.
Qed.
(** A quiet program keeps the engine and a checked download. *)
Lemma along_ready o bin args : (∀ src dest, args ≠ install_args src dest) →
  along kept (λ d, kept d ∧ ready o d) (exec bin args) (λ _ d, kept d ∧ ready o d).
Proof.
  intros Ha k d [Hd (c & m & Hc & Hs)]. destruct (exec_alone bin args Ha) as [H1 H2].
  pose proof (along_both _ _ _ _ _ _ _ (H1 old) (H2 (Tag (ORelease o)) (Some (File c m))) k d (conj Hd Hc)) as Hr.
  destruct (exec _ _ _) as [[r s] v]. destruct Hr as [Hv [Hk Hc']]. split; [done|]. split; [done|]. by exists c, m.
Qed.
Lemma along_local_run (I P : disk → Prop) bin args : along I P (exec bin args) (λ _, P) → along I P (local_run bin args) (λ _, P).
Proof.
  intros He. unfold local_run. apply along_bind with (R := λ _, P); [done| |done].
  intros [out [e|]]; by apply along_fail || by apply along_ret.
Qed.

Lemma released_ready k o c : sound_offer (fetchSmall k) cur t o → EqualFold (default "" (OSums o !! asset)) (hex_encode (sha256 c)) = true → released c.
Proof.
  intros Ho Hc. pose proof Ho as (_ & _ & _ & Hs & _). assert (is_Some (OSums o !! asset)) as [sum Hsum].
  { rewrite Forall_forall in Hs. apply Hs, list_elem_of_here. }
  exists k, o, sum. rewrite Hsum in Hc. done.
Qed.

(** The new engine installs itself: the old one, or the whole new one. *)
Lemma along_install n o tag : sound_offer (fetchSmall n) cur t o → tag = Tag (ORelease o) →
  along engine_ok (λ d, kept d ∧ ready o d) (local_run (staged_path tag) (install_args (staged_path tag) exe))
    (λ r d, match r with inl _ => new_engine d | inr _ => kept d end).
Proof.
  intros Ho -> k d [Hd (c & m & Hc & Hs)]. destruct (up_paths H (Tag (ORelease o))) as (Hroot & Hse & _ & Hsn & Hsp).
  destruct (staged_path (Tag (ORelease o))) as [|ch rest] eqn:Hst; [done|]. unfold is_rooted in Hroot.
  assert (ch = "/"%char) as -> by (apply HasPrefix_spec in Hroot as [r Hr]; by injection Hr).
  destruct (up_install H) as (Hee & Hen & Hpe). pose proof (released_ready _ _ _ Ho Hs) as Hrel.
  unfold local_run. rewrite (up_guest H). unfold install_args. cbn [tail updateGuestCmd]. cbn [optValue String.eqb Ascii.eqb Bool.eqb orb].
  rewrite (proj2 (String.eqb_neq _ _) Hee), <-Hst.
  pose proof (InstallBinary_along (staged_path (Tag (ORelease o))) exe old c m) as Hi. rewrite Hst in *.
  specialize (Hi Hsn Hen default_prev (λ _, not_eq_sym Hsp) Hpe k d (conj (conj Hd Hc) I)).
  unfold mbind, io_bind, io_try, mret, io_ret, io_fail. destruct (InstallBinary _ _ _ _) as [[[x|e] s] v]; destruct Hi as [Hv Hor]; cbn; rewrite !app_nil_r.
  - split; [|by exists c]. eapply Forall_impl; [exact Hv|]. intros d' [Hd'|Hd']; [by left|right; by exists c].
  - split; [|done]. eapply Forall_impl; [exact Hv|]. intros d' [Hd'|Hd']; [by left|right; by exists c].
Qed.

Lemma along_wrapped {A} (I P : disk → Prop) format args (m : io A) (Q : A + error → disk → Prop) R :
  along I P m R → (∀ a d, R (inl a) d → Q (inl a) d) → (∀ e d, R (inr e) d → Q (inr (Wrapf format args e)) d) →
  along I P (io_wrap format args m) Q.
Proof. intros Hm Ha He. eapply along_recover; [exact Hm|done|]. intros e. apply along_fail. intros d Hd. by apply He. Qed.

(** Programs that run before, and after. *)
Lemma along_run_before bin args : (∀ src dest, args ≠ install_args src dest) → along engine_ok kept (local_run bin args) (λ _, kept).
Proof. intros Ha. apply along_local_run, along_alone, exec_alone, Ha. Qed.
Lemma along_exec_after bin args : (∀ src dest, args ≠ install_args src dest) → along engine_ok new_engine (exec bin args) (λ _, new_engine).
Proof.
  intros Ha k d [c [Hc Hr]]. destruct (exec_alone bin args Ha) as [He _]. specialize (He _ k d Hc). destruct (exec _ _ _) as [[o s] v].
  destruct He as [Hv Hs]. split; [|by exists c]. eapply Forall_impl; [exact Hv|]. intros d' Hd'. right. by exists c.
Qed.
Lemma along_run_after bin args : (∀ src dest, args ≠ install_args src dest) → along engine_ok new_engine (local_run bin args) (λ _, new_engine).
Proof. intros Ha. by apply along_local_run, along_exec_after. Qed.
Lemma new_honest e d : says_unchanged e = false → new_engine d → honest (inr e) d.
Proof. intros He Hd. split; [by right|]. by rewrite He. Qed.

Lemma along_restart o files t' : along engine_ok new_engine (restart u o files t' exe) honest.
Proof.
  destruct (up_local H) as [He Hh]. unfold restart. rewrite He, Hh. cbn [run_there output localEngine replaceHost checkServers local_hooks hook default].
  assert (∀ args, (∀ src dest, args ≠ install_args src dest) → along engine_ok new_engine (io_drop (local_run exe args)) (λ o d, o = inl tt ∧ new_engine d)) as Hdrop.
  { intros args Ha. by apply along_dropped, along_run_after. }
  assert (∀ f args, says_unchanged (Wrapf f [] http_error) = false → (∀ src dest, args ≠ install_args src dest) →
    along engine_ok new_engine (io_wrap f [] (local_run exe args)) (λ o d, match o with inl _ => new_engine d | inr e => honest (inr e) d end)) as Hrun.
  { intros f args Hf Ha. eapply along_wrapped; [by apply along_run_after|done|]. intros e d Hd. by apply new_honest. }
  eapply along_bind; [apply Hrun; done| |done]. intros []. cbn beta iota.
  eapply along_bind; [by apply Hdrop| |by intros ? ? []]. intros [].
  eapply along_bind; [eapply along_weaken; [apply Hrun; done|done|by intros d []|done]| |done]. intros []. cbn beta iota.
  apply along_bind with (R := λ o d, match o with inl _ => new_engine d | inr _ => False end); [by apply along_ret| |done]. intros [].
  apply along_bind with (R := λ o d, o = inl tt ∧ new_engine d); [by apply along_dropped, along_exec_after| |by intros ? ? []]. intros [].
  eapply along_weaken; [apply (along_dropped engine_ok new_engine _ new_engine)|done|by intros d []|intros o' d [-> Hd]; split; [by right|done]].
  unfold checkControlPlane. generalize 20%nat http_error. intros n. induction n as [|n IH]; intros e; cbn [check_go]; [by apply along_fail|].
  apply along_bind with (R := λ _, new_engine); [|intros [r|e']; [by apply along_ret|apply IH]|done].
  eapply along_try; [apply along_http|done|done].
Qed.

Lemma along_replace_engine n o files tag : sound_offer (fetchSmall n) cur t o → tag = Tag (ORelease o) →
  along engine_ok (λ d, kept d ∧ ready o d) (replace_engine u o files (staged_path tag) exe)
    (λ r d, match r with inl _ => new_engine d | inr e => kept d end).
Proof.
  intros Ho Htag. destruct (up_local H) as [He Hh]. unfold replace_engine. rewrite He, Hh. cbn [run_there localEngine afterEngine local_hooks].
  assert (∀ (e : error), along engine_ok kept (A := ()) (_ ← io_drop (local_run exe ["start"]); io_fail e) (λ r d, (∀ u, r ≠ inl u) ∧ kept d)) as Hback.
  { intros e. apply along_bind with (R := λ o d, o = inl tt ∧ kept d); [by apply along_dropped, along_run_before| |by intros ? ? []].
    intros []. apply along_fail. by intros d [_ Hd]. }
  apply along_bind with (R := λ r d, match r with inl _ => kept d ∧ ready o d | inr _ => kept d end).
  - apply along_recover with (R := λ _ d, kept d ∧ ready o d).
    + eapply along_weaken; [apply (along_local_run kept (λ d, kept d ∧ ready o d)), along_ready; done|intros d Hd; by left|done|done].
    + done.
    + intros e. eapply along_weaken; [apply Hback|done|by intros d []|]. intros [[]|e'] d [Hn Hd]; [by destruct (Hn tt)|done].
  - intros []. apply along_bind with (R := λ r d, match r with inl _ => new_engine d | inr _ => kept d end).
    + apply along_recover with (R := λ r d, match r with inl _ => new_engine d | inr _ => kept d end); [by eapply along_install|done|].
      intros e. eapply along_weaken; [apply Hback|done|done|]. intros [[]|e'] d [Hn Hd]; [by destruct (Hn tt)|done].
    + intros []. by apply along_ret.
    + done.
  - done.
Qed.

Lemma along_check_engine o staged : along engine_ok (λ d, kept d ∧ ready o d) (check_engine u o staged) (λ _ d, kept d ∧ ready o d).
Proof.
  destruct (up_local H) as [He _]. unfold check_engine. rewrite He. cbn [output where_ localEngine].
  apply along_bind with (R := λ _ d, kept d ∧ ready o d); [|intros [out err]|done].
  - eapply along_weaken; [by apply (along_ready o)|intros d Hd; by left|done|done].
  - destruct err as [e|]; [by apply along_fail|]. destruct (reportedVersion out) as [v|]; [|by apply along_fail].
    destruct (_ =? 0)%Z; [by apply along_ret|by apply along_fail].
Qed.

Lemma along_install_release n o : sound_offer (fetchSmall n) cur t o → along engine_ok kept (install_release u cur t o) honest.
Proof.
  intros Ho. destruct (up_local H) as [He Hh], (up_exe H) as (e0 & Hx & Hexe). unfold install_release. rewrite He, Hh.
  cbn [prepare target installed stage preflight hook default localEngine local_hooks where_].
  apply along_bind with (R := λ _, kept); [destruct (String.eqb goos "linux"); [by apply along_ret|by apply along_fail]|intros _|intros; by apply kept_honest].
  apply along_known with (a := t) (P' := kept); [by apply along_ret|]. rewrite decide_True by done.
  apply along_known with (a := (t, o)) (P' := kept); [by apply along_ret|].
  apply along_known with (a := exe) (P' := kept); [unfold hostExecutable; rewrite Hx, <-Hexe; by apply along_ret|].
  apply along_bind with (R := λ r d, kept d ∧ ∀ files, r = inl files → file_of files asset = staged_path (Tag (ORelease o)) ∧ ready o d);
    [|intros files|intros e d [Hd _]; by apply kept_honest].
  { eapply along_weaken; [apply (along_download o (fetchSmall n) (λ _, True) Ho)|intros d Hd; by left|done|done]. }
  destruct (decide (file_of files asset = staged_path (Tag (ORelease o)))) as [Hf|Hne]; [|by intros k d [_ Hr]; destruct (Hr files eq_refl)].
  rewrite Hf. apply along_known with (a := staged_path (Tag (ORelease o))) (P' := λ d, kept d ∧ ready o d).
  { eapply along_wrapped; [apply along_ret with (Q := λ r d, r = inl (staged_path (Tag (ORelease o))) ∧ kept d ∧ ready o d)|done|by intros e d []].
    intros d [Hd Hr]. by destruct (Hr files eq_refl). }
  apply along_bind with (R := λ _ d, kept d ∧ ready o d); [|intros _|intros e d [Hd _]; by apply kept_honest].
  { apply along_check_engine. }
  apply along_bind with (R := λ _ d, kept d ∧ ready o d); [|intros _|intros e d [Hd _]; by apply kept_honest].
  { eapply along_wrapped; [by apply along_ret with (Q := λ _ d, kept d ∧ ready o d)|done|done]. }
  apply along_bind with (R := λ r d, match r with inl _ => new_engine d | inr e => kept d end); [by eapply along_replace_engine| |intros e d Hd; by apply kept_honest].
  intros []. apply along_restart.
Qed.

Lemma along_confirm : leaves_alone exe (confirm u).
Proof.
  intros n. unfold confirm. destruct (OYes _); [by apply along_ret|]. destruct (negb _); [by apply along_fail|].
  destruct (match cut_byte nl (input u) with Some (l, _) => _ | None => _ end) as [line ended]. destruct (_ && _); [by apply along_fail|by apply along_ret].
Qed.

Lemma along_run : along engine_ok kept (run u) honest.
Proof.
  assert (∀ (e : error), along engine_ok kept (A := ()) (io_fail e) honest) as Hfail by (intros e; apply along_fail; intros d; apply kept_honest).
  assert (along engine_ok kept (mret ()) honest) as Hret by (apply along_ret; intros d; apply kept_honest).
  destruct (up_local H) as [_ Hh]. unfold run. rewrite (up_version H). destruct (IsDev cur); [apply Hfail|]. rewrite Hh. cbn [target local_hooks].
  apply along_known with (a := t) (P' := kept); [by apply along_ret|].
  apply along_bind with (R := λ r d, kept d ∧ ∀ off, r = inl (Some off) → ∃ k, sound_offer (fetchSmall k) cur t off); [|intros o|intros e d [Hd _]; by apply kept_honest].
  { eapply along_wrapped with (R := λ r d, kept d ∧ ∀ off, r = inl off → ∀ o, off = Some o → ∃ k, sound_offer (fetchSmall k) cur t o).
    - eapply along_weaken; [apply (along_Resolve (λ _, True))|intros d Hd; by left|done|done].
    - intros a d [Hd Ho]. split; [done|]. intros off [= ->]. by eapply Ho.
    - by intros e d [Hd _]. }
  destruct o as [o|]; [|eapply along_weaken; [apply Hret|done|by intros d []|done]].
  destruct (OCheck _); [eapply along_weaken; [apply Hret|done|by intros d []|done]|].
  intros k d [Hd Ho]. destruct (Ho o eq_refl) as [n Hs]. clear Ho. revert k d Hd.
  change (along engine_ok kept (go ← confirm u; if (go : bool) then install_release u cur t o else mret ()) honest).
  apply along_bind with (R := λ _, kept); [apply along_alone, along_confirm|intros [|]; [by eapply along_install_release|done]|intros; by apply kept_honest].
Qed.
End linux.

(** C4. An update installs nothing unverified: on a Linux machine, at every moment of an
    update the engine's path holds the engine it held before or the whole, executable
    file of a release that is newer, no draft and complete, with the SHA-256 that its
    SHA256SUMS (as the server gave it) lists for it; whatever GitHub answers, whatever call
    the machine refuses and whatever the other programs fail at. And when the update
    ends with an error that says nothing was changed, the old engine is in place. *)
Theorem update_installs_verified {F : Faults} {Net : Network} {IP : IPLiterals} {E : Env} {U : Unicode} {Pr : Programs}
    u exe cur k d :
  updates_here u exe cur →
  match run u (mkMachine k d) with
  | (o, s, v) => Forall (engine_ok exe (d !! exe) cur) v ∧ honest exe (d !! exe) cur o (files s)
  end.
Proof. intros H. by apply (along_run u exe (d !! exe) cur H k d). Qed.

(** ** Example: a Linux machine updates from 0.8.1 to 0.9.0 *)

Section example.
#[local] Existing Instance calm.
#[local] Existing Instance no_ips.
#[local] Existing Instance plain_env.
#[local] Existing Instance ascii_unicode.

Definition is_install (args : list string) : option (string * string) :=
  match args with
  | [a; b; s; src; e; dest] =>
      if bool_decide ([a; b; s; e] = ["_update-guest"; "install-engine"; "--src"; "--dest"]) then Some (src, dest) else None
  | _ => None
  end.
Definition sample_programs : Programs := {|
  exec := λ bin args,
    match is_install args with
    | Some (src, dest) =>
        r ← io_try (updateGuestCmd (λ _, mret tt) (tail (install_args src dest)));
        mret ("", match r with inl _ => None | inr e => Some e end)
    | None => mret (if bool_decide (args = ["version"]) then "odb 0.9.0" else "", None)
    end;
  executable := Some "/usr/local/bin/odb";
  eval_symlinks := λ _, None;
  goos := "linux"; goarch := "amd64" |}.
#[local] Existing Instance sample_programs.
Definition sample_engine : string := "the new engine".
Definition engine_release : string :=
  quoted "[{'tag_name': 'v0.9.0', 'assets': [{'name': 'SHA256SUMS', 'browser_download_url': 'https://x/sums'}, {'name': 'odb-linux-amd64', 'browser_download_url': 'https://x/bin'}]}]".
Definition release_server : Network := {|
  answer := λ _ url _,
    if HasSuffix url "per_page=50" then Answer 200 "" engine_release false
    else if HasSuffix url "sums" then Answer 200 "" (hex_encode (sha256 sample_engine) +:+ "  odb-linux-amd64") false
    else if HasSuffix url "bin" then Answer 200 "" sample_engine false else NoAnswer;
  clock := λ _, 0%Z; time_text := format_rfc3339; expired := λ _ _, false |}.
#[local] Existing Instance release_server.

Definition sample_updater : updater :=
  mkUpdater (mkOptions false true "") "0.8.1" sample_client localEngine local_hooks "" "/root/.oxyndb" false.
Definition before_update : disk := {["/usr/local/bin/odb" := File "the old engine" 493]}.

Lemma not_ending r n p : HasSuffix p n = false → r +:+ n ≠ p.
Proof. intros Hp <-. rewrite (proj2 (HasSuffix_spec _ _)) in Hp; [done|by eexists]. Qed.

Lemma sample_updates : updates_here sample_updater "/usr/local/bin/odb" (mkVersion 0 8 1 "").
Proof.
  split.
  - done.
  - by exists "/usr/local/bin/odb".
  - intros bin args Ha. assert (is_install args = None) as Hn.
    { destruct (is_install args) as [[src dest]|] eqn:Hi; [|done]. unfold is_install in Hi.
      destruct args as [|a [|b [|s [|x [|e [|y [|]]]]]]]; try done. case_bool_decide as Heq; [|done]. simplify_eq. by destruct (Ha src dest). }
    cbn [exec sample_programs]. rewrite Hn. split; [|intros tag]; intros n; by apply along_ret.
  - intros bin src dest. reflexivity.
  - vm_compute. reflexivity.
  - split; vm_compute; discriminate.
  - intros tag. unfold staged_path. destruct (JoinPath_is_rooted "/root/.oxyndb" tag eq_refl) as (l & Hl & Hj).
    assert (is_rooted (JoinPath [u_home sample_updater; "updates"; tag]) = true) as Hr.
    { unfold JoinPath. cbn [List.filter u_home sample_updater String.eqb Ascii.eqb Bool.eqb negb]. destruct (negb _); [|reflexivity].
      unfold Clean. reflexivity. }
    destruct (JoinPath_last _ "odb-linux-amd64" Hr eq_refl) as (r & Hp & Hroot).
    change (EngineAsset _) with "odb-linux-amd64". rewrite Hp. split; [done|].
    split; [by apply not_ending|]. split; [rewrite sapp_assoc; by apply not_ending|].
    split; apply not_ending; vm_compute; reflexivity.
  - split_and!; vm_compute; discriminate.
Qed.

Lemma update_installs_verified_witness :
  Forall (engine_ok "/usr/local/bin/odb" (Some (File "the old engine" 493)) (mkVersion 0 8 1 "")) (run sample_updater (mkMachine 0 before_update)).2
  ∧ files (run sample_updater (mkMachine 0 before_update)).1.2 !! "/usr/local/bin/odb" = Some (File sample_engine 493).
Proof.
  pose proof (update_installs_verified sample_updater "/usr/local/bin/odb" (mkVersion 0 8 1 "") 0 before_update sample_updates) as H.
  split; [|vm_compute; reflexivity].
  destruct (run sample_updater (mkMachine 0 before_update)) as [[o s] v]. exact (proj1 H).
Defined.
End example.
