(* ===== verification/Gateway.v ===== *)
(** * The gateway: one Postgres endpoint for every branch (internal/proxy)

    A connection's bytes are what the machine answers to "io.ReadFull"; what the
    gateway sends is a "conn.Write". The map of cancel keys and the idle clock
    are the fold of the history's own events. The API-key check is an interface,
    [KeyStore], which the account store implements. MD5 and PBKDF2 are
    parameters. Log lines are left out. *)
From S2P Require Import Prelude GoStrings GoNum Sha256 Effects Storage Container HA Branch Store Json.

Open Scope string_scope.
Open Scope list_scope.

(** What the gateway asks of the account store: the e-mail of a key's account
    and the branch the key is limited to. *)
Class KeyStore := { verify_key : history → string → option (string * string) }.

(** The account store, in the state it is in when a key is presented. *)
Definition store_keys `{Outside} (now : history → state) : KeyStore := {|
  verify_key h key := match fst (VerifyKey key (now h)) with
                      | Ok (Some (u, scope)) => Some (Email u, scope)
                      | _ => None
                      end |}.

Class Crypto := { md5 : string → string; pbkdf2_sha256 : string → string → Z → string }.

(** ** Big-endian words and base64 *)

Definition put32 (n : Z) : string := of_bytes (be_bytes (Z.to_N (n mod 4294967296))).
Definition get32 (s : string) : Z :=
  match to_bytes s with
  | a :: b :: c :: d :: _ => (byte_val a * 16777216 + byte_val b * 65536 + byte_val c * 256 + byte_val d)%Z
  | _ => 0%Z
  end.
Definition slice_from (i : nat) (s : string) : string := of_bytes (drop i (to_bytes s)).
Definition slice_to (i : nat) (s : string) : string := of_bytes (take i (to_bytes s)).
Definition zero : ascii := "000"%char.

Definition b64std : string := "ABCDEFGHIJKLMNOPQRSTUVWXYZabcdefghijklmnopqrstuvwxyz0123456789+/".
Definition std_digit (z : Z) : ascii := default "A"%char (String.get (Z.to_nat (z mod 64)) b64std).
Fixpoint std_encode (l : list ascii) : list ascii :=
  match l with
  | a :: b :: c :: t =>
      let v := (byte_val a * 65536 + byte_val b * 256 + byte_val c)%Z in
      std_digit (v / 262144) :: std_digit (v / 4096) :: std_digit (v / 64) :: std_digit v :: std_encode t
  | [a; b] => let v := (byte_val a * 1024 + byte_val b * 4)%Z in [std_digit (v / 4096); std_digit (v / 64); std_digit v; "="%char]
  | [a] => let v := (byte_val a * 16)%Z in [std_digit (v / 64); std_digit v; "="%char; "="%char]
  | [] => []
  end.
Definition std_base64 (s : string) : string := of_bytes (std_encode (to_bytes s)).

(** StdEncoding.DecodeString: whole groups of four digits, padding at the end;
    line breaks are skipped. *)
Fixpoint std_value_go (i : Z) (c : ascii) (s : string) : option Z :=
  match s with
  | EmptyString => None
  | String d t => if Ascii.eqb c d then Some i else std_value_go (i + 1) c t
  end.
Definition std_value (c : ascii) : option Z := std_value_go 0 c b64std.
Fixpoint std_decode (l : list ascii) : option (list ascii) :=
  match l with
  | [] => Some []
  | [a; b; "="%char; "="%char] =>
      x ← std_value a; y ← std_value b; Some [byte_of ((x * 64 + y) / 16)]
  | [a; b; c; "="%char] =>
      x ← std_value a; y ← std_value b; z ← std_value c;
      let v := ((x * 4096 + y * 64 + z) / 4)%Z in Some [byte_of (v / 256); byte_of (v mod 256)]
  | a :: b :: c :: d :: t =>
      x ← std_value a; y ← std_value b; z ← std_value c; w ← std_value d; r ← std_decode t;
      let v := (x * 262144 + y * 4096 + z * 64 + w)%Z in
      Some (byte_of (v / 65536) :: byte_of (v / 256 mod 256) :: byte_of (v mod 256) :: r)
  | _ => None
  end.
Definition std_unbase64 (s : string) : option string :=
  of_bytes <$> std_decode (List.filter (λ c, negb (Ascii.eqb c nl || Ascii.eqb c "013")) (to_bytes s)).

(** ** The pure parts *)

Definition realDatabase : string := "oxyndb".
Definition realUser : string := "odbclient".
Definition codeStartup30 : Z := 196608.
Definition codeSSL : Z := 80877103.
Definition codeGSS : Z := 80877104.
Definition codeCancel : Z := 80877102.

Definition scopeAllows (scope target : string) : bool := String.eqb scope "" || String.eqb scope target.

Definition cancelKey (pid secret : Z) : string := format_int pid +:+ ":" +:+ format_int secret.

(** The zero-terminated pieces of a startup body; what follows the last zero is
    not one. *)
Fixpoint zero_parts (cur : list ascii) (l : list ascii) : list string :=
  match l with
  | [] => []
  | c :: t => if Ascii.eqb c zero then of_bytes (rev cur) :: zero_parts [] t else zero_parts (c :: cur) t
  end.

Fixpoint params_go (parts : list string) (acc : gmap string string) : gmap string string :=
  match parts with
  | k :: v :: t => if String.eqb k "" then acc else params_go t (<[k := v]> acc)
  | _ => acc
  end.
Definition parseParams (b : string) : gmap string string := params_go (zero_parts [] (to_bytes b)) ∅.

Definition param (m : gmap string string) (k : string) : string := default "" (m !! k).

(** The order of a Go map's keys is any order. *)
Definition startup_body (kvs : list (string * string)) : string :=
  foldr (λ kv s, fst kv +:+ str1 zero +:+ snd kv +:+ str1 zero +:+ s) (str1 zero) kvs.
Definition buildStartup (params : gmap string string) : string :=
  let body := put32 codeStartup30 +:+ startup_body (map_to_list params) in
  put32 (4 + Z.of_nat (String.length body)) +:+ body.

Definition message (typ : ascii) (body : string) : string :=
  String typ (put32 (4 + Z.of_nat (String.length body)) +:+ body).

Definition error_fields (code text : string) : string :=
  "S" +:+ "FATAL" +:+ str1 zero +:+ "C" +:+ code +:+ str1 zero +:+ "M" +:+ text +:+ str1 zero +:+ str1 zero.

Definition hex_of (s : string) : string := hex_encode s.

Definition option_parts (k v : string) : list string := if String.eqb v "" then [] else ["-c"; k +:+ "=" +:+ v].

(** [session]: the fresh session id, if the connection gets one of its own. *)
Definition ledger_options (existing actor branch : string) (session : option string) : string :=
  let kind := if HasPrefix branch "agent-" then "agent" else "human" in
  Join " " ((if String.eqb existing "" then [] else [existing])
    ++ option_parts "odb.actor" actor ++ option_parts "odb.actor_kind" kind ++ option_parts "odb.branch" branch
    ++ match session with Some sid => option_parts "odb.session" sid | None => [] end).

(** The three characters of base64 that are not alphanumeric are dropped. *)
Definition session_id (nonce : string) : string :=
  of_bytes (List.filter (λ c, negb (Ascii.eqb c "+" || Ascii.eqb c "/" || Ascii.eqb c "=")) (to_bytes nonce)).

Fixpoint scram_go (parts : list string) (acc : gmap string string) : gmap string string :=
  match parts with
  | [] => acc
  | p :: t =>
      scram_go t (match cut_byte "=" p with
                  | Some (k, v) => if String.eqb k "" then acc else <[k := v]> acc
                  | None => acc
                  end)
  end.
Definition scramAttrs (s : string) : gmap string string := scram_go (Split "," s) ∅.

Definition gatewayNoAuth (insecureAllowed : bool) (getenv : string → string) : bool :=
  if negb insecureAllowed then false
  else let v := getenv "OXYNDB_GATEWAY_NOAUTH" in String.eqb v "1" || String.eqb v "true".

Definition reaper_interval (idle : Z) : Z := Z.min (30 * sec) (Z.max (5 * sec) (idle ÷ 3)).

(** Who a session logs in to the backend as. *)
Inductive login : Type := AsAgent | AsUser | AsShared.

Section gateway.
Context {W : World} {En : Env} {Em : Embedded} {K : KeyStore} {C : Crypto} {T : ErrorText}.

(** ** Connections *)

Definition read_full (c : string) (n : Z) : prog string :=
  let a := CallOut "io.ReadFull" [c; format_int n] in
  r ← call a;
  if rok r && (n <=? Z.of_nat (String.length (rout r)))%Z then mret (slice_to (Z.to_nat n) (rout r)) else fail (CommandFailed a).

Definition conn_write (c data : string) : prog unit := perform (CallOut "conn.Write" [c; data]).

Definition first_byte (s : string) : ascii := match s with String c _ => c | EmptyString => zero end.

Definition readMsg (c : string) : prog (ascii * string) :=
  h ← read_full c 5;
  let n := get32 (slice_from 1 h) in
  if ((n <? 4) || (16777216 <? n))%Z then fail (Errorf "bad message length %d" [format_int n]) else
  body ← read_full c (n - 4);
  mret (first_byte h, body).

Definition writeMsg (c : string) (typ : ascii) (body : string) : prog unit := conn_write c (message typ body).

Definition sendError (c code text : string) : prog unit :=
  ignore (CallOut "conn.Write" [c; message "E" (error_fields code text)]).

(** ** Cancel keys *)

Definition registerCancel (key addr : string) : prog unit := ignore (CallOut "registerCancel" [key; addr]).
Definition deregisterCancel (key : string) : prog unit := ignore (CallOut "deregisterCancel" [key]).

Definition cancel_step (m : gmap string string) (e : event) : gmap string string :=
  match fst e with
  | CallOut what [key; addr] => if String.eqb what "registerCancel" then <[key := addr]> m else m
  | CallOut what [key] => if String.eqb what "deregisterCancel" then delete key m else m
  | _ => m
  end.
Definition cancelTargets (h : history) : gmap string string := foldl cancel_step ∅ h.
Definition cancel_target (key : string) : prog string := λ h, (Ok (param (cancelTargets h) key), []).

Definition cancel_packet (body : string) : string :=
  put32 16 +:+ put32 codeCancel +:+ slice_from 4 (slice_to 12 body).

Definition forwardCancel (body : string) : prog unit :=
  if (String.length body <? 12)%nat then mret tt else
  let key := cancelKey (get32 (slice_from 4 body)) (get32 (slice_from 8 body)) in
  addr ← cancel_target key;
  if String.eqb addr "" then mret tt else
  up ← succeeds (CallOut "net.Dial" [addr]);
  if (up : bool) then ignore (CallOut "conn.Write" ["cancel"; cancel_packet body]) else mret tt.

(** ** Startup *)

(** [None]: the connection was a cancel request, dealt with. [tls]: whether a
    certificate is loaded. Each round reads eight bytes or more, so a client
    that keeps asking for encryption is only bounded by what it sends. *)
Fixpoint readStartup (fuel : nat) (tls : bool) : prog (option (gmap string string)) :=
  match fuel with
  | O => raise "out of fuel"
  | S fuel =>
      header ← read_full "client" 4;
      let msgLen := get32 header in
      if ((msgLen <? 8) || (1048576 <? msgLen))%Z then fail (Errorf "bad startup length %d" [format_int msgLen]) else
      body ← read_full "client" (msgLen - 4);
      let code := get32 body in
      if (code =? codeSSL)%Z then
        if negb tls then _ ← conn_write "client" "N"; readStartup fuel tls
        else
          _ ← conn_write "client" "S";
          _ ← perform (CallOut "tls.Handshake" ["client"]);
          readStartup fuel tls
      else if (code =? codeGSS)%Z then _ ← conn_write "client" "N"; readStartup fuel tls
      else if (code =? codeCancel)%Z then _ ← forwardCancel body; mret None
      else if (code =? codeStartup30)%Z then mret (Some (parseParams (slice_from 4 body)))
      else fail (Errorf "unsupported startup code %d" [format_int code])
  end.

Definition requestClientPassword : prog string :=
  _ ← writeMsg "client" "R" (put32 3);
  '(typ, body) ← readMsg "client";
  if negb (Ascii.eqb typ "p") then fail (Errorf "expected PasswordMessage, got %q" [str1 typ])
  else mret (trim_right_by (Ascii.eqb zero) body).

Definition writeAuthOk : prog unit := writeMsg "client" "R" (put32 0).

(** ** Logging in to the backend *)

Definition md5Password (user password salt : string) : string :=
  "md5" +:+ hex_of (md5 (hex_of (md5 (password +:+ user)) +:+ salt)).

Definition nonce : prog string :=
  let a := CallOut "rand.Read" ["18"] in
  r ← call a; if rok r then mret (std_base64 (slice_to 18 (rout r))) else fail (CommandFailed a).

Fixpoint xor_strings (a b : string) : string :=
  match a, b with
  | String x a, String y b => String (ascii_of_N (N.lxor (N_of_ascii x) (N_of_ascii y))) (xor_strings a b)
  | _, _ => EmptyString
  end.

Definition scram_final (password clientNonce serverFirst serverNonce salt : string) (iters : Z) : string :=
  let saltedPassword := pbkdf2_sha256 password salt iters in
  let clientKey := hmac_sha256 saltedPassword "Client Key" in
  let storedKey := sha256 clientKey in
  let clientFinalNoProof := "c=biws,r=" +:+ serverNonce in
  let authMessage := "n=,r=" +:+ clientNonce +:+ "," +:+ serverFirst +:+ "," +:+ clientFinalNoProof in
  clientFinalNoProof +:+ ",p=" +:+ std_base64 (xor_strings clientKey (hmac_sha256 storedKey authMessage)).

(** body[:4] of a shorter body panics. *)
Definition code_of (body : string) : prog Z :=
  if (String.length body <? 4)%nat then raise "slice bounds out of range" else mret (get32 body).

Definition scramSHA256 (mechanisms password : string) : prog unit :=
  if negb (Contains mechanisms "SCRAM-SHA-256") then fail (Errorf "backend did not offer SCRAM-SHA-256" []) else
  clientNonce ← nonce;
  let clientFirst := "n,," +:+ "n=,r=" +:+ clientNonce in
  _ ← writeMsg "backend" "p" ("SCRAM-SHA-256" +:+ str1 zero +:+ put32 (Z.of_nat (String.length clientFirst)) +:+ clientFirst);
  '(typ, body) ← readMsg "backend";
  if negb (Ascii.eqb typ "R") then fail (Errorf "expected SASLContinue" []) else
  code ← code_of body;
  if negb (code =? 11)%Z then fail (Errorf "expected SASLContinue" []) else
  let serverFirst := slice_from 4 body in
  let attrs := scramAttrs serverFirst in
  let serverNonce := param attrs "r" in
  if negb (HasPrefix serverNonce clientNonce) then fail (Errorf "server nonce mismatch" []) else
  match std_unbase64 (param attrs "s"), atoi (param attrs "i") with
  | Some salt, Some iters =>
      _ ← writeMsg "backend" "p" (scram_final password clientNonce serverFirst serverNonce salt iters);
      '(typ, _) ← readMsg "backend";
      if negb (Ascii.eqb typ "R") then fail (Errorf "expected SASLFinal" []) else mret tt
  | _, _ => fail (Errorf "bad server-first message" [serverFirst])
  end.

Fixpoint auth_loop (fuel : nat) (user password : string) : prog unit :=
  match fuel with
  | O => raise "out of fuel"
  | S fuel =>
      '(typ, body) ← readMsg "backend";
      if Ascii.eqb typ "E" then fail (Errorf "backend refused connection" []) else
      if negb (Ascii.eqb typ "R") || (String.length body <? 4)%nat
      then fail (Errorf "unexpected message %q during backend auth" [str1 typ]) else
      let code := get32 body in
      if (code =? 0)%Z then mret tt
      else if (code =? 3)%Z then _ ← writeMsg "backend" "p" (password +:+ str1 zero); auth_loop fuel user password
      else if (code =? 5)%Z then
        if (String.length body <? 8)%nat then fail (Errorf "short md5 auth message" []) else
        _ ← writeMsg "backend" "p" (md5Password user password (slice_from 4 (slice_to 8 body)) +:+ str1 zero);
        auth_loop fuel user password
      else if (code =? 10)%Z then _ ← scramSHA256 (slice_from 4 body) password; auth_loop fuel user password
      else fail (Errorf "unsupported backend auth method %d" [format_int code])
  end.

Definition backendAuth (fuel : nat) (params : gmap string string) (password : string) : prog unit :=
  _ ← conn_write "backend" (buildStartup params);
  auth_loop fuel (param params "user") password.

(** Messages are passed on up to ReadyForQuery; the backend's key is kept. The
    key is returned also with an error. *)
Fixpoint relayStartupCaptureKey (fuel : nat) (addr key : string) : prog (string * bool) :=
  match fuel with
  | O => raise "out of fuel"
  | S fuel =>
      m ← attempt (readMsg "backend");
      match m with
      | inr _ => mret (key, false)
      | inl (typ, body) =>
          w ← attempt (writeMsg "client" typ body);
          match w with
          | inr _ => mret (key, false)
          | inl _ =>
              if Ascii.eqb typ "K" then
                if (8 <=? String.length body)%nat then
                  let key := cancelKey (get32 body) (get32 (slice_from 4 body)) in
                  _ ← registerCancel key addr; relayStartupCaptureKey fuel addr key
                else relayStartupCaptureKey fuel addr key
              else if Ascii.eqb typ "Z" then mret (key, true)
              else if Ascii.eqb typ "E" then mret (key, false)
              else relayStartupCaptureKey fuel addr key
          end
      end
  end.

Definition ledgerOptions (existing actor branch : string) (ownSession : bool) : prog string :=
  if ownSession then
    sid ← attempt nonce;
    mret (ledger_options existing actor branch (Some (session_id (match sid with inl s => s | inr _ => "" end))))
  else mret (ledger_options existing actor branch None).

(** ** A session *)

Definition touch (name : string) : prog unit := ignore (CallOut "touch" [name]).

(** The password check: the actor and the branch the key is limited to. [None]:
    the client was turned away. *)
Definition check_key (noauth : bool) : prog (option (string * string)) :=
  if noauth then mret (Some ("", "")) else
  key ← attempt requestClientPassword;
  match key with
  | inr _ => mret None
  | inl key =>
      v ← (λ h, (Ok (verify_key h key), []));
      match v with
      | None => _ ← sendError "client" "28P01" "invalid API key — use a odb_ key as the password"; mret None
      | Some (email, scope) => mret (Some (email, scope))
      end
  end.

(** The role and the password the gateway uses towards the backend. [cached]: the
    account's role is known to exist on this branch. *)
Definition backend_login (cached : bool) (target actor keyScope : string) : prog (string * string) :=
  if negb (String.eqb keyScope "") then mret (keyScope, AgentRolePassword keyScope)
  else if negb (String.eqb actor "") then
    r ← attempt (EnsureUserRole cached target actor);
    mret (match r with inl _ => actor | inr _ => realUser end, pgPass)
  else mret (realUser, pgPass).

(** Everything after the client and its scope have been checked. *)
Definition open_session (fuel : nat) (cached : bool) (params : gmap string string) (target actor keyScope : string) : prog unit :=
  _ ← touch target;
  _ ← ContainerState target;
  addr ← attempt (EnsureRunning target);
  match addr with
  | inr e => sendError "client" "3D000" (Error e)
  | inl addr =>
      up ← succeeds (CallOut "net.Dial" [addr]);
      if negb up then sendError "client" "08006" ("could not reach branch " +:+ Quote target) else
      '(user, pass) ← backend_login cached target actor keyScope;
      options ← ledgerOptions (param params "options") actor target (String.eqb keyScope "");
      let params := <["options" := options]> (<["user" := user]> (<["database" := realDatabase]> params)) in
      ok ← attempt (backendAuth fuel params pass);
      match ok with
      | inr _ => sendError "client" "08006" ("branch " +:+ Quote target +:+ " authentication failed")
      | inl _ =>
          w ← attempt writeAuthOk;
          match w with
          | inr _ => mret tt
          | inl _ =>
              '(key, ready) ← relayStartupCaptureKey fuel addr "";
              if negb ready then mret tt else
              _ ← ignore (CallOut "io.Copy" ["client"; "backend"]);
              when (negb (String.eqb key "")) (deregisterCancel key)
          end
      end
  end.

Definition handle (fuel : nat) (tls noauth cached : bool) : prog unit :=
  s ← attempt (readStartup fuel tls);
  match s with
  | inr _ | inl None => mret tt
  | inl (Some params) =>
      who ← check_key noauth;
      match who with
      | None => mret tt
      | Some (email, keyScope) =>
          let target := or_main (param params "database") in
          if negb (String.eqb keyScope "") && negb (scopeAllows keyScope target)
          then sendError "client" "42501" ("this key only opens branch " +:+ Quote keyScope)
          else open_session fuel cached params target (if String.eqb keyScope "" then email else keyScope) keyScope
      end
  end.

(** ** Continuous imports, and suspending idle branches *)

Record Replication : Type := mkReplication {
  RBranch : string; Replicating_ : bool; RTotal : Z; TablesReady : Z; LastMessageAt : string; ReceivedLSN : string }.

Definition Ready (r : Replication) : bool := Replicating_ r && (0 <? RTotal r)%Z && (TablesReady r =? RTotal r)%Z.

Definition replicationSQL : string := lines_of
  ["SELECT json_build_object(";
   "  'replicating', EXISTS (SELECT 1 FROM pg_subscription WHERE subname = 'odb_sub'),";
   "  'tables', (SELECT count(*) FROM pg_subscription_rel sr JOIN pg_subscription s ON s.oid = sr.srsubid";
   "             WHERE s.subname = 'odb_sub'),";
   "  'tables_ready', (SELECT count(*) FROM pg_subscription_rel sr JOIN pg_subscription s ON s.oid = sr.srsubid";
   "                   WHERE s.subname = 'odb_sub' AND sr.srsubstate = 'r'),";
   "  'last_message_at', (SELECT to_char(max(last_msg_receipt_time) AT TIME ZONE 'UTC', 'YYYY-MM-DD"
     +:+ str1 dquote +:+ "T" +:+ str1 dquote +:+ "HH24:MI:SS" +:+ str1 dquote +:+ "Z" +:+ str1 dquote +:+ "')";
   "                      FROM pg_stat_subscription WHERE subname = 'odb_sub'),";
   "  'received_lsn', (SELECT max(received_lsn)::text FROM pg_stat_subscription WHERE subname = 'odb_sub'))"].

Definition decode_replication (name : string) (j : json) : option Replication :=
  m ← as_object j;
  replicating ← field as_bool false "replicating" m;
  tables ← field as_int 0%Z "tables" m;
  ready ← field as_int 0%Z "tables_ready" m;
  last ← field as_string "" "last_message_at" m;
  lsn ← field as_string "" "received_lsn" m;
  _ ← field as_string name "branch" m;
  Some (mkReplication name replicating tables ready last lsn).

Definition parseReplication (name : string) (out : list string) : outcome error Replication :=
  match last out with
  | None => Err (Errorf "reading replication state of %q: no result" [name])
  | Some line =>
      match json_parse line ≫= decode_replication name with
      | Some r => Ok r
      | None => Err (Errorf "reading replication state of %q" [name; line])
      end
  end.

Definition ReplicationStatus (name : string) : prog Replication :=
  out ← wrap "reading replication state of %q" [name] (ledgerLines name replicationSQL);
  lift (parseReplication name out).

Fixpoint replicating_go (names : list string) : prog (list Replication) :=
  match names with
  | [] => mret []
  | n :: t =>
      if String.eqb n "main" then replicating_go t else
      r ← attempt (ReplicationStatus n);
      rest ← replicating_go t;
      mret (match r with inl r => if Replicating_ r then r :: rest else rest | inr _ => rest end)
  end.
Definition Replicating : prog (list Replication) := names ← RunningBranches; replicating_go names.

Definition canSuspend (name : string) : prog bool :=
  active ← attempt (ActiveConnections name);
  match active with
  | inr _ => mret false
  | inl n =>
      if (0 <? n)%Z then mret false else
      r ← attempt (ReplicationStatus name);
      mret (match r with inl r => negb (Replicating_ r) | inr _ => false end)
  end.

(** The proxy's last routing of each branch, from the history. *)
Definition last_activity (h : history) (name : string) : option Z :=
  foldl (λ acc e, match fst e with
                   | CallOut what [n] => if String.eqb what "touch" && String.eqb n name then Some (rnum (snd e)) else acc
                   | _ => acc
                   end) None h.

Definition reap (idle : Z) (n : string) : prog unit :=
  seen ← (λ h, (Ok (last_activity h n), []));
  match seen with
  | None => touch n
  | Some last_ =>
      now ← call Now;
      if (rnum now - last_ <? idle)%Z then mret tt else
      ok ← canSuspend n;
      if negb ok then mret tt else discard (Suspend n)
  end.

(** One round of the reaper's loop. *)
Definition reaper_round (idle : Z) : prog unit :=
  _ ← ignore (Sleep (reaper_interval idle));
  names ← attempt SuspendableBranches;
  match names with inr _ => mret tt | inl names => for_each (reap idle) names end.

End gateway.

(** ** Who a connection can reach *)

Section admission.
Context {W : World} {En : Env} {Em : Embedded} {K : KeyStore} {C : Crypto} {T : ErrorText}.

(** No command is run. *)
Definition no_command (a : action) : Prop := match a with Exec _ _ => False | _ => True end.

(** What the gateway may send a backend: its startup packet, for the real
    database and as [u], and password messages. *)
Definition backend_write (u : string → Prop) (a : action) : Prop :=
  ∀ data, a = CallOut "conn.Write" ["backend"; data] →
    (∃ body, data = message "p" body) ∨
    (∃ params user, data = buildStartup params ∧ params !! "database" = Some realDatabase ∧ params !! "user" = Some user ∧ u user).

(** The roles a connection may log in as. *)
Definition role_of (email scope : string) (user : string) : Prop :=
  if String.eqb scope "" then user = email ∨ user = realUser else user = scope.

Definition session_action (target email scope : string) (a : action) : Prop :=
  (∀ c, starts c a → c = container target ∧ target ≠ "main" ∧ c ≠ main_ct) ∧ backend_write (role_of email scope) a.

Lemma emits_read_full (P : action → Prop) c n : P (CallOut "io.ReadFull" [c; format_int n]) → emits P (read_full c n).
Proof. intros HP. unfold read_full. emits_go. done. Qed.

Lemma emits_readMsg (P : action → Prop) c : (∀ n, P (CallOut "io.ReadFull" [c; n])) → emits P (readMsg c).
Proof. intros HP. unfold readMsg. emits_go; by apply emits_read_full. Qed.

Lemma emits_state (P : action → Prop) {A} (f : history → A) : emits P (λ h, (Ok (f h), [])).
Proof. intros h. constructor. Qed.

(** Before the key is checked: no command, and nothing sent to a backend. *)
Definition outside (a : action) : Prop := no_command a ∧ ∀ data, a ≠ CallOut "conn.Write" ["backend"; data].

Lemma outside_session target email scope a : outside a → session_action target email scope a.
Proof.
  intros [Hc Hw]. split.
  - intros c Hs. destruct a; try easy.
  - intros data ->. by destruct (Hw data).
Qed.

Lemma emits_startup fuel tls : emits outside (readStartup fuel tls).
Proof.
  induction fuel as [|fuel IH]; cbn [readStartup]; [apply emits_raise|].
  unfold conn_write, forwardCancel. cbv zeta.
  repeat first [emits_step | apply emits_read_full | apply IH | apply (emits_state outside (λ h, param (cancelTargets h) _))];
    by split.
Qed.

Lemma emits_check_key noauth : emits outside (check_key noauth).
Proof.
  unfold check_key, requestClientPassword, writeMsg, conn_write, sendError.
  repeat first [emits_step | apply emits_readMsg; intros | apply (emits_state outside (λ h, verify_key h _))]; by split.
Qed.

Lemma emits_sendError_client code text : emits outside (sendError "client" code text).
Proof. apply emits_ignore. by split. Qed.

(** What a check that let the client in was based on. *)
Lemma check_key_admits h email scope t :
  runs (check_key false) h (Ok (Some (email, scope))) t →
  ∃ key, runs requestClientPassword h (Ok key) t ∧ verify_key (h ++ t) key = Some (email, scope).
Proof.
  unfold check_key. intros (key & t1 & t2 & Hkey & Hrun & ->)%runs_bind_ok.
  destruct key as [key|e]; [|by apply runs_ret in Hrun as [[=] _]].
  apply runs_bind_ok in Hrun as (v & t3 & t4 & Hv & Hrun & ->).
  unfold runs in Hv. injection Hv as <- <-.
  destruct (verify_key _ key) as [[e s]|] eqn:Hverify.
  - apply runs_ret in Hrun as [[= -> ->] ->]. rewrite !app_nil_r in *. exists key. split; [|done].
    by apply runs_attempt in Hkey as [(k' & Hk & [= ->])|[(e' & _ & [=])|(w & _ & [=])]].
  - apply runs_bind_ok in Hrun as (x & t5 & t6 & _ & Hrun & _). by apply runs_ret in Hrun as [[=] _].
Qed.

Lemma backend_login_role cached target email scope :
  returns (λ r, role_of email scope (fst r)) (backend_login cached target (if String.eqb scope "" then email else scope) scope).
Proof.
  intros h [user pass] t. unfold backend_login, role_of. destruct (String.eqb scope "") eqn:Hs; cbn [negb].
  - destruct (String.eqb email "") eqn:He; cbn [negb].
    + intros [[= -> _] _]%runs_ret. by right.
    + intros (r & t1 & t2 & _ & [[= -> _] _]%runs_ret & _)%runs_bind_ok. destruct r; [by left|by right].
  - by intros [[= -> _] _]%runs_ret.
Qed.

(** Password messages only. *)
Lemma emits_auth (P : action → Prop) fuel user password :
  (∀ a, (∀ data, a ≠ CallOut "conn.Write" ["backend"; data]) → no_command a → P a) →
  (∀ body, P (CallOut "conn.Write" ["backend"; message "p" body])) →
  emits P (auth_loop fuel user password).
Proof.
  intros Hother Hmsg. induction fuel as [|fuel IH]; cbn [auth_loop]; [apply emits_raise|].
  unfold scramSHA256, writeMsg, conn_write, nonce, code_of. cbv zeta.
  repeat first [emits_step | apply emits_readMsg; intros | apply IH]; first [by apply Hmsg | by apply Hother].
Qed.

Lemma emits_relay (P : action → Prop) fuel addr key :
  (∀ a, (∀ data, a ≠ CallOut "conn.Write" ["backend"; data]) → no_command a → P a) →
  emits P (relayStartupCaptureKey fuel addr key).
Proof.
  intros Hother. revert key. induction fuel as [|fuel IH]; intros key; cbn [relayStartupCaptureKey]; [apply emits_raise|].
  unfold writeMsg, conn_write, registerCancel. cbv zeta.
  repeat first [emits_step | apply emits_readMsg; intros | apply IH]; by apply Hother.
Qed.

Lemma emits_open_session fuel cached params target email scope :
  emits (session_action target email scope)
    (open_session fuel cached params target (if String.eqb scope "" then email else scope) scope).
Proof.
  set (P := session_action target email scope).
  assert (∀ a, (∀ data, a ≠ CallOut "conn.Write" ["backend"; data]) → no_command a → P a) as Hother.
  { intros a Hw Hc. by apply outside_session. }
  assert (∀ code text, emits P (sendError "client" code text)) as Herr.
  { intros. apply emits_ignore, Hother; done. }
  assert (∀ l i, head l ≠ Some "docker" ∨ (l !! 1%nat = Some "exec" ∨ l !! 1%nat = Some "inspect") → P (Exec ("sudo" :: l) i)) as Hcmd.
  { intros l i Hl. split; [|easy]. intros c Hc. exfalso. destruct l as [|x [|y l]]; cbn in Hc, Hl;
      repeat case_match; try easy; naive_solver. }
  assert (emits P (EnsureRunning target)) as Hrun.
  { eapply emits_mono; [|apply emits_and; [apply EnsureRunning_starts|apply EnsureRunning_local]].
    intros a [Hs Hl]. split; [exact Hs|]. by intros data ->. }
  unfold open_session, touch.
  apply emits_bind; [apply emits_ignore; by apply Hother|]. intros _.
  apply emits_bind; [unfold ContainerState; emits_branch; apply Hcmd; by right; right|]. intros _.
  apply emits_bind; [by apply emits_attempt|]. intros [addr|e]; [|apply Herr].
  apply emits_bind; [apply emits_succeeds; by apply Hother|]. intros [|]; cbn [negb]; [|apply Herr].
  apply (emits_bind_returns P (λ r, role_of email scope (fst r))); [|apply backend_login_role|].
  { unfold backend_login. emits_branch; unfold EnsureUserRole. emits_branch; apply Hcmd; by right; left. }
  intros [user pass] Huser. apply emits_bind.
  { unfold ledgerOptions, nonce. emits_go; by apply Hother. }
  intros options. apply emits_bind.
  { apply emits_attempt. unfold backendAuth, conn_write. apply emits_bind.
    - apply emits_perform. split; [easy|]. intros data [= <-]. right. eexists _, user. split; [reflexivity|].
      split; [|split; [|done]].
      + rewrite lookup_insert_ne, lookup_insert_ne, lookup_insert_eq; done.
      + rewrite lookup_insert_ne, lookup_insert_eq; done.
    - intros _. apply emits_auth; [done|]. intros body. split; [easy|]. intros data [= <-]. left. by exists body. }
  intros [x|e]; [|apply Herr].
  unfold writeAuthOk, writeMsg, conn_write, deregisterCancel.
  repeat first [emits_step | by apply emits_relay]; by apply Hother.
Qed.

(** C3. What a client gets past the gateway: either nothing was run and no
    backend heard from it, or the store accepted the very key the client sent after
    its startup message, and that key is not limited to another branch than the one
    the startup message asked for; then, and only after the key was accepted, the one
    container started is that branch's (never main's), and a backend is only ever told
    to open the real database as the role the key entitles to: the agent's own for a
    key limited to a branch. *)
Theorem handle_admits fuel tls cached h o t :
  runs (handle fuel tls false cached) h o t →
  Forall (λ e, outside e.1) t ∨
  ∃ params key email scope t1 t2 t3,
    t = t1 ++ t2 ++ t3 ∧ Forall (λ e, outside e.1) (t1 ++ t2) ∧
    runs (readStartup fuel tls) h (Ok (Some params)) t1 ∧
    runs requestClientPassword (h ++ t1) (Ok key) t2 ∧
    verify_key ((h ++ t1) ++ t2) key = Some (email, scope) ∧
    let target := or_main (param params "database") in
    (scope = "" ∨ scope = target) ∧ Forall (λ e, session_action target email scope e.1) t3.
Proof.
  unfold handle. rewrite runs_bind.
  pose proof (emits_attempt _ _ (emits_startup fuel tls)) as Hstart.
  intros [(s & t1 & t2 & Hread & Hrest & ->)|[(e & He & _)|(w & Hw & _)]];
    [|left; by eapply emits_runs..].
  pose proof (emits_runs _ _ _ _ _ Hstart Hread) as Hs.
  destruct s as [[params|]|e]; [|apply runs_ret in Hrest as [_ ->]; left; by rewrite app_nil_r..].
  rewrite runs_bind in Hrest. pose proof (emits_check_key false) as Hcheck.
  destruct Hrest as [(who & u1 & u2 & Hwho & Hrest & ->)|[(e & He & _)|(w & Hw & _)]];
    [|left; apply Forall_app; split; [done|]; by eapply emits_runs..].
  pose proof (emits_runs _ _ _ _ _ Hcheck Hwho) as Hu1.
  destruct who as [[email scope]|]; [|apply runs_ret in Hrest as [_ ->]; left; rewrite app_nil_r; by apply Forall_app].
  apply check_key_admits in Hwho as (key & Hpass & Hverify). cbv zeta in Hrest.
  destruct (negb _ && negb _) eqn:Hscope.
  { left. apply Forall_app. split; [done|]. apply Forall_app. split; [done|].
    eapply emits_runs in Hrest; [done|apply emits_sendError_client]. }
  right. exists params, key, email, scope, t1, u1, u2. split; [done|]. split; [by apply Forall_app|]. split.
  { by apply runs_attempt in Hread as [(p' & Hp & [= ->])|[(e & _ & [=])|(w & _ & [=])]]. }
  split; [done|]. split; [done|]. split.
  { unfold scopeAllows in Hscope. destruct (String.eqb_spec scope ""); [by left|right].
    cbn in Hscope. by apply negb_false_iff, String.eqb_eq in Hscope. }
  eapply emits_runs in Hrest; [exact Hrest|]. apply emits_open_session.
Qed.

End admission.

(** ** Startup parameters *)

Definition no_zero (s : string) : bool := negb (has_byte zero s).

Lemma zero_parts_app cur s l :
  no_zero s = true → zero_parts cur (to_bytes s ++ zero :: l) = of_bytes (rev cur ++ to_bytes s) :: zero_parts [] l.
Proof.
  unfold no_zero. revert cur. induction s as [|c s IH]; intros cur Hs; cbn.
  - by rewrite app_nil_r.
  - apply negb_true_iff, has_byte_false in Hs. cbn [to_bytes] in Hs. apply not_elem_of_cons in Hs as [Hc Hs].
    destruct (Ascii.eqb_spec c zero) as [->|Hne]; [done|].
    rewrite IH; [|by apply negb_true_iff, has_byte_false]. cbn. by rewrite <- app_assoc.
Qed.

Lemma zero_parts_body kvs :
  Forall (λ kv, no_zero (fst kv) = true ∧ no_zero (snd kv) = true) kvs →
  zero_parts [] (to_bytes (startup_body kvs)) = concat ((λ kv, [fst kv; snd kv]) <$> kvs) ++ [""].
Proof.
  induction 1 as [|[k v] kvs [Hk Hv] _ IH]; [reflexivity|].
  change (startup_body ((k, v) :: kvs)) with (k +:+ str1 zero +:+ v +:+ str1 zero +:+ startup_body kvs).
  rewrite !to_bytes_app. cbn [str1 to_bytes app fst snd] in *.
  rewrite zero_parts_app by done. cbn [app rev]. rewrite of_to_bytes, zero_parts_app by done.
  cbn [app rev]. rewrite of_to_bytes, IH. reflexivity.
Qed.

Lemma params_go_pairs kvs acc :
  Forall (λ kv, fst kv ≠ "") kvs → NoDup (fst <$> kvs) → (∀ k, k ∈ fst <$> kvs → acc !! k = None) →
  params_go (concat ((λ kv, [fst kv; snd kv]) <$> kvs) ++ [""]) acc = list_to_map kvs ∪ acc.
Proof.
  intros Hne. revert acc. induction Hne as [|[k v] kvs Hk _ IH]; intros acc Hnd Hacc.
  - cbn. by rewrite (left_id_L ∅ (∪)).
  - cbn in *. apply NoDup_cons in Hnd as [Hnew Hnd]. apply String.eqb_neq in Hk. rewrite Hk, IH; [|done|].
    + rewrite <- insert_union_l, <- insert_union_r; [done|]. by apply not_elem_of_list_to_map_1.
    + intros k' Hk'. rewrite lookup_insert_ne by congruence. apply Hacc. by right.
Qed.

Lemma length_put32 n : String.length (put32 n) = 4%nat.
Proof. unfold put32. by rewrite length_of_bytes. Qed.

Lemma byte_val_of n : (n < 256)%N → byte_val (ascii_of_N n) = Z.of_N n.
Proof. intros Hn. unfold byte_val. by rewrite ascii_of_N_val. Qed.

Lemma get32_put32 n s : (0 <= n < 4294967296)%Z → get32 (put32 n +:+ s) = n.
Proof.
  intros Hn. unfold get32, put32. rewrite to_bytes_app, to_of_bytes. unfold be_bytes. cbn [app].
  rewrite Z.mod_small by lia.
  rewrite !byte_val_of by (apply N.mod_lt; lia).
  rewrite !N2Z.inj_mod, !N2Z.inj_div, Z2N.id by lia. cbn [Z.of_N].
  Z.to_euclidean_division_equations; lia.
Qed.

Lemma slice_from_app a b : slice_from (String.length a) (a +:+ b) = b.
Proof.
  unfold slice_from. rewrite to_bytes_app, <- length_to_bytes, drop_app_length. apply of_to_bytes.
Qed.

(** The startup packet the gateway builds is read back, by the gateway's own
    reader, as the very same parameters, in whatever order the map is walked:
    its length word counts the whole packet, its code is protocol 3.0, and no
    parameter is lost or changed. *)
Theorem buildStartup_parseParams params :
  map_Forall (λ k v, k ≠ "" ∧ no_zero k = true ∧ no_zero v = true) params →
  (Z.of_nat (String.length (buildStartup params)) < 4294967296)%Z →
  let packet := buildStartup params in
  get32 packet = Z.of_nat (String.length packet) ∧ get32 (slice_from 4 packet) = codeStartup30
  ∧ parseParams (slice_from 8 packet) = params.
Proof.
  intros Hparams Hlen packet. unfold packet, buildStartup in *. cbv zeta in *.
  set (body := put32 codeStartup30 +:+ startup_body _) in *. rewrite !length_sapp, length_put32 in *.
  assert (String.length body = 4 + String.length (startup_body (map_to_list params)))%nat as Hbody.
  { unfold body. by rewrite length_sapp, length_put32. }
  split; [rewrite get32_put32; lia|].
  assert (slice_from 4 (put32 (4 + Z.of_nat (String.length body)) +:+ body) = body) as ->.
  { rewrite <- (length_put32 (4 + Z.of_nat (String.length body))). apply slice_from_app. }
  split; [unfold body; apply get32_put32; unfold codeStartup30; lia|].
  assert (slice_from 8 (put32 (4 + Z.of_nat (String.length body)) +:+ body) = startup_body (map_to_list params)) as ->.
  { unfold body. rewrite <- sapp_assoc.
    replace 8%nat with (String.length (put32 (4 + Z.of_nat (String.length body)) +:+ put32 codeStartup30))
      by (rewrite length_sapp, !length_put32; lia).
    apply slice_from_app. }
  unfold parseParams. rewrite zero_parts_body.
  - rewrite params_go_pairs.
    + by rewrite list_to_map_to_list, (right_id_L ∅ (∪)).
    + apply Forall_forall. intros [k v] Hin%elem_of_map_to_list. by destruct (Hparams k v Hin).
    + apply NoDup_fst_map_to_list.
    + intros. apply lookup_empty.
  - apply Forall_forall. intros [k v] Hin%elem_of_map_to_list. by destruct (Hparams k v Hin) as (_ & ? & ?).
Qed.

(** ** Cancel requests *)

Definition about_key (key : string) (a : action) : Prop :=
  match a with
  | CallOut what [k; _] => what = "registerCancel" ∧ k = key
  | CallOut what [k] => what = "deregisterCancel" ∧ k = key
  | _ => False
  end.

(** [key] was last registered for [addr], and not removed since. *)
Definition live (key addr : string) (h : history) : Prop :=
  ∃ h1 r h2, h = h1 ++ (CallOut "registerCancel" [key; addr], r) :: h2 ∧ Forall (λ e, ¬ about_key key e.1) h2.

Lemma cancel_step_other m e key : ¬ about_key key e.1 → cancel_step m e !! key = m !! key.
Proof.
  destruct e as [a r]. unfold cancel_step, about_key. cbn [fst].
  destruct a as [| | | | | | | | | | | | |w [|k [|x [|y args]]]]; try done; intros Hkey;
    destruct (String.eqb_spec w "registerCancel"), (String.eqb_spec w "deregisterCancel"); try done; subst.
  all: first [apply lookup_delete_ne | apply lookup_insert_ne]; naive_solver.
Qed.

Lemma live_snoc key addr h e :
  live key addr (h ++ [e]) ↔
  (∃ r, e = (CallOut "registerCancel" [key; addr], r)) ∨ (¬ about_key key e.1 ∧ live key addr h).
Proof.
  split.
  - intros (h1 & r & h2 & Heq & Hh2). destruct h2 as [|e2 h2 _] using rev_ind.
    + apply app_inj_tail in Heq as [_ ->]. left. by exists r.
    + rewrite app_comm_cons, app_assoc in Heq. apply app_inj_tail in Heq as [-> ->].
      apply Forall_app in Hh2 as [Hh2 He]. apply Forall_inv in He. right. split; [done|]. by exists h1, r, h2.
  - intros [[r ->]|[Hn (h1 & r & h2 & -> & Hh2)]]; [by exists h, r, []|].
    exists h1, r, (h2 ++ [e]). split; [by rewrite <- app_assoc|]. apply Forall_app. split; [done|].
    by apply Forall_singleton.
Qed.

#[export] Instance about_key_dec key a : Decision (about_key key a).
Proof. destruct a as [| | | | | | | | | | | | |w [|k [|x [|y args]]]]; cbn; apply _. Defined.

Lemma cancelTargets_live h key addr : cancelTargets h !! key = Some addr ↔ live key addr h.
Proof.
  unfold cancelTargets. induction h as [|e h IH] using rev_ind.
  - cbn [foldl]. rewrite lookup_empty. split; [done|]. intros (h1 & r & h2 & Heq & _). by destruct h1.
  - rewrite foldl_snoc, live_snoc. destruct (decide (about_key key e.1)) as [Ha|Hn].
    + destruct e as [a r]. cbn [fst] in *.
      destruct a as [| | | | | | | | | | | | |w [|k [|x [|y args]]]]; try done; destruct Ha as [-> ->]; unfold cancel_step; cbn [fst]; rewrite String.eqb_refl.
      * rewrite lookup_delete_eq. cbn. naive_solver.
      * rewrite lookup_insert_eq. cbn. naive_solver.
    + rewrite cancel_step_other, IH by done. split; [by right|]. intros [[r ->]|[_ ?]]; [|done]. by destruct Hn.
Qed.

Lemma cancelKey_inj p s p' s' : cancelKey p s = cancelKey p' s' → p = p' ∧ s = s'.
Proof.
  unfold cancelKey. intros H. change (":" +:+ format_int s) with (String ":" (format_int s)) in H.
  change (":" +:+ format_int s') with (String ":" (format_int s')) in H.
  apply cut_inj in H as [Hp Hs]; [by apply (inj format_int) in Hp; apply (inj format_int) in Hs|..].
  all: by apply format_int_no_byte.
Qed.

Section cancel.
Context {W : World}.

(** A cancel request goes to the backend whose key it carries and nowhere
    else: a branch is dialled only while that very process and secret are
    registered for its address, the packet sent repeats the request's process
    and secret, and when they are registered and the branch answers, it is
    sent. Too short a request, or one with an unknown key, does nothing. *)
Theorem forwardCancel_routes body h o t :
  runs (forwardCancel body) h o t →
  let key := cancelKey (get32 (slice_from 4 body)) (get32 (slice_from 8 body)) in
  o = Ok tt ∧
  ((t = [] ∧ ((String.length body < 12)%nat ∨ ∀ addr, addr ≠ "" → ¬ live key addr h)) ∨
   ∃ addr, live key addr h ∧ (12 <= String.length body)%nat ∧
     ((∃ r, rok r = false ∧ t = [(CallOut "net.Dial" [addr], r)]) ∨
      (∃ r r', rok r = true ∧ t = [(CallOut "net.Dial" [addr], r);
         (CallOut "conn.Write" ["cancel"; put32 16 +:+ put32 codeCancel +:+ slice_from 4 (slice_to 12 body)], r')]))).
Proof.
  intros Hrun key. unfold forwardCancel in Hrun. destruct (Nat.ltb_spec (String.length body) 12) as [Hlen|Hlen].
  { apply runs_ret in Hrun as [-> ->]. split; [done|]. left. split; [done|]. by left. }
  fold key in Hrun. cbv zeta in Hrun. apply runs_bind in Hrun as
    [(addr & t1 & t2 & Ha & Hrun & ->)|[(e & He & _)|(w & Hw & _)]]; [|by unfold runs, cancel_target in *..].
  unfold runs, cancel_target in Ha. injection Ha as <- <-. cbn [app] in *. rewrite app_nil_r in Hrun.
  unfold param, default in Hrun. destruct (cancelTargets h !! key) as [addr|] eqn:Haddr; unfold id in Hrun.
  2: { apply runs_ret in Hrun as [-> ->]. split; [done|]. left. split; [done|]. right.
       intros addr _ Hlive%cancelTargets_live. by rewrite Haddr in Hlive. }
  destruct (String.eqb_spec addr "") as [->|Hne].
  { apply runs_ret in Hrun as [-> ->]. split; [done|]. left. split; [done|]. right.
    intros addr Hne Hlive%cancelTargets_live. rewrite Haddr in Hlive. by injection Hlive as <-. }
  apply cancelTargets_live in Haddr.
  apply runs_bind in Hrun as [(up & u1 & u2 & Hup & Hrun & ->)|[(e & He & _)|(w & Hw & _)]];
    [|by apply runs_succeeds in He as [[=] _]|by apply runs_succeeds in Hw as [[=] _]].
  apply runs_succeeds in Hup as [[= ->] ->].
  destruct (rok (answer h _)) eqn:Hok.
  - apply runs_ignore in Hrun as [-> ->]. split; [done|]. right. exists addr. split; [done|]. split; [done|].
    right. by eexists _, _.
  - apply runs_ret in Hrun as [-> ->]. split; [done|]. right. exists addr. split; [done|]. split; [done|].
    left. by eexists.
Qed.

End cancel.

(** ** Suspending *)

Section reaping.
Context {W : World} {En : Env} {Em : Embedded}.

Lemma silent_stops {A} (m : prog A) h o t : emits (λ a, ∀ c, ¬ stops c a) m → runs m h o t →
  ∀ c, ¬ Exists (λ e, stops c e.1) t.
Proof.
  intros Hm Hr c Hex. eapply emits_runs in Hr; [|exact Hm].
  apply Exists_exists in Hex as (e & Hin & He). rewrite Forall_forall in Hr. by apply (Hr e Hin c).
Qed.

Lemma emits_probe (name sql : string) : emits (λ a, ∀ c, ¬ stops c a) (ledgerLines name sql).
Proof. unfold ledgerLines, psql_c, sudo. emits_go. intros c. destruct name; cbn; easy. Qed.

Lemma emits_active (name : string) : emits (λ a, ∀ c, ¬ stops c a) (ActiveConnections name).
Proof. unfold ActiveConnections, Query. emits_branch; intros c; easy. Qed.

(** The reaper stops a branch only after it saw it used through the gateway,
    that use is at least the idle window ago, the branch reported no client
    connection, and it reported that no continuous import runs into it. A probe
    that fails, or a branch never seen before, stops nothing. *)
Theorem reap_suspends idle n h o t c :
  runs (reap idle n) h o t → Exists (λ e, stops c e.1) t →
  let now := answer h Now in
  ∃ last_ k r t1 t2 t3, last_activity h n = Some last_ ∧ (idle <= rnum now - last_)%Z
    ∧ t = (Now, now) :: t1 ++ t2 ++ t3 ∧ Forall (λ e, ∀ c, ¬ stops c e.1) (t1 ++ t2)
    ∧ runs (ActiveConnections n) (h ++ [(Now, now)]) (Ok k) t1 ∧ (k <= 0)%Z
    ∧ runs (ReplicationStatus n) ((h ++ [(Now, now)]) ++ t1) (Ok r) t2 ∧ Replicating_ r = false.
Proof.
  intros Hrun Hstop. unfold reap in Hrun. apply runs_bind in Hrun as
    [(seen & t1 & t2 & Hseen & Hrun & ->)|[(e & He & _)|(w & Hw & _)]]; [|by unfold runs in *..].
  unfold runs in Hseen. injection Hseen as <- <-. cbn [app] in *. rewrite app_nil_r in Hrun.
  destruct (last_activity h n) as [last_|] eqn:Hlast.
  2: { exfalso. revert Hstop. eapply silent_stops; [|exact Hrun]. apply emits_ignore. by intros ? []. }
  apply runs_bind in Hrun as [(now & t3 & t4 & Hnow & Hrun & ->)|[(e & He & _)|(w & Hw & _)]];
    [|by apply runs_call in He as [? _]|by apply runs_call in Hw as [? _]].
  apply runs_call in Hnow as [[= ->] ->]. cbn [app] in *. apply Exists_cons in Hstop as [?|Hstop]; [done|].
  destruct (_ <? idle)%Z eqn:Hidle.
  { apply runs_ret in Hrun as [_ ->]. by apply Exists_nil in Hstop. }
  assert (emits (λ a, ∀ c, ¬ stops c a) (canSuspend n)) as Hquiet.
  { unfold canSuspend. emits_go; first [apply emits_active | unfold ReplicationStatus, wrap; emits_go; apply emits_probe]. }
  apply runs_bind in Hrun as [(ok & t5 & t6 & Hok & Hrun & ->)|[(e & He & _)|(w & Hw & _)]].
  2,3: exfalso; revert Hstop; by eapply silent_stops.
  destruct ok; cbn [negb] in Hrun.
  2: { apply runs_ret in Hrun as [_ ->]. rewrite app_nil_r in Hstop. exfalso. revert Hstop.
       by eapply silent_stops. }
  pose proof (emits_runs _ _ _ _ _ Hquiet Hok) as Hsilent. unfold canSuspend in Hok.
  apply runs_bind_ok in Hok as ([k|e] & u1 & u2 & Hk & Hok & ->); [|by apply runs_ret in Hok as [[=] _]].
  destruct (0 <? k)%Z eqn:Hpos; [by apply runs_ret in Hok as [[=] _]|].
  apply runs_bind_ok in Hok as ([r|e] & u3 & u4 & Hr & Hok & ->); [|by apply runs_ret in Hok as [[=] _]].
  apply runs_ret in Hok as [[= Hrep] ->]. rewrite app_nil_r in *.
  apply runs_attempt in Hk as [(k' & Hk & [= <-])|[(e & _ & [=])|(w & _ & [=])]].
  apply runs_attempt in Hr as [(r' & Hr & [= <-])|[(e & _ & [=])|(w & _ & [=])]].
  exists last_, k, r, u1, u3, t6. split; [done|]. split; [lia|]. split; [by rewrite <- app_assoc|]. split; [done|].
  split; [done|]. split; [lia|]. split; [done|]. by symmetry in Hrep; apply negb_true_iff in Hrep.
Qed.

End reaping.

(** ** A backend that answers out of turn *)

(** The SASL exchange reads the first four bytes of the backend's answer
    without checking that there are any: an authentication request with an empty
    body makes the gateway panic, and no other message of that length does. *)
Theorem scramSHA256_short_answer `{World} `{Crypto} mechanisms password h o t :
  runs (scramSHA256 mechanisms password) h o t → panics o = true →
  ∃ h1 t1 body, runs (readMsg "backend") h1 (Ok ("R"%char, body)) t1 ∧ (String.length body < 4)%nat.
Proof.
  assert (∀ A (m : prog A) h1 w t1, no_panic m → ¬ runs m h1 (Panic w) t1) as Hno.
  { intros A m h1 w t1 Hm Hr. specialize (Hm h1). unfold runs in Hr. by rewrite Hr in Hm. }
  assert (∀ c n, no_panic (read_full c n)) as Hread.
  { intros c n h1. unfold read_full, mbind, prog_bind, call. by destruct (_ && _). }
  assert (no_panic (readMsg "backend")) as Hmsg.
  { unfold readMsg. apply no_panic_bind; [done|]. intros hd. cbv zeta. destruct (_ || _); [done|].
    by apply no_panic_bind. }
  assert (∀ c typ body, no_panic (writeMsg c typ body)) as Hwrite.
  { intros c typ body h1. unfold writeMsg, conn_write, perform, mbind, prog_bind, call. by destruct (rok _). }
  assert (no_panic nonce) as Hnonce.
  { intros h1. unfold nonce, mbind, prog_bind, call. by destruct (rok _). }
  unfold scramSHA256. intros Hrun Hp. destruct (negb _); [by apply runs_lift in Hrun as [-> _]|].
  apply runs_bind in Hrun as [(cn & t1 & t2 & _ & Hrun & _)|[(e & _ & ->)|(w & Hw & _)]]; [|done|by apply Hno in Hw].
  cbv zeta in Hrun.
  apply runs_bind in Hrun as [(u & t3 & t4 & _ & Hrun & _)|[(e & _ & ->)|(w & Hw & _)]]; [|done|by apply Hno in Hw].
  apply runs_bind in Hrun as [([typ body] & t5 & t6 & Hread1 & Hrun & _)|[(e & _ & ->)|(w & Hw & _)]]; [|done|by apply Hno in Hw].
  destruct (Ascii.eqb_spec typ "R") as [->|]; cbn [negb] in Hrun; [|by apply runs_lift in Hrun as [-> _]].
  destruct (Nat.ltb_spec (String.length body) 4) as [Hlen|Hlen]; [by eexists _, _, body|].
  exfalso. unfold code_of in Hrun. apply Nat.ltb_ge in Hlen. rewrite Hlen in Hrun.
  apply runs_bind in Hrun as [(code & t7 & t8 & _ & Hrun & _)|[(e & _ & ->)|(w & Hw & _)]];
    [|done|by apply runs_ret in Hw as [[=] _]].
  destruct (negb (code =? 11)%Z); [by apply runs_lift in Hrun as [-> _]|].
  destruct (negb _); [by apply runs_lift in Hrun as [-> _]|].
  destruct (std_unbase64 _) as [salt|]; [|by apply runs_lift in Hrun as [-> _]].
  destruct (atoi _) as [iters|]; [|by apply runs_lift in Hrun as [-> _]].
  apply runs_bind in Hrun as [(u1 & t9 & t10 & _ & Hrun & _)|[(e & _ & ->)|(w & Hw & _)]]; [|done|by apply Hno in Hw].
  apply runs_bind in Hrun as [([typ2 b2] & t11 & t12 & _ & Hrun & _)|[(e & _ & ->)|(w & Hw & _)]]; [|done|by apply Hno in Hw].
  destruct (negb _); [by apply runs_lift in Hrun as [-> _]|by apply runs_ret in Hrun as [-> _]].
Qed.

(** ** Witnesses *)

#[local] Existing Instance sample_env.
#[local] Existing Instance sample_embedded.
Definition plain_crypto : Crypto := {| md5 := id; pbkdf2_sha256 p s i := p |}.
Definition plain_text : ErrorText := {| failure_text _ := "exit status 1" |}.
Definition agent_keys : KeyStore := {| verify_key h k :=
  if String.eqb k "odb_agent" then Some ("ann@example.com", "agent-1") else None |}.

(** A client that asks for agent-1 with the agent's key, and a backend that
    accepts it and is ready at once. *)
Definition sample_params : gmap string string := {[ "database" := "agent-1"; "user" := "postgres" ]}.
Definition accepted (h : history) : bool :=
  existsb (λ e, match fst e with CallOut w [c; d] => String.eqb c "client" && String.eqb d (message "R" (put32 0)) | _ => false end) h.
Definition session_world : World := {| answer h a :=
  match a with
  | CallOut what [c; n] =>
      if negb (String.eqb what "io.ReadFull") then reply_ok "" else
      if String.eqb c "client" then
        if String.eqb n "4" then reply_ok (buildStartup sample_params)
        else if String.eqb n "5" then reply_ok (message "p" ("odb_agent" +:+ str1 zero))
        else if String.eqb n "10" then reply_ok ("odb_agent" +:+ str1 zero)
        else reply_ok (slice_from 4 (buildStartup sample_params))
      else if accepted h then reply_ok (message "Z" "")
      else if String.eqb n "5" then reply_ok (message "R" (put32 0)) else reply_ok (put32 0)
  | _ => answer (World := ok_world) h a
  end |}.

Definition session_run : outcome error unit * history :=
  handle (W := session_world) (K := agent_keys) (C := plain_crypto) (T := plain_text) 5 false false false [].

Lemma handle_admits_witness :
  session_run.1 = Ok tt ∧
  (Forall (λ e, outside e.1) session_run.2 ∨
  ∃ params key email scope t1 t2 t3,
    session_run.2 = t1 ++ t2 ++ t3 ∧ Forall (λ e, outside e.1) (t1 ++ t2) ∧
    runs (readStartup (W := session_world) 5 false) [] (Ok (Some params)) t1 ∧
    runs (requestClientPassword (W := session_world)) ([] ++ t1) (Ok key) t2 ∧
    verify_key (KeyStore := agent_keys) (([] ++ t1) ++ t2) key = Some (email, scope) ∧
    let target := or_main (param params "database") in
    (scope = "" ∨ scope = target) ∧ Forall (λ e, session_action target email scope e.1) t3).
Proof.
  split; [vm_compute; reflexivity|].
  apply (handle_admits (W := session_world) (K := agent_keys) (C := plain_crypto) (T := plain_text) 5 false false [] session_run.1).
  unfold runs. fold session_run. apply surjective_pairing.
Defined.

Lemma buildStartup_parseParams_witness :
  let packet := buildStartup sample_params in
  get32 packet = Z.of_nat (String.length packet) ∧ get32 (slice_from 4 packet) = codeStartup30
  ∧ parseParams (slice_from 8 packet) = sample_params.
Proof.
  apply buildStartup_parseParams; [|vm_compute; reflexivity].
  unfold sample_params. apply map_Forall_insert_2; [easy|]. by apply map_Forall_singleton.
Defined.

Definition cancel_body : string := put32 codeCancel +:+ put32 42 +:+ put32 7.
Definition cancel_history : history := [(CallOut "registerCancel" ["42:7"; "10.0.0.2:5432"], reply_ok "")].
Lemma forwardCancel_routes_witness :
  let r := @forwardCancel ok_world cancel_body cancel_history in
  List.length r.2 = 2%nat ∧
  let key := cancelKey (get32 (slice_from 4 cancel_body)) (get32 (slice_from 8 cancel_body)) in
  r.1 = Ok tt ∧
  ((r.2 = [] ∧ ((String.length cancel_body < 12)%nat ∨ ∀ addr, addr ≠ "" → ¬ live key addr cancel_history)) ∨
   ∃ addr, live key addr cancel_history ∧ (12 <= String.length cancel_body)%nat ∧
     ((∃ r0, rok r0 = false ∧ r.2 = [(CallOut "net.Dial" [addr], r0)]) ∨
      (∃ r0 r', rok r0 = true ∧ r.2 = [(CallOut "net.Dial" [addr], r0);
         (CallOut "conn.Write" ["cancel"; put32 16 +:+ put32 codeCancel +:+ slice_from 4 (slice_to 12 cancel_body)], r')]))).
Proof.
  intros r. split; [vm_compute; reflexivity|]. apply (@forwardCancel_routes ok_world cancel_body cancel_history).
  unfold runs. apply surjective_pairing.
Defined.

(** A branch last used at time 0, asked about at time 100, with nothing running on it. *)
Definition idle_world : World := {| answer h a :=
  match a with
  | Now => mkReply true "" "" 100
  | Exec argv _ =>
      if existsb (λ x, Contains x "pg_subscription") argv
      then reply_ok ("{" +:+ str1 dquote +:+ "replicating" +:+ str1 dquote +:+ ": false}")
      else if existsb (λ x, Contains x "pg_stat_activity") argv then reply_ok "0" else reply_ok "running"
  | _ => reply_ok "main"
  end |}.
Definition idle_history : history := [(CallOut "touch" ["dev"], mkReply true "" "" 0)].
Lemma reap_suspends_witness :
  let now := answer (World := idle_world) idle_history Now in
  ∃ last_ k r t1 t2 t3, last_activity idle_history "dev" = Some last_ ∧ (10 <= rnum now - last_)%Z
    ∧ (reap (W := idle_world) 10 "dev" idle_history).2 = (Now, now) :: t1 ++ t2 ++ t3 ∧ Forall (λ e, ∀ c, ¬ stops c e.1) (t1 ++ t2)
    ∧ runs (ActiveConnections (W := idle_world) "dev") (idle_history ++ [(Now, now)]) (Ok k) t1 ∧ (k <= 0)%Z
    ∧ runs (ReplicationStatus (W := idle_world) "dev") ((idle_history ++ [(Now, now)]) ++ t1) (Ok r) t2 ∧ Replicating_ r = false.
Proof.
  apply (reap_suspends (W := idle_world) 10 "dev" idle_history
    (reap (W := idle_world) 10 "dev" idle_history).1 (reap (W := idle_world) 10 "dev" idle_history).2 (container "dev")).
  - unfold runs. apply surjective_pairing.
  - vm_compute. repeat (first [apply Exists_cons_hd; reflexivity | apply Exists_cons_tl]).
Defined.

Definition short_world : World := {| answer h a :=
  match a with
  | CallOut what [c; n] => if String.eqb n "5" then reply_ok (message "R" "") else reply_ok ""
  | _ => reply_ok "123456789012345678"
  end |}.
Lemma scramSHA256_short_answer_witness :
  ∃ h1 t1 body, runs (@readMsg short_world "backend") h1 (Ok ("R"%char, body)) t1 ∧ (String.length body < 4)%nat.
Proof.
  apply (@scramSHA256_short_answer short_world plain_crypto "SCRAM-SHA-256" "secret" []
    (@scramSHA256 short_world plain_crypto "SCRAM-SHA-256" "secret" []).1
    (@scramSHA256 short_world plain_crypto "SCRAM-SHA-256" "secret" []).2).
  - unfold runs. apply surjective_pairing.
  - vm_compute. reflexivity.
Defined.
