(* ===== verification/Guarded.v ===== *)
(** * What a program has seen before it acts

    Triples over histories: an action is allowed by what was done and answered before it,
    wherever in a run it is made. *)
From S2P Require Import Prelude Effects Storage.

Section triples.
(** [P h a]: after the history [h], the action [a] may be made. *)
Variable P : history → action → Prop.

Definition allowed (h t : history) : Prop := ∀ pre a r post, t = pre ++ (a, r) :: post → P (h ++ pre) a.

(** From a history with [I], the program makes only actions that may be made, and a value
    it returns has [Q] with the history there is then. *)
Definition triple {A} (I : history → Prop) (m : prog A) (Q : A → history → Prop) : Prop :=
  ∀ h o t, I h → runs m h o t → allowed h t ∧ ∀ a, o = Ok a → Q a (h ++ t).

Lemma allowed_nil h : allowed h [].
Proof. by intros [|? ?] ? ? ?. Qed.

Lemma allowed_one h a r : P h a → allowed h [(a, r)].
Proof. intros Ha [|? [|? ?]] b ? ? [=]; subst; [by rewrite app_nil_r|done..]. Qed.

Lemma allowed_app h t u : allowed h t → allowed (h ++ t) u → allowed h (t ++ u).
Proof.
  intros Ht Hu pre a r post Heq. apply app_eq_app in Heq as [l [[-> Hl]|[-> Hl]]].
  - destruct l as [|x l]; cbn in Hl.
    + specialize (Hu [] a r post). rewrite !app_nil_r in Hu. by apply Hu.
    + injection Hl as <- ->. by apply (Ht pre a r l).
  - rewrite app_assoc. by apply (Hu l a r post).
Qed.

Lemma triple_lift {A} (I : history → Prop) (o : outcome error A) (Q : A → history → Prop) :
  (∀ a h, o = Ok a → I h → Q a h) → triple I (lift o) Q.
Proof. intros HQ h o' t Hi [-> ->]%runs_lift. split; [apply allowed_nil|]. intros a ->. rewrite app_nil_r. by apply HQ. Qed.

Lemma triple_ret {A} (I : history → Prop) (a : A) (Q : A → history → Prop) : (∀ h, I h → Q a h) → triple I (mret a) Q.
Proof. intros HQ. apply (triple_lift I (Ok a)). intros b h [= <-]. apply HQ. Qed.

Lemma triple_fail {A} (I : history → Prop) e (Q : A → history → Prop) : triple I (fail e) Q.
Proof. by apply triple_lift. Qed.

Lemma triple_bind {A B} (I : history → Prop) (m : prog A) (R : A → history → Prop) (f : A → prog B) Q :
  triple I m R → (∀ a, triple (R a) (f a) Q) → triple I (m ≫= f) Q.
Proof.
  intros Hm Hf h o t Hi [(a & t1 & t2 & Ha & Hr & ->)|[(e & He & ->)|(w & Hw & ->)]]%runs_bind.
  - destruct (Hm _ _ _ Hi Ha) as [H1 H2]. destruct (Hf a _ _ _ (H2 a eq_refl) Hr) as [H3 H4]. split; [by apply allowed_app|].
    intros b Hb. rewrite app_assoc. by apply H4.
  - split; [by apply (Hm _ _ _ Hi He)|done].
  - split; [by apply (Hm _ _ _ Hi Hw)|done].
Qed.

Lemma triple_weaken {A} (I I' : history → Prop) (m : prog A) (Q Q' : A → history → Prop) :
  triple I m Q → (∀ h, I' h → I h) → (∀ a h, Q a h → Q' a h) → triple I' m Q'.
Proof. intros Hm HI HQ h o t Hi Hr. destruct (Hm h o t (HI h Hi) Hr) as [H1 H2]. split; [done|]. intros a Ha. by apply HQ, H2. Qed.

(** A fact about the past stays one. *)
Definition past (I : history → Prop) : Prop := ∀ h t, I h → I (h ++ t).

(** What makes no action that needs leave, whatever it is answered. *)
Lemma triple_free {A} (I : history → Prop) (m : prog A) : past I → emits (λ a, ∀ h, P h a) m → triple I m (λ _, I).
Proof.
  intros Hp Hm h o t Hi Hr. split; [|intros a _; by apply Hp].
  intros pre a r post ->. pose proof (emits_runs _ _ _ _ _ Hm Hr) as Hall. rewrite Forall_forall in Hall. apply (Hall (a, r)).
  apply elem_of_app. right. by left.
Qed.

Lemma triple_attempt {A} (I : history → Prop) (m : prog A) (Q : A → history → Prop) : past I → triple I m Q →
  triple I (attempt m) (λ r h, I h ∧ ∀ a, r = inl a → Q a h).
Proof.
  intros Hp Hm h o t Hi [(a & Hr & ->)|[(e & Hr & ->)|(w & Hr & ->)]]%runs_attempt; destruct (Hm _ _ _ Hi Hr) as [H1 H2]; split; try done.
  - intros r [= <-]. split; [by apply Hp|]. intros b [= <-]. by apply H2.
  - intros r [= <-]. split; [by apply Hp|done].
Qed.

Context {W : World}.
Lemma triple_call (I : history → Prop) a (Q : reply → history → Prop) :
  (∀ h, I h → P h a) → (∀ h, I h → Q (answer h a) (h ++ [(a, answer h a)])) → triple I (call a) Q.
Proof.
  intros Ha HQ h o t Hi [-> ->]%runs_call. split; [by apply allowed_one, Ha|]. intros b [= <-]. by apply HQ.
Qed.
End triples.

Lemma past_seen (Q : event → Prop) : past (λ h, ∃ e, e ∈ h ∧ Q e).
Proof. intros h t (e & He & HQ). exists e. split; [apply elem_of_app; by left|done]. Qed.
Lemma past_and I J : past I → past J → past (λ h, I h ∧ J h).
Proof. intros HI HJ h t [? ?]. split; [by apply HI|by apply HJ]. Qed.
Lemma past_or I J : past I → past J → past (λ h, I h ∨ J h).
Proof. intros HI HJ h t [?|?]; [left; by apply HI|right; by apply HJ]. Qed.
Lemma past_pure (φ : Prop) : past (λ _, φ).
Proof. by intros h t. Qed.

(** Since [h0], an event like [Q] was seen. *)
Definition since (h0 : history) (Q : event → Prop) (h : history) : Prop := ∃ t e, h = h0 ++ t ∧ e ∈ t ∧ Q e.
Lemma past_since h0 Q : past (since h0 Q).
Proof. intros h u (t & e & -> & He & HQ). exists (t ++ u), e. rewrite app_assoc. split_and!; [done|apply elem_of_app; by left|done]. Qed.
Lemma since_new h0 (Q : event → Prop) h e : (∃ t, h = h0 ++ t) → Q e → since h0 Q (h ++ [e]).
Proof. intros (t & ->) HQ. exists (t ++ [e]), e. rewrite app_assoc. split_and!; [done|apply elem_of_app; right; by left|done]. Qed.
Lemma since_within h0 Q t : since h0 Q (h0 ++ t) → ∃ e, e ∈ t ∧ Q e.
Proof. intros (u & e & ->%app_inv_head & He & HQ). eauto. Qed.

Definition after (h0 h : history) : Prop := ∃ t, h = h0 ++ t.
Lemma past_after h0 : past (after h0).
Proof. intros h u (t & ->). exists (t ++ u). by rewrite app_assoc. Qed.

Lemma triple_if {A} P (I : history → Prop) (b : bool) (m n : prog A) Q :
  (b = true → triple P I m Q) → (b = false → triple P I n Q) → triple P I (if b then m else n) Q.
Proof. destruct b; auto. Qed.

(** A call that has been made is seen, with what it was answered. *)
Lemma triple_seen `{World} P h0 I a : past I → (∀ h, I h → after h0 h) → (∀ h, I h → P h a) →
  triple P I (call a) (λ r h, I h ∧ ∀ Q : event → Prop, Q (a, r) → since h0 Q h).
Proof.
  intros Hp Hi Ha. apply triple_call; [done|]. intros h Hh. split; [by apply Hp|]. intros Q HQ. apply since_new; [by apply Hi|done].
Qed.

Lemma triple_wrap {A} P (I : history → Prop) f args (m : prog A) Q : past I → triple P I m Q → triple P I (wrap f args m) Q.
Proof.
  intros Hp Hm. unfold wrap. eapply triple_bind; [by apply triple_attempt|]. intros [a|e]; [|apply triple_fail].
  apply triple_ret. intros h [_ Hs]. by apply Hs.
Qed.
