(* ===== verification/Wsl.v ===== *)
(** * The engine in a WSL2 distro (internal/host: host_wsl.go, host_windows.go, vm_windows.go)

    On Windows the engine runs as a Linux program in a distro of its own: the helpers that
    read what wsl.exe prints, the forwarding of a command, and the setup. A distro's name is
    taken to be ASCII, and Windows paths to be written with slashes. The setup log and the
    progress lines are left out. *)
From S2P Require Import Prelude GoStrings GoNum GoRunes GoPath Effects Guarded Storage Container.
From S2P Require Gateway.
Open Scope string_scope.
Open Scope list_scope.

(** ** host_wsl.go *)

Definition envInGuest : string := "OXYNDB_IN_GUEST".
Definition defaultWSLDistro : string := "oxyndb".
Definition guestImageContext : string := "/usr/local/share/oxyndb/docker/postgres".
Definition resolveWSLDistro (override : string) : string :=
  let s := TrimSpace override in if String.eqb s "" then defaultWSLDistro else s.
Definition guestPATH : string := "/usr/local/sbin:/usr/local/bin:/usr/sbin:/usr/bin:/sbin:/bin".
Definition guestEnv : list string :=
  [envInGuest +:+ "=1"; "PATH=" +:+ guestPATH; "OXYNDB_IMAGE_CONTEXT=" +:+ guestImageContext; "OXYNDB_STORAGE=btrfs"].
Definition wslArgs (distro guest : string) (env args : list string) : list string :=
  ["-d"; distro; "--"; "env"] ++ env ++ [guest] ++ args.

Record wslDistro : Type := mkWslDistro { DistroName : string; DistroState : string }.

(** Pairs of bytes, the lower one first; a byte left over is dropped. *)
Fixpoint code_units (l : list ascii) : list N :=
  match l with
  | a :: b :: t => (N_of_ascii a + 256 * N_of_ascii b)%N :: code_units t
  | _ => []
  end.
Definition high_surrogate (u : N) : bool := within 0xD800 0xDBFF u.
Definition low_surrogate (u : N) : bool := within 0xDC00 0xDFFF u.
(** utf16.Decode. *)
Fixpoint utf16_decode (us : list N) : list rune :=
  match us with
  | [] => []
  | u :: t =>
      if high_surrogate u then
        match t with
        | v :: t' => if low_surrogate v then ((u - 0xD800) * 1024 + (v - 0xDC00) + 0x10000)%N :: utf16_decode t' else RuneError :: utf16_decode t
        | [] => [RuneError]
        end
      else (if low_surrogate u then RuneError else u) :: utf16_decode t
  end.

Definition decodeWSLOutput (b : string) : string :=
  let l := to_bytes b in
  if negb (existsb (Ascii.eqb "000") l) then b else
  let l := match l with x :: y :: t => if (N_of_ascii x =? 0xFF)%N && (N_of_ascii y =? 0xFE)%N then t else l | _ => l end in
  of_runes (utf16_decode (code_units l)).

Definition distro_line (ln : string) : option wslDistro :=
  match Fields (TrimSpace (TrimPrefix (TrimSpace (trim_right_by (Ascii.eqb "013") ln)) "*")) with
  | name :: state :: _ => if EqualFold name "NAME" then None else Some (mkWslDistro name state)
  | _ => None
  end.
Definition decodeWSLList (raw : string) : list wslDistro := omap distro_line (Split nl (decodeWSLOutput raw)).

Definition winPathToMnt (p : string) : string :=
  let p := ReplaceByte "\" "/" p in
  match p with
  | String c (String ":" t) => "/mnt/" +:+ (if (byte_val c <? 128)%Z then str1 (lower_byte c) else of_runes [RuneError]) +:+ t
  | _ => p
  end.
Definition parseKernelRelease (raw : string) : string := TrimSpace (decodeWSLOutput raw).
Definition distroImageName : string := "oxyndb-distro.tar.gz".

(** ** host_windows.go *)

Definition wsl_call (args : list string) (stdin : string) : action := Exec ("wsl.exe" :: args) stdin.
(** A script run in the distro as root. *)
Definition as_root (name script : string) : action := wsl_call ["-d"; name; "-u"; "root"; "--"; "sh"; "-c"; script] "".

(** The last [n] lines that are not blank. *)
Definition lastLines (s : string) (n : nat) : string :=
  let keep := (λ ln, trim_right_by (Ascii.eqb "013") ln) <$> filter (λ ln, TrimSpace ln ≠ "") (Split nl s) in
  Join (str1 nl) (drop (List.length keep - n) keep).

Definition writeFileB64 (path content : string) : string :=
  "printf %s " +:+ Quote (Gateway.std_base64 content) +:+ " | base64 -d > " +:+ Quote path.

Definition storageUpScript : string := lines_of
  ["#!/bin/sh"; "# Managed by odb setup. Mounts the OxynDB btrfs filesystem before the engine";
   "# runs. Idempotent: a mounted filesystem is left alone."; "set -e"; "IMG=/var/lib/oxyndb-btrfs.img"; "MNT=/oxyndb/branches";
   "SIZE=" +:+ Quote "${OXYNDB_ZPOOL_SIZE:-30G}"; ""; "modprobe btrfs 2>/dev/null || true"; "mkdir -p " +:+ Quote "$MNT"; "";
   "if mountpoint -q " +:+ Quote "$MNT" +:+ "; then"; str1 tab +:+ "exit 0"; "fi"; "";
   "# First boot: the engine creates the filesystem itself on its first start, so a"; "# missing image is normal and not an error.";
   "[ -f " +:+ Quote "$IMG" +:+ " ] || exit 0"; "";
   "# No compression: branch subvolumes are nodatacow so btrfs cannot compress them";
   "# anyway, and compressing a database write path costs CPU for little gain.";
   "mount -o loop " +:+ Quote "$IMG" +:+ " " +:+ Quote "$MNT"; ""].
Definition storageUnit : string := lines_of
  ["[Unit]"; "Description=OxynDB storage (btrfs)"; "After=local-fs.target"; "Before=docker.service"; ""; "[Service]"; "Type=oneshot";
   "RemainAfterExit=yes"; "ExecStart=/usr/local/lib/oxyndb/storage-up.sh"; ""; "[Install]"; "WantedBy=multi-user.target"; ""].

Definition is_active_script : string := "systemctl is-active oxyndb-storage.service 2>&1 || true".
Definition verify_script : string := "modprobe btrfs && mkfs.btrfs --version >/dev/null".

(** How wsl.exe names the distros, and whether one is there or running. *)
Definition list_distros : action := wsl_call ["--list"; "--quiet"] "".
Definition list_states : action := wsl_call ["--list"; "--verbose"] "".
Definition named_in (name out : string) : bool := existsb (λ l, EqualFold l name) (Fields (decodeWSLOutput out)).
Definition running_in (name out : string) : bool :=
  match List.find (λ d, EqualFold (DistroName d) name) (decodeWSLList out) with
  | Some d => EqualFold (DistroState d) "Running"
  | None => false
  end.

Section wsl.
Context {W : World} {En : Env}.

Definition currentDistro : string := resolveWSLDistro (getenv "OXYNDB_WSL_DISTRO").
Definition wslInstalled : prog bool := succeeds (LookPath "wsl.exe").
Definition distroExists (name : string) : prog bool := r ← call list_distros; mret (rok r && named_in name (rout r)).
Definition distroRunning (name : string) : prog bool := r ← call list_states; mret (rok r && running_in name (rout r)).

Definition guestBin (name : string) : prog string :=
  let v := TrimSpace (getenv "OXYNDB_GUEST_BIN") in
  if negb (String.eqb v "") then mret v else
  r ← call (wsl_call ["-d"; name; "--"; "sh"; "-c"; "command -v odb || echo /tmp/odb"] "");
  let p := TrimSpace (decodeWSLOutput (rout r)) in
  mret (if rok r && negb (String.eqb p "") then p else "/tmp/odb").

(** A call whose output is kept for its error: the last lines of it. *)
Definition logged (a : action) (lines : nat) : prog unit :=
  r ← call a;
  if rok r then mret tt
  else fail (Wrapf ("%w" +:+ str1 nl +:+ "%s") [lastLines (decodeWSLOutput (rall r)) lines] (CommandFailed a)).
Definition wslQuiet (args : list string) : prog unit := logged (wsl_call args "") 10.
Definition wslRoot (name script : string) : prog unit := logged (as_root name script) 15.
Definition wslRootOut (name script : string) : prog (string * bool) := r ← call (as_root name script); mret (rout r, rok r).
(** Whether a script was run without an error. *)
Definition root_ok (name script : string) : prog bool := r ← attempt (wslRoot name script); mret (match r with inl _ => true | inr _ => false end).

Fixpoint systemd_loop (n : nat) (name : string) : prog unit :=
  match n with
  | O => fail (Errorf "systemd did not finish booting in the %q distro after 60s — try `wsl --terminate %s` and re-run `odb setup`" [name; name])
  | S n =>
      '(out, _) ← wslRootOut name "systemctl is-system-running 2>&1 || true";
      let st := TrimSpace (decodeWSLOutput out) in
      if String.eqb st "running" || String.eqb st "degraded" then mret tt else
      _ ← ignore (Sleep sec); systemd_loop n name
  end.
Definition waitForSystemd (name : string) : prog unit := systemd_loop 60 name.

Definition checkStorageUnit (name : string) : prog unit :=
  '(out, _) ← wslRootOut name is_active_script;
  if String.eqb (TrimSpace (decodeWSLOutput out)) "active" then mret tt else
  '(detail, _) ← wslRootOut name "systemctl status oxyndb-storage.service --no-pager -l 2>&1 | tail -n 12 || true";
  fail (Errorf ("the OxynDB btrfs filesystem is not mounted in the %q distro." +:+ str1 nl
    +:+ "Refusing to continue: the engine would write into the empty mount point, and the next boot would hide that data." +:+ str1 nl +:+ str1 nl +:+ "%s")
    [name; TrimSpace (decodeWSLOutput detail)]).

(** The engine's own command, in the distro. *)
Definition guest_call (name guest : string) (args : list string) (stdin : string) : action := wsl_call (wslArgs name guest guestEnv args) stdin.

Definition forwardStdin (args : list string) (stdin : string) : prog unit :=
  there ← wslInstalled;
  if negb there then fail (Errorf "WSL is required on Windows. Install it with `wsl --install` (admin, then reboot), then run `odb setup`" []) else
  let name := currentDistro in
  exists_ ← distroExists name;
  if negb exists_ then fail (Errorf "no OxynDB WSL distro yet — run `odb setup` once to create it" []) else
  running ← distroRunning name;
  _ ← when (negb running) (_ ← waitForSystemd name; checkStorageUnit name);
  guest ← guestBin name;
  perform (guest_call name guest args stdin).

Definition forwardQuiet (args : list string) : prog unit :=
  guest ← guestBin currentDistro;
  logged (guest_call currentDistro guest args "") 20.

(** ** Setup *)

Definition os_Executable : action := CallOut "os.Executable" [].
Definition installDir : prog string :=
  r ← call os_Executable; mret (if rok r then path_dir (rout r) else JoinPath [getenv "LOCALAPPDATA"; "Programs"; "oxyndb"]).
Definition setupLogPath : prog string := d ← installDir; mret (JoinPath [d; "install.log"]).
Definition assetDirs : prog (list string) :=
  r ← call os_Executable;
  let dir := path_dir (rout r) in
  mret (if rok r then [dir; JoinPath [dir; ".."; "share"; "oxyndb"]; JoinPath [dir; ".."; "dist"]; JoinPath [dir; "dist"]] else []).
(** The first directory that has the entry. *)
Fixpoint first_entry (found : reply → bool) (basename : string) (dirs : list string) : prog string :=
  match dirs with
  | [] => mret ""
  | d :: t => let c := JoinPath [d; basename] in r ← call (Stat c); if rok r && found r then mret c else first_entry found basename t
  end.
Definition bundledAsset (basename : string) : prog string := ds ← assetDirs; first_entry (λ r, negb (rnum r =? 1)%Z) basename ds.
Definition bundledDir (basename : string) : prog string := ds ← assetDirs; first_entry (λ r, rnum r =? 1)%Z basename ds.
Fixpoint first_asset (names : list string) : prog string :=
  match names with
  | [] => mret ""
  | n :: t => p ← bundledAsset n; if String.eqb p "" then first_asset t else mret p
  end.
Definition bundledRootfs : prog string := first_asset [distroImageName; "oxyndb-rootfs.tar.gz"; "oxyndb-rootfs.tar"].

Definition import_call (name dir rootfs : string) : list string := ["--import"; name; dir; rootfs].
Definition wsl_conf : string :=
  "printf '[boot]\nsystemd=true\n\n[user]\ndefault=root\n\n[interop]\nappendWindowsPath=false\n' > /etc/wsl.conf".
Definition importDistro (name : string) : prog unit :=
  rootfs ← bundledRootfs;
  if String.eqb rootfs "" then fail (Errorf "the Ubuntu rootfs was not found next to odb.exe — reinstall with install.ps1" []) else
  let dir := JoinPath [getenv "LOCALAPPDATA"; "oxyndb"; "wsl"] in
  _ ← perform (MkdirAll dir);
  _ ← wrap "importing the WSL distro: %w" [] (wslQuiet (import_call name dir rootfs));
  _ ← wrap "configuring the distro: %w" [] (wslRoot name wsl_conf);
  wrap "restarting the distro to apply systemd: %w" [] (wslQuiet ["--terminate"; name]).

Definition installDocker (name : string) : prog unit :=
  there ← root_ok name "test -x /usr/bin/dockerd";
  if (there : bool) then wslRoot name "systemctl enable --now docker" else
  wrap ("installing Docker in the distro: %w" +:+ str1 nl +:+ "If this was a network timeout, re-run `odb setup` — it resumes where it stopped") []
    (wslRoot name ("set -e; export DEBIAN_FRONTEND=noninteractive; apt-get update -y -o Acquire::Retries=3; "
                   +:+ "apt-get install -y -o Acquire::Retries=3 docker.io; systemctl enable --now docker")).
Definition ensureBtrfs (name : string) : prog unit :=
  there ← root_ok name "modprobe btrfs && command -v mkfs.btrfs >/dev/null";
  if (there : bool) then mret tt else
  wrap "installing btrfs tools: %w" []
    (wslRoot name ("set -e; export DEBIAN_FRONTEND=noninteractive; modprobe btrfs; "
                   +:+ "command -v mkfs.btrfs >/dev/null || { apt-get update -y; apt-get install -y btrfs-progs; }")).
Definition ensureStorage (name : string) : prog unit :=
  _ ← wrap "preparing storage: %w" []
    (wslRoot name ("set -e; mkdir -p /usr/local/lib/oxyndb; " +:+ writeFileB64 "/usr/local/lib/oxyndb/storage-up.sh" storageUpScript +:+ "; "
                   +:+ "chmod 0755 /usr/local/lib/oxyndb/storage-up.sh; " +:+ writeFileB64 "/etc/systemd/system/oxyndb-storage.service" storageUnit +:+ "; "
                   +:+ "systemctl daemon-reload; systemctl enable --now oxyndb-storage.service"));
  checkStorageUnit name.
Definition images_tar : string := "/usr/local/share/oxyndb/images/oxyndb-images.tar".
Definition loadPreloadedImages (name : string) : prog unit :=
  there ← root_ok name ("test -f " +:+ Quote images_tar);
  if negb there then mret tt else
  loaded ← root_ok name "docker image inspect oxyndb/postgres-walg:16 >/dev/null 2>&1";
  if (loaded : bool) then mret tt else
  discard (wslRoot name ("set -e; docker load -i " +:+ Quote images_tar +:+ "; docker image inspect oxyndb/postgres-walg:16 >/dev/null 2>&1 && "
                         +:+ "docker tag oxyndb/postgres-walg:16 ghcr.io/oxyndb/postgres-walg:16 || true")).
Definition stageImageContext (name : string) : prog unit :=
  there ← root_ok name ("test -f " +:+ Quote guestImageContext +:+ "/Dockerfile");
  if (there : bool) then mret tt else
  src ← bundledDir "docker-context";
  if String.eqb src "" then mret tt else
  let ctx := Quote guestImageContext in
  wrap "staging the image build context: %w" []
    (wslRoot name ("set -e; mkdir -p " +:+ ctx +:+ "; cp -r " +:+ Quote (winPathToMnt src) +:+ "/. " +:+ ctx +:+ "/; chmod +x " +:+ ctx +:+ "/restore-entrypoint.sh")).

Definition guestKernelRelease (name : string) : prog string :=
  '(out, ok) ← wslRootOut name "uname -r";
  if negb ok then fail (Wrapf "reading the WSL kernel version: %w" [] (CommandFailed (as_root name "uname -r"))) else
  let rel := parseKernelRelease out in
  if String.eqb rel "" then fail (Errorf "could not read the WSL kernel version" []) else mret rel.

(** The bundled engine (bundledLinuxBinary of host.go, which Update.v models on a disk). *)
Definition bundledLinuxBinary (arch : string) : prog string := r ← call (CallOut "bundledLinuxBinary" [arch]); mret (rout r).
Definition installGuestBinaryWSL (name : string) : prog unit :=
  let own := TrimSpace (getenv "OXYNDB_GUEST_BINARY") in
  bin ← (if String.eqb own "" then bundledLinuxBinary "amd64" else mret own);
  if String.eqb bin "" then mret tt else
  wslRoot name ("install -m 0755 " +:+ Quote (winPathToMnt bin) +:+ " /usr/local/bin/odb").

Definition provisionGuestWSL (name : string) : prog unit :=
  _ ← installDocker name;
  _ ← ensureBtrfs name;
  _ ← ensureStorage name;
  _ ← loadPreloadedImages name;
  _ ← stageImageContext name;
  installGuestBinaryWSL name.

Definition verifyBtrfs (name : string) : prog unit :=
  on_error (wslRoot name verify_script) (λ e,
    log ← setupLogPath;
    fail (Wrapf ("btrfs is not usable in the %q distro: %w" +:+ str1 nl +:+ "btrfs ships in the WSL kernel, so this is unexpected — see %s") [name; log] e)).

Fixpoint cached_key (lines : list string) : string :=
  match lines with
  | [] => ""
  | l :: t => match strip_prefix "api_key=" (TrimSpace l) with Some v => TrimSpace v | None => cached_key t end
  end.
Definition guestAPIKey (name : string) : prog string :=
  '(out, ok) ← wslRootOut name "cat ~/.oxyndb/config 2>/dev/null || true";
  mret (if (ok : bool) then cached_key (Split nl (decodeWSLOutput out)) else "").
Definition shareMountPropagation (name : string) : prog unit := discard (wslRoot name "mount --make-rshared /oxyndb 2>/dev/null || true").
Definition finishSetup (name : string) : prog unit :=
  _ ← shareMountPropagation name;
  key ← guestAPIKey name;
  if String.eqb key "" then ignore (Print "  Connect:  postgresql://oxyndb:<API_KEY>@localhost:6432/main?sslmode=require" [])
  else ignore (Print "  Connect:  postgresql://oxyndb:%s@localhost:6432/main?sslmode=require" [key]).

Definition setupWindows : prog unit :=
  there ← wslInstalled;
  if negb there then fail (Errorf ("WSL is not installed." +:+ str1 nl +:+ "Install it (Administrator PowerShell):" +:+ str1 nl +:+ "  wsl --install" +:+ str1 nl
    +:+ "reboot, then run `odb setup` again") []) else
  healthy ← succeeds (wsl_call ["--status"] "");
  if negb healthy then fail (Errorf ("WSL is present but not healthy (is virtualization enabled in the BIOS, and the 'Virtual Machine Platform' feature on?). "
    +:+ "Run `wsl --install` / `wsl --update`, then retry") []) else
  _ ← ignore (CallOut "refreshEngineBinary" ["amd64"]);
  let name := currentDistro in
  exists_ ← distroExists name;
  _ ← when (negb exists_) (importDistro name);
  _ ← waitForSystemd name;
  _ ← provisionGuestWSL name;
  _ ← verifyBtrfs name;
  first ← attempt (forwardQuiet ["start"]);
  _ ← match first with inl _ => mret tt | inr _ => forwardQuiet ["start"] end;
  finishSetup name.

(** ** vm_windows.go *)

Definition vmStatus : prog unit :=
  there ← wslInstalled;
  if negb there then ignore (Print "WSL isn't installed, so there is no OxynDB VM yet — run the installer or `odb setup`." []) else
  let name := currentDistro in
  exists_ ← distroExists name;
  if negb exists_ then ignore (Print "No OxynDB VM yet (WSL distro %q) — run `odb setup` to create it." [name]) else
  running ← distroRunning name;
  _ ← ignore (Print ("OxynDB VM: %s (WSL2 distro)" +:+ str1 nl +:+ "  status  %s") [name; if (running : bool) then "Running" else "Stopped"]);
  when (negb running) (ignore (Print "Start it, and the stack inside it, with: odb start" [])).
Definition vmShell : prog unit :=
  there ← wslInstalled;
  if negb there then fail (Errorf "WSL is required on Windows — run the installer or `odb setup`" []) else
  let name := currentDistro in
  exists_ ← distroExists name;
  if negb exists_ then fail (Errorf "no OxynDB VM yet — run `odb setup` once to create it" []) else
  perform (wsl_call ["-d"; name] "").
End wsl.

(** ** What has to be seen before the engine runs *)

(** The engine run in a distro; a distro made or removed. *)
Definition engine_call (a : action) : bool := match a with Exec ("wsl.exe" :: "-d" :: _ :: "--" :: "env" :: _) _ => true | _ => false end.
Definition importing (a : action) : bool := match a with Exec ("wsl.exe" :: "--import" :: _) _ => true | _ => false end.
Definition unregistering (a : action) : bool := match a with Exec ("wsl.exe" :: "--unregister" :: _) _ => true | _ => false end.
Definition harmless (a : action) : Prop := engine_call a = false ∧ importing a = false ∧ unregistering a = false.

Section order.
Context {W : World} {En : Env}.

(** What an answer shows: the distro running, its storage unit active, btrfs usable, the
    distro not listed. An active unit says that its script ended well: the filesystem is
    mounted then, or, at the first boot, there is no image yet and the engine makes it. *)
Definition shows_running (e : event) : Prop := e.1 = list_states ∧ rok e.2 = true ∧ running_in currentDistro (rout e.2) = true.
Definition shows_active (e : event) : Prop :=
  e.1 = as_root currentDistro is_active_script ∧ TrimSpace (decodeWSLOutput (rout e.2)) = "active".
Definition shows_btrfs (e : event) : Prop := e.1 = as_root currentDistro verify_script ∧ rok e.2 = true.
Definition shows_unlisted (e : event) : Prop := e.1 = list_distros ∧ rok e.2 && named_in currentDistro (rout e.2) = false.

Ltac harmless_go := emits_go; try (split_and!; reflexivity); try done.

Lemma wslRoot_harmless name script : emits harmless (wslRoot name script).
Proof. unfold wslRoot, logged. harmless_go. Qed.
Lemma wslRootOut_harmless name script : emits harmless (wslRootOut name script).
Proof. unfold wslRootOut. harmless_go. Qed.
Lemma root_ok_harmless name script : emits harmless (root_ok name script).
Proof. unfold root_ok. harmless_go. apply wslRoot_harmless. Qed.
Lemma systemd_harmless name : emits harmless (waitForSystemd name).
Proof.
  unfold waitForSystemd. generalize 60%nat as n. induction n as [|n IH]; cbn [systemd_loop]; [apply emits_fail|].
  apply emits_bind; [apply wslRootOut_harmless|]. intros [out ok]. harmless_go.
Qed.
Lemma guestBin_harmless name : emits harmless (guestBin name).
Proof. unfold guestBin. harmless_go. Qed.
Lemma first_entry_harmless f b ds : emits harmless (first_entry f b ds).
Proof. induction ds as [|d ds IH]; cbn [first_entry]; harmless_go. Qed.
Lemma first_asset_harmless ns : emits harmless (first_asset ns).
Proof.
  induction ns as [|n ns IH]; cbn [first_asset]; unfold bundledAsset, assetDirs; harmless_go. apply first_entry_harmless.
Qed.
Lemma logged_harmless a n : harmless a → emits harmless (logged a n).
Proof. intros Ha. unfold logged. harmless_go. Qed.
Lemma wrap_emits {A} P f args (m : prog A) : emits P m → emits P (wrap f args m).
Proof. intros Hm. unfold wrap. emits_go. exact Hm. Qed.

(** The engine is run, a distro made, where [needs] and the list say so; none is removed. *)
Definition leave (needs : history → Prop) (h0 h : history) (a : action) : Prop :=
  (engine_call a = true → needs h) ∧ (importing a = true → since h0 shows_unlisted h) ∧ unregistering a = false.

Lemma free {A} needs h0 I (m : prog A) : past I → emits harmless m → triple (leave needs h0) I m (λ _, I).
Proof.
  intros Hp Hm. apply triple_free; [done|]. eapply emits_mono; [|exact Hm]. intros a (H1 & H2 & H3) h. unfold leave. rewrite H1, H2. done.
Qed.

(** A script that succeeds has been seen to. *)
Lemma root_seen needs h0 I name script : past I → (∀ h, I h → after h0 h) →
  triple (leave needs h0) I (wslRoot name script) (λ _ h, I h ∧ since h0 (λ e, e.1 = as_root name script ∧ rok e.2 = true) h).
Proof.
  intros Hp Hi. unfold wslRoot, logged. eapply triple_bind; [apply (triple_seen _ h0 I _ Hp Hi); by intros h _; split_and!|].
  intros r. apply triple_if; intros Hr; [|apply triple_fail]. apply triple_ret. intros h [Hh Hs]. split; [done|by apply Hs].
Qed.

Lemma active_seen needs h0 I : past I → (∀ h, I h → after h0 h) →
  triple (leave needs h0) I (checkStorageUnit currentDistro) (λ _ h, I h ∧ since h0 shows_active h).
Proof.
  intros Hp Hi. unfold checkStorageUnit, wslRootOut. eapply triple_bind; [eapply triple_bind; [apply (triple_seen _ h0 I _ Hp Hi); by intros h _; split_and!|]|].
  - intros r. apply (triple_ret _ _ _ (λ x h, I h ∧ ∃ r, x.1 = rout r ∧ ∀ Q : event → Prop, Q (as_root currentDistro is_active_script, r) → since h0 Q h)).
    intros h [Hh Hs]. eauto.
  - intros [out ok]. apply triple_if; intros Hr.
    + apply triple_ret. intros h (Hh & r & Hout & Hs). cbn in Hout. subst out. split; [done|]. apply Hs. split; [done|]. by apply String.eqb_eq.
    + eapply (triple_weaken _ I); [|by intros h [? _]|intros ? ? Hq; exact Hq].
      eapply triple_bind; [apply (free needs h0 I _ Hp (wslRootOut_harmless _ _))|]. intros [detail ok']. apply triple_fail.
Qed.

(** ** Forwarding *)

Definition storage_up (h0 h : history) : Prop := since h0 shows_running h ∨ since h0 shows_active h.

Lemma listing_seen needs h0 I : past I → (∀ h, I h → after h0 h) →
  triple (leave needs h0) I (distroExists currentDistro) (λ b h, I h ∧ (b = false → since h0 shows_unlisted h)).
Proof.
  intros Hp Hi. unfold distroExists. eapply triple_bind; [apply (triple_seen _ h0 I _ Hp Hi); by intros h _; split_and!|].
  intros r. apply triple_ret. intros h [Hh Hs]. split; [done|]. intros Hb. by apply Hs.
Qed.

Lemma running_seen needs h0 I : past I → (∀ h, I h → after h0 h) →
  triple (leave needs h0) I (distroRunning currentDistro) (λ b h, I h ∧ (b = true → since h0 shows_running h)).
Proof.
  intros Hp Hi. unfold distroRunning. eapply triple_bind; [apply (triple_seen _ h0 I _ Hp Hi); by intros h _; split_and!|].
  intros r. apply triple_ret. intros h [Hh Hs]. split; [done|]. intros [Hb1 Hb2]%andb_true_iff. by apply Hs.
Qed.

Lemma forwardStdin_triple h0 args stdin :
  triple (leave (storage_up h0) h0) (after h0) (forwardStdin args stdin)
    (λ _ h, ∃ guest r, rok r = true ∧ ∃ h', after h0 h' ∧ h = h' ++ [(guest_call currentDistro guest args stdin, r)]).
Proof.
  unfold forwardStdin. pose proof (past_after h0) as Hp.
  eapply triple_bind; [apply (free _ _ _ _ Hp); unfold wslInstalled; emits_go; by split_and!|]. intros there. apply triple_if; intros _; [apply triple_fail|].
  eapply triple_bind; [apply (listing_seen _ _ _ Hp); done|]. intros ex. apply triple_if; intros _; [apply triple_fail|].
  eapply (triple_weaken _ (after h0)); [|by intros h [? _]|intros ? ? Hq; exact Hq].
  eapply triple_bind; [apply (running_seen _ _ _ Hp); done|]. intros running.
  eapply triple_bind; [instantiate (1 := λ _ h, after h0 h ∧ storage_up h0 h); unfold when; apply triple_if; intros Hr|].
  - eapply (triple_weaken _ (after h0)); [|by intros h [? _]|intros ? ? Hq; exact Hq].
    eapply triple_bind; [apply (free _ _ _ _ Hp), systemd_harmless|]. intros [].
    eapply triple_weaken; [apply (active_seen _ h0 (after h0) Hp); done|done|]. intros _ h [? ?]. split; [done|by right].
  - apply triple_ret. intros h [Ha Hrun]. split; [done|]. left. apply Hrun. by destruct running.
  - intros []. eapply triple_bind; [apply (free _ _ (λ h, after h0 h ∧ storage_up h0 h)), guestBin_harmless|].
    { apply past_and; [done|]. apply past_or; apply past_since. }
    intros guest. unfold perform. eapply triple_bind.
    + apply (triple_call _ _ _ (λ r h, ∃ h', after h0 h' ∧ h = h' ++ [(guest_call currentDistro guest args stdin, r)])); [|intros h [? _]; by eauto].
      intros h [_ Hs]. split_and!; [done|done|reflexivity].
    + intros r. apply triple_if; intros Hr; [|apply triple_fail]. apply triple_ret. intros h (h' & ? & ->). eauto 6.
Qed.

(** What a run of a triple says of its own events. *)
Lemma leave_within (needs : history → Prop) (Q : list event → Prop) h pre a : (∀ u, needs (h ++ u) → Q u) →
  leave needs h (h ++ pre) a →
  (engine_call a = true → Q pre) ∧ (importing a = true → ∃ e, e ∈ pre ∧ shows_unlisted e) ∧ unregistering a = false.
Proof. intros HQ (H1 & H2 & H3). split_and!; [auto| |done]. intros Hi. by apply (since_within h), H2. Qed.

Lemma forwardStdin_calls args stdin :
  emits (λ a, harmless a ∨ ∃ guest, a = guest_call currentDistro guest args stdin) (forwardStdin args stdin).
Proof.
  assert (∀ A (m : prog A), emits harmless m → emits (λ a, harmless a ∨ ∃ guest, a = guest_call currentDistro guest args stdin) m) as Hl
    by (intros A m; apply emits_mono; tauto).
  unfold forwardStdin, wslInstalled, distroExists, distroRunning, checkStorageUnit.
  emits_go; try (left; by split_and!); eauto; try apply Hl; auto using systemd_harmless, guestBin_harmless, wslRootOut_harmless.
Qed.

(** On Windows the engine is run only in a distro whose storage is looked after: a forwarded command makes or
    removes no distro and runs nothing but the given command, and that only when the distro
    was seen running, or was started and its storage unit was seen active; it succeeds only
    when that command did, as the last thing done. *)
Theorem forwardStdin_active args stdin h o t : runs (forwardStdin args stdin) h o t →
  (∀ pre a r post, t = pre ++ (a, r) :: post →
     importing a = false ∧ unregistering a = false
     ∧ (engine_call a = true → (∃ guest, a = guest_call currentDistro guest args stdin) ∧ ∃ e, e ∈ pre ∧ (shows_running e ∨ shows_active e)))
  ∧ (o = Ok tt → ∃ pre guest r, t = pre ++ [(guest_call currentDistro guest args stdin, r)] ∧ rok r = true).
Proof.
  intros Hr. destruct (forwardStdin_triple h args stdin h o t ltac:(exists []; by rewrite app_nil_r) Hr) as [Hall Hok]. split.
  - intros pre a r post Heq. pose proof (emits_runs _ _ _ _ _ (forwardStdin_calls args stdin) Hr) as Hc. rewrite Heq in Hc.
    apply Forall_app in Hc as [_ Hc%Forall_cons_1]. destruct Hc as [Hc _]. cbn in Hc.
    destruct (leave_within (storage_up h) (λ u, ∃ e, e ∈ u ∧ (shows_running e ∨ shows_active e)) h pre a) with (2 := Hall _ _ _ _ Heq) as (H1 & _ & H3).
    { intros u [(e & He & HQ)%since_within|(e & He & HQ)%since_within]; eauto. }
    destruct Hc as [(Hc1 & Hc2 & Hc3)|[guest ->]]; split_and!; try done; eauto. by rewrite Hc1.
  - intros ->. destruct (Hok tt eq_refl) as (guest & r & Hrr & h' & (u & ->) & Heq).
    rewrite <-app_assoc in Heq. apply app_inv_head in Heq. eauto 6.
Qed.

(** ** Setup *)

Definition setup_ready (h0 h : history) : Prop := since h0 shows_active h ∧ since h0 shows_btrfs h.
Lemma past_ready h0 : past (setup_ready h0).
Proof. apply past_and; apply past_since. Qed.
Definition started (e : event) : Prop := (∃ guest, e.1 = guest_call currentDistro guest ["start"] "") ∧ rok e.2 = true.

Lemma importDistro_triple needs h0 : past (λ h, after h0 h ∧ since h0 shows_unlisted h) →
  triple (leave needs h0) (λ h, after h0 h ∧ since h0 shows_unlisted h) (importDistro currentDistro) (λ _, after h0).
Proof.
  intros Hp h o t Hi Hr. split.
  - assert (emits (λ a, engine_call a = false ∧ unregistering a = false) (importDistro currentDistro)) as Hc.
    { assert (∀ A (m : prog A), emits harmless m → emits (λ a, engine_call a = false ∧ unregistering a = false) m) as Hl
        by (intros A m; apply emits_mono; by intros a (? & _ & ?)).
      unfold importDistro, wrap, wslQuiet, wslRoot. emits_go; try by split_and!; try (apply Hl, logged_harmless; by split_and!).
      - apply Hl, first_asset_harmless.
      - unfold logged. emits_go. by split_and!.
      - apply Hl, logged_harmless. by split_and!.
      - apply Hl, logged_harmless. by split_and!. }
    intros pre a r post Heq. pose proof (emits_runs _ _ _ _ _ Hc Hr) as Hc'. rewrite Heq in Hc'. apply Forall_app in Hc' as [_ Hc'%Forall_cons_1].
    destruct Hc' as [[H1 H2] _]. cbn in H1, H2. unfold leave. rewrite H1, H2. split_and!; [done| |done]. intros _. apply past_since, Hi.
  - intros a _. apply past_after, Hi.
Qed.

Lemma forwardQuiet_triple h0 :
  triple (leave (setup_ready h0) h0) (λ h, after h0 h ∧ setup_ready h0 h) (forwardQuiet ["start"]) (λ _, since h0 started).
Proof.
  assert (past (λ h, after h0 h ∧ setup_ready h0 h)) as Hp by (apply past_and; [apply past_after|apply past_ready]).
  unfold forwardQuiet. eapply triple_bind; [apply (free _ _ _ _ Hp), guestBin_harmless|]. intros guest. unfold logged. eapply triple_bind.
  - apply (triple_call _ _ _ (λ r h, ∃ h', after h0 h' ∧ h = h' ++ [(guest_call currentDistro guest ["start"] "", r)])).
    + intros h [_ Hs]. by split_and!.
    + intros h [Ha _]. eauto.
  - intros r. apply triple_if; intros Hr; [|apply triple_fail]. apply triple_ret. intros h (h' & Ha & ->). apply since_new; [done|]. split; [by exists guest|done].
Qed.

Lemma provision_triple needs h0 :
  triple (leave needs h0) (after h0) (provisionGuestWSL currentDistro) (λ _ h, after h0 h ∧ since h0 shows_active h).
Proof.
  pose proof (past_after h0) as Hp. assert (past (λ h, after h0 h ∧ since h0 shows_active h)) as Hpm by (by apply past_and, past_since).
  unfold provisionGuestWSL.
  eapply triple_bind; [apply (free _ _ _ _ Hp); unfold installDocker; emits_go; try apply wrap_emits; auto using root_ok_harmless, wslRoot_harmless|]. intros [].
  eapply triple_bind; [apply (free _ _ _ _ Hp); unfold ensureBtrfs; emits_go; try apply wrap_emits; auto using root_ok_harmless, wslRoot_harmless|]. intros [].
  eapply triple_bind; [unfold ensureStorage; eapply triple_bind;
    [apply (free _ _ _ _ Hp), wrap_emits, wslRoot_harmless|intros []; apply (active_seen _ _ _ Hp); done]|]. intros [].
  eapply triple_bind; [apply (free _ _ _ _ Hpm); unfold loadPreloadedImages; emits_go; auto using root_ok_harmless, wslRoot_harmless|]. intros [].
  eapply triple_bind; [apply (free _ _ _ _ Hpm); unfold stageImageContext, bundledDir, assetDirs; emits_go; try apply wrap_emits;
    auto using root_ok_harmless, wslRoot_harmless, first_entry_harmless; by split_and!|]. intros [].
  apply (free _ _ _ _ Hpm). unfold installGuestBinaryWSL, bundledLinuxBinary. emits_go; auto using wslRoot_harmless; by split_and!.
Qed.

Lemma verifyBtrfs_triple needs h0 I : past I → (∀ h, I h → after h0 h) →
  triple (leave needs h0) I (verifyBtrfs currentDistro) (λ _ h, I h ∧ since h0 shows_btrfs h).
Proof.
  intros Hp Hi. unfold verifyBtrfs, on_error. eapply triple_bind; [apply triple_attempt; [done|by apply root_seen]|].
  intros [[]|e].
  - apply triple_ret. intros h [_ Hs]. apply (Hs tt). done.
  - eapply (triple_weaken _ I); [|by intros h [? _]|intros ? ? Hq; exact Hq]. eapply triple_bind; [apply (free needs h0 I _ Hp)|intros log; apply triple_fail].
    unfold setupLogPath, installDir. emits_go. by split_and!.
Qed.

Lemma setupWindows_triple h0 : triple (leave (setup_ready h0) h0) (after h0) setupWindows (λ _, since h0 started).
Proof.
  pose proof (past_after h0) as Hp. assert (past (λ h, after h0 h ∧ setup_ready h0 h)) as Hpr by (apply past_and; [done|apply past_ready]).
  unfold setupWindows. eapply triple_bind; [apply (free _ _ _ _ Hp); unfold wslInstalled; emits_go; by split_and!|].
  intros there. apply triple_if; intros _; [apply triple_fail|].
  eapply triple_bind; [apply (free _ _ _ _ Hp); emits_go; by split_and!|]. intros healthy. apply triple_if; intros _; [apply triple_fail|].
  eapply triple_bind; [apply (free _ _ _ _ Hp); emits_go; by split_and!|]. intros [].
  eapply triple_bind; [apply (listing_seen _ _ _ Hp); done|]. intros there2.
  eapply triple_bind; [instantiate (1 := λ _, after h0); unfold when; apply triple_if; intros Hb|].
  - eapply (triple_weaken _ (λ h, after h0 h ∧ since h0 shows_unlisted h)); [apply importDistro_triple; by apply past_and, past_since| |done].
    intros h [? Hu]. split; [done|]. apply Hu. by destruct there2.
  - by apply triple_ret; intros h [? _].
  - intros []. eapply triple_bind; [apply (free _ _ _ _ Hp), systemd_harmless|]. intros [].
    eapply triple_bind; [apply provision_triple|]. intros [].
    eapply triple_bind; [apply verifyBtrfs_triple; [by apply past_and, past_since|by intros h [? _]]|]. intros [].
    eapply (triple_weaken _ (λ h, after h0 h ∧ setup_ready h0 h)); [|by intros h [[? ?] ?]|intros ? ? Hq; exact Hq].
    eapply triple_bind; [apply triple_attempt; [done|apply forwardQuiet_triple]|]. intros first.
    eapply triple_bind; [instantiate (1 := λ _, since h0 started); destruct first as [[]|e]|].
    + apply triple_ret. intros h [_ Hs]. by apply (Hs tt).
    + eapply triple_weaken; [apply forwardQuiet_triple|by intros h [? _]|done].
    + intros []. apply (free _ _ _ _ (past_since _ _)). unfold finishSetup, shareMountPropagation, guestAPIKey.
      emits_go; auto using wslRoot_harmless, wslRootOut_harmless; by split_and!.
Qed.

(** C21. Setting up a Windows machine makes a distro only after the list of distros did not
    show it, removes none, and starts the engine only after systemd answered that the storage
    unit is active and the test of btrfs succeeded; the setup succeeds only after the engine
    was started. That the unit is active does not say that the filesystem is mounted: at the
    first boot there is no image yet, and the engine makes it. *)
Theorem setupWindows_order h o t : runs setupWindows h o t →
  (∀ pre a r post, t = pre ++ (a, r) :: post →
     (engine_call a = true → (∃ e, e ∈ pre ∧ shows_active e) ∧ ∃ e, e ∈ pre ∧ shows_btrfs e)
     ∧ (importing a = true → ∃ e, e ∈ pre ∧ shows_unlisted e) ∧ unregistering a = false)
  ∧ (o = Ok tt → ∃ e, e ∈ t ∧ started e).
Proof.
  intros Hr. destruct (setupWindows_triple h h o t ltac:(exists []; by rewrite app_nil_r) Hr) as [Hall Hok]. split.
  - intros pre a r post Heq. apply (leave_within (setup_ready h) (λ u, (∃ e, e ∈ u ∧ shows_active e) ∧ ∃ e, e ∈ u ∧ shows_btrfs e) h); [|by apply (Hall _ _ _ _ Heq)].
    intros u [H1 H2]. split; by apply (since_within h).
  - intros Ho. by apply (since_within h), (Hok tt).
Qed.
End order.

(** ** The update's way into the distro (host_update_windows.go)

    The engine's host for an update, with the distro's name resolved once. *)
Section update.
Context {W : World} {En : Env}.

Definition engine_prepare : prog string :=
  there ← wslInstalled;
  if negb there then fail (Errorf "WSL is required on Windows. Install it with `wsl --install` (admin, then reboot), then run `odb setup`" []) else
  let name := currentDistro in
  exists_ ← distroExists name;
  if negb exists_ then fail (Errorf "no OxynDB WSL distro yet — run `odb setup` once to create it" []) else
  running ← distroRunning name;
  _ ← when (negb running) (_ ← waitForSystemd name; checkStorageUnit name);
  mret name.
Definition update_dest : string := "/tmp/odb-update".
Definition engine_stage (name local : string) : prog string :=
  let d := Quote update_dest in
  _ ← wslRoot name ("set -e; cp " +:+ Quote (winPathToMnt local) +:+ " " +:+ d +:+ ".new; chmod 0755 " +:+ d +:+ ".new; mv -f " +:+ d +:+ ".new " +:+ d);
  mret update_dest.
Definition engine_installed (name : string) : prog string :=
  if negb (String.eqb (TrimSpace (getenv "OXYNDB_GUEST_BIN")) "")
  then fail (Errorf "OXYNDB_GUEST_BIN is set (a development setup) — unset it to update the installed engine" []) else
  p ← guestBin name;
  if String.eqb p "/tmp/odb"
  then fail (Errorf "the WSL distro has no installed engine, only a development build at /tmp/odb — run `odb setup` first" []) else mret p.
Definition engine_command (name bin : string) (args : list string) : action :=
  wsl_call (wslArgs name bin (guestEnv ++ ["OXYNDB_NO_UPDATE_CHECK=1"]) args) "".
Definition engine_run (name bin : string) (args : list string) : prog unit := perform (engine_command name bin args).
Definition engine_output (name bin : string) (args : list string) : prog (string * bool) :=
  r ← call (engine_command name bin args); mret (decodeWSLOutput (rout r), rok r).
Definition refresh_script (archive : string) : string :=
  let v (s : string) := Quote s in
  "set -e; d=" +:+ Quote guestImageContext +:+ "; src=" +:+ Quote (winPathToMnt archive) +:+ "; rm -rf " +:+ v "$d.new" +:+ "; mkdir -p " +:+ v "$d.new"
  +:+ "; tar -xzf " +:+ v "$src" +:+ " -C " +:+ v "$d.new" +:+ "; chmod +x " +:+ v "$d.new/restore-entrypoint.sh" +:+ " 2>/dev/null || true; rm -rf " +:+ v "$d.prev"
  +:+ "; if [ -d " +:+ v "$d" +:+ " ]; then mv " +:+ v "$d" +:+ " " +:+ v "$d.prev" +:+ "; fi; mv " +:+ v "$d.new" +:+ " " +:+ v "$d".

(** The update runs an engine only where a forwarded command would: what [engine_prepare]
    comes back with is a distro seen running, or one whose storage unit was seen active. *)
Lemma engine_prepare_active h0 : triple (leave (storage_up h0) h0) (after h0) engine_prepare (λ _ h, storage_up h0 h).
Proof.
  pose proof (past_after h0) as Hp. unfold engine_prepare.
  eapply triple_bind; [apply (free _ _ _ _ Hp); unfold wslInstalled; emits_go; by split_and!|]. intros there. apply triple_if; intros _; [apply triple_fail|].
  eapply triple_bind; [apply (listing_seen _ _ _ Hp); done|]. intros ex. apply triple_if; intros _; [apply triple_fail|].
  eapply (triple_weaken _ (after h0)); [|by intros h [? _]|intros ? ? Hq; exact Hq].
  eapply triple_bind; [apply (running_seen _ _ _ Hp); done|]. intros running.
  apply (triple_bind _ _ _ (λ _, storage_up h0)); [|intros []; by apply triple_ret].
  unfold when; apply triple_if; intros Hr.
  - eapply (triple_weaken _ (after h0)); [|by intros h [? _]|intros ? ? Hq; exact Hq].
    eapply triple_bind; [apply (free _ _ _ _ Hp), systemd_harmless|]. intros [].
    eapply triple_weaken; [apply (active_seen _ h0 (after h0) Hp); done|done|]. intros _ h [? ?]. by right.
  - apply triple_ret. intros h [Ha Hrun]. left. apply Hrun. by destruct running.
Qed.
End update.

(** ** What wsl.exe prints is read *)

(** UTF-16 with the lower byte first, as wsl.exe writes it. *)
Definition utf16_units (n : rune) : list N :=
  if (n <? 0x10000)%N then [n] else [0xD800 + (n - 0x10000) / 1024; 0xDC00 + (n - 0x10000) mod 1024]%N.
Definition utf16_text (l : list rune) : list ascii := (l ≫= utf16_units) ≫= λ u, [ascii_of_N (u mod 256); ascii_of_N (u / 256)]%N.
Definition bom : list ascii := [ascii_of_N 0xFF; ascii_of_N 0xFE].

Lemma code_units_text us : Forall (λ u, u < 65536)%N us → code_units (us ≫= λ u, [ascii_of_N (u mod 256); ascii_of_N (u / 256)]%N) = us.
Proof.
  induction 1 as [|u us Hu _ IH]; [done|]. cbn [mbind list_bind app code_units]. rewrite IH. f_equal.
  rewrite !N_of_ascii_mod; [|apply N.Div0.div_lt_upper_bound; lia|apply N.mod_lt; lia].
  rewrite N.add_comm. symmetry. apply N.div_mod. lia.
Qed.

Lemma scalar_cases n : scalar n = true → (n < 0xD800 ∨ 0xE000 <= n < 0x10000 ∨ 0x10000 <= n <= 0x10FFFF)%N.
Proof. unfold scalar. rewrite orb_true_iff, N.ltb_lt, within_spec. lia. Qed.

Lemma units_small n : scalar n = true → Forall (λ u, u < 65536)%N (utf16_units n).
Proof.
  intros Hn%scalar_cases. unfold utf16_units. destruct (N.ltb_spec n 0x10000); [by repeat constructor|].
  assert ((n - 0x10000) / 1024 < 1024)%N by (apply N.Div0.div_lt_upper_bound; lia).
  assert ((n - 0x10000) mod 1024 < 1024)%N by (apply N.mod_lt; lia). repeat constructor; lia.
Qed.

Lemma utf16_decode_units n t : scalar n = true → utf16_decode (utf16_units n ++ t) = n :: utf16_decode t.
Proof.
  intros Hn%scalar_cases. unfold utf16_units. destruct (N.ltb_spec n 0x10000) as [Hl|Hl].
  - cbn [app utf16_decode]. unfold high_surrogate, low_surrogate. rewrite !(proj2 (within_false _ _ n)) by lia. done.
  - assert ((n - 0x10000) / 1024 < 1024)%N as Ha by (apply N.Div0.div_lt_upper_bound; lia).
    assert ((n - 0x10000) mod 1024 < 1024)%N as Hb by (apply N.mod_lt; lia).
    pose proof (N.div_mod (n - 0x10000) 1024 ltac:(lia)) as Hd.
    generalize dependent ((n - 0x10000) / 1024)%N. generalize dependent ((n - 0x10000) mod 1024)%N. intros b Hb a Ha Hd.
    cbn [app utf16_decode]. unfold high_surrogate, low_surrogate. rewrite (proj2 (within_spec _ _ (0xD800 + a))) by lia.
    rewrite (proj2 (within_spec _ _ (0xDC00 + b))) by lia. f_equal. lia.
Qed.

Lemma utf16_decode_text l : Forall (λ n, scalar n = true) l → utf16_decode (l ≫= utf16_units) = l.
Proof. induction 1 as [|n l Hn _ IH]; [done|]. cbn [mbind list_bind]. by rewrite utf16_decode_units, IH. Qed.

Lemma has_zero l n : n ∈ l → (n < 256)%N → existsb (Ascii.eqb "000") (utf16_text l) = true.
Proof.
  intros Hn Hs. apply existsb_exists. exists "000"%char. split; [|done]. apply list_elem_of_In. unfold utf16_text.
  apply list_elem_of_bind. exists n. split.
  - rewrite N.div_small by done. right. left.
  - apply list_elem_of_bind. exists n. split; [|done]. unfold utf16_units. destruct (N.ltb_spec n 0x10000); [left|lia].
Qed.

(** What wsl.exe prints in UTF-16 is read as it was meant: text with any character up to
    U+00FF (every line has its end) comes out as its UTF-8, and what is UTF-8 already, with no
    NUL in it, is left alone. *)
Theorem decodeWSLOutput_reads l n : Forall (λ n, scalar n = true) l → n ∈ l → (n < 256)%N →
  decodeWSLOutput (of_bytes (bom ++ utf16_text l)) = of_runes l
  ∧ ∀ s, existsb (Ascii.eqb "000") (to_bytes s) = false → decodeWSLOutput s = s.
Proof.
  intros Hl Hn Hs. split; [|by intros s Hz; unfold decodeWSLOutput; rewrite Hz].
  unfold decodeWSLOutput. rewrite to_of_bytes. cbv zeta. rewrite existsb_app, (has_zero l n) by done. rewrite orb_true_r. cbn [negb bom app].
  rewrite !N_of_ascii_mod by lia. rewrite !N.eqb_refl. cbn [andb]. unfold utf16_text.
  rewrite code_units_text, utf16_decode_text; [done|done|].
  apply Forall_bind. eapply Forall_impl; [exact Hl|]. intros m Hm. by apply units_small.
Qed.

(** ** Examples *)

Module Sample.
#[export] Instance env : Env := {| getenv := λ _, ""; pgPass := ""; minioUser := ""; minioPass := ""; home_dir := None |}.
Definition states (st : string) : string := lines_of ["  NAME            STATE           VERSION"; "* Ubuntu          Running         2"; "  oxyndb          " +:+ st +:+ "         2"; ""].
(** A machine whose distro is stopped, and one that has none yet. *)
Definition windows (listed : string) : World := {| answer := λ _ x,
  if bool_decide (x = list_distros) then mkReply true listed "" 0
  else if bool_decide (x = list_states) then mkReply true (of_bytes (bom ++ utf16_text (runes (states "Stopped")))) "" 0
  else if bool_decide (x = as_root "oxyndb" is_active_script) then mkReply true ("active" +:+ str1 nl) "" 0
  else match x with
       | Exec ["wsl.exe"; "-d"; _; "-u"; _; _; _; _; "systemctl is-system-running 2>&1 || true"] _ => mkReply true "running" "" 0
       | _ => mkReply true "C:/odb/odb.exe" "" 0
       end |}.

Example states_read : decodeWSLList (of_bytes (bom ++ utf16_text (runes (states "Stopped")))) = [mkWslDistro "Ubuntu" "Running"; mkWslDistro "oxyndb" "Stopped"].
Proof. vm_compute. done. Qed.
Example mnt_paths : winPathToMnt "C:\Users\x\odb-linux-amd64" = "/mnt/c/Users/x/odb-linux-amd64" ∧ winPathToMnt "/already/posix" = "/already/posix".
Proof. done. Qed.

Lemma forwardStdin_active_witness :
  match forwardStdin (W := windows ("oxyndb" +:+ str1 nl)) ["branch"; "list"] "" [] with
  | (Ok tt, t) => ∃ pre guest r, t = pre ++ [(guest_call currentDistro guest ["branch"; "list"] "", r)] ∧ rok r = true
  | _ => False
  end.
Proof.
  destruct (forwardStdin (W := windows ("oxyndb" +:+ str1 nl)) ["branch"; "list"] "" []) as [o t] eqn:Hr.
  assert (o = Ok tt) as -> by (vm_compute in Hr; by injection Hr as <- _).
  by apply (forwardStdin_active (W := windows ("oxyndb" +:+ str1 nl)) ["branch"; "list"] "" [] (Ok tt) t Hr).
Defined.

Lemma setupWindows_order_witness :
  match setupWindows (W := windows "Ubuntu") [] with
  | (Ok tt, t) => (∃ e, e ∈ t ∧ started e) ∧ existsb (λ e, importing e.1) t = true
  | _ => False
  end.
Proof.
  destruct (setupWindows (W := windows "Ubuntu") []) as [o t] eqn:Hr.
  assert (o = Ok tt ∧ existsb (λ e, importing e.1) t = true) as [-> Hi] by (vm_compute in Hr; by injection Hr as <- <-).
  split; [|exact Hi]. by apply (setupWindows_order (W := windows "Ubuntu") [] (Ok tt) t Hr).
Defined.

Lemma decodeWSLOutput_reads_witness : decodeWSLOutput (of_bytes (bom ++ utf16_text [111; 0x1F600; 10]%N)) = of_runes [111; 0x1F600; 10]%N.
Proof. apply (decodeWSLOutput_reads [111; 0x1F600; 10]%N 10%N); [repeat constructor|right; right; left|done]. Defined.
End Sample.
