(* ===== verification/Lima.v ===== *)
(** * The engine in a Lima VM (internal/host: host_darwin.go, vm_darwin.go)

    On macOS the engine runs as a Linux program in a virtual machine that limactl drives:
    its state, the forwarding of a command and the setup. Progress lines are left out. *)
From S2P Require Import Prelude GoStrings GoNum Effects Guarded Storage.
Open Scope string_scope.
Open Scope list_scope.

(** ** Sizes (vm.go) *)

(** The nearest multiple of 2^k, ties to the even one. *)
Definition round_even (k b : Z) : Z :=
  let q := (b / 2 ^ k)%Z in let r := (2 * (b mod 2 ^ k))%Z in
  (if (2 ^ k <? r) || ((r =? 2 ^ k) && Z.odd q) then q + 1 else q)%Z.
(** float64 of a number that is not negative, which keeps 53 bits. *)
Definition to_float (b : Z) : Z := let k := (Z.log2 b - 52)%Z in if (k <=? 0)%Z then b else (round_even k b * 2 ^ k)%Z.
Definition gib (bytes : Z) : string :=
  (if (bytes <? 0)%Z then "-" else "") +:+ format_int (round_even 30 (to_float (Z.abs bytes))) +:+ " GiB".

(** ** host_darwin.go *)

Definition limactl (args : list string) (stdin : string) : action := Exec ("limactl" :: args) stdin.
Definition list_instances : action := limactl ["list"; "--format"; "{{.Name}}"] "".
Definition list_status (name : string) : action := limactl ["list"; name; "--format"; "{{.Status}}"] "".
Definition start_instance (name : string) : action := limactl ["start"; name] "".
Definition listed (name : string) (r : reply) : bool := rok r && existsb (String.eqb name) (Fields (rout r)).
Definition says_running (r : reply) : bool := rok r && String.eqb (TrimSpace (rout r)) "Running".
(** The engine's own command, in the VM. *)
Definition guest_command (name guest : string) (args : list string) (stdin : string) : action :=
  limactl (["shell"; name; "--"; "env"; "OXYNDB_IN_GUEST=1"; guest] ++ args) stdin.

Section lima.
Context {W : World} {En : Env}.

Definition instanceExists (name : string) : prog bool := r ← call list_instances; mret (listed name r).
Definition instanceRunning (name : string) : prog bool := r ← call (list_status name); mret (says_running r).
Definition instance : prog string :=
  let v := TrimSpace (getenv "OXYNDB_LIMA_INSTANCE") in
  if negb (String.eqb v "") then mret v else
  own ← instanceExists "oxyndb";
  if (own : bool) then mret "oxyndb" else
  old ← instanceExists "default";
  mret (if (old : bool) then "default" else "oxyndb").

Definition guestBin (name : string) : prog string :=
  let v := TrimSpace (getenv "OXYNDB_GUEST_BIN") in
  if negb (String.eqb v "") then mret v else
  r ← call (limactl ["shell"; name; "--"; "sh"; "-c"; "command -v odb || echo /tmp/odb"] "");
  let p := TrimSpace (rout r) in
  mret (if rok r && negb (String.eqb p "") then p else "/tmp/odb").

Definition lima_there : prog bool := succeeds (LookPath "limactl").

Definition forwardStdin (args : list string) (stdin : string) : prog unit :=
  there ← lima_there;
  if negb there then fail (Errorf "Lima is required on macOS. Install it with `brew install lima`, then run `odb setup`" []) else
  name ← instance;
  exists_ ← instanceExists name;
  if negb exists_ then fail (Errorf "no OxynDB VM yet — run `odb setup` once to create it" []) else
  running ← instanceRunning name;
  _ ← when (negb running) (wrap "starting the VM: %w" [] (perform (start_instance name)));
  guest ← guestBin name;
  perform (guest_command name guest args stdin).

Definition provisionGuest (name : string) : prog unit :=
  wrap "installing guest dependencies: %w" []
    (perform (limactl ["shell"; name; "--"; "sh"; "-c"; "set -e; sudo apt-get update -y; sudo apt-get install -y zfsutils-linux docker.io; sudo systemctl enable --now docker"] "")).
Definition guestArch (name : string) : prog string :=
  r ← call (limactl ["shell"; name; "--"; "uname"; "-m"] "");
  mret (if rok r && String.eqb (TrimSpace (rout r)) "x86_64" then "amd64" else "arm64").
(** bundledLinuxBinary of host.go is in Update.v, on a disk. *)
Definition installGuestBinary (name : string) : prog unit :=
  let own := TrimSpace (getenv "OXYNDB_GUEST_BINARY") in
  bin ← (if String.eqb own "" then arch ← guestArch name; r ← call (CallOut "bundledLinuxBinary" [arch]); mret (rout r) else mret own);
  if String.eqb bin "" then mret tt else
  _ ← wrap "copying the engine binary into the VM: %w" [] (perform (limactl ["copy"; bin; name +:+ ":/tmp/odb.new"] ""));
  perform (limactl ["shell"; name; "--"; "sudo"; "install"; "-m"; "0755"; "/tmp/odb.new"; "/usr/local/bin/odb"] "").

Definition create_call (name : string) : action := limactl ["start"; "--name"; name; "--tty=false"; "template://ubuntu"] "".
Definition setupDarwin (goarch stdin : string) : prog unit :=
  there ← lima_there;
  if negb there then fail (Errorf ("Lima is required on macOS." +:+ str1 nl +:+ "Install it with:" +:+ str1 nl +:+ "  brew install lima" +:+ str1 nl
    +:+ "then run `odb setup` again") []) else
  _ ← ignore (CallOut "refreshEngineBinary" [goarch]);
  name ← instance;
  exists_ ← instanceExists name;
  _ ← (if (exists_ : bool) then
         running ← instanceRunning name;
         when (negb running) (perform (start_instance name))
       else
         _ ← wrap "creating the VM: %w" [] (perform (create_call name));
         provisionGuest name);
  _ ← installGuestBinary name;
  forwardStdin ["start"] stdin.

(** ** vm_darwin.go *)

Definition vmStatus : prog unit :=
  there ← lima_there;
  if negb there then ignore (Print "Lima isn't installed, so there is no OxynDB VM yet. Install it with `brew install lima`, then run `odb setup`." []) else
  name ← instance;
  exists_ ← instanceExists name;
  if negb exists_ then ignore (Print "No OxynDB VM yet (Lima instance %q) — run `odb setup` to create it." [name]) else
  let a := limactl ["list"; name; "--format"; "{{.Status}}|{{.CPUs}}|{{.Memory}}|{{.Disk}}|{{.Dir}}"] "" in
  r ← call a;
  if negb (rok r) then fail (Wrapf "reading the VM's state from Lima: %w" [] (CommandFailed a)) else
  match Split "|" (TrimSpace (rout r)) with
  | status :: cpus :: memory :: disk :: dir :: _ =>
      _ ← ignore (Print "OxynDB VM: %s (Lima)" [name]);
      _ ← ignore (Print ("  status  %s" +:+ str1 nl +:+ "  cpus    %s" +:+ str1 nl +:+ "  memory  %s" +:+ str1 nl +:+ "  disk    %s" +:+ str1 nl +:+ "  files   %s")
                    [status; cpus; gib (atoi_value memory); gib (atoi_value disk); dir]);
      when (negb (String.eqb status "Running")) (ignore (Print "Start it, and the stack inside it, with: odb start" []))
  | _ => fail (Errorf "unexpected output from limactl list: %q" [rout r])
  end.
Definition vmShell : prog unit :=
  there ← lima_there;
  if negb there then fail (Errorf "Lima is required on macOS — install it with `brew install lima`, then run `odb setup`" []) else
  name ← instance;
  exists_ ← instanceExists name;
  if negb exists_ then fail (Errorf "no OxynDB VM yet — run `odb setup` once to create it" []) else
  running ← instanceRunning name;
  if negb running then fail (Errorf "the OxynDB VM (%s) is stopped — start it with `odb start`" [name]) else
  perform (limactl ["shell"; name] "").
End lima.

(** ** What has to be seen before the engine runs *)

Definition engine_of (a : action) : option string := match a with Exec ("limactl" :: "shell" :: n :: "--" :: "env" :: _) _ => Some n | _ => None end.
Definition creating (a : action) : option string := 
  match a with
  | Exec (l :: s :: f :: n :: _) _ => if String.eqb l "limactl" && String.eqb s "start" && String.eqb f "--name" then Some n else None
  | _ => None
  end.
Definition deleting (a : action) : bool := match a with Exec ("limactl" :: c :: _) _ => String.eqb c "delete" || String.eqb c "factory-reset" | _ => false end.
Definition harmless (a : action) : Prop := engine_of a = None ∧ creating a = None ∧ deleting a = false.

Section order.
Context {W : World} {En : Env}.

(** What an answer shows of an instance: it is there, it is not, it is running. *)
Definition shows_listed (n : string) (e : event) : Prop := e.1 = list_instances ∧ listed n e.2 = true.
Definition shows_unlisted (n : string) (e : event) : Prop := e.1 = list_instances ∧ listed n e.2 = false.
Definition shows_running (n : string) (e : event) : Prop :=
  (e.1 = list_status n ∧ says_running e.2 = true) ∨ (e.1 = start_instance n ∧ rok e.2 = true).

Definition leave (h0 h : history) (a : action) : Prop :=
  (∀ n, engine_of a = Some n → since h0 (shows_listed n) h ∧ since h0 (shows_running n) h)
  ∧ (∀ n, creating a = Some n → since h0 (shows_unlisted n) h) ∧ deleting a = false.

Lemma harmless_leave h0 h a : harmless a → leave h0 h a.
Proof. intros (H1 & H2 & H3). unfold leave. rewrite H1, H2. split_and!; [done|done|exact H3]. Qed.
Lemma vm_free {A} h0 I (m : prog A) : past I → emits harmless m → triple (leave h0) I m (λ _, I).
Proof. intros Hp Hm. apply triple_free; [done|]. eapply emits_mono; [|exact Hm]. intros a Ha h. by apply harmless_leave. Qed.
(** A harmless call, seen. *)
Lemma look h0 I a : past I → (∀ h, I h → after h0 h) → harmless a →
  triple (leave h0) I (call a) (λ r h, I h ∧ ∀ Q : event → Prop, Q (a, r) → since h0 Q h).
Proof. intros Hp Hi Ha. apply triple_seen; [done|done|]. intros h _. by apply harmless_leave. Qed.

Ltac harmless_go := emits_go; try (split_and!; reflexivity); try done.

Lemma instance_harmless : emits harmless instance.
Proof. unfold instance, instanceExists. harmless_go. Qed.
Lemma vm_bin_harmless n : emits harmless (guestBin n).
Proof. unfold guestBin. harmless_go. Qed.
Lemma there_harmless : emits harmless lima_there.
Proof. unfold lima_there. harmless_go. Qed.
Lemma install_harmless n : emits harmless (installGuestBinary n).
Proof. unfold installGuestBinary, guestArch, wrap. harmless_go. Qed.
Lemma provision_harmless n : emits harmless (provisionGuest n).
Proof. unfold provisionGuest, wrap. harmless_go. Qed.

Lemma exists_seen h0 n : triple (leave h0) (after h0) (instanceExists n)
  (λ b h, after h0 h ∧ if (b : bool) then since h0 (shows_listed n) h else since h0 (shows_unlisted n) h).
Proof.
  unfold instanceExists. eapply triple_bind; [apply look; [apply past_after|done|by split_and!]|]. intros r. apply triple_ret. intros h [Ha Hs]. split; [done|].
  destruct (listed n r) eqn:Hl; by apply Hs.
Qed.
Lemma vm_running_seen h0 I n : past I → (∀ h, I h → after h0 h) →
  triple (leave h0) I (instanceRunning n) (λ b h, I h ∧ (b = true → since h0 (shows_running n) h)).
Proof.
  intros Hp Hi. unfold instanceRunning. eapply triple_bind; [by apply look; [..|split_and!]|]. intros r. apply triple_ret. intros h [Ha Hs]. split; [done|].
  intros Hr. apply Hs. by left.
Qed.
Lemma started_seen h0 I n : past I → (∀ h, I h → after h0 h) →
  triple (leave h0) I (perform (start_instance n)) (λ _ h, I h ∧ since h0 (shows_running n) h).
Proof.
  intros Hp Hi. unfold perform. eapply triple_bind; [by apply look; [..|split_and!]|]. intros r. apply triple_if; intros Hr; [|apply triple_fail].
  apply triple_ret. intros h [Ha Hs]. split; [done|]. apply Hs. by right.
Qed.

(** A VM that is there and, where it was not seen running, was started. *)
Definition there_now (h0 : history) (n : string) (h : history) : Prop := after h0 h ∧ since h0 (shows_listed n) h.
Definition ready (h0 : history) (n : string) (h : history) : Prop := there_now h0 n h ∧ since h0 (shows_running n) h.
Lemma past_there h0 n : past (there_now h0 n).
Proof. apply past_and; [apply past_after|apply past_since]. Qed.
Lemma past_vm_ready h0 n : past (ready h0 n).
Proof. apply past_and; [apply past_there|apply past_since]. Qed.
Lemma after_there h0 n h : there_now h0 n h → after h0 h.
Proof. by intros [? _]. Qed.

Lemma made_ready h0 n running (start : prog unit) :
  triple (leave h0) (there_now h0 n) start (λ _ h, there_now h0 n h ∧ since h0 (shows_running n) h) →
  triple (leave h0) (λ h, there_now h0 n h ∧ (running = true → since h0 (shows_running n) h)) (when (negb running) start) (λ _, ready h0 n).
Proof.
  intros Hs. unfold when. apply triple_if; intros Hb; [eapply triple_weaken; [exact Hs|by intros ? [? _]|done]|].
  apply triple_ret. intros h [? Hr]. split; [done|]. apply Hr. by destruct running.
Qed.

Definition ran (args : list string) (stdin : string) (e : event) : Prop := (∃ n guest, e.1 = guest_command n guest args stdin) ∧ rok e.2 = true.

Lemma vm_forward_triple h0 args stdin : triple (leave h0) (after h0) (forwardStdin args stdin) (λ _, since h0 (ran args stdin)).
Proof.
  unfold forwardStdin. pose proof (past_after h0) as Hp.
  eapply triple_bind; [apply (vm_free _ _ _ Hp), there_harmless|]. intros there. apply triple_if; intros _; [apply triple_fail|].
  eapply triple_bind; [apply (vm_free _ _ _ Hp), instance_harmless|]. intros n.
  eapply triple_bind; [apply exists_seen|]. intros [|]; [|apply triple_fail]. cbn [negb].
  eapply triple_bind; [apply (vm_running_seen _ _ _ (past_there h0 n)), after_there|]. intros running.
  eapply triple_bind; [apply made_ready, triple_wrap, started_seen; [apply past_there..|apply after_there]|]. intros [].
  eapply triple_bind; [apply (vm_free _ _ _ (past_vm_ready h0 n)), vm_bin_harmless|]. intros guest. unfold perform. eapply triple_bind.
  - apply (triple_seen _ h0 _ _ (past_vm_ready h0 n)); [by intros h [[? _] _]|]. intros h [[_ Hl] Hr]. split_and!; [|done|done]. by intros m [= <-].
  - intros r. apply triple_if; intros Hr; [|apply triple_fail]. apply triple_ret. intros h [_ Hs]. apply Hs. split; [by exists n, guest|done].
Qed.

Lemma setupDarwin_triple h0 goarch stdin : triple (leave h0) (after h0) (setupDarwin goarch stdin) (λ _, since h0 (ran ["start"] stdin)).
Proof.
  unfold setupDarwin. pose proof (past_after h0) as Hp.
  eapply triple_bind; [apply (vm_free _ _ _ Hp), there_harmless|]. intros there. apply triple_if; intros _; [apply triple_fail|].
  eapply triple_bind; [apply (vm_free _ _ _ Hp); emits_go; by split_and!|]. intros [].
  eapply triple_bind; [apply (vm_free _ _ _ Hp), instance_harmless|]. intros n.
  eapply triple_bind; [apply exists_seen|]. intros ex.
  eapply triple_bind; [instantiate (1 := λ _, after h0); destruct ex|intros []].
  - eapply triple_bind; [apply (vm_running_seen _ _ _ (past_there h0 n)), after_there|]. intros running.
    eapply triple_weaken; [apply made_ready, started_seen; [apply past_there|apply after_there]|done|by intros _ h [[? _] _]].
  - apply (triple_bind _ _ _ (λ _, after h0)); [|intros []; apply (vm_free _ _ _ Hp), provision_harmless]. apply (triple_weaken _ (λ h, after h0 h ∧ since h0 (shows_unlisted n) h) _ _ (λ _, after h0)); [|done|done].
    apply triple_wrap; [by apply past_and, past_since|]. unfold perform. eapply triple_bind.
    + apply (triple_seen _ h0 _ _ ltac:(by apply past_and, past_since)); [by intros h [? _]|]. intros h [_ Hu]. split_and!; [done| |done]. by intros m [= <-].
    + intros r. apply triple_if; intros Hr; [|apply triple_fail]. by apply triple_ret; intros h [[? _] _].
  - eapply triple_bind; [apply (vm_free _ _ _ Hp), install_harmless|]. intros []. apply vm_forward_triple.
Qed.

(** On macOS the engine runs in a VM that is there and running: forwarding a command, and
    the setup too, run the engine only in an instance that was listed and was seen running or
    started; a VM is created only after the list did not show it, none is deleted, and
    each succeeds only when the given command (the start, for the setup) did. *)
Theorem setupDarwin_order goarch args stdin h o t :
  let ordered (t : history) :=
    ∀ pre a r post, t = pre ++ (a, r) :: post →
      (∀ n, engine_of a = Some n → (∃ e, e ∈ pre ∧ shows_listed n e) ∧ ∃ e, e ∈ pre ∧ shows_running n e)
      ∧ (∀ n, creating a = Some n → ∃ e, e ∈ pre ∧ shows_unlisted n e) ∧ deleting a = false in
  (runs (forwardStdin args stdin) h o t → ordered t ∧ (o = Ok tt → ∃ e, e ∈ t ∧ ran args stdin e))
  ∧ (runs (setupDarwin goarch stdin) h o t → ordered t ∧ (o = Ok tt → ∃ e, e ∈ t ∧ ran ["start"] stdin e)).
Proof.
  intros ordered.
  assert (∀ (m : prog unit) (Q : event → Prop), triple (leave h) (after h) m (λ _, since h Q) → runs m h o t → ordered t ∧ (o = Ok tt → ∃ e, e ∈ t ∧ Q e)) as Hgo.
  { intros m Q Hm Hr. destruct (Hm h o t ltac:(exists []; by rewrite app_nil_r) Hr) as [Hall Hok]. split.
    - intros pre a r post Heq. destruct (Hall _ _ _ _ Heq) as (H1 & H2 & H3). split_and!; [|by intros n Hn; apply (since_within h), H2|done].
      intros n Hn. destruct (H1 n Hn). split; by apply (since_within h).
    - intros Ho. by apply (since_within h), (Hok tt). }
  split; apply Hgo; [apply vm_forward_triple|apply setupDarwin_triple].
Qed.
End order.

(** ** The update's way into the VM (host_update_darwin.go)

    The engine's host for an update, with the instance's name resolved once. *)
Section update.
Context {W : World} {En : Env}.

Definition engine_prepare : prog string :=
  there ← lima_there;
  if negb there then fail (Errorf "Lima is required on macOS. Install it with `brew install lima`, then run `odb setup`" []) else
  name ← instance;
  exists_ ← instanceExists name;
  if negb exists_ then fail (Errorf "no OxynDB VM yet — run `odb setup` once to create it" []) else
  running ← instanceRunning name;
  _ ← when (negb running) (wrap "starting the VM: %w" [] (perform (start_instance name)));
  mret name.
(** The VM's CPU when it runs, else the Mac's. *)
Definition engine_arch (goarch : string) : prog string :=
  there ← lima_there;
  if negb there then mret goarch else
  name ← instance;
  running ← instanceRunning name;
  if (running : bool) then guestArch name else mret goarch.
Definition update_dest : string := "/tmp/odb-update".
Definition engine_stage (name local : string) : prog string :=
  _ ← perform (limactl ["copy"; local; name +:+ ":" +:+ update_dest +:+ ".new"] "");
  _ ← perform (limactl ["shell"; name; "--"; "sh"; "-c"; "chmod 0755 " +:+ update_dest +:+ ".new && mv -f " +:+ update_dest +:+ ".new " +:+ update_dest] "");
  mret update_dest.
Definition engine_installed (name : string) : prog string :=
  if negb (String.eqb (TrimSpace (getenv "OXYNDB_GUEST_BIN")) "")
  then fail (Errorf "OXYNDB_GUEST_BIN is set (a development setup) — unset it to update the installed engine" []) else
  p ← guestBin name;
  if String.eqb p "/tmp/odb"
  then fail (Errorf "the VM has no installed engine, only a development build at /tmp/odb — run `odb setup` first" []) else mret p.
Definition engine_command (name bin : string) (args : list string) : action :=
  limactl (["shell"; name; "--"; "env"; "OXYNDB_IN_GUEST=1"; "OXYNDB_NO_UPDATE_CHECK=1"; bin] ++ args) "".
Definition engine_run (name bin : string) (args : list string) : prog unit := perform (engine_command name bin args).
Definition engine_output (name bin : string) (args : list string) : prog (string * bool) :=
  r ← call (engine_command name bin args); mret (rout r, rok r).

(** What [engine_prepare] comes back with is an instance that was listed, and was seen
    running or started. *)
Lemma engine_prepare_ready h0 : triple (leave h0) (after h0) engine_prepare (λ n h, ready h0 n h).
Proof.
  unfold engine_prepare. pose proof (past_after h0) as Hp.
  eapply triple_bind; [apply (vm_free _ _ _ Hp), there_harmless|]. intros there. apply triple_if; intros _; [apply triple_fail|].
  eapply triple_bind; [apply (vm_free _ _ _ Hp), instance_harmless|]. intros n.
  eapply triple_bind; [apply exists_seen|]. intros [|]; [|apply triple_fail]. cbn [negb].
  eapply triple_bind; [apply (vm_running_seen _ _ _ (past_there h0 n)), after_there|]. intros running.
  eapply triple_bind; [apply made_ready, triple_wrap, started_seen; [apply past_there..|apply after_there]|]. intros []. by apply triple_ret.
Qed.
End update.

(** ** Examples *)

Module Sample.
#[export] Instance env : Env := {| getenv := λ _, ""; pgPass := ""; minioUser := ""; minioPass := ""; home_dir := None |}.
(** A machine with a stopped VM. *)
#[export] Instance mac : World := {| answer := λ _ x,
  if bool_decide (x = list_instances) then mkReply true ("default" +:+ str1 nl) "" 0
  else if bool_decide (x = list_status "default") then mkReply true ("Stopped" +:+ str1 nl) "" 0
  else mkReply true "/usr/local/bin/odb" "" 0 |}.

Example sizes : gib 4294967296 = "4 GiB" ∧ gib 107374182399 = "100 GiB" ∧ gib 1610612736 = "2 GiB" ∧ gib 536870912 = "0 GiB" ∧ gib 0 = "0 GiB".
Proof. vm_compute. done. Qed.

Lemma setupDarwin_order_witness :
  match forwardStdin ["branch"; "list"] "" [], setupDarwin "arm64" "" [] with
  | (Ok tt, t), (Ok tt, t') => (∃ e, e ∈ t ∧ ran ["branch"; "list"] "" e) ∧ ∃ e, e ∈ t' ∧ ran ["start"] "" e
  | _, _ => False
  end.
Proof.
  destruct (forwardStdin ["branch"; "list"] "" []) as [o t] eqn:Hf. destruct (setupDarwin "arm64" "" []) as [o' t'] eqn:Hs.
  assert (o = Ok tt) as -> by (vm_compute in Hf; by injection Hf as <- _). assert (o' = Ok tt) as -> by (vm_compute in Hs; by injection Hs as <- _).
  split.
  - by apply (proj1 (setupDarwin_order "arm64" ["branch"; "list"] "" [] (Ok tt) t) Hf).
  - by apply (proj2 (setupDarwin_order "arm64" ["start"] "" [] (Ok tt) t') Hs).
Defined.
End Sample.
