(* ===== verification/Blackbox.v ===== *)
(** * The Blackbox on a branch: checkpoints, integrity, diffs (internal/branch/checkpoint.go, diff.go, ledger_entries.go)

    How the ledger of a branch is read, anchored in files outside the database
    and checked against them, and how two branches' histories are compared. The
    hash chain and the anchors themselves are Integrity's. *)
From S2P Require Import Prelude GoStrings GoNum GoTime GoTimeParse GoSort GoPath Sql Json Integrity Effects Storage Container.
From S2P Require Branch.

Open Scope string_scope.
Open Scope list_scope.

(** ** Ledger rows as JSON lines *)

Definition text (p : option string) : string := default "" p.

Definition decode_row (m : list (string * json)) : option (Z * string * (time → Row)) :=
  id ← field as_int 0%Z "id" m;
  at_ ← field as_string "" "at" m;
  actor ← pointer as_string "actor" m;
  kind ← pointer as_string "actor_kind" m;
  tool ← pointer as_string "tool" m;
  session ← pointer as_string "session" m;
  branch ← pointer as_string "branch" m;
  tag ← pointer as_string "command_tag" m;
  otype ← pointer as_string "object_type" m;
  oid ← pointer as_string "object_identity" m;
  stmt ← pointer as_string "statement" m;
  status ← pointer as_string "status" m;
  risk ← pointer as_string "risk" m;
  prev ← pointer as_string "prev_hash" m;
  row ← pointer as_string "row_hash" m;
  ext ← pointer as_string "ext_hash" m;
  Some (id, at_, λ t, mkRow id t (text actor) (text kind) (text tool) (text session) (text branch) (text tag)
    (text otype) (text oid) (text stmt) (text status) (text risk) (text prev) (text row) (text ext)).

Definition DecodeRowJSON (line : string) : outcome error Row :=
  match (j ← json_parse line; m ← as_object j; decode_row m) with
  | None => Err (Errorf "invalid ledger row" [line])
  | Some (id, at_, make) =>
      match time_parse rfc3339nano at_ with
      | None => Err (Errorf "ledger id %d: bad timestamp %q" [format_int id; at_])
      | Some t => Ok (make t)
      end
  end.

Definition rowColumns : string :=
  "s.id, s.at, s.actor, s.actor_kind, s.tool, s.session, s.branch, s.command_tag, " +:+
  "s.object_type, s.object_identity, s.statement, s.status, s.risk, s.prev_hash, s.row_hash".

Definition RowsQuery (withExt : bool) (where_ : string) : string :=
  let '(ext, join) := if withExt then ("e.ext_hash", " LEFT JOIN odb.ledger_ext e ON e.ledger_id = s.id")
                      else ("NULL::text AS ext_hash", "") in
  "SELECT row_to_json(x)::text FROM (SELECT " +:+ rowColumns +:+ ", " +:+ ext +:+
    " FROM odb.schema_ledger s" +:+ join +:+ " " +:+ where_ +:+ " ORDER BY s.id) x".

Definition ExportQuery (withExt : bool) : string :=
  if negb withExt then RowsQuery false "" else
  "SELECT row_to_json(x)::text FROM (SELECT " +:+ rowColumns +:+
    ", e.ext_hash, e.xid, e.lsn, e.task_id, e.parent_session, e.call_hash, e.override_used" +:+
    " FROM odb.schema_ledger s LEFT JOIN odb.ledger_ext e ON e.ledger_id = s.id ORDER BY s.id) x".

(** The JSON lines among a query's lines, decoded one by one; the first error ends it. *)
Fixpoint decode_lines {A} (decode : string → outcome error A) (lines : list string) : outcome error (list A) :=
  match lines with
  | [] => Ok []
  | l :: t =>
      if negb (HasPrefix l "{") then decode_lines decode t else
      a ← decode l; rest ← decode_lines decode t; Ok (a :: rest)
  end.

(** ** Names *)

Definition ErrInvalidRequest : error := Errorf "invalid request" [].

Definition ledgerBranchName (name : string) : outcome error string :=
  let name := or_main name in
  if String.eqb name "." || String.eqb name ".." || has_byte "/" name || has_byte "\" name
  then Err (Errorf "invalid branch name %q" [name]) else Ok name.

(** ** Anchor files *)

(** time.Time's JSON form of a UTC time. *)
Definition json_time (t : time) : string := str1 dquote +:+ format_rfc3339nano t +:+ str1 dquote.

Definition anchor_fields (a : Anchor) : list (string * string) :=
  [("format", json_string (Format a)); ("algorithm", json_string (Algorithm a)); ("branch", json_string (ABranch a));
   ("checkpoint_id", format_int (CheckpointID a)); ("from_id", format_int (FromID a)); ("to_id", format_int (ToID a));
   ("entry_count", format_int (EntryCount a)); ("last_row_hash", json_string (LastRowHash a));
   ("merkle_root", json_string (AMerkleRoot a)); ("prev_root", json_string (PrevRoot a)); ("created_at", json_time (CreatedAt a))].

(** json.MarshalIndent with two blanks, and a final newline. *)
Definition anchor_json (a : Anchor) : string := json_indent (anchor_fields a) +:+ str1 nl.

Definition decode_time (j : json) : option time := s ← as_string j; time_parse rfc3339nano s.

Definition decode_anchor (j : json) : option Anchor :=
  m ← as_object j;
  format ← field as_string "" "format" m;
  algorithm ← field as_string "" "algorithm" m;
  branch ← field as_string "" "branch" m;
  cid ← field as_int 0%Z "checkpoint_id" m;
  from ← field as_int 0%Z "from_id" m;
  to ← field as_int 0%Z "to_id" m;
  count ← field as_int 0%Z "entry_count" m;
  last_ ← field as_string "" "last_row_hash" m;
  root ← field as_string "" "merkle_root" m;
  prev ← field as_string "" "prev_root" m;
  created ← field decode_time (- 62135596800 * second)%Z "created_at" m;
  Some (mkAnchor format algorithm branch cid from to count last_ root prev created).

Section blackbox.
Context {W : World} {En : Env}.

Definition AnchorDir (name : string) : string :=
  let base := TrimSpace (getenv "OXYNDB_ANCHOR_DIR") in
  let home := user_home in
  let base := if String.eqb base "" then JoinPath [home; ".oxyndb"; "anchors"] else base in
  JoinPath [base; name].

Definition anchor_path (dir : string) (a : Anchor) : string := JoinPath [dir; AnchorFileName (ToID a)].

Definition WriteAnchor (dir : string) (a : Anchor) : prog string :=
  _ ← perform (MkdirAll dir);
  let path := anchor_path dir a in
  there ← succeeds (CallOut "os.Lstat" [path]);
  if (there : bool) then fail (Errorf "anchor %s already exists" [path]) else
  let tmp := path +:+ ".tmp" in
  _ ← ignore (Remove tmp);
  _ ← perform (WriteFile tmp (anchor_json a) 384);
  c ← attempt (perform (CallOut "os.Chmod" [tmp; "0444"]));
  match c with
  | inr e => _ ← ignore (Remove tmp); fail e
  | inl _ =>
      r ← attempt (perform (Rename tmp path));
      match r with
      | inr e => _ ← ignore (Remove tmp); fail e
      | inl _ => mret path
      end
  end.

(** The directory's entries are the lines of the reply, in ReadDir's order,
    directories ending in a slash. *)
Fixpoint load_anchors (dir : string) (entries : list string) : prog (list Anchor) :=
  match entries with
  | [] => mret []
  | n :: t =>
      if HasSuffix n "/" || negb (HasSuffix n ".json") then load_anchors dir t else
      let a := ReadFile (JoinPath [dir; n]) in
      r ← call a;
      if negb (rok r) then fail (CommandFailed a) else
      match json_parse (rout r) ≫= decode_anchor with
      | None => fail (Errorf "anchor %s: %w" [n])
      | Some an => rest ← load_anchors dir t; mret (an :: rest)
      end
  end.

Definition LoadAnchors (dir : string) : prog (list Anchor) :=
  let a := ReadDir dir in
  r ← call a;
  if negb (rok r) then (if (rnum r =? 1)%Z then mret [] else fail (CommandFailed a))
  else load_anchors dir (output_lines (rout r)).

(** ** Reading a branch's ledger *)

Definition ledgerV2Tables (name : string) : prog (bool * bool) :=
  lines ← ledgerLines name ("SELECT (to_regclass('odb.ledger_ext') IS NOT NULL)::text || '|' || " +:+
    "(to_regclass('odb.ledger_checkpoints') IS NOT NULL)::text");
  match lines with
  | [] => fail (Errorf "no answer from branch %q" [name])
  | l :: _ =>
      let f := Split "|" l in
      mret (String.eqb (nth 0 f "") "true", String.eqb (nth 1 f "") "true")
  end.

Definition loadLedgerRows (name : string) (withExt : bool) (where_ : string) : prog (list Row) :=
  lines ← ledgerLines name (RowsQuery withExt where_); lift (decode_lines DecodeRowJSON lines).

Definition lastCheckpoint (name : string) : prog (Z * string) :=
  lines ← ledgerLines name ("SELECT coalesce((SELECT to_id::text || '|' || merkle_root " +:+
    "FROM odb.ledger_checkpoints ORDER BY to_id DESC LIMIT 1), '0|')");
  match lines with
  | [] => mret (0%Z, "")
  | l :: _ =>
      let f := Split2 "|" l in
      match atoi (nth 0 f "") with
      | Some to => mret (to, nth 1 f "")
      | None => fail (Errorf "reading the last checkpoint: %q" [l])
      end
  end.

(** ** Checkpoints *)

(** The last row up to the previous checkpoint, and the rows after it. *)
Definition pred_row (lastTo : Z) (rows : list Row) : option Row := last (filter (λ r, (ID r <= lastTo)%Z) rows).
Definition fresh_rows (lastTo : Z) (rows : list Row) : list Row := filter (λ r, (lastTo < ID r)%Z) rows.

Definition checkpoint_where (lastTo : Z) : string :=
  "WHERE s.id > " +:+ format_int lastTo +:+ " OR s.id = (SELECT max(id) FROM odb.schema_ledger WHERE id <= "
    +:+ format_int lastTo +:+ " AND row_hash IS NOT NULL)".

Definition insert_checkpoint (a : Anchor) (path : string) : string := lines_of
  ["INSERT INTO odb.ledger_checkpoints";
   "  (from_id, to_id, entry_count, last_row_hash, merkle_root, prev_root, algorithm, anchor_uri)";
   "  VALUES (" +:+ Join ", " [format_int (FromID a); format_int (ToID a); format_int (EntryCount a);
      quoteLiteral (LastRowHash a); quoteLiteral (AMerkleRoot a); quoteLiteral (PrevRoot a);
      quoteLiteral (Algorithm a); quoteLiteral path] +:+ ") RETURNING id"].

Definition with_id (a : Anchor) (id : Z) : Anchor :=
  mkAnchor (Format a) (Algorithm a) (ABranch a) id (FromID a) (ToID a) (EntryCount a) (LastRowHash a) (AMerkleRoot a)
    (PrevRoot a) (CreatedAt a).

(** The chain's problem in words. *)
Definition problem_text (p : problem) : string :=
  match p with
  | Edited id => "ledger id " +:+ format_int id +:+ ": its contents no longer match its hash (edited)"
  | LinkBroken id => "ledger id " +:+ format_int id +:+ ": chain link broken (an earlier row was removed or rewritten)"
  | _ => ""
  end.

Definition build_error_of (e : build_error) : error :=
  match e with
  | NoRows => Errorf "no ledger rows to checkpoint" []
  | NotAscending from id => Errorf "rows must have ascending ids starting at or after %d (row %d)" [format_int from; format_int id]
  end.

(** Recording and writing an anchor that has been built. *)
Definition store_anchor (name : string) (a : Anchor) : prog (Anchor * string) :=
  let dir := AnchorDir name in
  let path := anchor_path dir a in
  lines ← wrap "recording the checkpoint: %w" [] (ledgerLines name (insert_checkpoint a path));
  match lines with
  | [] => fail (Errorf "recording the checkpoint: no id returned" [])
  | l :: _ =>
      match atoi l with
      | None => fail (Errorf "recording the checkpoint: unexpected id %q" [l])
      | Some id =>
          let a := with_id a id in
          _ ← wrap "checkpoint %d was recorded but its anchor could not be written: %w" [format_int id] (WriteAnchor dir a);
          _ ← when (truthyEnv "OXYNDB_ANCHOR_IMMUTABLE") (ignore (sudo ["chattr"; "+i"; path]));
          mret (a, path)
      end
  end.

Definition Checkpoint (name : string) : prog (option (Anchor * string)) :=
  name ← lift (ledgerBranchName name);
  '(withExt, hasCheckpoints) ← ledgerV2Tables name;
  if negb hasCheckpoints
  then fail (Errorf "ledger checkpoints are not installed on %q — run: odb ledger upgrade %s" [name; name]) else
  '(lastTo, prevRoot) ← lastCheckpoint name;
  rows ← loadLedgerRows name withExt (checkpoint_where lastTo);
  let fresh := fresh_rows lastTo rows in
  match fresh with
  | [] => mret None
  | _ =>
      match CheckChain (pred_row lastTo rows) fresh with
      | Ok _ =>
          now ← call Now;
          match BuildAnchor name (lastTo + 1) prevRoot fresh (rnum now) with
          | Ok a => r ← store_anchor name a; mret (Some r)
          | Err e => fail (build_error_of e)
          | Panic w => raise w
          end
      | Err p => fail (Errorf "not anchoring %q: %v — inspect with: odb ledger integrity %s" [name; problem_text p; name])
      | Panic w => raise w
      end
  end.

Definition lift_never {A} (o : outcome Empty_set A) : prog A :=
  match o with Ok a => mret a | Err e => match e with end | Panic w => raise w end.

(** The report, and the notes this adds to it. *)
Definition Integrity (name : string) : prog (Report * list string) :=
  name ← lift (ledgerBranchName name);
  '(withExt, hasCheckpoints) ← ledgerV2Tables name;
  rows ← loadLedgerRows name withExt "";
  let dir := AnchorDir name in
  anchors ← LoadAnchors dir;
  rep ← lift_never (Integrity.Verify rows anchors);
  if negb hasCheckpoints
  then mret (rep, ["ledger checkpoints are not installed on this branch — run: odb ledger upgrade " +:+ name]) else
  lines ← attempt (ledgerLines name "SELECT count(*) FROM odb.ledger_checkpoints");
  mret (rep, match lines with
             | inl (l :: _) =>
                 if (atoi_value l =? Z.of_nat (List.length anchors))%Z then []
                 else ["the database lists " +:+ format_int (atoi_value l) +:+ " checkpoint(s); "
                       +:+ format_int (Z.of_nat (List.length anchors)) +:+ " anchor file(s) are in " +:+ dir
                       +:+ " — the anchor files are the source of truth"]
             | _ => []
             end).

(** What is written out, line by line. *)
Definition ExportLedger (name : string) (w : string) : prog unit :=
  name ← lift (ledgerBranchName name);
  '(withExt, _) ← ledgerV2Tables name;
  lines ← ledgerLines name (ExportQuery withExt);
  for_each (λ l, when (HasPrefix l "{") (perform (CallOut "io.WriteString" [w; l +:+ str1 nl]))) lines.

Definition pendingCheckpointRows (name : string) : prog Z :=
  '(_, hasCheckpoints) ← ledgerV2Tables name;
  if negb hasCheckpoints then mret (-1)%Z else
  lines ← ledgerLines name ("SELECT count(*) FROM odb.schema_ledger WHERE id > " +:+
    "(SELECT coalesce(max(to_id), 0) FROM odb.ledger_checkpoints)");
  match lines with
  | [] => mret (-1)%Z
  | l :: _ => match atoi l with Some n => mret n | None => fail (Errorf "strconv.Atoi" [l]) end
  end.

(** The checkpointer's look at one branch: [last] is when it last anchored it, if
    it did; the result is the new such time. *)
Definition checkpoint_due (interval threshold pending : Z) (now : time) (last_ : option time) : bool :=
  (0 <? pending)%Z && negb ((pending <? threshold)%Z && match last_ with Some t => (time_sub now t <? interval)%Z | None => false end).

Definition checkpoint_branch (interval threshold : Z) (last_ : gmap string time) (n : string) : prog (gmap string time) :=
  pending ← attempt (pendingCheckpointRows n);
  match pending with
  | inr _ => mret last_
  | inl pending =>
      now ← call Now;
      if negb (checkpoint_due interval threshold pending (rnum now) (last_ !! n)) then mret last_ else
      now ← call Now;
      _ ← attempt (Checkpoint n);
      mret (<[n := rnum now]> last_)
  end.

Fixpoint checkpoint_round (interval threshold : Z) (last_ : gmap string time) (names : list string) : prog (gmap string time) :=
  match names with
  | [] => mret last_
  | n :: t => l ← checkpoint_branch interval threshold last_ n; checkpoint_round interval threshold l t
  end.

(** ** Listing entries *)

Record LedgerEntry : Type := mkEntry {
  EID : Z; EAt : string; EActor : string; ECommandTag : string; EObject : string; EStatus : string; ERisk : string }.

Definition entriesQuery (limit : Z) : string := lines_of
  ["SELECT json_build_object('id', id,";
   "  'at', to_char(at AT TIME ZONE 'UTC', 'YYYY-MM-DD" +:+ str1 dquote +:+ "T" +:+ str1 dquote +:+ "HH24:MI:SS"
     +:+ str1 dquote +:+ "Z" +:+ str1 dquote +:+ "'),";
   "  'actor', coalesce(actor, ''), 'command_tag', coalesce(command_tag, ''),";
   "  'object_identity', coalesce(object_identity, ''), 'status', coalesce(status, ''), 'risk', coalesce(risk, ''))";
   "FROM odb.schema_ledger ORDER BY id DESC LIMIT " +:+ format_int limit].

Definition decode_entry (j : json) : option LedgerEntry :=
  m ← as_object j;
  id ← field as_int 0%Z "id" m; at_ ← field as_string "" "at" m; actor ← field as_string "" "actor" m;
  tag ← field as_string "" "command_tag" m; obj ← field as_string "" "object_identity" m;
  status ← field as_string "" "status" m; risk ← field as_string "" "risk" m;
  Some (mkEntry id at_ actor tag obj status risk).

Definition decode_with {A} (what : string) (decode : json → option A) (l : string) : outcome error A :=
  match json_parse l ≫= decode with Some a => Ok a | None => Err (Errorf what [l]) end.

Definition clamp_limit (default_ limit : Z) : Z :=
  let limit := if (limit <=? 0)%Z then default_ else limit in
  if (1000 <? limit)%Z then 1000%Z else limit.

Definition LedgerEntries (name : string) (limit : Z) : prog (list LedgerEntry) :=
  name ← lift (ledgerBranchName name);
  lines ← ledgerLines name (entriesQuery (clamp_limit 50 limit));
  lift (decode_lines (decode_with "reading ledger entries" decode_entry) lines).

End blackbox.

(** ** Diffs *)

Record DiffEntry : Type := mkDiffEntry {
  DID : Z; DAt : string; DActor : string; DCommandTag : string; DObject : string; DStatus : string }.
Record DiffOverlap : Type := mkOverlap { Object : string; AEntries : list Z; BEntries : list Z }.
Record LedgerDiff : Type := mkDiff {
  DA : string; DB : string; AParent : string; BParent : string; CommonEntries : Z; ForkAfterID : Z; ForkAfterAt : string;
  AOnly : list DiffEntry; BOnly : list DiffEntry; BothTouched : list DiffOverlap }.

Definition diffEntry (r : Row) : DiffEntry :=
  mkDiffEntry (ID r) (format_rfc3339 (At r)) (Actor r) (CommandTag r) (ObjectIdentity r) (Status r).

Definition same_entry (x y : Row) : bool := (ID x =? ID y)%Z && String.eqb (RowHash x) (RowHash y).

Fixpoint common (a b : list Row) : nat :=
  match a, b with
  | x :: a, y :: b => if same_entry x y then S (common a b) else O
  | _, _ => O
  end.

(** A change that happened to a named object. *)
Definition touches (r : Row) : bool := negb (String.eqb (ObjectIdentity r) "") && negb (String.eqb (Status r) "BLOCKED").

Definition touched (rows : list Row) : gmap string (list Z) :=
  foldl (λ m r, if touches r then <[ObjectIdentity r := default [] (m !! ObjectIdentity r) ++ [ID r]]> m else m) ∅ rows.

Definition overlap (tb : gmap string (list Z)) (kv : string * list Z) : option DiffOverlap :=
  match tb !! fst kv with Some other => Some (mkOverlap (fst kv) (snd kv) other) | None => None end.

Definition object_less (x y : DiffOverlap) : bool := str_lt (Object x) (Object y).

Definition buildDiff (aName bName : string) (a b : list Row) : LedgerDiff :=
  let n := common a b in
  let fork := last (take n a) in
  mkDiff aName bName "" "" (Z.of_nat n)
    (match fork with Some r => ID r | None => 0%Z end)
    (match fork with Some r => format_rfc3339 (At r) | None => "" end)
    (diffEntry <$> drop n a) (diffEntry <$> drop n b)
    (sort_slice object_less (omap (overlap (touched (drop n b))) (map_to_list (touched (drop n a))))).

(** ** Where a branch was cloned from (impact.go) *)

(** "oxyndb/branches/main@for-qa" is main. *)
Definition parentFromZFSOrigin (origin : string) : string :=
  let origin := TrimSpace origin in
  match strip_prefix (datasetBase +:+ "/") origin with
  | None => ""
  | Some rest =>
      let rest := match cut_byte "@" rest with Some (r, _) => r | None => rest end in
      if String.eqb rest "" || has_byte "/" rest then "" else rest
  end.

Fixpoint parent_uuid (lines : list string) : string :=
  match lines with
  | [] => ""
  | l :: t =>
      match strip_prefix "Parent UUID:" (TrimSpace l) with
      | Some v => let v := TrimSpace v in if String.eqb v "-" then "" else v
      | None => parent_uuid t
      end
  end.
Definition parentUUIDFromShow (show : string) : string := parent_uuid (Split nl show).

(** After "path" among the words, what follows it (if anything does). *)
Fixpoint after_path (f : list string) : option string :=
  match f with
  | w :: t => match t with
              | [] => None
              | _ => if String.eqb w "path" then Some (Base (Join " " t)) else after_path t
              end
  | [] => None
  end.
Fixpoint after_uuid (uuid : string) (f : list string) : option string :=
  match f with
  | w :: t => match t with
              | v :: u => if String.eqb w "uuid" && String.eqb v uuid
                          then match after_path u with Some p => Some p | None => after_uuid uuid t end
                          else after_uuid uuid t
              | [] => None
              end
  | [] => None
  end.
Fixpoint subvolume_line (uuid : string) (lines : list string) : string :=
  match lines with
  | [] => ""
  | l :: t => match after_uuid uuid (Fields l) with Some p => p | None => subvolume_line uuid t end
  end.
Definition subvolumeByUUID (list_ uuid : string) : string := subvolume_line uuid (Split nl list_).

Section parents.
Context {W : World} {En : Env}.

Definition BranchParent (name : string) : prog string :=
  if String.eqb (st_name activeStorage) "zfs" then
    '(out, ok) ← capture ["zfs"; "get"; "-H"; "-o"; "value"; "origin"; dataset name];
    mret (if (ok : bool) then parentFromZFSOrigin out else "")
  else
    '(show, ok) ← capture ["btrfs"; "subvolume"; "show"; btrfsSubvol name];
    if negb ok then mret "" else
    let uuid := parentUUIDFromShow show in
    if String.eqb uuid "" then mret "" else
    '(list_, ok) ← capture ["btrfs"; "subvolume"; "list"; "-u"; btrfsMount];
    mret (if (ok : bool) then subvolumeByUUID list_ uuid else "").

Definition read_history (n : string) : prog (list Row) :=
  _ ← Branch.EnsureRunning n;
  wrap "reading %q's Blackbox: %w" [n] (loadLedgerRows n false "").

Definition DiffLedgers (a b : string) : prog LedgerDiff :=
  a ← lift (ledgerBranchName a);
  b ← lift (ledgerBranchName b);
  ra ← read_history a;
  rb ← (if String.eqb b a then mret ra else read_history b);
  let d := buildDiff a b ra rb in
  pa ← BranchParent a;
  pb ← BranchParent b;
  mret (mkDiff (DA d) (DB d) pa pb (CommonEntries d) (ForkAfterID d) (ForkAfterAt d) (AOnly d) (BOnly d) (BothTouched d)).

End parents.

(** ** What a diff shows *)

(** The ids of the changes that happened to [obj], in order. *)
Definition changes_of (obj : string) (rows : list Row) : list Z :=
  ID <$> filter (λ r, touches r = true ∧ ObjectIdentity r = obj) rows.

Lemma touched_lookup rows obj :
  touched rows !! obj = match changes_of obj rows with [] => None | l => Some l end.
Proof.
  unfold touched, changes_of. induction rows as [|r rows IH] using rev_ind; [apply lookup_empty|].
  rewrite foldl_snoc, filter_app, fmap_app. destruct (touches r) eqn:Ht.
  - destruct (decide (ObjectIdentity r = obj)) as [<-|Hne].
    + rewrite lookup_insert_eq, filter_cons_True by done. cbn [filter fmap list_fmap].
      rewrite IH. by destruct (ID <$> filter _ rows).
    + rewrite lookup_insert_ne, IH by done. rewrite filter_cons_False; [by rewrite app_nil_r|]. by intros [_ ?].
  - rewrite IH, filter_cons_False; [by rewrite app_nil_r|]. intros [? _]. congruence.
Qed.

Lemma nonempty_some (l x : list Z) : match l with [] => None | y :: t => Some (y :: t) end = Some x ↔ x = l ∧ x ≠ [].
Proof.
  destruct l as [|y l].
  - split; [done|]. by intros [-> ?].
  - split; [by intros [= <-]|]. by intros [-> _].
Qed.

Lemma common_split a b :
  let n := common a b in
  Forall2 (λ x y, ID x = ID y ∧ RowHash x = RowHash y) (take n a) (take n b)
  ∧ match drop n a, drop n b with
    | x :: _, y :: _ => ¬ (ID x = ID y ∧ RowHash x = RowHash y)
    | _, _ => True
    end.
Proof.
  revert b. induction a as [|x a IH]; intros [|y b]; cbn; try (split; [constructor|done]).
  destruct (same_entry x y) eqn:Hs; cbn.
  - destruct (IH b) as [H1 H2]. unfold same_entry in Hs. apply andb_true_iff in Hs as [Hid Hh%String.eqb_eq].
    split; [constructor; [split; [lia|done]|done]|done].
  - split; [constructor|]. intros [Hid Hh]. unfold same_entry in Hs. rewrite Hid, Hh, Z.eqb_refl, String.eqb_refl in Hs. done.
Qed.

Lemma object_less_trans x y z : object_less y x = false → object_less z y = false → object_less z x = false.
Proof.
  unfold object_less. intros Hyx Hzy. apply not_true_iff_false. intros Hzx.
  destruct (decide (Object y = Object z)) as [He|Hne]; [congruence|].
  rewrite (str_lt_total (Object z) (Object y)) in Hzy by done. apply negb_false_iff in Hzy.
  rewrite (str_lt_trans _ _ _ Hzy Hzx) in Hyx. done.
Qed.

Lemma object_less_asym x y : object_less x y = true → object_less y x = false.
Proof.
  unfold object_less. intros Hxy. apply not_true_iff_false. intros Hyx.
  pose proof (str_lt_trans _ _ _ Hxy Hyx) as Hxx. by rewrite str_lt_irrefl in Hxx.
Qed.

Lemma overlaps_in ta tb o :
  o ∈ omap (overlap tb) (map_to_list ta) ↔ ta !! Object o = Some (AEntries o) ∧ tb !! Object o = Some (BEntries o).
Proof.
  rewrite list_elem_of_omap. unfold overlap. split.
  - intros ([k v] & Hin%elem_of_map_to_list & Ho). cbn in Ho. destruct (tb !! k) eqn:Hk; [|done]. by injection Ho as <-.
  - intros [Ha Hb]. exists (Object o, AEntries o). split; [by apply elem_of_map_to_list|]. cbn. rewrite Hb. by destruct o.
Qed.

Lemma overlaps_objects ta tb : NoDup (Object <$> omap (overlap tb) (map_to_list ta)).
Proof.
  pose proof (NoDup_fst_map_to_list ta) as Hnd. revert Hnd. generalize (map_to_list ta). intros l.
  induction l as [|[k v] l IH]; cbn; [constructor|]. intros [Hk Hl]%NoDup_cons.
  unfold overlap at 1. cbn. destruct (tb !! k) eqn:Htb; [|by apply IH]. cbn. apply NoDup_cons. split; [|by apply IH].
  contradict Hk. apply list_elem_of_fmap in Hk as (o & -> & Ho). apply list_elem_of_omap in Ho as ([k' v'] & Hin & Ho).
  unfold overlap in Ho. cbn in Ho. destruct (tb !! k'); [|done]. injection Ho as <-. cbn.
  apply list_elem_of_fmap. by exists (k', v').
Qed.

(** C35. A diff is exact: the shared part is the longest prefix on which both
    histories have the same ids and the same recomputed hashes; what follows it
    on each side is listed in full and in order; and the overlap lists, in strict
    order of the object's name, precisely the objects that changes after the fork
    touched on both sides, with the ids of those changes, blocked ones left out. *)
Theorem buildDiff_spec aName bName a b :
  let d := buildDiff aName bName a b in
  ∃ n, CommonEntries d = Z.of_nat n ∧ (n <= List.length a)%nat ∧ (n <= List.length b)%nat
  ∧ Forall2 (λ x y, ID x = ID y ∧ RowHash x = RowHash y) (take n a) (take n b)
  ∧ (match drop n a, drop n b with
     | x :: _, y :: _ => ¬ (ID x = ID y ∧ RowHash x = RowHash y)
     | _, _ => True
     end)
  ∧ ForkAfterID d = match last (take n a) with Some r => ID r | None => 0%Z end
  ∧ AOnly d = diffEntry <$> drop n a ∧ BOnly d = diffEntry <$> drop n b
  ∧ StronglySorted (λ x y, str_lt (Object x) (Object y) = true) (BothTouched d)
  ∧ ∀ o, o ∈ BothTouched d ↔
      AEntries o = changes_of (Object o) (drop n a) ∧ AEntries o ≠ [] ∧
      BEntries o = changes_of (Object o) (drop n b) ∧ BEntries o ≠ [].
Proof.
  intros d. exists (common a b). split; [done|]. destruct (common_split a b) as [Hpre Hnext].
  assert (common a b <= List.length a ∧ common a b <= List.length b)%nat as [Ha Hb].
  { clear. revert b. induction a as [|x a IH]; intros [|y b]; cbn; try lia. destruct (same_entry x y); [|lia].
    specialize (IH b). lia. }
  do 4 (split; [done|]). split; [done|]. split; [done|]. split; [done|].
  set (ta := touched (drop (common a b) a)). set (tb := touched (drop (common a b) b)).
  assert (BothTouched d ≡ₚ omap (overlap tb) (map_to_list ta)) as Hperm by apply sort_slice_perm.
  split.
  - pose proof (sort_slice_sorted object_less object_less_trans object_less_asym (omap (overlap tb) (map_to_list ta))) as Hs.
    change (sort_slice object_less (omap (overlap tb) (map_to_list ta))) with (BothTouched d) in Hs.
    assert (NoDup (Object <$> BothTouched d)) as Hnd by (rewrite Hperm; apply overlaps_objects).
    clear -Hs Hnd. induction Hs as [|x l Hs IH Hf]; [constructor|]. rewrite fmap_cons, NoDup_cons in Hnd. destruct Hnd as [Hx Hl].
    constructor; [by apply IH|]. rewrite Forall_forall in Hf |- *. intros y Hy. specialize (Hf y Hy).
    unfold le_of, object_less in Hf. rewrite str_lt_total; [by rewrite Hf|]. intros He. apply Hx. rewrite He.
    by apply list_elem_of_fmap_2.
  - intros o. rewrite Hperm, overlaps_in. unfold ta, tb. rewrite !touched_lookup, !nonempty_some. tauto.
Qed.

(** ** What a checkpoint writes *)

Section checkpoint_props.
Context {W : World} {En : Env}.

Definition no_file (a : action) : Prop := match a with WriteFile _ _ _ | Rename _ _ => False | _ => True end.

(** The only files written are [a]'s, through a temporary file next to it. *)
Definition anchor_action (dir : string) (a : Anchor) (x : action) : Prop :=
  match x with
  | WriteFile p data mode => p = anchor_path dir a +:+ ".tmp" ∧ mode = 384%Z ∧ ∃ id, data = anchor_json (with_id a id)
  | Rename src dst => src = anchor_path dir a +:+ ".tmp" ∧ dst = anchor_path dir a
  | _ => True
  end.

Definition is_rename (a : action) : Prop := match a with Rename _ _ => True | _ => False end.

Lemma ledgerLines_no_file name sql : emits no_file (ledgerLines name sql).
Proof. unfold ledgerLines. emits_go. done. Qed.
#[local] Hint Resolve ledgerLines_no_file : emits.

Lemma WriteAnchor_action dir a id : emits (anchor_action dir a) (WriteAnchor dir (with_id a id)).
Proof. unfold WriteAnchor. cbv zeta. emits_go; cbn; repeat split; by eexists. Qed.

Lemma no_file_anchor dir a x : no_file x → anchor_action dir a x.
Proof. by destruct x. Qed.

Lemma store_anchor_action name a : emits (anchor_action (AnchorDir name) a) (store_anchor name a).
Proof.
  unfold store_anchor, wrap. cbv zeta. emits_go; try (by apply WriteAnchor_action); try done.
  eapply emits_mono; [intros x; apply no_file_anchor|apply ledgerLines_no_file].
Qed.

Lemma store_anchor_result name a h r t :
  runs (store_anchor name a) h (Ok r) t → ∃ id, r = (with_id a id, anchor_path (AnchorDir name) a).
Proof.
  unfold store_anchor. cbv zeta. intros (lines & t1 & t2 & _ & Hrun & _)%runs_bind_ok.
  destruct lines as [|l ls]; [by apply runs_lift in Hrun as [[=] _]|].
  destruct (atoi l) as [id|]; [|by apply runs_lift in Hrun as [[=] _]].
  apply runs_bind_ok in Hrun as (x & t3 & t4 & _ & Hrun & _).
  apply runs_bind_ok in Hrun as (y & t5 & t6 & _ & Hrun & _).
  apply runs_ret in Hrun as [[= ->] _]. by exists id.
Qed.

(** A file is renamed onto the anchor's name only after that name was free. *)
Lemma WriteAnchor_free dir a h o t :
  runs (WriteAnchor dir a) h o t → Exists (λ e, is_rename e.1) t →
  ∃ r, (CallOut "os.Lstat" [anchor_path dir a], r) ∈ t ∧ rok r = false.
Proof.
  unfold WriteAnchor. cbv zeta. intros Hrun Hren.
  apply (runs_after (λ x, ¬ is_rename x)) in Hrun; [|by apply emits_perform; intros []].
  destruct Hrun as [[Hno _]|(x & t1 & t2 & -> & Hno & _ & Hrun)].
  { exfalso. apply Exists_exists in Hren as (e & Hin & He). rewrite Forall_forall in Hno. by apply (Hno e). }
  apply runs_bind in Hrun as [(there & t3 & t4 & Hl & Hrun & ->)|[(e & He & _)|(w & Hw & _)]];
    [|by apply runs_succeeds in He as [[=] _]|by apply runs_succeeds in Hw as [[=] _]].
  apply runs_succeeds in Hl as [[= ->] ->]. destruct (rok (answer _ _)) eqn:Hok.
  { exfalso. apply runs_lift in Hrun as [_ ->]. apply Exists_app in Hren as [Hren|Hren].
    - apply Exists_exists in Hren as (e & Hin & He). rewrite Forall_forall in Hno. by apply (Hno e).
    - apply Exists_exists in Hren as (e & Hin & He). rewrite app_nil_r in Hin.
      apply list_elem_of_singleton in Hin. by subst e. }
  eexists. split; [|exact Hok]. apply elem_of_app. right. apply elem_of_app. left. by apply list_elem_of_singleton.
Qed.

Lemma no_rename t : Forall (λ e : event, no_file e.1) t → ¬ Exists (λ e : event, is_rename e.1) t.
Proof.
  intros Hno (e & Hin & He)%Exists_exists. rewrite Forall_forall in Hno. specialize (Hno e Hin).
  by destruct e as [[] r].
Qed.

(** If [t] renames, the anchor's name was seen free. *)
Definition seen_free (dir : string) (a : Anchor) (t : history) : Prop :=
  Exists (λ e, is_rename e.1) t → ∃ r, (CallOut "os.Lstat" [anchor_path dir a], r) ∈ t ∧ rok r = false.

Lemma seen_free_app dir a t u : seen_free dir a t → seen_free dir a u → seen_free dir a (t ++ u).
Proof.
  intros Ht Hu [Hr|Hr]%Exists_app.
  - destruct (Ht Hr) as (r & Hin & Hok). exists r. split; [|done]. apply elem_of_app. by left.
  - destruct (Hu Hr) as (r & Hin & Hok). exists r. split; [|done]. apply elem_of_app. by right.
Qed.
Lemma seen_free_none dir a t : Forall (λ e : event, no_file e.1) t → seen_free dir a t.
Proof. intros Hno Hr. by destruct (no_rename t Hno). Qed.

Lemma store_anchor_free name a h o t : runs (store_anchor name a) h o t → seen_free (AnchorDir name) a t.
Proof.
  unfold store_anchor. cbv zeta. intros Hrun.
  apply (runs_after no_file) in Hrun as [[Hno _]|(lines & t1 & t2 & -> & Hno & _ & Hrun)];
    [by apply seen_free_none| |unfold wrap; emits_go; apply ledgerLines_no_file].
  apply seen_free_app; [by apply seen_free_none|].
  destruct lines as [|l ls]; [apply runs_lift in Hrun as [_ ->]; by apply seen_free_none|].
  destruct (atoi l) as [id|]; [|apply runs_lift in Hrun as [_ ->]; by apply seen_free_none].
  assert (∀ h1 o1 t1', runs (wrap "checkpoint %d was recorded but its anchor could not be written: %w" [format_int id]
    (WriteAnchor (AnchorDir name) (with_id a id))) h1 o1 t1' → seen_free (AnchorDir name) a t1') as Hwrite.
  { intros h1 o1 t1' Hw. unfold wrap in Hw. apply runs_bind in Hw as [(r & u1 & u2 & Hr & Hw & ->)|[(e & Hr & _)|(w & Hr & _)]].
    - assert (u2 = []) as -> by (destruct r; by apply runs_lift in Hw as [_ ->]). rewrite app_nil_r.
      apply runs_attempt in Hr as [(x & Hr & _)|[(e & Hr & _)|(w & Hr & _)]]; intros Hren; by eapply (WriteAnchor_free _ (with_id a id)).
    - apply runs_attempt in Hr as [(x & _ & [=])|[(e' & _ & [=])|(w & _ & [=])]].
    - apply runs_attempt in Hr as [(x & _ & [=])|[(e' & _ & [=])|(w' & Hr & _)]]; intros Hren; by eapply (WriteAnchor_free _ (with_id a id)). }
  apply runs_bind in Hrun as [(x & t3 & t4 & Hw & Hrun & ->)|[(e & Hw & _)|(w & Hw & _)]]; [|by eapply Hwrite..].
  apply seen_free_app; [by eapply Hwrite|]. apply seen_free_none.
  assert (emits no_file (_ ← when (truthyEnv "OXYNDB_ANCHOR_IMMUTABLE") (ignore (sudo ["chattr"; "+i"; anchor_path (AnchorDir name) (with_id a id)]));
    mret (with_id a id, anchor_path (AnchorDir name) (with_id a id)))) as Hem by (emits_go; done).
  by eapply emits_runs.
Qed.

(** ** What a checkpoint leaves behind *)

Definition nothing_left (o : outcome error (option (Anchor * string))) (t : history) : Prop :=
  Forall (λ e, no_file e.1) t ∧ ∀ r, o ≠ Ok (Some r).

(** The one file written holds [a], and [a] is what is returned. *)
Definition writes_anchor (branch : string) (a : Anchor) (o : outcome error (option (Anchor * string))) (t : history) : Prop :=
  Forall (λ e, anchor_action (AnchorDir branch) a e.1) t ∧ seen_free (AnchorDir branch) a t
  ∧ ∀ r, o = Ok (Some r) → ∃ id, r = (with_id a id, anchor_path (AnchorDir branch) a).

(** Of the rows read after the last checkpoint, those above it are chained and anchored. *)
Definition anchored_after (branch : string) (ext : bool) (lastTo : Z) (prevRoot : string) (h : history)
    (o : outcome error (option (Anchor * string))) (t : history) : Prop :=
  ∃ rows now a t1 t2, t = t1 ++ t2 ∧ Forall (λ e, no_file e.1) t1
    ∧ runs (loadLedgerRows branch ext (checkpoint_where lastTo)) h (Ok rows) t1
    ∧ (let fresh := filter (λ r, (lastTo < ID r)%Z) rows in
       CheckChain (last (filter (λ r, (ID r <= lastTo)%Z) rows)) fresh = Ok tt
       ∧ BuildAnchor branch (lastTo + 1) prevRoot fresh now = Ok a)
    ∧ writes_anchor branch a o t2.
Definition anchored_from (branch : string) (h : history) (o : outcome error (option (Anchor * string))) (t : history) : Prop :=
  ∃ ext lastTo prevRoot t1 t2 t3, t = t1 ++ t2 ++ t3 ∧ Forall (λ e, no_file e.1) t1 ∧ Forall (λ e, no_file e.1) t2
    ∧ runs (lastCheckpoint branch) (h ++ t1) (Ok (lastTo, prevRoot)) t2
    ∧ anchored_after branch ext lastTo prevRoot ((h ++ t1) ++ t2) o t3.
Definition anchored (name : string) (h : history) (o : outcome error (option (Anchor * string))) (t : history) : Prop :=
  ∃ branch, ledgerBranchName name = Ok branch ∧ anchored_from branch h o t.

Lemma nothing_left_fail (o : outcome error (option (Anchor * string))) t :
  Forall (λ e : event, no_file e.1) t ∧ is_ok o = false → nothing_left o t.
Proof. intros [Hno Ho]. split; [done|]. by intros r ->. Qed.
Lemma nothing_left_app (o : outcome error (option (Anchor * string))) t u :
  Forall (λ e : event, no_file e.1) t → nothing_left o u → nothing_left o (t ++ u).
Proof. intros Ht [Hu Ho]. split; [by apply Forall_app|done]. Qed.

(** What follows once the rows are read: the anchor over [fresh] is written, or nothing. *)
Lemma anchor_rows branch from root fresh h o t :
  runs (now ← call Now;
        match BuildAnchor branch from root fresh (rnum now) with
        | Ok a => r ← store_anchor branch a; mret (Some r)
        | Err e => fail (build_error_of e)
        | Panic w => raise w
        end) h o t →
  nothing_left o t ∨ ∃ now a, BuildAnchor branch from root fresh now = Ok a ∧ writes_anchor branch a o t.
Proof.
  intros [[Hno Hok]|(now & t1 & t2 & -> & Hno & _ & Hrun)]%(runs_after no_file); [| |by apply emits_call].
  { left. by apply nothing_left_fail. }
  destruct (BuildAnchor _ _ _ _ _) as [a|e|w] eqn:Hbuild;
    [|left; apply runs_lift in Hrun as [-> ->]; rewrite app_nil_r; by split..].
  right. exists (rnum now), a. split; [done|]. split; [|split].
  - apply Forall_app. split; [eapply Forall_impl; [exact Hno|]; intros e; apply no_file_anchor|].
    eapply emits_runs; [|exact Hrun]. emits_go. apply store_anchor_action.
  - apply seen_free_app; [by apply seen_free_none|].
    apply runs_bind in Hrun as [(r & u1 & u2 & Hr & Hret & ->)|[(e & Hr & _)|(w & Hr & _)]]; [|by eapply store_anchor_free..].
    apply runs_ret in Hret as [_ ->]. rewrite app_nil_r. by eapply store_anchor_free.
  - intros r ->. apply runs_bind_ok in Hrun as (r' & u1 & u2 & Hr & Hret & _).
    apply runs_ret in Hret as [[= ->] _]. by eapply store_anchor_result.
Qed.

Lemma Checkpoint_run name h o t : runs (Checkpoint name) h o t → nothing_left o t ∨ anchored name h o t.
Proof.
  unfold Checkpoint. intros Hrun.
  apply (runs_after no_file) in Hrun as [Hf|(branch & t0 & t1 & -> & _ & Hb & Hrun)]; [left; by apply nothing_left_fail| |emits_go].
  apply runs_lift in Hb as [Hb ->]. rewrite app_nil_r in Hrun. cbn [app].
  apply (runs_after no_file) in Hrun as [Hf|([ext has] & t2 & t3 & -> & H2 & _ & Hrun)];
    [left; by apply nothing_left_fail| |unfold ledgerV2Tables; emits_go; eauto with emits].
  destruct has; cbn [negb] in Hrun; [|left; apply runs_lift in Hrun as [-> ->]; rewrite app_nil_r; by split].
  apply (runs_after no_file) in Hrun as [Hf|([lastTo prevRoot] & t4 & t5 & -> & H4 & Hlast & Hrun)];
    [left; apply nothing_left_app; [done|by apply nothing_left_fail]| |unfold lastCheckpoint; emits_go; eauto with emits].
  apply (runs_after no_file) in Hrun as [Hf|(rows & t6 & t7 & -> & H6 & Hrows & Hrun)];
    [left; do 2 (apply nothing_left_app; [done|]); by apply nothing_left_fail| |unfold loadLedgerRows; emits_go; eauto with emits].
  cbv zeta in Hrun. enough (nothing_left o t7 ∨ ∃ now a, CheckChain (pred_row lastTo rows) (fresh_rows lastTo rows) = Ok tt
    ∧ BuildAnchor branch (lastTo + 1) prevRoot (fresh_rows lastTo rows) now = Ok a ∧ writes_anchor branch a o t7)
    as [Hn|(now & a & Hchain & Hbuild & Hw)].
  - left. by do 3 (apply nothing_left_app; [done|]).
  - right. exists branch. split; [done|]. exists ext, lastTo, prevRoot, t2, t4, (t6 ++ t7). do 4 (split; [done|]).
    by exists rows, now, a, t6, t7.
  - destruct (fresh_rows lastTo rows) as [|r0 rs] eqn:Hfresh; [left; by apply runs_ret in Hrun as [-> ->]|].
    destruct (CheckChain _ _) as [[]|p|w]; [|left; by apply runs_lift in Hrun as [-> ->]..].
    apply anchor_rows in Hrun as [Hn|(now & a & Hbuild & Hw)]; [by left|right; by exists now, a].
Qed.

(** C13. What checkpointing leaves behind: unless nothing is written at all, the
    rows it read form an unbroken chain on from the last one checkpointed, in
    ascending order from the id after the previous checkpoint the database knows; the
    one file it writes, after all reading, holds exactly the anchor built over those rows
    (with the recorded checkpoint id), under that anchor's name; that is the anchor and
    the path it returns; and nothing is renamed onto that name unless it was seen to be
    free. A ledger whose chain is broken is never anchored. *)
Theorem Checkpoint_anchors name h o t : runs (Checkpoint name) h o t → nothing_left o t ∨ anchored name h o t.
Proof. apply Checkpoint_run. Qed.

End checkpoint_props.

(** ** Witness *)

Definition member (k v : string) : string := json_string k +:+ ":" +:+ v.
Definition sample_row : Row := mkRow 1 1704067200000000000 "" "" "" "" "" "CREATE TABLE" "" "public.t" "" "" "" "" "" "".
Definition sample_line : string :=
  "{" +:+ Join "," [member "id" "1"; member "at" (json_string "2024-01-01T00:00:00Z");
    member "command_tag" (json_string "CREATE TABLE"); member "object_identity" (json_string "public.t");
    member "row_hash" (json_string (RowHash sample_row))] +:+ "}".

(** A branch whose ledger holds one row, never checkpointed. *)
Definition one_row_world : World := {| answer h a :=
  let said out := mkReply true out out 0 in
  match a with
  | Exec argv _ =>
      match last argv with
      | Some sql =>
          if HasPrefix sql "SELECT (to_regclass" then said "true|true"
          else if HasPrefix sql "SELECT coalesce" then said "0|"
          else if HasPrefix sql "INSERT" then said "1"
          else said sample_line
      | None => said ""
      end
  | CallOut what _ => if String.eqb what "os.Lstat" then mkReply false "" "" 1 else said ""
  | _ => said ""
  end |}.
Definition anchor_env : Env := {|
  getenv := λ _, ""; pgPass := "secret"; minioUser := "m"; minioPass := "p"; home_dir := Some "/home/u" |}.
Definition checkpoint_run : outcome error (option (Anchor * string)) * history :=
  Checkpoint (W := one_row_world) (En := anchor_env) "dev" [].

Lemma Checkpoint_anchors_witness :
  is_ok checkpoint_run.1 = true
  ∧ (nothing_left checkpoint_run.1 checkpoint_run.2
     ∨ anchored (W := one_row_world) (En := anchor_env) "dev" [] checkpoint_run.1 checkpoint_run.2).
Proof.
  split; [vm_compute; reflexivity|].
  apply (Checkpoint_anchors (W := one_row_world) (En := anchor_env) "dev" [] checkpoint_run.1 checkpoint_run.2).
  unfold runs. apply surjective_pairing.
Defined.

Example checkpoint_returns : match checkpoint_run.1 with Ok (Some (a, p)) => Some (FromID a, ToID a, p) | _ => None end
  = Some (1, 1, "/home/u/.oxyndb/anchors/dev/00000000000000000001.json")%Z.
Proof. vm_compute. reflexivity. Qed.
