(* ===== verification/Anchors.v ===== *)
(** * Anchor files, written and read back

    A checkpoint's anchor is a JSON file beside the database: what [WriteAnchor] writes of
    an anchor is what [LoadAnchors] reads of the directory. *)
From S2P Require Import Prelude GoStrings GoNum GoRunes GoTime GoTimeParse Effects Container Storage Json JsonText Integrity Blackbox.
Open Scope string_scope.
Open Scope list_scope.

(** ** Times *)

(** A byte that JSON writes as itself. *)
Definition plain_byte (c : ascii) : bool := ((32 <=? byte_val c)%Z && negb (Ascii.eqb c dquote) && negb (Ascii.eqb c "\")).
Definition plain (s : string) : bool := forallb plain_byte (to_bytes s).

Lemma plain_app a b : plain (a +:+ b) = plain a && plain b.
Proof. unfold plain. by rewrite to_bytes_app, forallb_app. Qed.

Lemma plain_all_digits s : all_digits s = true → plain s = true.
Proof.
  unfold all_digits, plain. induction (to_bytes s) as [|c l IH]; [done|]. cbn -[is_digit plain_byte]. intros [Hc Hl]%andb_true_iff.
  rewrite IH by done. destruct c as [[] [] [] [] [] [] [] []]; try done; vm_compute in Hc; discriminate.
Qed.

Lemma take_string_plain_text s l : plain s = true → take_string None (to_bytes s ++ dquote :: l) = Some (to_bytes s, l).
Proof.
  unfold plain. induction (to_bytes s) as [|c k IH]; [done|]. cbn [forallb app]. intros [Hc Hk]%andb_true_iff.
  unfold plain_byte in Hc. apply andb_true_iff in Hc as [[Hc Hq]%andb_true_iff Hb]. apply negb_true_iff, Ascii.eqb_neq in Hq, Hb.
  rewrite take_string_plain, IH by (done || by apply Z.leb_le). done.
Qed.

Lemma reads_quoted s : plain s = true → reads (str1 dquote +:+ s +:+ str1 dquote) (JStr s).
Proof.
  intros Hs fuel depth l _. rewrite !to_bytes_app, <-!app_assoc. cbn [to_bytes str1 app take_value].
  set (k := to_bytes s ++ dquote :: l). change (skip_ws (dquote :: k)) with (dquote :: k). cbn [Ascii.eqb Bool.eqb dquote]. subst k.
  rewrite take_string_plain_text by done. cbn. by rewrite of_to_bytes.
Qed.

Lemma plain_two z : plain (two_digits z) = true.
Proof. apply plain_all_digits, all_digits_pad0. Qed.
Lemma plain_year z : (0 <= z)%Z → plain (pad0_int 4 z) = true.
Proof. intros Hz. unfold pad0_int. rewrite (proj2 (Z.ltb_ge _ _)) by done. apply plain_all_digits, all_digits_pad0. Qed.

Lemma plain_trimmed s : plain s = true → plain (trim_right_by (Ascii.eqb "0") s) = true.
Proof. destruct (trim_zeros_spec s) as [k Hk]. rewrite Hk at 1. rewrite plain_app. by intros [? _]%andb_true_iff. Qed.

Lemma plain_time t : valid_year t → plain (format_rfc3339nano t) = true.
Proof.
  unfold valid_year, time_year, format_rfc3339nano, format_date, format_clock, format_nanos. destruct (civil_of_days _) as [[y m] d]. intros Hy.
  rewrite !plain_app, !plain_two, plain_year by lia. destruct (_ =? 0)%N; [done|].
  rewrite plain_app, plain_trimmed by apply plain_all_digits, all_digits_pad0. done.
Qed.

(** ** Anchors *)

(** An anchor that JSON can hold: well-formed texts, numbers of 64 bits, a year of four
    digits. *)
Record good_anchor (a : Anchor) : Prop := {
  good_texts : forallb well_formed [Format a; Algorithm a; ABranch a; LastRowHash a; AMerkleRoot a; PrevRoot a] = true;
  good_numbers : in_int64 (CheckpointID a) ∧ in_int64 (FromID a) ∧ in_int64 (ToID a) ∧ in_int64 (EntryCount a);
  good_time : valid_year (CreatedAt a) }.

(** The members of the file, with the values they are read as. *)
Definition anchor_members (a : Anchor) : list json_member :=
  let text s := (json_string s, JStr s) in
  let num z := (format_int z, JNum (format_int z)) in
  [("format", text (Format a)); ("algorithm", text (Algorithm a)); ("branch", text (ABranch a));
   ("checkpoint_id", num (CheckpointID a)); ("from_id", num (FromID a)); ("to_id", num (ToID a)); ("entry_count", num (EntryCount a));
   ("last_row_hash", text (LastRowHash a)); ("merkle_root", text (AMerkleRoot a)); ("prev_root", text (PrevRoot a));
   ("created_at", (json_time (CreatedAt a), JStr (format_rfc3339nano (CreatedAt a))))].

Lemma anchor_members_good a : good_anchor a → Forall good_member (anchor_members a).
Proof.
  intros [Ht _ Hy]. cbn [forallb] in Ht. rewrite !andb_true_iff in Ht.
  repeat constructor; cbn [fst snd]; try done; try (apply reads_string; tauto); try apply reads_int. by apply reads_quoted, plain_time.
Qed.

Lemma decode_anchor_members a : good_anchor a → decode_anchor (JObj (member_value <$> anchor_members a)) = Some a.
Proof.
  intros [_ (H1 & H2 & H3 & H4) Hy].
  assert (∀ k z m, field_values k m = [JNum (format_int z)] → in_int64 z → field as_int 0%Z k m = Some z) as Hint.
  { intros k z m Hk Hz. unfold field. rewrite Hk. cbn. by rewrite atoi_format_int. }
  assert (∀ k s m, field_values k m = [JStr s] → field as_string "" k m = Some s) as Htext by (intros k s m Hk; unfold field; by rewrite Hk).
  assert (∀ k t m, field_values k m = [JStr (format_rfc3339nano t)] → valid_year t →
            field decode_time (- 62135596800 * second)%Z k m = Some t) as Htime.
  { intros k t m Hk Ht. unfold field. rewrite Hk. cbn [decode_field]. unfold decode_time. cbn [as_string mbind option_bind]. by rewrite time_parse_format. }
  unfold decode_anchor. cbn [as_object mbind option_bind].
  rewrite (Htext "format" (Format a)), (Htext "algorithm" (Algorithm a)), (Htext "branch" (ABranch a)),
    (Hint "checkpoint_id" (CheckpointID a)), (Hint "from_id" (FromID a)), (Hint "to_id" (ToID a)), (Hint "entry_count" (EntryCount a)),
    (Htext "last_row_hash" (LastRowHash a)), (Htext "merkle_root" (AMerkleRoot a)), (Htext "prev_root" (PrevRoot a)),
    (Htime "created_at" (CreatedAt a)) by (done || reflexivity).
  by destruct a.
Qed.

Lemma anchor_reads a : good_anchor a → json_parse (anchor_json a) ≫= decode_anchor = Some a.
Proof.
  intros Ha. unfold anchor_json. change (anchor_fields a) with ((λ m : json_member, (m.1, m.2.1)) <$> anchor_members a).
  pose proof (anchor_members_good a Ha) as Hg. pose proof (decode_anchor_members a Ha) as Hd.
  destruct (anchor_members a) as [|m ms] eqn:Hm; [done|]. by rewrite json_indent_read.
Qed.

(** ** A directory of anchors *)

Section directory.
Context {W : World}.

(** The entries that [LoadAnchors] reads. *)
Definition anchor_entry (n : string) : bool := negb (HasSuffix n "/") && HasSuffix n ".json".

Lemma load_anchors_reads dir entries anchors h :
  filter (λ n, anchor_entry n = true) entries = (AnchorFileName ∘ ToID) <$> anchors →
  Forall good_anchor anchors →
  (∀ h a, a ∈ anchors → rok (answer h (ReadFile (anchor_path dir a))) = true ∧ rout (answer h (ReadFile (anchor_path dir a))) = anchor_json a) →
  ∃ t, runs (load_anchors dir entries) h (Ok anchors) t.
Proof.
  intros Hn Hg Hread. revert anchors h Hn Hg Hread. induction entries as [|n entries IH]; intros anchors h Hn Hg Hread; cbn [load_anchors].
  { destruct anchors; [|done]. by exists []. }
  destruct (anchor_entry n) eqn:He; unfold anchor_entry in He.
  - rewrite filter_cons_True in Hn by exact He. destruct anchors as [|a anchors]; [done|].
    cbn [fmap list_fmap compose] in Hn. apply cons_inv in Hn as [-> Hn]. apply andb_true_iff in He as [He1 ->].
    apply negb_true_iff in He1 as ->. cbn [orb negb].
    inversion Hg as [|? ? Ha Hg' Heq]; subst.
    edestruct (Hread h a) as [Hok Hout]; [left|].
    destruct (IH anchors (h ++ [(ReadFile (anchor_path dir a), answer h (ReadFile (anchor_path dir a)))]) Hn Hg') as [t Ht]; [intros; apply Hread; by right|].
    exists ((ReadFile (anchor_path dir a), answer h (ReadFile (anchor_path dir a))) :: t ++ []).
    apply runs_call_bind. exists (t ++ []). split; [|done]. fold (anchor_path dir a). rewrite Hok. cbn [negb]. rewrite Hout, anchor_reads by done.
    apply runs_bind_ok. exists anchors, t, []. done.
  - rewrite filter_cons_False in Hn by (unfold anchor_entry; by rewrite He).
    destruct (IH anchors h Hn Hg Hread) as [t Ht]. exists t.
    destruct (HasSuffix n "/"), (HasSuffix n ".json"); cbn in He |- *; done.
Qed.

(** C14. What checkpoints wrote is what is read: in a directory that lists the files of some
    anchors, among other entries, and whose files hold what [WriteAnchor] writes of them,
    [LoadAnchors] gives exactly those anchors, in order. *)
Theorem LoadAnchors_reads dir anchors h :
  Forall good_anchor anchors →
  rok (answer h (ReadDir dir)) = true →
  filter (λ n, anchor_entry n = true) (output_lines (rout (answer h (ReadDir dir)))) = (AnchorFileName ∘ ToID) <$> anchors →
  (∀ h a, a ∈ anchors → rok (answer h (ReadFile (anchor_path dir a))) = true ∧ rout (answer h (ReadFile (anchor_path dir a))) = anchor_json a) →
  ∃ t, runs (LoadAnchors dir) h (Ok anchors) t.
Proof.
  intros Hg Hd Hn Hread. unfold LoadAnchors.
  edestruct (load_anchors_reads dir _ anchors (h ++ [(ReadDir dir, answer h (ReadDir dir))]) Hn Hg Hread) as [t Ht].
  eexists. apply runs_call_bind. exists t. split; [|reflexivity]. rewrite Hd. exact Ht.
Qed.

End directory.

(** ** Example *)

Definition sample_anchor (from to : Z) (prev : string) (t : time) : Anchor :=
  mkAnchor "oxyn-checkpoint-v1" "sha256" "dev" to from to (to - from + 1) "aa" "bb" prev t.
Definition sample_anchors : list Anchor := [sample_anchor 1 4 "" 1709251199500000000; sample_anchor 5 9 "bb" 1709251200000000000].
Definition sample_dir : World := {| answer := λ _ x,
  match x with
  | ReadDir _ => mkReply true ("README" +:+ str1 nl +:+ Join (str1 nl) ((AnchorFileName ∘ ToID) <$> sample_anchors) +:+ str1 nl +:+ "old.json/") "" 0
  | ReadFile p => mkReply true (default "" ((λ a, anchor_json a) <$> List.find (λ a, String.eqb (anchor_path "/anchors" a) p) sample_anchors)) "" 0
  | _ => mkReply false "" "" 1
  end |}.

Lemma sample_anchors_good : Forall good_anchor sample_anchors.
Proof. repeat constructor; vm_compute; intros; discriminate. Qed.

Lemma LoadAnchors_reads_witness : ∃ t, runs (LoadAnchors (W := sample_dir) "/anchors") [] (Ok sample_anchors) t.
Proof.
  apply (LoadAnchors_reads (W := sample_dir)); [exact sample_anchors_good|reflexivity|vm_compute; reflexivity|].
  intros h a Ha. split; [reflexivity|]. unfold sample_anchors in Ha. apply list_elem_of_In in Ha as [<-|[<-|[]]]; vm_compute; reflexivity.
Defined.
