(* ===== verification/Policy.v ===== *)
(** * The policy gate's rules (internal/ledger/policy.go, internal/branch/policy.go)

    The gate itself runs inside the database; here is what the engine does with its
    rules: the checks on a rule, the SQL that adds, changes and removes one, what is
    made of the answers, the preview of a statement, and who is an admin. *)
From S2P Require Import Prelude GoStrings GoNum GoRunes Sql Statement Json Effects Storage Container Blackbox.
Open Scope string_scope.
Open Scope list_scope.

(** ** Details of a rule that fired *)

Record PolicyDetail : Type := mkDetail {
  PV : Z; PRuleID : string; PAction : string; PCommand : string; PMatched : option string; PReason : string; PHint : string;
  POverride : option string; PEvaluationID : option Z; PBlackboxID : option Z; PImpact : option json }.

Definition PolicyBlockCode : string := "ODB01".
Definition PolicyWarnCode : string := "ODB02".

(** ^[a-z0-9][a-z0-9-]{0,62}$ *)
Definition ValidRuleID (id : string) : bool := slug 62 id.

(** The document's part is kept as the value it stands for. *)
Definition decode_detail (m : list (string * json)) : option PolicyDetail :=
  v ← field as_int 0%Z "v" m;
  rule ← field as_string "" "rule_id" m;
  action ← field as_string "" "action" m;
  command ← field as_string "" "command" m;
  matched ← pointer as_string "matched" m;
  reason ← field as_string "" "reason" m;
  hint ← field as_string "" "hint" m;
  override ← pointer as_string "override" m;
  eval ← pointer as_int "evaluation_id" m;
  box ← pointer as_int "blackbox_id" m;
  impact ← pointer Some "impact" m;
  Some (mkDetail v rule action command matched reason hint override eval box impact).

Definition ParsePolicyDetail (s : string) : outcome error PolicyDetail :=
  match (j ← json_parse s; m ← as_object j; decode_detail m) with
  | None => Err (Errorf "policy detail is not JSON: %w" [s])
  | Some d =>
      if (PV d <? 1)%Z then Err (Errorf "policy detail has no contract version" [])
      else if negb (ValidRuleID (PRuleID d)) then Err (Errorf "policy detail has an invalid rule_id %q" [PRuleID d])
      else if negb (String.eqb (PAction d) "warn") && negb (String.eqb (PAction d) "block")
      then Err (Errorf "policy detail has an unknown action %q" [PAction d])
      else Ok d
  end.

(** ** Rules *)

Definition ErrRuleNotFound : error := Errorf "policy rule not found" [].
Definition ErrRuleExists : error := Errorf "policy rule already exists" [].
Definition ErrBuiltinRule : error := Errorf "built-in policy rules can't be removed" [].

Record PolicyRule : Type := mkRule {
  RuleID : string; RCommand : string; Pattern : option string; RAction : string; Reason : string; Hint : option string;
  Enabled : bool; Builtin : bool; UpdatedAt : string; UpdatedBy : option string }.

Record PolicyEvaluation : Type := mkEvaluation {
  EID : Z; EAt : string; EXID : option Z; ERuleID : string; EAction : string; ECommandTag : option string;
  EActor : option string; EBlackboxID : option Z }.

(** ^[A-Z][A-Z ]{1,62}[A-Z]$ *)
Definition capital (c : ascii) : bool := ((65 <=? byte_val c) && (byte_val c <=? 90))%Z.
Definition command_tag (s : string) : bool :=
  match to_bytes s with
  | c :: t =>
      match reverse t with
      | d :: mid => capital c && capital d && forallb (λ x, capital x || Ascii.eqb x " ") mid
                    && (1 <=? List.length mid)%nat && (List.length mid <=? 62)%nat
      | [] => false
      end
  | [] => false
  end.

Definition warn_or_block (a : string) : bool := String.eqb a "warn" || String.eqb a "block".

Definition validatePolicyRule (r : PolicyRule) : option error :=
  if negb (ValidRuleID (RuleID r))
  then Some (Wrapf "%w: rule id %q must be lowercase letters, digits and dashes" [RuleID r] ErrInvalidRequest)
  else if negb (command_tag (RCommand r))
  then Some (Wrapf ("%w: command %q must be a command tag such as " +:+ str1 dquote +:+ "ALTER TABLE" +:+ str1 dquote)
               [RCommand r] ErrInvalidRequest)
  else if negb (warn_or_block (RAction r)) then Some (Wrapf "%w: action must be warn or block" [] ErrInvalidRequest)
  else if String.eqb (TrimSpace (Reason r)) "" then Some (Wrapf "%w: a reason is required" [] ErrInvalidRequest)
  else None.

Definition policyActor (actor : string) : string := if String.eqb actor "" then "odb" else actor.

Definition withActor (actor sql : string) : string :=
  "SELECT set_config('odb.actor', " +:+ quoteLiteral (policyActor actor) +:+ ", true) IS NOT NULL;" +:+ str1 nl +:+ sql.

Definition addRuleSQL (r : PolicyRule) (actor : string) : string := withActor actor (lines_of
  ["WITH ins AS (";
   "  INSERT INTO odb.policy_rules (rule_id, command_tag, pattern, action, reason, hint, enabled, updated_by)";
   "  VALUES (" +:+ quoteLiteral (RuleID r) +:+ ", " +:+ quoteLiteral (RCommand r) +:+ ", " +:+ sqlTextOrNull (Pattern r) +:+ ", "
     +:+ quoteLiteral (RAction r) +:+ ", " +:+ quoteLiteral (Reason r) +:+ ", " +:+ sqlTextOrNull (Hint r) +:+ ", true, "
     +:+ quoteLiteral (policyActor actor) +:+ ")";
   "  ON CONFLICT (rule_id) DO NOTHING RETURNING rule_id)";
   "SELECT 'added' FROM ins;"]).

Definition updateRuleSQL (ruleID : string) (action : option string) (enabled : option bool) (actor : string) : string :=
  let a := match action with Some a => quoteLiteral a | None => "NULL::text" end in
  let e := match enabled with Some true => "true" | Some false => "false" | None => "NULL::boolean" end in
  withActor actor (lines_of
  ["WITH u AS (";
   "  UPDATE odb.policy_rules SET action = coalesce(" +:+ a +:+ ", action), enabled = coalesce(" +:+ e +:+ ", enabled),";
   "         updated_at = clock_timestamp(), updated_by = " +:+ quoteLiteral (policyActor actor);
   "  WHERE rule_id = " +:+ quoteLiteral ruleID +:+ " RETURNING 1)";
   "SELECT 'updated' FROM u;"]).

Definition removeRuleSQL (ruleID actor : string) : string := withActor actor (lines_of
  ["WITH d AS (DELETE FROM odb.policy_rules WHERE rule_id = " +:+ quoteLiteral ruleID +:+ " AND NOT builtin RETURNING 1)";
   "SELECT 'removed' FROM d";
   "UNION ALL SELECT 'builtin' FROM odb.policy_rules WHERE rule_id = " +:+ quoteLiteral ruleID +:+ " AND builtin;"]).

Definition dq : string := str1 dquote.
Definition rulesQuery : string := lines_of
  ["SELECT row_to_json(r) FROM (";
   "  SELECT rule_id, command_tag, pattern, action, reason, hint, enabled, builtin,";
   "         to_char(updated_at AT TIME ZONE 'UTC', 'YYYY-MM-DD" +:+ dq +:+ "T" +:+ dq +:+ "HH24:MI:SS" +:+ dq +:+ "Z" +:+ dq
     +:+ "') AS updated_at, updated_by";
   "  FROM odb.policy_rules ORDER BY rule_id) r"].
Definition evaluationsQuery (limit : Z) : string := lines_of
  ["SELECT row_to_json(e) FROM (";
   "  SELECT id, to_char(at AT TIME ZONE 'UTC', 'YYYY-MM-DD" +:+ dq +:+ "T" +:+ dq +:+ "HH24:MI:SS" +:+ dq +:+ "Z" +:+ dq
     +:+ "') AS at, xid, rule_id, action,";
   "         command_tag, actor, blackbox_id";
   "  FROM odb.ledger_policy_evaluations ORDER BY id DESC LIMIT " +:+ format_int limit +:+ ") e"].
Definition checkQuery (tag statement : string) : string :=
  "SELECT odb.policy_check(" +:+ quoteLiteral tag +:+ ", " +:+ quoteLiteral statement +:+ ")::text".
Definition isAdminQuery (email : string) : string := lines_of
  ["SELECT CASE WHEN to_regrole('odb_admin') IS NULL THEN false ELSE";
   "  coalesce((SELECT rolsuper OR pg_has_role(oid, 'odb_admin', 'MEMBER') FROM pg_roles WHERE rolname = "
     +:+ quoteLiteral email +:+ "), false) END"].

Definition decode_rule (j : json) : option PolicyRule :=
  m ← as_object j;
  id ← field as_string "" "rule_id" m;
  tag ← field as_string "" "command_tag" m;
  pattern ← pointer as_string "pattern" m;
  action ← field as_string "" "action" m;
  reason ← field as_string "" "reason" m;
  hint ← pointer as_string "hint" m;
  enabled ← field as_bool false "enabled" m;
  builtin ← field as_bool false "builtin" m;
  at_ ← field as_string "" "updated_at" m;
  by_ ← pointer as_string "updated_by" m;
  Some (mkRule id tag pattern action reason hint enabled builtin at_ by_).

Definition decode_evaluation (j : json) : option PolicyEvaluation :=
  m ← as_object j;
  id ← field as_int 0%Z "id" m;
  at_ ← field as_string "" "at" m;
  xid ← pointer as_int "xid" m;
  rule ← field as_string "" "rule_id" m;
  action ← field as_string "" "action" m;
  tag ← pointer as_string "command_tag" m;
  actor ← pointer as_string "actor" m;
  box ← pointer as_int "blackbox_id" m;
  Some (mkEvaluation id at_ xid rule action tag actor box).

Definition hasLine (lines : list string) (want : string) : bool := existsb (String.eqb want) lines.

Section policy.
Context {W : World} {En : Env} {Em : Embedded} {T : ErrorText} {U : Unicode}.

Definition friendlyPolicyErr (name : string) (e : error) : error :=
  let s := Error e in
  if Contains s "policy_rules_pattern_check"
  then Wrapf "%w: invalid pattern — it must be a valid PostgreSQL regular expression" [] ErrInvalidRequest
  else if (Contains s "odb.policy_rules" && Contains s "does not exist")
       || (Contains s "odb.ledger_policy_evaluations" && Contains s "does not exist")
       || (Contains s "function odb.policy_check" && Contains s "does not exist")
  then Errorf "the Blackbox policy gate isn't installed on %q — run: odb blackbox upgrade %s" [name; name]
  else e.

Definition policyLines (name sql : string) : prog (list string) :=
  on_error (ledgerLines name sql) (λ e, fail (friendlyPolicyErr name e)).

Definition PolicyRules (name : string) : prog (list PolicyRule) :=
  name ← lift (ledgerBranchName name);
  lines ← policyLines name rulesQuery;
  lift (decode_lines (decode_with "reading policy rules: %w" decode_rule) lines).

Definition AddPolicyRule (name : string) (r : PolicyRule) (actor : string) : prog unit :=
  name ← lift (ledgerBranchName name);
  match validatePolicyRule r with
  | Some e => fail e
  | None =>
      lines ← policyLines name (addRuleSQL r actor);
      if negb (hasLine lines "added") then fail (Wrapf "%w: %q" [RuleID r] ErrRuleExists) else mret tt
  end.

Definition UpdatePolicyRule (name ruleID : string) (action : option string) (enabled : option bool) (actor : string) : prog unit :=
  name ← lift (ledgerBranchName name);
  if match action with Some a => negb (warn_or_block a) | None => false end
  then fail (Wrapf "%w: action must be warn or block" [] ErrInvalidRequest)
  else match action, enabled with
  | None, None => fail (Wrapf "%w: nothing to change (send action and/or enabled)" [] ErrInvalidRequest)
  | _, _ =>
      lines ← policyLines name (updateRuleSQL ruleID action enabled actor);
      if negb (hasLine lines "updated") then fail (Wrapf "%w: %q" [ruleID] ErrRuleNotFound) else mret tt
  end.

Definition RemovePolicyRule (name ruleID actor : string) : prog unit :=
  name ← lift (ledgerBranchName name);
  lines ← policyLines name (removeRuleSQL ruleID actor);
  if hasLine lines "removed" then mret tt
  else if hasLine lines "builtin" then fail (Wrapf "%w — disable it instead: odb policy disable %s" [ruleID] ErrBuiltinRule)
  else fail (Wrapf "%w: %q" [ruleID] ErrRuleNotFound).

Definition PolicyCheck (name statement : string) : prog (string * list PolicyDetail) :=
  name ← lift (ledgerBranchName name);
  let tag := CommandTag statement in
  if String.eqb tag "" then fail (Wrapf "%w: sql is required" [] ErrInvalidRequest) else
  lines ← policyLines name (checkQuery tag statement);
  matches ← lift (decode_lines ParsePolicyDetail lines);
  mret (tag, matches).

Definition PolicyEvaluations (name : string) (limit : Z) : prog (list PolicyEvaluation) :=
  name ← lift (ledgerBranchName name);
  lines ← policyLines name (evaluationsQuery (clamp_limit 20 limit));
  lift (decode_lines (decode_with "reading policy evaluations: %w" decode_evaluation) lines).

Definition IsAdmin (name email : string) : prog bool :=
  name ← lift (ledgerBranchName name);
  if String.eqb email "" then mret false else
  lines ← ledgerLines name (isAdminQuery email);
  mret (match lines with l :: _ => String.eqb l "t" | [] => false end).

End policy.
