(* ===== verification/Impact.v ===== *)
(** * Impact analysis (internal/branch/impact.go)

    What a change would affect: the dependents the database reports, the other
    running branches that hold the object, the policy rules it would meet, and the
    score made of all that. *)
From S2P Require Import Prelude GoStrings GoNum GoRunes GoSort Sql Statement Json Effects Storage Container Branch Blackbox Policy.
Open Scope string_scope.
Open Scope list_scope.

(** ** Reports *)

Record ImpactDependent : Type := mkDependent {
  IType : string; IIdentity : string; IDepth : Z; IRelation : option string; ISameRelation : bool;
  IDependency : string; IVia : option string }.

Record BranchPresence : Type := mkPresence {
  HBranch : string; HState : string; HParent : string; HChecked : bool; HPresent : bool }.

Record ImpactReport : Type := mkReport {
  MBranch : string; MStatement : string; MCommand : string; MAction : string; MDestructive : bool; MFound : bool;
  MTarget : string; MType : string; MColumn : option string; MRowsEstimate : Z; MSizeBytes : Z;
  MDependents : list ImpactDependent; MTruncated : bool; MBranches : list BranchPresence; MPolicy : list PolicyDetail;
  MScore : Z; MLevel : string; MReasons : list string }.

Record blastRadius : Type := mkBlast {
  XFound : bool; XTarget : string; XType : string; XColumn : option string; XRows : Z; XSize : Z; XTruncated : bool;
  XDependents : list ImpactDependent }.

Definition decode_dependent (j : json) : option ImpactDependent :=
  m ← as_object j;
  type ← field as_string "" "type" m;
  id ← field as_string "" "identity" m;
  depth ← field as_int 0%Z "depth" m;
  rel ← pointer as_string "relation" m;
  same ← field as_bool false "same_relation" m;
  dep ← field as_string "" "dependency" m;
  via ← pointer as_string "via" m;
  Some (mkDependent type id depth rel same dep via).

Definition decode_blast (j : json) : option blastRadius :=
  m ← as_object j;
  found ← field as_bool false "found" m;
  target ← field as_string "" "target" m;
  type ← field as_string "" "type" m;
  col ← pointer as_string "column" m;
  rows ← field as_int 0%Z "rows_estimate" m;
  size ← field as_int 0%Z "size_bytes" m;
  trunc ← field as_bool false "truncated" m;
  deps ← field (as_list decode_dependent) [] "dependents" m;
  Some (mkBlast found target type col rows size trunc deps).

(** ** The score *)

Definition countOf (n : Z) (one many : string) : string :=
  format_int n +:+ " " +:+ (if (n =? 1)%Z then one else many).

(** The score so far and its reasons. *)
Definition scored : Type := Z * list string.
Definition add (n : Z) (why : string) (s : scored) : scored :=
  ((s.1 + n)%Z, s.2 ++ ["+" +:+ format_int n +:+ " " +:+ why]).

Inductive dep_kind : Type := KView | KFunc | KFK | KTrigger | KPolicy | KIndex | KOther.
#[export] Instance dep_kind_eq : EqDecision dep_kind.
Proof. solve_decision. Defined.

Definition classify (d : ImpactDependent) : dep_kind :=
  let t := IType d in
  if String.eqb t "view" || String.eqb t "materialized view" then KView
  else if String.eqb t "function" || String.eqb t "procedure" then KFunc
  else if String.eqb t "table constraint" && negb (ISameRelation d) then KFK
  else if String.eqb t "trigger" then KTrigger
  else if String.eqb t "policy" then KPolicy
  else if String.eqb t "index" then KIndex
  else KOther.

(** The seven counters after the loop over the dependents. *)
Definition tally_step (n : dep_kind → Z) (d : ImpactDependent) : dep_kind → Z :=
  λ k, if decide (classify d = k) then (n k + 1)%Z else n k.
Definition tally (l : list ImpactDependent) : dep_kind → Z := foldl tally_step (λ _, 0%Z) l.

Definition weights : list (dep_kind * Z * (string * string)) :=
  [(KView, 3%Z, ("dependent view", "dependent views"));
   (KFunc, 3%Z, ("dependent function", "dependent functions"));
   (KFK, 3%Z, ("constraint on another table (e.g. a foreign key)", "constraints on other tables (e.g. foreign keys)"));
   (KTrigger, 2%Z, ("trigger", "triggers"));
   (KPolicy, 2%Z, ("row-level security policy", "row-level security policies"));
   (KIndex, 1%Z, ("index", "indexes"));
   (KOther, 1%Z, ("other dependent object", "other dependent objects"))].

Definition add_kind (n : dep_kind → Z) (s : scored) (c : dep_kind * Z * (string * string)) : scored :=
  let '(k, w, (one, many)) := c in
  if (0 <? n k)%Z then add (n k * w) (countOf (n k) one many) s else s.

Definition add_rows (rows : Z) (s : scored) : scored :=
  if (1000000 <=? rows)%Z then add 3 ("about " +:+ format_int rows +:+ " rows") s
  else if (10000 <=? rows)%Z then add 1 ("about " +:+ format_int rows +:+ " rows") s
  else s.

Definition present_count (l : list BranchPresence) : Z :=
  foldl (λ n b, if HPresent b then (n + 1)%Z else n) 0%Z l.
Definition add_branches (present : Z) (s : scored) : scored :=
  if (0 <? present)%Z
  then add (if (5 <? present)%Z then 5 else present)
         ("also on " +:+ countOf present "other running branch" "other running branches") s
  else s.

Definition add_policy (s : scored) (p : PolicyDetail) : scored :=
  if String.eqb (PAction p) "block" then add 5 ("policy rule " +:+ PRuleID p +:+ " would block it") s
  else add 2 ("policy rule " +:+ PRuleID p +:+ " warns about it") s.

Definition level_of (score : Z) : string :=
  if (15 <=? score)%Z then "high" else if (5 <=? score)%Z then "medium" else "low".

Definition scoreImpact (r : ImpactReport) : Z * string * list string :=
  if negb (MFound r) then (0%Z, "none", ["the object doesn't exist on this branch"]) else
  let s := (0%Z, []) in
  let s := if MDestructive r then add 5 (MAction r +:+ " can lose data or break code that uses it") s
           else add 1 "changes an existing object" s in
  let s := foldl (add_kind (tally (MDependents r))) s weights in
  let s := if MTruncated r then add 3 "dependents go deeper than the depth checked" s else s in
  let s := add_rows (MRowsEstimate r) s in
  let s := add_branches (present_count (MBranches r)) s in
  let s := foldl add_policy s (MPolicy r) in
  (s.1, level_of s.1, s.2).

(** ** The analysis *)

Definition blastQuery (object column : string) : string :=
  "SELECT odb.blast_radius(" +:+ quoteLiteral object +:+ ", " +:+ sqlTextOrNull (Some column) +:+ ", 5)::text".

Definition presenceQuery (object column : string) : string := lines_of
  ["SELECT coalesce((SELECT CASE WHEN " +:+ sqlTextOrNull (Some column) +:+ " IS NULL THEN true ELSE EXISTS (";
   "    SELECT 1 FROM pg_attribute a WHERE a.attrelid = r AND a.attname = " +:+ sqlTextOrNull (Some column)
     +:+ " AND a.attnum > 0 AND NOT a.attisdropped) END";
   "  FROM to_regclass(" +:+ quoteLiteral object +:+ ") AS r WHERE r IS NOT NULL), false)"].

Section impact.
Context {W : World} {En : Env} {Em : Embedded} {T : ErrorText} {U : Unicode}.

Definition impactErr (name : string) (e : error) : error :=
  if Contains (Error e) "odb.blast_radius" && Contains (Error e) "does not exist"
  then Errorf "Blackbox impact analysis isn't installed on %q — run: odb blackbox upgrade %s" [name; name]
  else e.

(** What one branch of the listing contributes; only running ones are asked. *)
Definition presence (self q : string) (b : BranchInfo) : prog (option BranchPresence) :=
  let n := BName b in
  if String.eqb n self || String.eqb n "standby" || String.eqb n "restore" then mret None else
  parent ← BranchParent n;
  answer ← (if String.eqb (BState b) "running" then attempt (ledgerLines n q) else mret (inl []));
  mret (Some match answer with
             | inl (l :: _) => mkPresence n (BState b) parent true (String.eqb l "t")
             | _ => mkPresence n (BState b) parent false false
             end).

Definition branchPresence (self object column : string) : prog (list BranchPresence) :=
  infos ← attempt Branches;
  match infos with
  | inr _ => mret []
  | inl infos =>
      out ← collect (presence self (presenceQuery object column)) infos;
      mret (sort_slice (λ x y, str_lt (HBranch x) (HBranch y)) out)
  end.

(** The object and action asked about; [None] when there is none. *)
Definition impact_target (statement object column : string) : outcome error Target :=
  t ← (if negb (String.eqb statement "") then
         match ParseTarget statement with
         | (t, true) => Ok t
         | (_, false) =>
             if String.eqb object ""
             then Err (Wrapf "%w: couldn't find the table, view or index this statement changes — pass --object (and --column)"
                         [] ErrInvalidRequest)
             else Ok (mkTarget "" "" "change")
         end
       else if String.eqb object "" then Err (Wrapf "%w: sql or object is required" [] ErrInvalidRequest)
       else Ok (mkTarget "" "" "change"));
  Ok (mkTarget (if String.eqb object "" then TObject t else object)
               (if String.eqb column "" then TColumn t else column) (TAction t)).

Definition Impact (name statement object column : string) : prog ImpactReport :=
  name ← lift (ledgerBranchName name);
  let statement := TrimSpace statement in
  t ← lift (impact_target statement object column);
  let command := if String.eqb statement "" then "" else CommandTag statement in
  lines ← on_error (ledgerLines name (blastQuery (TObject t) (TColumn t))) (λ e, fail (impactErr name e));
  match lines with
  | [] => fail (Errorf "no answer from branch %q" [name])
  | l :: _ =>
      br ← lift (decode_with "reading the impact analysis: %w" decode_blast l);
      branches ← (if XFound br then branchPresence name (XTarget br) (text (XColumn br)) else mret []);
      policy ← (if String.eqb statement "" then mret [] else
                r ← attempt (PolicyCheck name statement);
                mret (match r with inl (_, matches) => matches | inr _ => [] end));
      let rep := mkReport name statement command (TAction t) (Destructive t) (XFound br) (XTarget br) (XType br) (XColumn br)
                   (XRows br) (XSize br) (XDependents br) (XTruncated br) branches policy 0 "" [] in
      let '(score, level, reasons) := scoreImpact rep in
      mret (mkReport name statement command (TAction t) (Destructive t) (XFound br) (XTarget br) (XType br) (XColumn br)
              (XRows br) (XSize br) (XDependents br) (XTruncated br) branches policy score level reasons)
  end.

End impact.

(** ** What the score means *)

Definition dep_weight (d : ImpactDependent) : Z :=
  match classify d with KView | KFunc | KFK => 3 | KTrigger | KPolicy => 2 | KIndex | KOther => 1 end.

Definition zsum (l : list Z) : Z := foldr Z.add 0%Z l.

(** The score as one sum over the report. *)
Definition impact_score (r : ImpactReport) : Z :=
  ((if MDestructive r then 5 else 1)
   + zsum (dep_weight <$> MDependents r)
   + (if MTruncated r then 3 else 0)
   + (if 1000000 <=? MRowsEstimate r then 3 else if 10000 <=? MRowsEstimate r then 1 else 0)
   + Z.min 5 (Z.of_nat (List.length (List.filter HPresent (MBranches r))))
   + zsum ((λ p, if String.eqb (PAction p) "block" then 5 else 2) <$> MPolicy r))%Z.

Definition reason_text (i : Z * string) : string := "+" +:+ format_int i.1 +:+ " " +:+ i.2.

(** The reasons are positive amounts that add up to the score. *)
Definition accounted (s : scored) : Prop :=
  ∃ incs : list (Z * string), s.2 = reason_text <$> incs ∧ s.1 = zsum incs.*1 ∧ Forall (λ i, (0 < i.1)%Z) incs.

Lemma zsum_app a b : zsum (a ++ b) = (zsum a + zsum b)%Z.
Proof. induction a as [|x a IH]; cbn; [done|]. unfold zsum in *. lia. Qed.

Lemma zsum_nonneg {A} (f : A → Z) l : (∀ x, 0 <= f x)%Z → (0 <= zsum (f <$> l))%Z.
Proof. intros Hf. induction l as [|x l IH]; cbn; [done|]. specialize (Hf x). unfold zsum in IH. lia. Qed.

Lemma accounted_add n why s : (0 < n)%Z → accounted s → accounted (add n why s).
Proof.
  intros Hn (incs & H2 & H1 & Hpos). exists (incs ++ [(n, why)]). split_and!.
  - cbn. by rewrite H2, fmap_app.
  - cbn. rewrite fmap_app, zsum_app, H1. cbn. lia.
  - apply Forall_app. split; [done|]. by repeat constructor.
Qed.

Lemma tally_nonneg l k : (0 <= tally l k)%Z.
Proof.
  unfold tally. induction l as [|d l IH] using rev_ind; [done|]. rewrite foldl_snoc. unfold tally_step at 1.
  destruct (decide _); lia.
Qed.

(** The seven counters, weighted. *)
Definition weighted (n : dep_kind → Z) : Z := zsum ((λ c : dep_kind * Z * (string * string), n c.1.1 * c.1.2)%Z <$> weights).

Lemma weighted_tally l : weighted (tally l) = zsum (dep_weight <$> l).
Proof.
  unfold tally. induction l as [|d l IH] using rev_ind; [done|].
  rewrite foldl_snoc, fmap_app, zsum_app, <- IH. generalize (foldl tally_step (λ _, 0%Z) l). intros n.
  unfold weighted, dep_weight, tally_step, weights. cbn. destruct (classify d); cbn; repeat case_decide; try done; lia.
Qed.

Lemma add_kind_spec n s c : (0 <= n c.1.1)%Z → (0 < c.1.2)%Z → accounted s →
  accounted (add_kind n s c) ∧ (add_kind n s c).1 = (s.1 + n c.1.1 * c.1.2)%Z.
Proof.
  destruct c as [[k w] [one many]]. cbn. intros Hn Hw Hs. destruct (Z.ltb_spec 0 (n k)).
  - split; [apply accounted_add; [nia|done]|done].
  - split; [done|]. assert (n k = 0)%Z as -> by lia. lia.
Qed.

Lemma add_kinds_spec n l s :
  (∀ k, 0 <= n k)%Z → Forall (λ c : dep_kind * Z * (string * string), (0 < c.1.2)%Z) l → accounted s →
  accounted (foldl (add_kind n) s l) ∧
  (foldl (add_kind n) s l).1 = (s.1 + zsum ((λ c : dep_kind * Z * (string * string), n c.1.1 * c.1.2) <$> l))%Z.
Proof.
  intros Hn Hl. revert s. induction Hl as [|c l Hc _ IH]; intros s Hs; cbn; [split; [done|lia]|].
  destruct (add_kind_spec n s c (Hn _) Hc Hs) as [Ha Hv]. destruct (IH _ Ha) as [Ha' Hv']. split; [done|].
  rewrite Hv', Hv. unfold zsum at 1. cbn. fold (zsum ((λ c : dep_kind * Z * (string * string), n c.1.1 * c.1.2)%Z <$> l)). lia.
Qed.

Lemma add_policies_spec l s : accounted s →
  accounted (foldl add_policy s l) ∧
  (foldl add_policy s l).1 = (s.1 + zsum ((λ p, if String.eqb (PAction p) "block" then 5 else 2) <$> l))%Z.
Proof.
  revert s. induction l as [|p l IH]; intros s Hs; cbn; [split; [done|lia]|].
  assert (accounted (add_policy s p)) as Ha by (unfold add_policy; destruct (String.eqb _ _); by apply accounted_add).
  destruct (IH _ Ha) as [Ha' Hv]. split; [done|]. rewrite Hv. unfold add_policy. destruct (String.eqb _ _); cbn; unfold zsum; lia.
Qed.

Lemma present_count_spec l : present_count l = Z.of_nat (List.length (List.filter HPresent l)).
Proof.
  unfold present_count. induction l as [|b l IH] using rev_ind; [done|]. rewrite foldl_snoc, IH, List.filter_app, length_app.
  cbn. destruct (HPresent b); cbn; lia.
Qed.

(** The score of an impact report is one sum: 5 for a destructive change and 1 for
    any other, 3, 2 or 1 for each dependent by its kind, 3 for a truncated walk, up
    to 3 for the rows, 1 for each other branch that holds the object up to 5, 5 or 2
    for each policy rule. The reasons given are positive amounts that add up to it,
    the level is read off it, and a destructive change of an existing object is never
    rated low. An object that does not exist scores nothing. *)
Theorem scoreImpact_formula r :
  let '(score, level, reasons) := scoreImpact r in
  if MFound r then
    score = impact_score r ∧ level = level_of score ∧ accounted (score, reasons)
    ∧ (if MDestructive r then 5 <= score else 1 <= score)%Z ∧ (MDestructive r = true → level ≠ "low")
  else score = 0%Z ∧ level = "none".
Proof.
  unfold scoreImpact. destruct (MFound r); cbn [negb]; [|done].
  set (s1 := if MDestructive r then _ else _). assert (accounted s1) as H1.
  { assert (accounted (0%Z, [])) as H0 by (exists []; split_and!; [done..|constructor]).
    unfold s1. destruct (MDestructive r); by apply accounted_add. }
  destruct (add_kinds_spec (tally (MDependents r)) weights s1) as [H2 V2];
    [apply tally_nonneg|by repeat constructor|done|].
  fold (weighted (tally (MDependents r))) in V2. rewrite weighted_tally in V2.
  set (s2 := foldl (add_kind _) _ _) in *. set (s3 := if MTruncated r then _ else _).
  assert (accounted s3 ∧ s3.1 = s2.1 + if MTruncated r then 3 else 0)%Z as [H3 V3].
  { unfold s3. destruct (MTruncated r); [split; [by apply accounted_add|done]|split; [done|lia]]. }
  set (s4 := add_rows _ _). assert (accounted s4 ∧ s4.1 = s3.1 +
    if 1000000 <=? MRowsEstimate r then 3 else if 10000 <=? MRowsEstimate r then 1 else 0)%Z as [H4 V4].
  { unfold s4, add_rows. destruct (_ <=? _)%Z; [|destruct (_ <=? _)%Z]; (split; [try by apply accounted_add|cbn; lia]). done. }
  rewrite present_count_spec. set (p := Z.of_nat _). set (s5 := add_branches _ _). assert (0 <= p)%Z as Hp by lia. assert (accounted s5 ∧ s5.1 = s4.1 + Z.min 5 p)%Z as [H5 V5].
  { unfold s5, add_branches. destruct (Z.ltb_spec 0 p); [|split; [done|lia]].
    destruct (Z.ltb_spec 5 p); (split; [apply accounted_add; [lia|done]|cbn; lia]). }
  destruct (add_policies_spec (MPolicy r) s5 H5) as [H6 V6]. set (s6 := foldl add_policy _ _) in *. cbn zeta.
  assert (s1.1 = if MDestructive r then 5 else 1)%Z as V1 by (unfold s1; by destruct (MDestructive r)).
  assert (s6.1 = impact_score r) as Hscore by (unfold impact_score; fold p; lia).
  pose proof (zsum_nonneg dep_weight (MDependents r) ltac:(intros d; unfold dep_weight; by destruct (classify d))) as Hd.
  pose proof (zsum_nonneg (λ p, if String.eqb (PAction p) "block" then 5 else 2)%Z (MPolicy r)
    ltac:(intros q; cbn; by destruct (String.eqb (PAction q) "block"))) as Hq.
  assert (if MDestructive r then 5 <= s6.1 else 1 <= s6.1)%Z as Hmin.
  { destruct (MDestructive r), (MTruncated r), (1000000 <=? MRowsEstimate r)%Z, (10000 <=? MRowsEstimate r)%Z; lia. }
  split_and!; [done|done|by destruct s6|done|].
  intros Hdes. rewrite Hdes in Hmin. unfold level_of. destruct (15 <=? s6.1)%Z; [done|]. destruct (Z.leb_spec 5 s6.1); [done|lia].
Qed.

(** ** It only looks *)

Section looks.
Context {W : World} {En : Env} {Em : Embedded} {T : ErrorText} {U : Unicode}.

(** The SQL a command gives psql inside a container. *)
Definition sql_of (a : action) : option string :=
  match a with Exec (_ :: "docker" :: "exec" :: l) _ => last l | _ => None end.

Definition looks (a : action) : Prop :=
  idle_action a ∧ local_action a ∧ ∀ sql, sql_of a = Some sql → HasPrefix sql "SELECT " = true.

Ltac look_cmd :=
  split; [idle_cmd|]; split; [done|let sql := fresh in let H := fresh in
    intros sql H; first [discriminate H | (cbn in H; injection H as <-; first [reflexivity|assumption])]].

Lemma ledgerLines_looks name sql : HasPrefix sql "SELECT " = true → emits looks (ledgerLines name sql).
Proof. intros Hs. unfold ledgerLines. emits_go. look_cmd. Qed.

Lemma policyCheck_looks name statement : emits looks (PolicyCheck name statement).
Proof.
  unfold PolicyCheck, policyLines. emits_go; auto with emits. apply emits_on_error; [by apply ledgerLines_looks|].
  intros e. apply emits_fail.
Qed.

Lemma BranchParent_looks name : emits looks (BranchParent name).
Proof. unfold BranchParent, capture. emits_go; look_cmd. Qed.

Lemma Branches_looks : emits looks Branches.
Proof.
  unfold Branches. apply emits_bind; [|intros us; apply emits_collect; intros u].
  - unfold activeStorage. destruct (String.eqb _ _); cbn [st_usage btrfsStorage zfsStorage];
      unfold btrfs_usage, zfs_usage, capture_or_fail, capture; emits_go; look_cmd.
  - unfold branch_info, ContainerState, ActiveConnections, Query, capture_or_fail, capture. emits_go; look_cmd.
Qed.

Lemma branchPresence_looks self object column : emits looks (branchPresence self object column).
Proof.
  unfold branchPresence. apply emits_bind; [apply emits_attempt, Branches_looks|]. intros [infos|e]; [|apply emits_ret].
  apply emits_bind; [|intros out; apply emits_ret]. apply emits_collect. intros b. unfold presence.
  cbv zeta. destruct (_ || _); [apply emits_ret|]. apply emits_bind; [apply BranchParent_looks|]. intros parent.
  apply emits_bind; [|intros a; apply emits_ret]. destruct (String.eqb _ _); [|apply emits_ret].
  by apply emits_attempt, ledgerLines_looks.
Qed.

Lemma impact_looks name statement object column : emits looks (Impact name statement object column).
Proof.
  unfold Impact. apply emits_bind; [apply emits_lift|]. intros n. cbv zeta.
  apply emits_bind; [apply emits_lift|]. intros t.
  apply emits_bind; [apply emits_on_error; [by apply ledgerLines_looks|intros e; apply emits_fail]|]. intros lines.
  destruct lines as [|l ls]; [apply emits_fail|]. apply emits_bind; [apply emits_lift|]. intros br.
  apply emits_bind; [destruct (XFound br); [apply branchPresence_looks|apply emits_ret]|]. intros bs.
  apply emits_bind; [|intros p; destruct (scoreImpact _) as [[? ?] ?]; apply emits_ret].
  destruct (String.eqb _ _); [apply emits_ret|]. emits_go; auto using policyCheck_looks.
Qed.

(** An impact analysis runs nothing: whatever statement, object and column it is
    asked about, and whatever the machine answers, it starts and stops no container
    (no sleeping branch is woken), removes no storage, and every SQL text it sends
    is a SELECT; nothing is called but the machine's own commands. *)
Theorem Impact_looks name statement object column : emits looks (Impact name statement object column).
Proof. apply impact_looks. Qed.

End looks.
