(* ===== verification/Recovery.v ===== *)
(** * Recovery: choosing a base backup, restoring to a point in time, branching before a change

    internal/branch/restore.go, branch_before.go and Restore of branch.go. The
    progress messages ([logf]) are left out. *)
From S2P Require Import Prelude GoStrings GoNum GoTime GoTimeParse GoDuration GoSort GoPath Json Effects Storage Container HA Branch Blackbox.

Open Scope string_scope.
Open Scope list_scope.

(** ** Base backups *)

(** time.Time's zero value. *)
Definition zero_time : time := (- 62135596800 * second)%Z.

Record walgBackup : Type := mkBackup {
  Name : string; StartTime : time; FinishTime : time; FinishLSN : string; SystemID : string; CompressedSize : string }.

(** json.Number: a number's literal, also when it is quoted. *)
Definition as_number (j : json) : option string :=
  match j with
  | JNum l => Some l
  | JStr s => match take_number (to_bytes s) with Some (_, []) => Some s | _ => None end
  | _ => None
  end.

Definition decode_backup (j : json) : option walgBackup :=
  m ← as_object j;
  name ← field as_string "" "backup_name" m;
  start ← field decode_time zero_time "start_time" m;
  finish ← field decode_time zero_time "finish_time" m;
  lsn ← field as_number "" "finish_lsn" m;
  sys ← field as_number "" "system_identifier" m;
  size ← field as_number "" "compressed_size" m;
  Some (mkBackup name start finish lsn sys size).

(** From the first line that starts with a bracket on, the text is the list. *)
Fixpoint find_listing (lines : list string) : option string :=
  match lines with
  | [] => None
  | l :: t => if HasPrefix (TrimSpace l) "[" then Some (Join (str1 nl) lines) else find_listing t
  end.
Definition parseBackups (out : string) : outcome error (list walgBackup) :=
  match find_listing (Split nl out) with
  | None => Ok []
  | Some js =>
      match (j ← json_parse js; as_list decode_backup j) with
      | Some bs => Ok bs
      | None => Err (Errorf "reading the base backup list: %w" [js])
      end
  end.

Definition upper_hex_digit (c : ascii) : bool :=
  is_digit c || ((65 <=? byte_val c) && (byte_val c <=? 70))%Z.
(** [0-9A-F]{24} at the front, and the rest. *)
Definition hex24 (s : string) : option string :=
  let l := to_bytes s in
  if (24 <=? List.length l)%nat && forallb upper_hex_digit (take 24 l) then Some (of_bytes (drop 24 l)) else None.
(** ^base_[0-9A-F]{24}(_D_[0-9A-F]{24})?$ *)
Definition backup_name (s : string) : bool :=
  match strip_prefix "base_" s ≫= hex24 with
  | Some "" => true
  | Some r => match strip_prefix "_D_" r ≫= hex24 with Some "" => true | _ => false end
  | None => false
  end.

(** The loop both choices share: the last of the backups that finished latest. *)
Definition pick_step (usable : walgBackup → bool) (best : option walgBackup) (b : walgBackup) : option walgBackup :=
  if negb (usable b) then best else
  match best with
  | None => Some b
  | Some x => if (FinishTime x <? FinishTime b)%Z then Some b else best
  end.
Definition pick (usable : walgBackup → bool) (bs : list walgBackup) : option walgBackup :=
  foldl (pick_step usable) None bs.

(** A backup of this very database. *)
Definition ours (systemID : string) (b : walgBackup) : bool :=
  backup_name (Name b) && (String.eqb systemID "" || String.eqb (SystemID b) systemID).

Definition finished_by (systemID : string) (at_ : time) (b : walgBackup) : bool :=
  ours systemID b && (FinishTime b <=? at_)%Z.

Definition oldest_step (oldest : time) (b : walgBackup) : time :=
  if negb (backup_name (Name b)) then oldest
  else if (oldest =? zero_time)%Z || (FinishTime b <? oldest)%Z then FinishTime b else oldest.
Definition oldestBackupNote (bs : list walgBackup) : string :=
  let oldest := foldl oldest_step zero_time bs in
  if (oldest =? zero_time)%Z then " (there are no base backups; take one with `odb backup create`)"
  else " (the oldest is from " +:+ format_rfc3339 oldest +:+ ")".

Definition ErrEntryNotFound : error := Errorf "ledger entry not found" [].
Definition ErrBranchExists : error := Errorf "branch already exists" [].
Definition ErrNoBaseBackup : error := Errorf "no usable base backup" [].

Definition pickBackupForTime (bs : list walgBackup) (systemID : string) (at_ : time) : outcome error walgBackup :=
  match pick (finished_by systemID at_) bs with
  | Some b => Ok b
  | None => Err (Wrapf "%w: no base backup had finished by %s%s — a restore can only reach a point that a base backup precedes"
                   [format_rfc3339 at_; oldestBackupNote bs] ErrNoBaseBackup)
  end.

(** ** Reading a target time *)

Definition ymd : list chunk := [Year4; Lit "-"; Month2; Lit "-"; Day2].
Definition hms : list chunk := [Hour12; Lit ":"; Min2; Lit ":"; Sec2; Frac].
Definition restoreTimeLayouts : list (list chunk) :=
  [ymd ++ [Lit " "] ++ hms ++ [ZoneHour];
   ymd ++ [Lit " "] ++ hms ++ [ZoneColon];
   ymd ++ [Lit "T"] ++ hms ++ [ZoneZ];
   ymd ++ [Lit " "] ++ hms;
   ymd ++ [Lit "T"] ++ hms;
   ymd ++ [Lit " "; Hour12; Lit ":"; Min2];
   ymd ++ [Lit "T"; Hour12; Lit ":"; Min2];
   ymd].
Definition parseRestoreTime (ts : string) : option time :=
  let s := TrimSpace ts in first_some (λ l, time_parse l s) restoreTimeLayouts.

(** ** The entry to branch before *)

Record beforeEntry : Type := mkBefore {
  BID : Z; BStatus : string; BCommandTag : string; BObject : string; BStatement : string; BAt : time; BXID : Z; BLSN : Z }.

Definition parse_entry_fields (m : list (string * json)) : option (beforeEntry * string * string) :=
  id ← field as_int 0%Z "id" m;
  status ← pointer as_string "status" m;
  tag ← pointer as_string "command_tag" m;
  obj ← pointer as_string "object_identity" m;
  stmt ← pointer as_string "statement" m;
  at_ ← field as_string "" "at" m;
  xid ← pointer as_int "xid" m;
  lsn ← pointer as_string "lsn" m;
  Some (mkBefore id (text status) (text tag) (text obj) (text stmt) 0 (default 0%Z xid) 0, at_, text lsn).

Definition parseEntryJSON (line : string) : outcome error beforeEntry :=
  match (j ← json_parse line; m ← as_object j; parse_entry_fields m) with
  | None => Err (Errorf "reading the ledger entry: %w" [line])
  | Some (e, at_, lsn) =>
      match time_parse rfc3339nano at_ with
      | None => Err (Errorf "reading the ledger entry time %q: %w" [at_])
      | Some t =>
          let with_lsn n := mkBefore (BID e) (BStatus e) (BCommandTag e) (BObject e) (BStatement e) t (BXID e) n in
          if String.eqb lsn "" then Ok (with_lsn 0%Z) else
          match parse_uint64 lsn with
          | Some n => Ok (with_lsn n)
          | None => Err (Errorf "reading the ledger entry WAL position %q: %w" [lsn])
          end
      end
  end.

Inductive target_kind : Type := ByXid | ByTime.
Definition kind_text (k : target_kind) : string := match k with ByXid => "xid" | ByTime => "time" end.

(** The transaction id without its epoch, or the time to the microsecond. *)
Definition recoveryTarget (e : beforeEntry) : target_kind * string :=
  if (0 <? BXID e)%Z then (ByXid, format_int (Z.land (BXID e) 0xffffffff))
  else (ByTime, format_datetime (BAt e) +:+ format_frac (BAt e) +:+ "+00").

Definition before_entry (e : beforeEntry) (b : walgBackup) : bool :=
  if (0 <? BLSN e)%Z then match parse_uint64 (FinishLSN b) with Some fin => (fin <=? BLSN e)%Z | None => false end
  else (FinishTime b <? BAt e)%Z.

Definition pickBaseBackup (bs : list walgBackup) (systemID : string) (e : beforeEntry) : outcome error walgBackup :=
  match pick (λ b, ours systemID b && before_entry e b) bs with
  | Some b => Ok b
  | None => Err (Wrapf ("%w: no base backup of this database finished before ledger entry %d (%s) — " +:+
                        "take one with `odb backup create`; only changes made after a base backup can be branched before")
                   [format_int (BID e); format_rfc3339 (BAt e)] ErrNoBaseBackup)
  end.

(** Strings cut to their first 24 bytes are compared. *)
Definition walArchived (lastArchived segment : string) : bool :=
  if (String.length lastArchived <? 24)%nat || (String.length segment <? 24)%nat then false
  else negb (str_lt (substring 0 24 lastArchived) (substring 0 24 segment)).

Definition DefaultBeforeName (src : string) (entryID : Z) : string := src +:+ "-before-" +:+ format_int entryID.

(** ^[a-z0-9][a-z0-9-]{0,40}$ *)
Definition before_name (s : string) : bool := slug 40 s.
Definition validateBeforeName (name : string) : option error :=
  if negb (before_name name)
  then Some (Wrapf "%w: invalid branch name %q (use lowercase letters, digits, dashes)" [name] ErrInvalidRequest)
  else if String.eqb name "main" || String.eqb name "restore" || String.eqb name "standby"
  then Some (Wrapf "%w: %q is a reserved branch name" [name] ErrInvalidRequest)
  else if HasPrefix name "agent-"
  then Some (Wrapf "%w: names starting with agent- are reserved for agent branches" [] ErrInvalidRequest)
  else None.

(** ^\d{4}-\d{2}-\d{2} \d{2}:\d{2}:\d{2}(\.\d{1,6})?\+00$ and ^\d+$ *)
Fixpoint match_shape (shape : string) (s : string) : option string :=
  match shape, s with
  | EmptyString, _ => Some s
  | String "d"%char p, String c t => if is_digit c then match_shape p t else None
  | String x p, String c t => if Ascii.eqb x c then match_shape p t else None
  | String _ _, EmptyString => None
  end.
Definition target_time (s : string) : bool :=
  match match_shape "dddd-dd-dd dd:dd:dd" s with
  | None => false
  | Some r =>
      let r := match r with
               | String "."%char t => let '(d, u) := span_while is_digit t in
                                      if (1 <=? String.length d)%nat && (String.length d <=? 6)%nat then u else r
               | _ => r
               end in
      String.eqb r "+00"
  end.
Definition target_ok (k : target_kind) (target : string) : bool :=
  match k with
  | ByXid => negb (String.eqb target "") && all_digits target
  | ByTime => target_time target
  end.

Definition entryQuery (entryID : Z) (withExt : bool) : string :=
  let '(xid, lsn, join) :=
    if withExt then ("e.xid", "(e.lsn - '0/0'::pg_lsn)::text", " LEFT JOIN odb.ledger_ext e ON e.ledger_id = l.id")
    else ("NULL::bigint", "NULL::text", "") in
  lines_of
  ["SELECT json_build_object('id', l.id, 'status', l.status, 'command_tag', l.command_tag,";
   "  'object_identity', l.object_identity, 'statement', l.statement,";
   "  'at', to_char(l.at AT TIME ZONE 'UTC', 'YYYY-MM-DD" +:+ str1 dquote +:+ "T" +:+ str1 dquote +:+ "HH24:MI:SS.US"
     +:+ str1 dquote +:+ "Z" +:+ str1 dquote +:+ "'),";
   "  'xid', " +:+ xid +:+ ", 'lsn', " +:+ lsn +:+ ")";
   "FROM odb.schema_ledger l" +:+ join +:+ " WHERE l.id = " +:+ format_int entryID].

(** ** Restores *)

Section recovery.
Context {W : World} {En : Env} {Em : Embedded}.

Definition envDurationOr (key : string) (def : Z) : Z :=
  match ParseDuration (TrimSpace (getenv key)) with
  | Some d => if (0 <? d)%Z then d else def
  | None => def
  end.

Definition list_backups_args : list string :=
  ["docker"; "run"; "--rm"; "--network"; network] ++ walgEnv ++ [image; "wal-g"; "backup-list"; "--json"; "--detail"].

Definition listBaseBackups : prog (list walgBackup) :=
  let a := sudo list_backups_args in
  r ← call a;
  if rok r then lift (parseBackups (rout r))
  else if Contains (rall r) "No backups found" then mret []
  else fail (Wrapf "listing base backups: %w" [] (CommandFailed a)).

Definition primarySystemID : prog string :=
  b ← primaryBranch;
  lines ← attempt (ledgerLines b "SELECT system_identifier::text FROM pg_control_system()");
  mret (match lines with
        | inl (l :: _) => match parse_uint64 (TrimSpace l) with Some _ => TrimSpace l | None => "" end
        | _ => ""
        end).

Definition restoreBackupName (ts : string) : prog string :=
  if EqualFold (TrimSpace ts) "latest" then mret "LATEST" else
  match parseRestoreTime ts with
  | None =>
      _ ← ignore (Print "note: %q was not read as a timestamp here, so the restore starts from the newest base backup\n" [ts]);
      mret "LATEST"
  | Some at_ =>
      bs ← listBaseBackups;
      sys ← primarySystemID;
      b ← lift (pickBackupForTime bs sys at_);
      mret (Name b)
  end.

Definition restore_args (ts backup : string) : list string :=
  ["docker"; "run"; "-d"; "--name"; container "restore"; "--network"; network] ++ walgEnv
  ++ ["-e"; "PGDATA=/var/lib/postgresql/data/pgdata"; "-e"; "RECOVERY_TARGET_TIME=" +:+ ts; "-e"; "BACKUP_NAME=" +:+ backup;
      "-p"; "5433:5432"; "--entrypoint"; "bash"; image; "-c"; restorePITRScript].

Definition Restore (ts : string) : prog unit :=
  backup ← restoreBackupName ts;
  _ ← when (negb (String.eqb backup "LATEST"))
        (ignore (Print "starting from base backup %s (the newest one that precedes %s)\n" [backup; ts]));
  _ ← quiet ["docker"; "rm"; "-f"; container "restore"];
  _ ← run (restore_args ts backup);
  _ ← waitRecovered "restore";
  ignore (Print "restored to %q, ready as container %s (port 5433)." [ts; container "restore"]).

Record BackupInfo : Type := mkBackupInfo { IName : string; StartedAt : string; FinishedAt : string; SizeBytes : Z; Newest : bool }.

Definition formatBackupTime (t : time) : string := if (t =? zero_time)%Z then "" else format_rfc3339 t.

Definition backup_info (b : walgBackup) : BackupInfo :=
  mkBackupInfo (Name b) (formatBackupTime (StartTime b)) (formatBackupTime (FinishTime b)) (default 0%Z (atoi (CompressedSize b))) false.
Definition finished_later (x y : BackupInfo) : bool := str_lt (FinishedAt y) (FinishedAt x).
Definition mark_newest (l : list BackupInfo) : list BackupInfo :=
  match l with
  | b :: t => mkBackupInfo (IName b) (StartedAt b) (FinishedAt b) (SizeBytes b) true :: t
  | [] => []
  end.

Definition Backups : prog (list BackupInfo) :=
  bs ← listBaseBackups;
  sys ← primarySystemID;
  mret (mark_newest (sort_slice finished_later (backup_info <$> filter (λ b, ours sys b = true) bs))).

(** ** Branching before an entry *)

(** strings.SplitN(s, "|", 3). *)
Definition Split3 (c : ascii) (s : string) : list string :=
  match Split2 c s with
  | [a; r] => a :: Split2 c r
  | l => l
  end.

Fixpoint flush_loop (fuel : nat) (primary segment : string) (deadline : Z) : prog unit :=
  match fuel with
  | O => raise "out of fuel"
  | S fuel =>
      lines ← attempt (ledgerLines primary
        "SELECT coalesce(last_archived_wal, '') || '|' || coalesce(last_failed_wal, '') FROM pg_stat_archiver");
      let st := match lines with inl (l :: _) => Split3 "|" (l +:+ "|") | _ => [] end in
      if walArchived (nth 0 st "") segment then mret tt else
      now ← call Now;
      if (deadline <? rnum now)%Z
      then fail (match st with
                 | [] => Errorf "WAL segment %s was not archived in time: %v" [segment]
                 | _ => Errorf "WAL segment %s was not archived in time (last archived %q, last failed %q)" [segment; nth 0 st ""; nth 1 st ""]
                 end)
      else _ ← ignore (Sleep sec); flush_loop fuel primary segment deadline
  end.

Definition flushWALArchive (primary : string) : prog unit :=
  lines ← attempt (ledgerLines primary "SELECT current_setting('archive_mode') || '|' || pg_walfile_name(pg_current_wal_lsn())");
  match lines with
  | inl (l :: _) =>
      match Split2 "|" l with
      | [mode; segment] =>
          if String.eqb mode "off"
          then fail (Errorf "the primary is not archiving WAL, so there is no history to restore from" []) else
          _ ← wrap "switching WAL segment: %w" [] (ledgerLines primary "SELECT pg_switch_wal()");
          let wait := envDurationOr "OXYNDB_WAL_ARCHIVE_WAIT" (2 * minute) in
          start ← call Now;
          flush_loop (Z.to_nat (wait / sec + 3)) primary segment (rnum start + wait)
      | _ => fail (Errorf "the primary is not archiving WAL, so there is no history to restore from" [])
      end
  | _ => fail (Errorf "reading the primary's WAL position: %v" [])
  end.

Definition containerLogTail (name : string) (n : Z) : prog string :=
  '(out, _) ← captureCombined ["docker"; "logs"; "--tail"; format_int n; container name]; mret out.

Fixpoint promoted_loop (fuel : nat) (name : string) (deadline timeout : Z) : prog unit :=
  match fuel with
  | O => raise "out of fuel"
  | S fuel =>
      st ← ContainerState name;
      if String.eqb st "running" || String.eqb st "created" || String.eqb st "restarting" then
        out ← call (sudo ["docker"; "exec"; "-e"; "PGPASSWORD=" +:+ pgPass; container name; "psql"; "-h"; "localhost";
                          "-U"; pgUser; "-d"; pgDatabase; "-tAc"; "SELECT pg_is_in_recovery()"]);
        if String.eqb (TrimSpace (rout out)) "f" then mret tt else
        now ← call Now;
        if (deadline <? rnum now)%Z then
          tail ← containerLogTail name 15;
          fail (Errorf "the restore did not finish within %s (set OXYNDB_BRANCH_BEFORE_TIMEOUT to wait longer):\n%s"
                  [format_int timeout; tail])
        else _ ← ignore (Sleep (2 * sec)); promoted_loop fuel name deadline timeout
      else
        tail ← containerLogTail name 15;
        fail (Errorf "the restore stopped (%s) before reaching its target:\n%s" [st; tail])
  end.
Definition waitPromoted (name : string) (timeout : Z) : prog unit :=
  start ← call Now;
  promoted_loop (Z.to_nat (timeout / (2 * sec) + 3)) name (rnum start + timeout) timeout.

Record BeforeEntryResult : Type := mkBeforeResult {
  RBranch : string; Source : string; EntryID : Z; RCommandTag : string; RObject : string; RStatement : string;
  TargetKind : string; RTarget : string; BaseBackup : string; LastLedgerID : Z; Seconds : Z }.

(** Removes what was created; the first error is the one reported. *)
Definition undo (newName : string) (e : error) {A} : prog A :=
  _ ← quiet ["docker"; "rm"; "-f"; container newName];
  d ← attempt (st_destroy activeStorage newName);
  match d with
  | inl _ => fail e
  | inr _ => fail (Wrapf "%w (and removing the partial branch failed: %v)" [] e)
  end.
Definition or_undo {A} (newName : string) (m : prog A) : prog A :=
  r ← attempt m; match r with inl a => mret a | inr e => undo newName e end.

Definition restore_before_args (script newName backup : string) (kind : target_kind) (target : string) : list string :=
  ["docker"; "run"; "-d"; "--name"; container newName; "--network"; network] ++ walgEnv
  ++ ["-e"; "PGDATA=/var/lib/postgresql/data/pgdata"; "-e"; "BACKUP_NAME=" +:+ backup;
      "-e"; "RECOVERY_TARGET_KIND=" +:+ kind_text kind; "-e"; "RECOVERY_TARGET=" +:+ target;
      "-v"; mountpoint newName +:+ ":/var/lib/postgresql/data"; "--entrypoint"; "bash"; image; "-c"; script].

Definition recovery_settings : list string :=
  ["restore_command"; "recovery_target_xid"; "recovery_target_time"; "recovery_target_inclusive"; "recovery_target_action";
   "archive_mode"].

(** The entry and its recovery target. *)
Definition find_entry (primary : string) (entryID : Z) : prog beforeEntry :=
  '(ext, _) ← ledgerV2Tables primary;
  lines ← ledgerLines primary (entryQuery entryID ext);
  match lines with
  | [] => fail (Wrapf "%w: no entry %d in %s's ledger" [format_int entryID; "main"] ErrEntryNotFound)
  | l :: _ =>
      e ← lift (parseEntryJSON l);
      if String.eqb (BStatus e) "BLOCKED"
      then fail (Wrapf "%w: entry %d was BLOCKED — that change never happened, so there is nothing to branch before"
                   [format_int entryID] ErrInvalidRequest)
      else mret e
  end.

Definition find_backup (primary : string) (e : beforeEntry) : prog walgBackup :=
  _ ← flushWALArchive primary;
  sys ← attempt (ledgerLines primary "SELECT system_identifier::text FROM pg_control_system()");
  match sys with
  | inl (s :: _) => bs ← listBaseBackups; lift (pickBaseBackup bs s e)
  | _ => fail (Errorf "reading the primary's system identifier: %v" [])
  end.

(** Starts the restore; its output is part of the error. *)
Definition start_restore (script newName backup : string) (kind : target_kind) (target : string) : prog unit :=
  '(out, ok) ← captureCombined (restore_before_args script newName backup kind target);
  if (ok : bool) then mret tt else fail (Errorf "starting the restore: %v: %s" [out]).

(** The restored branch must not hold the entry. *)
Definition absent_entry (newName : string) (entryID : Z) : prog unit :=
  present ← wrap "checking the restored ledger: %w" []
    (ledgerLines newName ("SELECT count(*) FROM odb.schema_ledger WHERE id = " +:+ format_int entryID));
  match present with
  | l :: _ => if String.eqb l "0" then mret tt
              else fail (Errorf "the restored branch still contains ledger entry %d; not keeping it" [format_int entryID])
  | [] => fail (Errorf "the restored branch still contains ledger entry %d; not keeping it" [format_int entryID])
  end.

Definition newest_entry (newName : string) : prog Z :=
  l ← attempt (ledgerLines newName "SELECT coalesce(max(id), 0) FROM odb.schema_ledger");
  mret (match l with inl (x :: _) => atoi_value x | _ => 0%Z end).

Definition reset_setting (newName g : string) : prog unit :=
  _ ← wrap "clearing recovery setting %s: %w" [g] (ledgerLines newName ("ALTER SYSTEM RESET " +:+ g)); mret tt.

(** From a restored container to an ordinary branch; the newest entry on it. *)
Definition adopt (script newName backup : string) (kind : target_kind) (target : string) (entryID : Z) : prog Z :=
  _ ← start_restore script newName backup kind target;
  _ ← waitPromoted newName (envDurationOr "OXYNDB_BRANCH_BEFORE_TIMEOUT" (15 * minute));
  _ ← absent_entry newName entryID;
  last_ ← newest_entry newName;
  _ ← for_each (reset_setting newName) recovery_settings;
  _ ← quiet ["docker"; "stop"; "-t"; "60"; container newName];
  _ ← startContainer newName false;
  _ ← waitReady newName;
  mret last_.

Definition locked {A} (m : prog A) : prog A :=
  _ ← ignore (CallOut "branchBeforeMu.Lock" []);
  r ← attempt m;
  _ ← ignore (CallOut "branchBeforeMu.Unlock" []);
  match r with inl a => mret a | inr e => fail e end.

Definition branch_before (script : string) (started : Z) (entryID : Z) (newName : string) : prog BeforeEntryResult :=
  there ← st_exists activeStorage newName;
  st ← (if (there : bool) then mret "" else ContainerState newName);
  if (there : bool) || negb (String.eqb st "absent")
  then fail (Wrapf "%w: %q" [newName] ErrBranchExists) else
  cont ← PrimaryContainer;
  let primary := TrimPrefix cont "oxyn-" in
  e ← find_entry primary entryID;
  let '(kind, target) := recoveryTarget e in
  b ← find_backup primary e;
  if negb (target_ok kind target) then fail (Errorf "unexpected recovery target %q" [target]) else
  _ ← ensureNetwork;
  _ ← wrap "creating storage for %q: %w" [newName] (st_createEmpty activeStorage newName);
  last_ ← or_undo newName (adopt script newName (Name b) kind target entryID);
  _ ← reconcileGuard newName;
  now ← call Now;
  mret (mkBeforeResult newName "main" entryID (BCommandTag e) (BObject e) (BStatement e) (kind_text kind) target (Name b) last_
          ((rnum now - started) / sec)).

Definition BranchBeforeEntry (script src : string) (entryID : Z) (newName : string) : prog BeforeEntryResult :=
  started ← call Now;
  let src := or_main src in
  if negb (String.eqb src "main")
  then fail (Wrapf "%w: only main can be branched before an entry — it is the only branch that archives WAL" [] ErrInvalidRequest) else
  if (entryID <=? 0)%Z then fail (Wrapf "%w: entry id must be a positive ledger id" [] ErrInvalidRequest) else
  let newName := if String.eqb newName "" then DefaultBeforeName src entryID else newName in
  _ ← check (validateBeforeName newName);
  locked (branch_before script (rnum started) entryID newName).

End recovery.

(** ** Choosing a backup *)

Lemma pick_spec usable bs :
  match pick usable bs with
  | Some b => b ∈ bs ∧ usable b = true ∧ ∀ x, x ∈ bs → usable x = true → (FinishTime x <= FinishTime b)%Z
  | None => ∀ x, x ∈ bs → usable x = false
  end.
Proof.
  unfold pick. induction bs as [|b bs IH] using rev_ind; [intros x Hx; by apply elem_of_nil in Hx|].
  rewrite foldl_snoc. set (best := foldl _ _ _) in *. unfold pick_step.
  destruct (usable b) eqn:Hb; cbn [negb].
  - destruct best as [x|].
    + destruct IH as (Hin & Hx & Hmax). destruct (FinishTime x <? FinishTime b)%Z eqn:Hlt.
      * split; [apply elem_of_app; right; by apply list_elem_of_singleton|]. split; [done|].
        intros y [Hy|Hy%list_elem_of_singleton]%elem_of_app Hu; [specialize (Hmax y Hy Hu); lia|subst; lia].
      * split; [apply elem_of_app; by left|]. split; [done|].
        intros y [Hy|Hy%list_elem_of_singleton]%elem_of_app Hu; [by apply Hmax|subst; lia].
    + split; [apply elem_of_app; right; by apply list_elem_of_singleton|]. split; [done|].
      intros y [Hy|Hy%list_elem_of_singleton]%elem_of_app Hu; [by rewrite IH in Hu|subst; lia].
  - destruct best as [x|].
    + destruct IH as (Hin & Hx & Hmax). split; [apply elem_of_app; by left|]. split; [done|].
      intros y [Hy|Hy%list_elem_of_singleton]%elem_of_app Hu; [by apply Hmax|subst; congruence].
    + intros y [Hy|Hy%list_elem_of_singleton]%elem_of_app; [by apply IH|by subst].
Qed.

(** The backup a recovery starts from is the newest that can serve: one of the
    listed backups, well named, of this very database, complete before the target
    (by WAL position when the entry's is known, otherwise by time), and no other
    such backup finished later. It is refused exactly when there is none. *)
Theorem pickBackup_spec bs systemID at_ e :
  (match pickBackupForTime bs systemID at_ with
   | Ok b => b ∈ bs ∧ ours systemID b = true ∧ (FinishTime b <= at_)%Z
             ∧ ∀ x, x ∈ bs → ours systemID x = true → (FinishTime x <= at_)%Z → (FinishTime x <= FinishTime b)%Z
   | Err _ => ∀ x, x ∈ bs → ours systemID x = true → (at_ < FinishTime x)%Z
   | Panic _ => False
   end)
  ∧ (match pickBaseBackup bs systemID e with
     | Ok b => b ∈ bs ∧ ours systemID b = true ∧ before_entry e b = true
               ∧ ∀ x, x ∈ bs → ours systemID x = true → before_entry e x = true → (FinishTime x <= FinishTime b)%Z
     | Err _ => ∀ x, x ∈ bs → ours systemID x = true → before_entry e x = false
     | Panic _ => False
     end).
Proof.
  unfold pickBackupForTime, pickBaseBackup. split.
  - pose proof (pick_spec (finished_by systemID at_) bs) as Hp. destruct (pick _ bs) as [b|]; unfold finished_by in Hp.
    + destruct Hp as (Hin & [Ho Hf]%andb_true_iff & Hmax). split; [done|]. split; [done|]. split; [lia|].
      intros x Hx Hxo Hxf. apply Hmax; [done|]. rewrite Hxo. lia.
    + intros x Hx Hxo. specialize (Hp x Hx). rewrite Hxo in Hp. cbn in Hp. lia.
  - pose proof (pick_spec (λ b, ours systemID b && before_entry e b) bs) as Hp. destruct (pick _ bs) as [b|].
    + destruct Hp as (Hin & [Ho Hf]%andb_true_iff & Hmax). do 3 (split; [done|]).
      intros x Hx Hxo Hxf. apply Hmax; [done|]. by rewrite Hxo.
    + intros x Hx Hxo. specialize (Hp x Hx). by rewrite Hxo in Hp.
Qed.

(** ** What branching before a change may touch *)

(** A command enters the branch's container, or asks with a SELECT; and does no more. *)
Ltac ask_cmd :=
  let c := fresh in let s := fresh in let H := fresh in
  intros c s H; cbn in H; try discriminate H; injection H as <- <-; first [by left | right; done].
Ltac gentle_cmd := split; [split; [intros ?c; split; easy|done]|]; split; [ask_cmd|done].

Section before_props.
Context {W : World} {En : Env} {Em : Embedded}.

(** The container a command enters by [docker exec], and its last argument, the SQL where
    it is psql. *)
Fixpoint exec_container (l : list string) : option string :=
  match l with
  | "-e" :: _ :: l | "-i" :: l => exec_container l
  | c :: _ => Some c
  | [] => None
  end.
Definition exec_of (a : action) : option (string * string) :=
  match a with
  | Exec (_ :: "docker" :: "exec" :: l) _ => c ← exec_container l; s ← last l; Some (c, s)
  | _ => None
  end.

(** Creates a dataset or a subvolume. *)
Definition makes_storage (a : action) : bool :=
  match a with
  | Exec ("sudo" :: "zfs" :: "create" :: _) _ | Exec ("sudo" :: "btrfs" :: "subvolume" :: "create" :: _) _ => true
  | _ => false
  end.

(** Runs nothing but a SELECT in another container than [name]'s. *)
Definition asks_others (name : string) (a : action) : Prop :=
  ∀ c s, exec_of a = Some (c, s) → c = container name ∨ HasPrefix s "SELECT " = true.

(** Starts and stops no container but [name]'s, asks the others questions only, and takes no
    storage but [name]'s and that of branches made from it. *)
Definition own_action (name : string) (a : action) : Prop :=
  (∀ c, starts c a ∨ stops c a → c = container name) ∧ asks_others name a ∧ spares name a.

(** Starts no container and makes no storage. *)
Definition leaves_off (a : action) : Prop := (∀ c, ¬ starts c a) ∧ makes_storage a = false.

Definition gentle (name : string) (a : action) : Prop :=
  idle_action a ∧ asks_others name a ∧ makes_storage a = false.

Lemma gentle_own name a : gentle name a → own_action name a.
Proof.
  intros ([Hh Hr] & Ha & _). split; [intros c Hs; destruct (Hh c); tauto|]. split; [done|by apply idle_spares].
Qed.

Lemma gentle_off name a : gentle name a → leaves_off a.
Proof. intros ([Hh _] & _ & Hm). split; [|done]. intros c. apply Hh. Qed.

Lemma ledgerLines_gentle name b sql : b = name ∨ HasPrefix sql "SELECT " = true → emits (gentle name) (ledgerLines b sql).
Proof.
  intros Hs. unfold ledgerLines. emits_go. split; [split; [intros c; split; easy|done]|]. split; [|done].
  intros c s H. cbn in H. injection H as <- <-. destruct Hs as [->|Hs]; [by left|by right].
Qed.

Lemma wrap_gentle name {A} f args (m : prog A) : emits (gentle name) m → emits (gentle name) (wrap f args m).
Proof. intros Hm. unfold wrap. emits_go. done. Qed.

Lemma ask_gentle name primary sql : HasPrefix sql "SELECT " = true → emits (gentle name) (ledgerLines primary sql).
Proof. intros Hs. apply ledgerLines_gentle. by right. Qed.
#[local] Hint Resolve ask_gentle wrap_gentle : emits.
#[local] Hint Extern 0 (HasPrefix _ "SELECT " = true) => reflexivity : emits.

Lemma entryQuery_asks id ext : HasPrefix (entryQuery id ext) "SELECT " = true.
Proof. by destruct ext. Qed.
#[local] Hint Resolve entryQuery_asks : emits.

Lemma find_entry_gentle n primary id : emits (gentle n) (find_entry primary id).
Proof. unfold find_entry, ledgerV2Tables. emits_go; auto with emits. Qed.

Lemma flush_gentle n primary : emits (gentle n) (flushWALArchive primary).
Proof.
  unfold flushWALArchive. emits_go; auto with emits; [gentle_cmd|].
  generalize (Z.to_nat (envDurationOr "OXYNDB_WAL_ARCHIVE_WAIT" (2 * minute) / sec + 3)). intros fuel.
  induction fuel as [|fuel IH]; cbn [flush_loop]; [apply emits_raise|]. emits_go; auto with emits; gentle_cmd.
Qed.

Lemma find_backup_gentle n primary e : emits (gentle n) (find_backup primary e).
Proof. unfold find_backup, listBaseBackups. emits_go; auto using flush_gentle with emits. gentle_cmd. Qed.

Lemma primary_gentle n : emits (gentle n) PrimaryContainer.
Proof. unfold PrimaryContainer, primaryBranch. emits_go. gentle_cmd. Qed.
Lemma state_gentle n b : emits (gentle n) (ContainerState b).
Proof. unfold ContainerState, capture. emits_go. gentle_cmd. Qed.
Lemma network_gentle n : emits (gentle n) ensureNetwork.
Proof. unfold ensureNetwork, ok_sudo, run. emits_go; gentle_cmd. Qed.
Lemma guard_gentle n : emits (gentle n) (reconcileGuard n).
Proof. unfold reconcileGuard, setGuard, run. emits_go. gentle_cmd. Qed.

Lemma waitPromoted_gentle n timeout : emits (gentle n) (waitPromoted n timeout).
Proof.
  unfold waitPromoted. emits_go; [gentle_cmd|]. generalize (Z.to_nat (timeout / (2 * sec) + 3)) (rnum a + timeout)%Z.
  intros fuel d. induction fuel as [|fuel IH]; cbn [promoted_loop]; [apply emits_raise|].
  unfold ContainerState, containerLogTail, capture, captureCombined. emits_go; try apply IH; gentle_cmd.
Qed.

Lemma absent_gentle n id : emits (gentle n) (absent_entry n id).
Proof. unfold absent_entry. emits_go; auto with emits. Qed.

(** Looking whether a branch's storage is there; making it. *)
Lemma storage_gentle n :
  emits (gentle n) (st_exists activeStorage n)
  ∧ emits (λ a, idle_action a ∧ asks_others n a) (st_createEmpty activeStorage n).
Proof.
  unfold activeStorage. destruct (String.eqb _ _); cbn [st_exists st_createEmpty btrfsStorage zfsStorage];
    unfold btrfs_exists, btrfs_createEmpty, disableCoW, zfs_createEmpty, datasetExists, setBranchRefquota, reserveMain;
    (split; emits_branch); first [gentle_cmd | split; [split; [intros c; split; easy|done]|ask_cmd]].
Qed.

Lemma before_name_plain n : before_name n = true → plain_name n = true.
Proof.
  unfold before_name, slug. destruct (to_bytes n) as [|c t] eqn:Hn; [done|]. intros [[Hc Ht]%andb_true_iff _]%andb_true_iff.
  assert (∀ d, d ∈ to_bytes n → lower_or_digit d || Ascii.eqb d "-" = true) as Hall.
  { intros d. rewrite Hn. intros [->|Hd]%elem_of_cons; [by rewrite Hc|].
    rewrite forallb_forall in Ht. apply Ht. by apply list_elem_of_In. }
  assert (∀ x, lower_or_digit x || Ascii.eqb x "-" = false → has_byte x n = false) as Hno.
  { intros x Hx. apply has_byte_false. intros Hin. specialize (Hall x Hin). congruence. }
  unfold plain_name, plain_elem. rewrite !Hno by reflexivity.
  destruct n as [|d n]; [done|]. assert (d = c) as ->.
  { change (to_bytes (String d n)) with (d :: to_bytes n) in Hn. by injection Hn. }
  assert (∀ s, HasPrefix (String c s) "." = true → False) as Hdot.
  { intros s Hs. apply HasPrefix_spec in Hs as [r [= -> _]]. done. }
  rewrite !andb_true_iff, !negb_true_iff. split_and!; try done; apply String.eqb_neq; intros Heq;
    apply (Hdot n); by rewrite Heq.
Qed.

Lemma adopt_own script n backup kind target id : n ≠ "main" → emits (own_action n) (adopt script n backup kind target id).
Proof.
  intros Hn. assert (∀ A (m : prog A), emits (gentle n) m → emits (own_action n) m) as Hgentle.
  { intros A m Hm. eapply emits_mono; [|exact Hm]. intros a. apply gentle_own. }
  assert (∀ sql, emits (own_action n) (ledgerLines n sql)) as Hsql by (intros sql; apply Hgentle, ledgerLines_gentle; by left).
  unfold adopt, start_restore, reset_setting, newest_entry, wrap. emits_go; auto;
    try (apply Hgentle; solve [auto using waitPromoted_gentle, absent_gentle with emits]).
  all: emits_branch; (split; [intros c [Hc|Hc]; cbn in Hc; first [done | by subst c | easy]|]).
  all: (split; [ask_cmd|by apply idle_spares]).
Qed.

(** Clean-up reaches nothing but the branch, starts nothing and makes nothing. *)
Lemma undo_own n e A : plain_name n = true → n ≠ "main" →
  emits (λ a, own_action n a ∧ leaves_off a) (undo n e (A := A)).
Proof.
  intros Hplain Hn. unfold undo, quiet. emits_go.
  - split; [|split; [intros c; easy|done]]. split; [intros c [Hc|Hc]; cbn in Hc; first [easy | by subst c]|].
    split; [ask_cmd|by apply idle_spares].
  - assert (emits no_container (st_destroy activeStorage n)) as Hquiet.
    { apply (storage_no_container no_container).
      - intros l i Hl c. split; [by apply not_docker_starts|by apply not_docker_stops].
      - intros f args c. split; easy. }
    assert (emits (λ a, asks_others n a ∧ makes_storage a = false) (st_destroy activeStorage n)) as Hasks.
    { unfold activeStorage. destruct (String.eqb _ _); cbn [st_destroy btrfsStorage zfsStorage];
        unfold btrfs_destroy, zfs_destroy, capture, run, quiet; emits_branch; (split; [ask_cmd|done]). }
    eapply emits_mono; [|apply emits_and; [apply emits_and; [apply (destroy_spares n Hplain)|exact Hquiet]|exact Hasks]].
    intros x [[Hr Hc] [Ha Hm]]. split; [split; [|by split]|split; [|done]].
    + intros c Hx. destruct (Hc c). tauto.
    + intros c. apply Hc.
Qed.

(** The branch a request is for, once its name has been accepted. *)
Definition accepted_name (src : string) (entryID : Z) (newName n : string) : Prop :=
  n = (if String.eqb newName "" then DefaultBeforeName (or_main src) entryID else newName)
  ∧ plain_name n = true ∧ n ≠ "main" ∧ n ≠ "restore" ∧ n ≠ "standby" ∧ HasPrefix n "agent-" = false.

Lemma validate_accepts src entryID newName n :
  n = (if String.eqb newName "" then DefaultBeforeName (or_main src) entryID else newName) →
  validateBeforeName n = None → accepted_name src entryID newName n.
Proof.
  intros Heq. unfold validateBeforeName. destruct (before_name n) eqn:Hb; cbn [negb]; [|done].
  destruct (String.eqb_spec n "main"), (String.eqb_spec n "restore"), (String.eqb_spec n "standby"); cbn [orb]; try done.
  destruct (HasPrefix n "agent-") eqn:Ha; [done|]. intros _.
  split_and!; try done. by apply before_name_plain.
Qed.

(** A part of a run [t] from [h] is a run of [m] that ends in [o]. *)
Definition part_run {A} (m : prog A) (h : history) (o : outcome error A) (t : history) : Prop :=
  ∃ t1 t2 t3, t = t1 ++ t2 ++ t3 ∧ runs m (h ++ t1) o t2.

Lemma part_run_around {A} (m : prog A) h o t u v : part_run m (h ++ u) o t → part_run m h o (u ++ t ++ v).
Proof.
  intros (t1 & t2 & t3 & -> & Hm). exists (u ++ t1), t2, (t3 ++ v). rewrite <- !app_assoc in *. by split.
Qed.

(** Container and storage were removed, after the last start and the last creation: docker
    rm -f of the container, and the storage's own removal, all of it. *)
Definition undone (n : string) (h t : history) : Prop :=
  ∃ t1 t2 o, t = t1 ++ t2 ∧ Forall (λ e, leaves_off e.1) t2
    ∧ Exists (λ e, e.1 = sudo ["docker"; "rm"; "-f"; container n]) t2
    ∧ part_run (st_destroy activeStorage n) (h ++ t1) o t2.

(** How a run that failed left the branch: no container was started and no storage made; or
    no container was started and making the storage failed; or both were removed. *)
Definition cleaned (n : string) (h t : history) : Prop :=
  Forall (λ e, leaves_off e.1) t
  ∨ (Forall (λ e, ∀ c, ¬ starts c e.1) t ∧ ∃ e, part_run (st_createEmpty activeStorage n) h (Err e) t)
  ∨ undone n h t.

(** In the run the restored branch was asked for the entry and answered that it has none. *)
Definition absent_query (n : string) (entryID : Z) : action :=
  sudo (psql_c (container n) ["-X"; "-q"; "-t"; "-A"; "-v"; "ON_ERROR_STOP=1"; "-c"]
          ("SELECT count(*) FROM odb.schema_ledger WHERE id = " +:+ format_int entryID)).
Definition shown_absent (n : string) (entryID : Z) (t : history) : Prop :=
  ∃ r l, (absent_query n entryID, r) ∈ t ∧ rok r = true ∧ output_lines (rout r) = "0" :: l.

Lemma shown_around n id t u v : shown_absent n id t → shown_absent n id (u ++ t ++ v).
Proof. intros (r & l & Hin & H). exists r, l. split; [|done]. by rewrite !elem_of_app; auto. Qed.

Lemma adopt_absent script n backup kind target id h r t :
  runs (adopt script n backup kind target id) h (Ok r) t → shown_absent n id t.
Proof.
  unfold adopt. intros (x & t1 & t2 & _ & Hrun & ->)%runs_bind_ok.
  apply runs_bind_ok in Hrun as (y & t3 & t4 & _ & Hrun & ->).
  apply runs_bind_ok in Hrun as (z & t5 & t6 & Habs & _ & ->).
  rewrite (app_assoc t1). apply shown_around. clear -Habs.
  unfold absent_entry in Habs. apply runs_bind_ok in Habs as (present & u1 & u2 & Hp & Hret & ->).
  unfold wrap in Hp. apply runs_bind_ok in Hp as (a & v1 & v2 & Ha & Hp & ->).
  apply runs_attempt in Ha as [(b & Ha & [= ->])|[(e & _ & [= ->])|(w & _ & [=])]]; [|by apply runs_lift in Hp as [[=] _]].
  apply runs_ret in Hp as [[= ->] ->]. destruct b as [|l b]; [by apply runs_lift in Hret as [[=] _]|].
  destruct (String.eqb_spec l "0") as [->|]; [|by apply runs_lift in Hret as [[=] _]].
  unfold ledgerLines in Ha. cbv zeta in Ha. apply runs_call_bind in Ha as (u & Ha & ->).
  destruct (rok _) eqn:Hok; [|by apply runs_lift in Ha as [[=] _]]. apply runs_ret in Ha as [[= Hout] ->].
  eexists _, b. split; [rewrite !elem_of_app; do 2 left; by apply list_elem_of_here|]. by split.
Qed.

Lemma gentle_off_all n t : Forall (λ e : event, gentle n e.1) t → Forall (λ e : event, leaves_off e.1) t.
Proof. intros Ht. eapply Forall_impl; [exact Ht|]. intros e. apply gentle_off. Qed.

Lemma off_no_start t : Forall (λ e : event, leaves_off e.1) t → Forall (λ e : event, ∀ c, ¬ starts c e.1) t.
Proof. intros Ht. eapply Forall_impl; [exact Ht|]. intros e He. apply He. Qed.

(** Parts that start and make nothing, around a run, leave it as clean as it was. *)
Lemma cleaned_around n h t u v :
  Forall (λ e : event, leaves_off e.1) u → Forall (λ e : event, leaves_off e.1) v →
  cleaned n (h ++ u) t → cleaned n h (u ++ t ++ v).
Proof.
  intros Hu Hv [Ht|[[Ht (e & Hw)]|(t1 & t2 & o & -> & Ht & Hrm & Hw)]].
  - left. by rewrite !Forall_app.
  - right; left. split; [rewrite !Forall_app; auto using off_no_start|]. exists e. by apply part_run_around.
  - right; right. exists (u ++ t1), (t2 ++ v), o. rewrite <- !app_assoc. rewrite <- app_assoc in Hw.
    split_and!; [done|by apply Forall_app|apply Exists_app; by left|]. by apply (part_run_around _ _ _ _ []); rewrite app_nil_r.
Qed.

Lemma undo_cleans n e A h (o : outcome error A) t : plain_name n = true → n ≠ "main" →
  runs (undo n e) h o t →
  Forall (λ e, leaves_off e.1) t ∧ Exists (λ e, e.1 = sudo ["docker"; "rm"; "-f"; container n]) t
  ∧ ∃ o', part_run (st_destroy activeStorage n) h o' t.
Proof.
  intros Hplain Hn Hrun. split.
  { eapply emits_runs in Hrun; [|by apply undo_own]. eapply Forall_impl; [exact Hrun|]. intros x Hx. apply Hx. }
  unfold undo, quiet in Hrun. apply runs_bind in Hrun as [(x & t1 & t2 & Hx & Hrun & ->)|[(e' & He & _)|(w & Hw & _)]].
  - apply runs_ignore in Hx as [_ ->]. split; [apply Exists_app; left; by apply Exists_cons_hd|].
    apply runs_bind in Hrun as [(d & u1 & u2 & Hd & _ & ->)|[(e' & He & _)|(w & Hw & _)]].
    + apply runs_attempt in Hd as [(b & Hd & _)|[(e' & Hd & _)|(w & _ & [=])]]; (eexists _, _, u1, u2; by split).
    + by apply no_err_attempt in He.
    + apply runs_attempt in Hw as [(b & _ & [=])|[(e' & _ & [=])|(w' & Hw & _)]]. eexists _, _, t2, []. by rewrite app_nil_r.
  - by apply runs_ignore in He as [[=] _].
  - by apply runs_ignore in Hw as [[=] _].
Qed.

Lemma or_undo_cleans {A} n (m : prog A) h e t : plain_name n = true → n ≠ "main" →
  runs (or_undo n m) h (Err e) t → undone n h t.
Proof.
  unfold or_undo. intros Hplain Hn [(r & t1 & t2 & _ & Hrun & ->)|[(e' & He & _)|(w & _ & [=])]]%runs_bind.
  - destruct r as [a|e']; [by apply runs_ret in Hrun as [[=] _]|].
    apply undo_cleans in Hrun as (Hoff & Hrm & o & Hw); [|done..]. by exists t1, t2, o.
  - by apply no_err_attempt in He.
Qed.

Lemma or_undo_ok {A} n (m : prog A) h a t : runs (or_undo n m) h (Ok a) t → runs m h (Ok a) t.
Proof.
  unfold or_undo. intros (r & t1 & t2 & Hr & Hrun & ->)%runs_bind_ok. destruct r as [b|e].
  - apply runs_ret in Hrun as [[= ->] ->]. rewrite app_nil_r.
    by apply runs_attempt in Hr as [(x & Hr & [= ->])|[(e & _ & [=])|(w & _ & [=])]].
  - unfold undo in Hrun. apply runs_bind_ok in Hrun as (x & t3 & t4 & _ & Hrun & _).
    apply runs_bind_ok in Hrun as ([y|y] & t5 & t6 & _ & Hrun & _); by apply runs_lift in Hrun as [[=] _].
Qed.

(** The three things asked of a run for the branch [n]. *)
Definition before_run (n : string) (entryID : Z) {A} (h : history) (o : outcome error A) (t : history) : Prop :=
  Forall (λ e, own_action n e.1) t ∧ (∀ e, o = Err e → cleaned n h t) ∧ (∀ a, o = Ok a → shown_absent n entryID t).

(** Gentle parts around a run change nothing of it. *)
Lemma before_run_around n entryID {A B} h (o : outcome error A) (o' : outcome error B) t u v :
  Forall (λ e : event, gentle n e.1) u → Forall (λ e : event, gentle n e.1) v →
  (∀ e, o' = Err e → ∃ e', o = Err e') → (∀ b, o' = Ok b → ∃ a, o = Ok a) →
  before_run n entryID (h ++ u) o t → before_run n entryID h o' (u ++ t ++ v).
Proof.
  intros Hu Hv Herr Hok (Hown & Hclean & Habs). split_and!.
  - repeat (apply Forall_app; split); [|done|]; (eapply Forall_impl; [eassumption|]; intros x; apply gentle_own).
  - intros e He. destruct (Herr e He) as [e' ->]. apply cleaned_around; eauto using gentle_off_all.
  - intros b Hb. destruct (Hok b Hb) as [a ->]. eapply shown_around, Habs. done.
Qed.

Lemma gentle_run n entryID {A} (m : prog A) h o t :
  emits (gentle n) m → (∀ a, o ≠ Ok a) → runs m h o t → before_run n entryID h o t.
Proof.
  intros Hm Ho Hrun. eapply emits_runs in Hrun; [|exact Hm].
  split_and!; [|intros; left; by eapply gentle_off_all|intros a ->; by destruct (Ho a)].
  eapply Forall_impl; [exact Hrun|]. intros e. apply gentle_own.
Qed.

(** A gentle part first: a failure there leaves nothing to clean. *)
Lemma before_run_bind n entryID {A B} (m : prog A) (f : A → prog B) h o t :
  emits (gentle n) m →
  (∀ a h' o' t', runs (f a) h' o' t' → before_run n entryID h' o' t') →
  runs (m ≫= f) h o t → before_run n entryID h o t.
Proof.
  intros Hm Hf [(a & t1 & t2 & Ha & Hrun & ->)|[(e & He & ->)|(w & Hw & ->)]]%runs_bind.
  - eapply emits_runs in Ha; [|exact Hm]. apply Hf in Hrun. rewrite <- (app_nil_r t2).
    eapply before_run_around; [done|constructor|by eauto..|done].
  - eapply (gentle_run n entryID m h (Err e)) in He as (H1 & H2 & _); [|done..]. split_and!; [done|by eauto|done].
  - eapply (gentle_run n entryID m h (Panic w)) in Hw as (H1 & _); [|done..]. by split_and!.
Qed.

Lemma before_run_fail n entryID {A} e h o t : runs (fail (A := A) e) h o t → before_run n entryID h o t.
Proof. intros [-> ->]%runs_lift. split_and!; [constructor|intros; left; constructor|done]. Qed.

(** Once the storage is there, a failure goes through [undo]. *)
Definition adopted (n : string) (entryID : Z) {A} (h : history) (o : outcome error A) (t : history) : Prop :=
  Forall (λ e, own_action n e.1) t ∧ (∀ e, o = Err e → undone n h t) ∧ (∀ a, o = Ok a → shown_absent n entryID t).

Lemma adopted_run {B} script n backup kind target id (f : Z → prog B) h o t :
  plain_name n = true → n ≠ "main" → (∀ z, no_err (f z) ∧ emits (gentle n) (f z)) →
  runs (last_ ← or_undo n (adopt script n backup kind target id); f last_) h o t → adopted n id h o t.
Proof.
  intros Hplain Hn Hf. assert (emits (own_action n) (or_undo n (adopt script n backup kind target id))) as Hown.
  { unfold or_undo. emits_go; [by apply adopt_own|]. eapply emits_mono; [|by apply undo_own]. by intros x []. }
  intros [(z & v1 & v2 & Hl & Hrest & ->)|[(e' & He & ->)|(w & Hw & ->)]]%runs_bind.
  - destruct (Hf z) as [Hno Hg]. pose proof (or_undo_ok _ _ _ _ _ Hl) as Habs%adopt_absent.
    eapply emits_runs in Hl; [|exact Hown]. split_and!.
    + apply Forall_app. split; [done|]. eapply emits_runs in Hrest; [|exact Hg].
      eapply Forall_impl; [exact Hrest|]. intros x. apply gentle_own.
    + intros err ->. by apply Hno in Hrest.
    + intros _ _. by apply (shown_around n id v1 []).
  - split_and!; [by eapply emits_runs|intros _ _; by eapply or_undo_cleans|done].
  - split_and!; [by eapply emits_runs|done|done].
Qed.

(** Making the storage: refused, nothing was started. *)
Lemma created_run {B} n id msg (f : prog B) h o t :
  (∀ h' o' t', runs f h' o' t' → adopted n id h' o' t') →
  runs (_ ← wrap msg [n] (st_createEmpty activeStorage n); f) h o t → before_run n id h o t.
Proof.
  intros Hf. destruct (storage_gentle n) as [_ Hcreate].
  assert (∀ h o t, runs (st_createEmpty activeStorage n) h o t → Forall (λ e, own_action n e.1) t ∧ Forall (λ e, ∀ c, ¬ starts c e.1) t) as Hmade.
  { clear -Hcreate. intros h o t Hrun. eapply emits_runs in Hrun; [|exact Hcreate].
    split; (eapply Forall_impl; [exact Hrun|]); intros x [[Hh Hr] Ha]; [|intros c; apply Hh].
    split; [intros c Hs; destruct (Hh c); tauto|]. split; [done|by apply idle_spares]. }
  intros [(x & t1 & t2 & Hx & Hrun & ->)|[(e & He & ->)|(w & Hw & ->)]]%runs_bind.
  - unfold wrap in Hx. apply runs_bind_ok in Hx as (y & u1 & u2 & Hy & Hx & ->).
    apply runs_attempt in Hy as [(b & Hy & [= ->])|[(e & _ & [= ->])|(w & _ & [=])]]; [|by apply runs_lift in Hx as [[=] _]].
    apply runs_ret in Hx as [_ ->]. rewrite app_nil_r in *. apply Hmade in Hy as [Hy _]. apply Hf in Hrun as (Hown & Hund & Habs).
    split_and!; [by apply Forall_app| |].
    + intros e ->. destruct (Hund e eq_refl) as (v1 & v2 & o' & -> & H1 & H2 & H3). right; right.
      exists (u1 ++ v1), v2, o'. rewrite <- !app_assoc in *. by split_and!.
    + intros a ->. rewrite <- (app_nil_r t2). by eapply shown_around, Habs.
  - unfold wrap in He. apply runs_bind in He as [(y & u1 & u2 & Hy & Hx & ->)|[(e' & He & _)|(w & _ & [=])]];
      [|by apply no_err_attempt in He].
    apply runs_attempt in Hy as [(b & _ & [= ->])|[(e' & Hy & [= ->])|(w & _ & [=])]]; [by apply runs_ret in Hx as [[=] _]|].
    apply runs_lift in Hx as [_ ->]. rewrite app_nil_r. pose proof (Hmade _ _ _ Hy) as [Hown Hno]. split_and!; [done| |done].
    intros _ _. right; left. split; [done|]. exists e', [], u1, []. by rewrite !app_nil_r.
  - unfold wrap in Hw. apply runs_bind in Hw as [(y & u1 & u2 & Hy & Hx & ->)|[(e' & _ & [=])|(w' & Hw & _)]].
    + destruct y; [by apply runs_ret in Hx as [[=] _]|by apply runs_lift in Hx as [[=] _]].
    + apply runs_attempt in Hw as [(b & _ & [=])|[(e' & _ & [=])|(w'' & Hw & _)]]. apply Hmade in Hw as [Hw _]. by split_and!.
Qed.

Lemma branch_before_run script started entryID n h o t :
  plain_name n = true → n ≠ "main" →
  runs (branch_before script started entryID n) h o t → before_run n entryID h o t.
Proof.
  intros Hplain Hn. unfold branch_before. cbv zeta. destruct (storage_gentle n) as [Hex _].
  apply before_run_bind; [done|]. intros there h1 o1 t1.
  apply before_run_bind; [destruct there; [apply emits_ret|apply state_gentle]|]. intros st h2 o2 t2.
  destruct (_ || _); [apply before_run_fail|].
  apply before_run_bind; [apply primary_gentle|]. intros cont h3 o3 t3.
  apply before_run_bind; [apply find_entry_gentle|]. intros e h4 o4 t4.
  destruct (recoveryTarget e) as [kind target].
  apply before_run_bind; [apply find_backup_gentle|]. intros b h5 o5 t5.
  destruct (negb _); [apply before_run_fail|].
  apply before_run_bind; [apply network_gentle|]. intros u6 h6 o6 t6.
  apply created_run. intros h7 o7 t7. apply adopted_run; [done..|]. intros z. split.
  - apply no_err_bind; [apply no_err_discard|]. intros _. apply no_err_bind; [apply no_err_call|]. intros r. apply no_err_ret.
  - apply emits_bind; [apply guard_gentle|]. intros _. apply emits_bind; [apply emits_call; gentle_cmd|]. intros r. apply emits_ret.
Qed.

Lemma locked_run {A} n entryID (m : prog A) :
  (∀ h o t, runs m h o t → before_run n entryID h o t) →
  ∀ h o t, runs (locked m) h o t → before_run n entryID h o t.
Proof.
  intros Hm h o t. unfold locked. apply before_run_bind; [apply emits_ignore; gentle_cmd|].
  clear h o t. intros _ h o t [(r & t1 & t2 & Hr & Hrest & ->)|[(e & He & _)|(w & Hw & ->)]]%runs_bind.
  - apply runs_bind in Hrest as [(x & v1 & v2 & Hx & Hend & ->)|[(e & He & _)|(w & Hw & _)]];
      [|by apply runs_ignore in He as [[=] _]|by apply runs_ignore in Hw as [[=] _]].
    apply runs_ignore in Hx as [_ ->].
    apply runs_attempt in Hr as [(a & Hr & [= ->])|[(e & Hr & [= ->])|(w & _ & [=])]];
      rewrite <- (app_nil_r h) in Hr; apply Hm in Hr; (apply runs_ret in Hend as [-> ->] || apply runs_lift in Hend as [-> ->]);
      (eapply (before_run_around n entryID h _ _ t1 []); [constructor| |by eauto..|exact Hr]);
      rewrite app_nil_r; constructor; [gentle_cmd|constructor|gentle_cmd|constructor].
  - by apply no_err_attempt in He.
  - apply runs_attempt in Hw as [(a & _ & [=])|[(e & _ & [=])|(w' & Hw & [= <-])]].
    apply Hm in Hw as (Hown & _ & _). by split_and!.
Qed.

(** C5. Branching before a change is contained. A refused request only looks at the clock.
    Otherwise the branch has an accepted name (never main, the restore branch, the standby
    or an agent's), and whatever the machine answers: no container but that branch's is
    started or stopped, other containers are only sent SELECTs (one of them,
    pg_switch_wal(), makes the primary close its WAL segment), and no storage is removed but
    that branch's and that of branches made from it; a failure after the storage was made is
    followed by the removal of the container and of that storage, with nothing started or
    made afterwards; and success is only reported when in that very run the restored branch
    answered that the entry is not in its ledger. *)
Theorem BranchBeforeEntry_safe script src entryID newName h o t :
  runs (BranchBeforeEntry script src entryID newName) h o t →
  (Forall (λ e, e.1 = Now) t ∧ ∀ r, o ≠ Ok r)
  ∨ (∃ n, accepted_name src entryID newName n ∧ or_main src = "main" ∧ (0 < entryID)%Z
          ∧ before_run n entryID h o t).
Proof.
  unfold BranchBeforeEntry. cbv zeta. set (n := if String.eqb newName "" then _ else _).
  intros [(s & t1 & t2 & Hs & Hrun & ->)|[(e & He & _)|(w & Hw & _)]]%runs_bind;
    [|by apply no_err_call in He|by apply runs_call in Hw as [[=] _]].
  assert (Forall (λ e : event, e.1 = Now) t1 ∧ Forall (λ e : event, gentle n e.1) t1) as [Ht1 Hg1].
  { apply runs_call in Hs as [_ ->]. split; (constructor; [|constructor]); [done|gentle_cmd]. }
  assert (∀ e', runs (fail e') (h ++ t1) o t2 → Forall (λ e : event, e.1 = Now) (t1 ++ t2) ∧ ∀ r, o ≠ Ok r) as Hfail.
  { intros e' [-> ->]%runs_lift. split; [by rewrite app_nil_r|done]. }
  destruct (String.eqb_spec (or_main src) "main") as [Hsrc|]; cbn [negb] in Hrun; [|left; by eapply Hfail].
  destruct (Z.leb_spec entryID 0) as [|Hid]; [left; by eapply Hfail|].
  unfold check in Hrun. destruct (validateBeforeName n) as [e'|] eqn:Hv.
  - left. apply (Hfail e'). apply runs_bind in Hrun as [(x & u1 & u2 & [[=] _]%runs_lift & _)|[(e & He & ->)|(w & [[=] _]%runs_lift & _)]].
    apply runs_lift in He as [[= ->] ->]. by apply runs_lift.
  - right. exists n. pose proof (validate_accepts src entryID newName n eq_refl Hv) as Hacc. split_and!; [done..|].
    destruct Hacc as (_ & Hplain & Hmain & _).
    apply runs_bind in Hrun as [(x & u1 & u2 & [_ ->]%runs_ret & Hrun & ->)|[(e & [[=] _]%runs_ret & _)|(w & [[=] _]%runs_ret & _)]].
    rewrite (app_nil_r (h ++ t1)) in Hrun. eapply locked_run in Hrun; [|intros h' o' t'; by apply branch_before_run].
    rewrite <- (app_nil_r ([] ++ u2)). eapply (before_run_around n entryID h o o u2); [done|constructor|by eauto..|done].
Qed.

End before_props.

(** ** A machine on which main can be branched before its entry 7 *)

#[local] Existing Instance sample_env.
#[local] Existing Instance sample_embedded.

(** Quotation marks are written as apostrophes. *)
Definition quoted (s : string) : string :=
  of_bytes ((λ c, if Ascii.eqb c "'" then dquote else c) <$> to_bytes s).

Definition before_answers : list (string * string) :=
  [("to_regclass", "true|true");
   ("json_build_object", quoted
      "{'id':7,'status':'APPLIED','command_tag':'DROP TABLE','at':'2026-01-02T03:04:05.5Z','xid':4294967299,'lsn':'900'}");
   ("archive_mode", "on|000000010000000000000003");
   ("last_archived_wal", "000000010000000000000003|");
   ("pg_control_system", "77");
   ("--detail", quoted
      ("[{'backup_name':'base_000000010000000000000002','finish_time':'2026-01-01T00:00:00Z'," +:+
       "'finish_lsn':800,'system_identifier':77}]"));
   ("pg_is_in_recovery", "f");
   ("count(*)", "0"); ("max(id)", "6")].
Definition before_world : World := {| answer := λ h a,
  match a with
  | Exec l _ =>
      if bool_decide ("zfs" ∈ l) && bool_decide ("list" ∈ l) then mkReply false "" "" 0 else
      if bool_decide ("inspect" ∈ l) then
        if bool_decide ("oxyn-main-before-7" ∈ l) && negb (existsb (λ e, match fst e with Exec u _ => bool_decide ("run" ∈ u) && bool_decide ("oxyn-main-before-7" ∈ u) | _ => false end) h)
        then mkReply false "" "" 0 else reply_ok "running"
      else
      match List.find (λ kv, Contains (default "" (last l)) (fst kv)) before_answers with
      | Some (_, r) => reply_ok r
      | None => reply_ok ""
      end
  | ReadFile _ => reply_ok "main"
  | _ => reply_ok ""
  end |}.
Definition before_trace := BranchBeforeEntry (W := before_world) "restore.sh" "main" 7 "" [].


Lemma BranchBeforeEntry_safe_witness :
  panics before_trace.1 = false ∧ shown_absent "main-before-7" 7 before_trace.2
  ∧ Forall (λ e, own_action "main-before-7" e.1) before_trace.2.
Proof.
  split; [vm_compute; reflexivity|].
  destruct (BranchBeforeEntry_safe (W := before_world) "restore.sh" "main" 7 "" [] before_trace.1 before_trace.2)
    as [[_ Hno]|(n & (-> & _) & _ & _ & Hown & _ & Habs)].
  - unfold runs, before_trace. by destruct (BranchBeforeEntry _ _ _ _ _).
  - exfalso. destruct before_trace.1 as [r| |] eqn:Hr; [by apply (Hno r)|vm_compute in Hr; discriminate..].
  - split; [|exact Hown]. destruct before_trace.1 as [r| |] eqn:Hr; [by apply (Habs r)|vm_compute in Hr; discriminate..].
Defined.
