(* ===== verification/Provenance.v ===== *)
(** * Agent provenance (internal/branch/provenance.go)

    Which agent session caused a change: the sessions recorded on a branch, the
    hash of a tool call's arguments, agent branches that carry a session, and
    ExecuteChange, which previews, analyses and runs a statement for an agent. The
    PostgreSQL driver (jackc/pgx) is called out to; [Pgx] is how its replies read. *)
From S2P Require Import Prelude GoStrings GoNum GoRunes Sha256 Integrity Sql Statement Json Effects Storage Container HA Branch Blackbox Policy Impact Recovery.
Open Scope string_scope.
Open Scope list_scope.

(** ** What a caller may say about an agent run *)

Record Provenance : Type := mkProvenance { VSession : string; VTask : string; VParent : string }.

Definition Requested (p : Provenance) : bool :=
  negb (String.eqb (VSession p) "") || negb (String.eqb (VTask p) "") || negb (String.eqb (VParent p) "").

Record AgentSession : Type := mkSession {
  SSession : string; SAgent : string; SParent : option string; STask : option string; STool : option string;
  SStarted : string; SEntries : Z }.

(** Go visits a map's entries in an order of its own choosing. *)
Class MapOrder := {
  visit : list (string * string) → list (string * string);
  visit_perm l : visit l ≡ₚ l }.

(** pgx's replies: the notices sent during a call, the database's error behind a
    failed one (none when it is not the database's), a script's command tags. *)
Record Notice : Type := mkNotice { NSeverity : string; NCode : string; NMessage : string; NDetail : string; NHint : string }.
Record PgError : Type := mkPgError { GCode : string; GMessage : string; GDetail : string; GHint : string }.
Class Pgx := {
  notices_of : reply → list Notice;
  pg_error : reply → option PgError;
  command_tags : reply → list string }.

Definition strPtr (s : string) : option string := if String.eqb s "" then None else Some s.

(** The JSON object json.Marshal makes of the five strings. *)
Definition json_field (k v : string) : string := json_string k +:+ ":" +:+ json_string v.
Definition call_json (tool branch sql task parent : string) : string :=
  "{" +:+ json_field "tool" tool +:+ "," +:+ json_field "branch" branch +:+ "," +:+ json_field "sql" sql +:+ ","
  +:+ json_field "task_id" task +:+ "," +:+ json_field "parent_session_id" parent +:+ "}".
Definition CallHash (tool branch sql task parent : string) : string :=
  hex_encode (sha256 (call_json tool branch sql task parent)).

Definition startSessionSQL (s : AgentSession) : string := lines_of
  ["INSERT INTO odb.agent_sessions (session_id, agent_id, parent_session_id, task_id, tool)";
   "VALUES (" +:+ quoteLiteral (SSession s) +:+ ", " +:+ quoteLiteral (SAgent s) +:+ ", " +:+ sqlTextOrNull (SParent s) +:+ ", "
     +:+ sqlTextOrNull (STask s) +:+ ", " +:+ sqlTextOrNull (STool s) +:+ ") ON CONFLICT (session_id) DO NOTHING"].

Definition sessionsQuery (limit : Z) : string := lines_of
  ["SELECT row_to_json(x) FROM (";
   "  SELECT a.session_id, a.agent_id, a.parent_session_id, a.task_id, a.tool,";
   "         to_char(a.started_at AT TIME ZONE 'UTC', 'YYYY-MM-DD" +:+ dq +:+ "T" +:+ dq +:+ "HH24:MI:SS" +:+ dq +:+ "Z" +:+ dq
     +:+ "') AS started_at,";
   "         (SELECT count(*) FROM odb.schema_ledger s WHERE s.session = a.session_id) AS entries";
   "  FROM odb.agent_sessions a ORDER BY a.started_at DESC LIMIT " +:+ format_int limit +:+ ") x"].

Definition decode_session (j : json) : option AgentSession :=
  m ← as_object j;
  id ← field as_string "" "session_id" m;
  agent ← field as_string "" "agent_id" m;
  parent ← pointer as_string "parent_session_id" m;
  task ← pointer as_string "task_id" m;
  tool ← pointer as_string "tool" m;
  started ← field as_string "" "started_at" m;
  entries ← field as_int 0%Z "entries" m;
  Some (mkSession id agent parent task tool started entries).

Section provenance.
Context {W : World} {En : Env} {Em : Embedded} {T : ErrorText} {U : Unicode} {O : MapOrder} {P : Pgx}.

Definition ValidProvenanceID (s : string) : bool :=
  negb (String.eqb s "") && (String.length s <=? 200)%nat && forallb IsPrint (runes s).

Definition provenance_fields (p : Provenance) : list (string * string) :=
  [("session_id", VSession p); ("task_id", VTask p); ("parent_session_id", VParent p)].
Definition bad_field (f : string * string) : bool := negb (String.eqb f.2 "") && negb (ValidProvenanceID f.2).
Definition validate (p : Provenance) : outcome error unit :=
  match List.find bad_field (visit (provenance_fields p)) with
  | Some f => Err (Wrapf "%w: %s must be 1–200 printable characters" [f.1] ErrInvalidRequest)
  | None => Ok tt
  end.

(** Eight random bytes. *)
Definition NewSessionID (prefix : string) : prog string :=
  r ← call (CallOut "rand.Read" ["8"]);
  if rok r then mret (prefix +:+ "-" +:+ hex_encode (rout r)) else fail (CommandFailed (CallOut "rand.Read" ["8"])).

Definition provenanceErr (name : string) (e : error) : error :=
  if Contains (Error e) "odb.agent_sessions" && Contains (Error e) "does not exist"
  then Errorf "Blackbox provenance isn't installed on %q — run: odb blackbox upgrade %s" [name; name]
  else e.

Definition StartAgentSession (name : string) (s : AgentSession) : prog unit :=
  name ← lift (ledgerBranchName name);
  if negb (ValidProvenanceID (SSession s)) || negb (ValidProvenanceID (SAgent s))
  then fail (Wrapf "%w: session and agent ids must be 1–200 printable characters" [] ErrInvalidRequest) else
  _ ← on_error (ledgerLines name (startSessionSQL s)) (λ e, fail (provenanceErr name e));
  mret tt.

Definition AgentSessions (name : string) (limit : Z) : prog (list AgentSession) :=
  name ← lift (ledgerBranchName name);
  lines ← on_error (ledgerLines name (sessionsQuery (clamp_limit 50 limit))) (λ e, fail (provenanceErr name e));
  lift (decode_lines (decode_with "reading agent sessions: %w" decode_session) lines).

(** ** Agent branches with a session *)

Definition set_default (guc v : string) : string :=
  (if String.eqb v "" then "ALTER DATABASE " +:+ pgDatabase +:+ " RESET " +:+ guc +:+ ";"
   else "ALTER DATABASE " +:+ pgDatabase +:+ " SET " +:+ guc +:+ " = " +:+ quoteLiteral v +:+ ";") +:+ str1 nl.
Definition sessionDefaultsSQL (p : Provenance) : string :=
  set_default "odb.session" (VSession p) +:+ set_default "odb.task" (VTask p) +:+ set_default "odb.parent_session" (VParent p).

Definition record_session (branch : string) (s : AgentSession) (p : Provenance) : prog unit :=
  _ ← StartAgentSession branch s;
  psqlStdin branch (sessionDefaultsSQL p).

Definition or_new_session (id prefix : string) : prog string :=
  if String.eqb id "" then NewSessionID prefix else mret id.

Definition CreateAgentBranchWithProvenance (agentID : string) (p : Provenance) : prog (Info * AgentSession) :=
  _ ← lift (validate p);
  id ← or_new_session (VSession p) "agent";
  let p := mkProvenance id (VTask p) (VParent p) in
  info ← CreateAgentBranch agentID;
  let s := mkSession id (agentBranch agentID) (strPtr (VParent p)) (strPtr (VTask p)) (strPtr "agent-api") "" 0 in
  _ ← on_error (record_session (IBranch info) s p)
        (λ e, _ ← discard (DeleteAgentBranch agentID);
              fail (Wrapf "recording the agent's provenance (the branch was removed): %w" [] e));
  mret (info, s).

(** ** Running a change *)

Record ExecuteChangeRequest : Type := mkRequest {
  QBranch : string; QSQL : string; QTask : string; QParent : string; QSession : string; QAgent : string; QTool : string;
  QDryRun : bool }.

Record ChangeNotice : Type := mkChangeNotice {
  CSeverity : string; CCode : string; CMessage : string; CDetail : string; CHint : string; CPolicy : option PolicyDetail }.

Record ExecuteChangeResult : Type := mkResult {
  ZStatus : string; ZBranch : string; ZCommand : string; ZSession : string; ZTask : string; ZParent : string; ZHash : string;
  ZPreview : list PolicyDetail; ZNotices : list ChangeNotice; ZPolicy : option PolicyDetail; ZError : option PgError;
  ZImpact : option ImpactReport; ZEntries : list Z }.

Definition parsed_detail (s : string) : option PolicyDetail := match ParsePolicyDetail s with Ok d => Some d | _ => None end.

Definition noticeFrom (n : Notice) : ChangeNotice :=
  mkChangeNotice (NSeverity n) (NCode n) (NMessage n) (NDetail n) (NHint n)
    (if String.eqb (NCode n) PolicyWarnCode then parsed_detail (NDetail n) else None).

(** Status, rule and error; none when the error is not the database's. *)
Definition classifyExecError (r : reply) : option (string * option PolicyDetail * PgError) :=
  e ← pg_error r;
  Some (if String.eqb (GCode e) PolicyBlockCode then ("blocked", parsed_detail (GDetail e), e) else ("error", None, e)).

Definition setProvenanceSQL : string := lines_of
  ["SELECT set_config('odb.actor', $1, false), set_config('odb.actor_kind', 'agent', false),";
   "  set_config('application_name', $2, false), set_config('odb.session', $3, false), set_config('odb.task', $4, false),";
   "  set_config('odb.parent_session', $5, false), set_config('odb.call_hash', $6, false)"].
Definition change_dsn (addr : string) : string := "postgres://odbclient:" +:+ pgPass +:+ "@" +:+ addr +:+ "/" +:+ pgDatabase.

Definition parse_config (addr : string) : action := CallOut "pgx.ParseConfig" [change_dsn addr].
Definition connect (addr : string) : action := CallOut "pgx.ConnectConfig" [change_dsn addr].
Definition set_provenance (agent tool session task parent hash : string) : action :=
  CallOut "conn.Exec" [setProvenanceSQL; agent; tool; session; task; parent; hash].
Definition run_statement (sql : string) : action := CallOut "conn.PgConn().Exec" [sql].
Definition close_conn : action := CallOut "conn.Close" [].

Definition markerQuery : string := "SELECT coalesce(max(id), 0) FROM odb.schema_ledger".
Definition writtenQuery (marker : Z) (session hash : string) : string := lines_of
  ["SELECT s.id FROM odb.schema_ledger s LEFT JOIN odb.ledger_ext e ON e.ledger_id = s.id";
   "WHERE s.id > " +:+ format_int marker +:+ " AND s.session = " +:+ quoteLiteral session +:+ " AND (e.call_hash = "
     +:+ quoteLiteral hash +:+ " OR s.status = 'BLOCKED') ORDER BY s.id"].

(** The newest entry before the change; 0 when it cannot be told. *)
Definition marker_of (name : string) : prog Z :=
  r ← attempt (ledgerLines name markerQuery);
  mret (match r with inl (l :: _) => atoi_value l | _ => 0%Z end).

(** The result of a statement that was run, with the entries it left. *)
Definition finished (name : string) (marker : Z) (res : ExecuteChangeResult) (notices : list ChangeNotice)
    (status command : string) (policy : option PolicyDetail) (e : option PgError) : prog ExecuteChangeResult :=
  r ← attempt (ledgerLines name (writtenQuery marker (ZSession res) (ZHash res)));
  mret (mkResult status (ZBranch res) command (ZSession res) (ZTask res) (ZParent res) (ZHash res) (ZPreview res)
          notices policy e (ZImpact res) (match r with inl lines => omap atoi lines | inr _ => [] end)).

(** Connects as the client role, sets the provenance and runs the statement; the
    connection is closed when the function returns. [res] is the result so far. *)
Definition run_change (name addr agent tool sql : string) (marker : Z) (res : ExecuteChangeResult) : prog ExecuteChangeResult :=
  _ ← perform (parse_config addr);
  c ← call (connect addr);
  if negb (rok c) then fail (Wrapf "connecting to %q: %w" [name] (CommandFailed (connect addr))) else
  finally (
    let set := set_provenance agent tool (ZSession res) (ZTask res) (ZParent res) (ZHash res) in
    s ← call set;
    if negb (rok s) then fail (Wrapf "setting provenance: %w" [] (CommandFailed set)) else
    x ← call (run_statement sql);
    let notices := noticeFrom <$> (notices_of c ++ notices_of s ++ notices_of x) in
    if rok x then finished name marker res notices "applied" (List.last (command_tags x) (ZCommand res)) None None
    else match classifyExecError x with
         | None => fail (CommandFailed (run_statement sql))
         | Some (status, policy, e) => finished name marker res notices status (ZCommand res) policy (Some e)
         end)
  (ignore close_conn).

Definition ExecuteChange (req : ExecuteChangeRequest) : prog ExecuteChangeResult :=
  name ← lift (ledgerBranchName (QBranch req));
  if String.eqb (TrimSpace (QSQL req)) "" then fail (Wrapf "%w: sql is required" [] ErrInvalidRequest) else
  let tool := if String.eqb (QTool req) "" then "mcp" else QTool req in
  let agent := if String.eqb (QAgent req) "" then tool else QAgent req in
  _ ← lift (validate (mkProvenance (QSession req) (QTask req) (QParent req)));
  if negb (ValidProvenanceID agent) || negb (ValidProvenanceID tool)
  then fail (Wrapf "%w: agent and tool names must be 1–200 printable characters" [] ErrInvalidRequest) else
  session ← or_new_session (QSession req) tool;
  let hash := CallHash "execute_change" name (QSQL req) (QTask req) (QParent req) in
  addr ← EnsureRunning name;
  '(tag, preview) ← PolicyCheck name (QSQL req);
  rep ← attempt (Impact name (QSQL req) "" "");
  let impact := match rep with inl r => Some r | inr _ => None end in
  let res := mkResult "preview" name tag session (QTask req) (QParent req) hash preview [] None None impact [] in
  if QDryRun req then mret res else
  _ ← StartAgentSession name (mkSession session agent (strPtr (QParent req)) (strPtr (QTask req)) (strPtr tool) "" 0);
  marker ← marker_of name;
  run_change name addr agent tool (QSQL req) marker res.

End provenance.

(** ** The call hash *)

Lemma json_field_inj k v w a b : well_formed v = true → well_formed w = true →
  json_field k v +:+ a = json_field k w +:+ b → v = w ∧ a = b.
Proof.
  intros Hv Hw. unfold json_field. rewrite !sapp_assoc. intros H%sapp_inv_head%sapp_inv_head. by apply json_string_inj.
Qed.

(** The hash recorded with a Blackbox entry commits to the call that caused it:
    two calls of well-formed text with the same hash are the same tool, branch,
    statement, task and parent session, unless SHA-256 itself collides on the two
    texts hashed. No text moved across a field's border keeps the hash. *)
Theorem CallHash_commits tool branch sql task parent tool' branch' sql' task' parent' :
  Forall (λ s, well_formed s = true) [tool; branch; sql; task; parent; tool'; branch'; sql'; task'; parent'] →
  CallHash tool branch sql task parent = CallHash tool' branch' sql' task' parent' →
  (tool, branch, sql, task, parent) = (tool', branch', sql', task', parent')
  ∨ collision [call_json tool branch sql task parent] [call_json tool' branch' sql' task' parent'].
Proof.
  intros Hw [Heq|]%hex_encode_inj%sha256_binding; [|by right]. left.
  rewrite !Forall_cons in Hw. destruct Hw as (? & ? & ? & ? & ? & ? & ? & ? & ? & ? & _).
  unfold call_json in Heq. apply sapp_inv_head in Heq.
  apply json_field_inj in Heq as [-> Heq%sapp_inv_head]; [|done..].
  apply json_field_inj in Heq as [-> Heq%sapp_inv_head]; [|done..].
  apply json_field_inj in Heq as [-> Heq%sapp_inv_head]; [|done..].
  apply json_field_inj in Heq as [-> Heq%sapp_inv_head]; [|done..].
  by apply json_field_inj in Heq as [-> _].
Qed.

Lemma CallHash_commits_witness :
  ("mcp", "qa", "DROP TABLE t", "7", "") = ("mcp", "qa", "DROP TABLE t", "7", "")
  ∨ collision [call_json "mcp" "qa" "DROP TABLE t" "7" ""] [call_json "mcp" "qa" "DROP TABLE t" "7" ""].
Proof. apply (CallHash_commits "mcp" "qa" "DROP TABLE t" "7" ""); [|reflexivity]. repeat constructor. Defined.

(** ** Only attributed statements run *)

Section attribution.
Context {W : World} {En : Env} {Em : Embedded} {T : ErrorText} {U : Unicode} {O : MapOrder} {P : Pgx}.

(** A statement sent over a client connection. *)
Definition sends_statement (a : action) : bool :=
  match a with CallOut w _ => String.eqb w "conn.PgConn().Exec" | _ => false end.
Definition silent (a : action) : Prop := sends_statement a = false.

Lemma local_silent a : local_action a → silent a.
Proof. by destruct a. Qed.

Lemma ledgerLines_silent name sql : emits silent (ledgerLines name sql).
Proof. unfold ledgerLines. emits_go. done. Qed.

Lemma new_session_silent id prefix : emits silent (or_new_session id prefix).
Proof. unfold or_new_session, NewSessionID. emits_go; done. Qed.

Lemma ledgerBranchName_idem n m : ledgerBranchName n = Ok m → ledgerBranchName m = Ok m.
Proof.
  unfold ledgerBranchName. destruct (_ || _) eqn:Hb; [done|]. intros [= <-].
  assert (or_main (or_main n) = or_main n) as ->; [|by rewrite Hb].
  unfold or_main. by destruct (String.eqb_spec n "") as [->|Hn]; [|apply String.eqb_neq in Hn; rewrite Hn].
Qed.

(** The command that stores a session. *)
Definition store_session (name : string) (s : AgentSession) : action :=
  sudo (psql_c (container name) ["-X"; "-q"; "-t"; "-A"; "-v"; "ON_ERROR_STOP=1"; "-c"] (startSessionSQL s)).

Lemma StartAgentSession_runs name s h o t : ledgerBranchName name = Ok name → runs (StartAgentSession name s) h o t →
  Forall (λ e, silent e.1) t ∧ (o = Ok tt → ∃ r, (store_session name s, r) ∈ t ∧ rok r = true).
Proof.
  intros Hn Hrun. split.
  { eapply emits_runs; [|exact Hrun]. unfold StartAgentSession. emits_go; try done. apply emits_on_error; [apply ledgerLines_silent|].
    intros e. apply emits_fail. }
  intros ->. unfold StartAgentSession in Hrun. rewrite Hn in Hrun.
  apply runs_bind_ok in Hrun as (n & t1 & t2 & [[= ->] ->]%runs_lift & Hrun & ->).
  destruct (_ || _) in Hrun; [by apply runs_lift in Hrun as [[=] _]|].
  apply runs_bind_ok in Hrun as (ls & t1 & t3 & Hl & _ & ->). unfold on_error in Hl.
  apply runs_bind_ok in Hl as (r & u1 & u2 & Hr & Hk & ->).
  destruct r as [ls'|e]; [|by apply runs_lift in Hk as [[=] _]].
  apply runs_attempt in Hr as [(x & Hr & [= ->])|[(x & _ & [=])|(x & _ & [=])]].
  unfold ledgerLines in Hr. cbv zeta in Hr. apply runs_bind_ok in Hr as (r & v1 & v2 & [[= ->] ->]%runs_call & Hk' & ->).
  destruct (rok _) eqn:Hok; [|by apply runs_lift in Hk' as [[=] _]].
  eexists. split; [|exact Hok]. cbn. apply list_elem_of_here.
Qed.

(** The one way a statement is sent. *)
Definition sent (agent tool sql : string) (addr : string) (res : ExecuteChangeResult) (o : outcome error ExecuteChangeResult)
    (t : history) : Prop :=
  ∃ t0 c s x t1 close,
    t = t0 ++ (connect addr, c) :: (set_provenance agent tool (ZSession res) (ZTask res) (ZParent res) (ZHash res), s)
          :: (run_statement sql, x) :: t1 ++ [(close_conn, close)]
    ∧ rok c = true ∧ rok s = true
    ∧ Forall (λ e, silent e.1) t0 ∧ Forall (λ e, silent e.1) t1
    ∧ ∀ r, o = Ok r → ZSession r = ZSession res ∧ ZHash r = ZHash res ∧ (ZStatus r = "applied" ↔ rok x = true).

Lemma finished_runs name marker res notices status command policy e h o t :
  runs (finished name marker res notices status command policy e) h o t →
  Forall (λ e, silent e.1) t ∧ ∀ q, o = Ok q → ZSession q = ZSession res ∧ ZHash q = ZHash res ∧ ZStatus q = status.
Proof.
  intros Hrun. split.
  - eapply emits_runs; [|exact Hrun]. unfold finished. emits_go. apply ledgerLines_silent.
  - intros q ->. apply runs_bind_ok in Hrun as (r & t1 & t2 & _ & [[= ->] _]%runs_ret & _). done.
Qed.

Lemma classify_status x status policy e : classifyExecError x = Some (status, policy, e) → status ≠ "applied".
Proof.
  unfold classifyExecError. destruct (pg_error x) as [g|]; [|done]. cbn. destruct (String.eqb _ _); intros [= <- _ _]; done.
Qed.

Lemma run_change_sends name addr agent tool sql marker res h o t :
  runs (run_change name addr agent tool sql marker res) h o t →
  Forall (λ e, silent e.1) t ∧ is_ok o = false ∨ sent agent tool sql addr res o t.
Proof.
  unfold run_change. cbv zeta. intros Hrun.
  apply (runs_after silent) in Hrun; [|by apply emits_perform].
  destruct Hrun as [Hs|([] & t0 & t1 & -> & H0 & _ & Hrun)]; [by left|].
  apply runs_call_bind in Hrun as (u & Hrun & ->). set (c := answer (h ++ t0) _) in *.
  destruct (rok c) eqn:Hc; cbn [negb] in Hrun.
  2:{ apply runs_lift in Hrun as [-> ->]. left. split; [|done]. by apply Forall_app; repeat constructor. }
  apply runs_finally in Hrun as (om & od & v1 & v2 & Hrun & [-> ->]%runs_ignore & -> & Ho).
  destruct Ho as [->|(w & [=] & _)].
  apply runs_call_bind in Hrun as (w & Hrun & ->). set (s := answer _ (set_provenance _ _ _ _ _ _)) in *.
  destruct (rok s) eqn:Hs; cbn [negb] in Hrun.
  2:{ apply runs_lift in Hrun as [-> ->]. left. split; [|done]. apply Forall_app; split; [done|].
      repeat (apply Forall_cons; split; [done|]). constructor. }
  apply runs_call_bind in Hrun as (x2 & Hrun & ->). set (x := answer _ (run_statement sql)) in *.
  assert (Forall (λ e, silent e.1) x2 ∧ ∀ q, om = Ok q →
    ZSession q = ZSession res ∧ ZHash q = ZHash res ∧ (ZStatus q = "applied" ↔ rok x = true)) as [Hx2 Hq].
  { destruct (rok x) eqn:Hx; cbv zeta in Hrun.
    - apply finished_runs in Hrun as [Hsil Hq]. split; [done|]. by intros q (? & ? & ?)%Hq.
    - destruct (classifyExecError x) as [[[status policy] e]|] eqn:Hcl.
      + apply classify_status in Hcl. apply finished_runs in Hrun as [Hsil Hq]. split; [done|].
        by intros q (? & ? & ->)%Hq.
      + apply runs_lift in Hrun as [-> ->]. done. }
  right. exists t0, c, s, x, x2. eexists. split_and!; [|done..]. done.
Qed.

Definition request_tool (req : ExecuteChangeRequest) : string := if String.eqb (QTool req) "" then "mcp" else QTool req.
Definition request_agent (req : ExecuteChangeRequest) : string :=
  if String.eqb (QAgent req) "" then request_tool req else QAgent req.

Lemma or_new_session_keeps id prefix h s t : runs (or_new_session id prefix) h (Ok s) t → id ≠ "" → s = id.
Proof.
  unfold or_new_session. intros Hrun Hid. apply String.eqb_neq in Hid. rewrite Hid in Hrun. by apply runs_ret in Hrun as [[= ->] _].
Qed.

Lemma looks_silent a : looks a → silent a.
Proof. intros (_ & Hl & _). by apply local_silent. Qed.

Lemma marker_silent name : emits silent (marker_of name).
Proof. unfold marker_of. emits_go. apply ledgerLines_silent. Qed.

(** What a call may have sent when it ends with [o]: nothing, or the one statement. *)
Definition attributed (req : ExecuteChangeRequest) (o : outcome error ExecuteChangeResult) (t : history) : Prop :=
  (Forall (λ e, silent e.1) t ∧ ∀ r, o = Ok r → QDryRun req = true ∧ ZStatus r = "preview" ∧ ZEntries r = [])
  ∨ ∃ name addr session t1 t2 res,
      ledgerBranchName (QBranch req) = Ok name ∧ QDryRun req = false ∧ t = t1 ++ t2
      ∧ (QSession req ≠ "" → session = QSession req)
      ∧ (ZSession res, ZTask res, ZParent res, ZHash res)
        = (session, QTask req, QParent req, CallHash "execute_change" name (QSQL req) (QTask req) (QParent req))
      ∧ Forall (λ e, silent e.1) t1
      ∧ (∃ r, (store_session name (mkSession session (request_agent req) (strPtr (QParent req)) (strPtr (QTask req))
                 (strPtr (request_tool req)) "" 0), r) ∈ t1 ∧ rok r = true)
      ∧ sent (request_agent req) (request_tool req) (QSQL req) addr res o t2.

Lemma attributed_after req o t u : Forall (λ e, silent e.1) t → attributed req o u → attributed req o (t ++ u).
Proof.
  intros Ht [[Hs Hr]|(name & addr & session & t1 & t2 & res & ? & ? & -> & ? & ? & ? & (r & Hin & ?) & ?)].
  - left. split; [by apply Forall_app|done].
  - right. exists name, addr, session, (t ++ t1), t2, res. split_and!; try done.
    + by rewrite app_assoc.
    + by apply Forall_app.
    + exists r. split; [apply elem_of_app; by right|done].
Qed.

Lemma attributed_bind {A} req (m : prog A) f h o t : emits silent m → runs (m ≫= f) h o t →
  (∀ a t1 t2, runs m h (Ok a) t1 → runs (f a) (h ++ t1) o t2 → attributed req o t2) → attributed req o t.
Proof.
  intros Hm [[Hs Ho]|(a & t1 & t2 & -> & Hs & H1 & H2)]%(runs_after silent) Hk; [|by apply attributed_after; eauto|done].
  left. split; [done|]. by intros r ->.
Qed.

Lemma attributed_fail req e h o t : runs (fail e) h o t → attributed req o t.
Proof. intros [-> ->]%runs_lift. left. split; [constructor|done]. Qed.

(** C10. ExecuteChange sends a statement to the database in one way only. Either nothing
    is sent, and then the call failed or was a dry run reported as a preview; or, after the session's row was
    stored on the branch, a connection was opened as the client role and given the
    agent, tool, session, task, parent session and the hash of this very call, all of
    that succeeded, and the next thing on it is the requested statement, which is the
    only one; the connection is closed at the end. The status is "applied" exactly
    when the database took it, and a session the caller named is the one recorded. *)
Theorem ExecuteChange_attributed req h o t : runs (ExecuteChange req) h o t → attributed req o t.
Proof.
  unfold ExecuteChange. intros Hrun.
  apply (attributed_bind _ _ _ _ _ _ (emits_lift _ _) Hrun). clear Hrun. intros name t0 t1 [Hname _]%runs_lift Hrun.
  symmetry in Hname. pose proof (ledgerBranchName_idem _ _ Hname) as Hidem.
  destruct (String.eqb (TrimSpace _) ""); [by eapply attributed_fail|].
  fold (request_tool req) in Hrun. fold (request_agent req) in Hrun. cbv zeta in Hrun.
  apply (attributed_bind _ _ _ _ _ _ (emits_lift _ _) Hrun). clear Hrun. intros [] t2 t3 _ Hrun.
  destruct (_ || _); [by eapply attributed_fail|].
  apply (attributed_bind _ _ _ _ _ _ (new_session_silent _ _) Hrun). clear Hrun. intros session t4 t5 Hsession Hrun.
  pose proof (or_new_session_keeps _ _ _ _ _ Hsession) as Hkeep.
  apply (attributed_bind _ _ _ _ _ _ (emits_mono _ _ _ local_silent (EnsureRunning_local name)) Hrun).
  clear Hrun. intros addr t6 t7 _ Hrun.
  apply (attributed_bind _ _ _ _ _ _ (emits_mono _ _ _ looks_silent (policyCheck_looks name (QSQL req))) Hrun).
  clear Hrun. intros [tag preview] t8 t9 _ Hrun.
  apply (attributed_bind _ _ _ _ _ _ (emits_attempt _ _ (emits_mono _ _ _ looks_silent (impact_looks name (QSQL req) "" ""))) Hrun).
  clear Hrun. intros rep t10 t11 _ Hrun. cbv zeta in Hrun.
  destruct (QDryRun req) eqn:Hdry.
  { apply runs_ret in Hrun as [-> ->]. left. split; [constructor|]. by intros r [= <-]. }
  set (res := mkResult _ _ _ _ _ _ _ _ _ _ _ _ _) in Hrun.
  apply runs_bind in Hrun as [([] & u1 & u2 & Hstart & Hrun & ->)|[(e & Hstart & ->)|(w & Hstart & ->)]];
    apply StartAgentSession_runs in Hstart as [Hsil Hrow]; try done; [|by left..].
  destruct (Hrow eq_refl) as (r & Hin & Hok).
  apply runs_bind in Hrun as [(marker & u3 & u4 & Hm & Hrun & ->)|[(e & Hm & ->)|(w & Hm & ->)]];
    (apply (emits_runs silent) in Hm; [|apply marker_silent]); [|by left; split; [apply Forall_app|]..].
  rewrite app_assoc. apply run_change_sends in Hrun as [[Hs Hfail]|Hsent].
  - left. split; [rewrite !Forall_app; done|]. by intros q ->.
  - right. exists name, addr, session, (u1 ++ u3), u4, res. split_and!; try done.
    + by apply Forall_app.
    + exists r. split; [apply elem_of_app; by left|done].
Qed.

End attribution.

(** ** A machine on which a change is applied *)

Definition listed_order : MapOrder := {| visit := λ l, l; visit_perm := λ l, reflexivity l |}.
Definition calm_pgx : Pgx := {| notices_of := λ _, []; pg_error := λ _, None; command_tags := λ _, ["CREATE TABLE"] |}.
Definition change_world : World := {| answer := λ _ a,
  match a with
  | Exec l _ =>
      if bool_decide ("inspect" ∈ l) then reply_ok "10.0.0.2"
      else if Contains (default "" (last l)) "max(id)" then reply_ok "7"
      else if Contains (default "" (last l)) "s.id >" then reply_ok "8"
      else reply_ok ""
  | ReadFile _ => reply_ok "main"
  | CallOut "rand.Read" _ => reply_ok "01234567"
  | _ => reply_ok ""
  end |}.
Definition change_request : ExecuteChangeRequest := mkRequest "main" "CREATE TABLE t(x int)" "7" "" "" "bot" "" false.
Definition change_run : outcome error ExecuteChangeResult * history :=
  @ExecuteChange change_world sample_env plain_errors ascii_unicode listed_order calm_pgx change_request [].

Lemma ExecuteChange_attributed_witness :
  match change_run.1 with
  | Ok r => (ZStatus r, ZCommand r, ZSession r, ZEntries r) = ("applied", "CREATE TABLE", "mcp-3031323334353637", [8%Z])
  | _ => False
  end
  ∧ @attributed sample_env change_request change_run.1 change_run.2.
Proof.
  split; [vm_compute; reflexivity|].
  apply (@ExecuteChange_attributed change_world sample_env plain_errors ascii_unicode listed_order calm_pgx change_request []).
  apply surjective_pairing.
Defined.
