(* ===== verification/Documents.v ===== *)
(** * Loading documents into an instance (internal/branch/import.go)

    The loaders behind an import that read a stream: an SQL dump run through psql
    with its errors counted, a CSV file with its header, JSON documents staged and
    turned into a relational table, the collections of a MongoDB source. What a
    stream holds is a string; how a command's standard error arrives is [Stderr]. *)
From S2P Require Import Prelude GoStrings GoNum GoRunes GoSort Sql Json Effects Storage Container.
Open Scope string_scope.
Open Scope list_scope.

Definition pgImportOptions : string := "PGOPTIONS=-c odb.allow_destructive=on".

(** The writes of a finished command to its standard error, in order. *)
Class Stderr := { stderr_writes : reply → list string }.

(** ** Counting psql's errors *)

Definition psqlErrorsShown : nat := 20.

Record psqlErrorCollector : Type := mkCollector { partial : string; count : Z; first : list string }.
Definition new_collector : psqlErrorCollector := mkCollector "" 0 [].

Definition line (c : psqlErrorCollector) (l : string) : psqlErrorCollector :=
  if negb (Contains l "ERROR:") && negb (Contains l "FATAL:") then c
  else mkCollector (partial c) (count c + 1)
         (if (List.length (first c) <? psqlErrorsShown)%nat then first c ++ [TrimSpace l] else first c).

(** The complete lines of what has not been looked at; each turn removes a newline. *)
Fixpoint write_lines (fuel : nat) (c : psqlErrorCollector) : psqlErrorCollector :=
  match fuel with
  | O => c
  | S fuel =>
      match cut_byte nl (partial c) with
      | None => c
      | Some (l, rest) =>
          let c := line c l in
          write_lines fuel (mkCollector rest (count c) (first c))
      end
  end.
Definition Write (c : psqlErrorCollector) (b : string) : psqlErrorCollector :=
  let p := partial c +:+ b in
  write_lines (S (String.length p)) (mkCollector p (count c) (first c)).
Definition flush_partial (c : psqlErrorCollector) : psqlErrorCollector :=
  if String.eqb (partial c) "" then c
  else let c := line c (partial c) in mkCollector "" (count c) (first c).
Definition collected (writes : list string) : psqlErrorCollector := flush_partial (foldl Write new_collector writes).

Definition failure_report (target : string) (c : psqlErrorCollector) : string :=
  Sprintf "%d statement(s) failed — the rest loaded, and instance %q is kept so you can inspect it:"
    [format_int (count c); target] ""
  +:+ String.concat "" ((λ e, str1 nl +:+ "  " +:+ e) <$> first c)
  +:+ (if (Z.of_nat (List.length (first c)) <? count c)%Z
       then str1 nl +:+ Sprintf "  … and %d more" [format_int (count c - Z.of_nat (List.length (first c)))] "" else "").

Section documents.
Context {W : World} {En : Env} {Er : Stderr}.

Definition exec_in (target : string) (interactive : bool) (argv : list string) : list string :=
  ["docker"; "exec"] ++ (if interactive then ["-i"] else []) ++ ["-e"; pgImportOptions; container target] ++ argv.

(** The result of runCollectingErrors followed by failure. *)
Definition run_counting (target : string) (argv : list string) (stdin : string) : prog unit :=
  let a := Exec ("sudo" :: argv) stdin in
  r ← call a;
  let c := collected (stderr_writes r) in
  if (count c =? 0)%Z then if rok r then mret tt else fail (CommandFailed a)
  else fail (Errorf "%s" [failure_report target c]).

Definition loadPostgres (target source : string) : prog unit :=
  let script := "set -euo pipefail; pg_dump " +:+ shellQuote source +:+ " --no-owner --no-acl --no-comments | psql -q -U "
    +:+ pgUser +:+ " -d " +:+ pgDatabase in
  run_counting target (exec_in target false ["bash"; "-c"; script]) "".

Definition loadSQL (target r : string) : prog unit :=
  run_counting target (exec_in target true ["psql"; "-q"; "-U"; pgUser; "-d"; pgDatabase]) r.

Definition psqlExec (target sql : string) : prog unit :=
  run (exec_in target false ["psql"; "-q"; "-U"; pgUser; "-d"; pgDatabase; "-v"; "ON_ERROR_STOP=1";
                             "-c"; "SET client_min_messages=warning;"; "-c"; sql]).
Definition pipeInto (target r : string) (argv : list string) : prog unit :=
  perform (Exec ("sudo" :: exec_in target true argv) r).

Definition tableCountQuery : string := lines_of
  ["SELECT count(*) FROM information_schema.tables";
   str1 tab +:+ str1 tab +:+ " WHERE table_schema NOT IN ('pg_catalog','information_schema','odb')"].
Definition TableCount (name : string) : prog Z :=
  '(out, _) ← capture ["docker"; "exec"; container name; "psql"; "-U"; pgUser; "-d"; pgDatabase; "-tAc"; tableCountQuery];
  mret (atoi_value (TrimSpace out)).

(** ** CSV *)

(** encoding/csv on one line. A field after its opening quote, up to its end: its
    text, and what follows the comma behind it if there is one. *)
Fixpoint quoted_field (acc s : string) : option (string * option string) :=
  match s with
  | EmptyString => None
  | String c t =>
      if Ascii.eqb c dquote then
        match t with
        | EmptyString => Some (acc, None)
        | String d u =>
            if Ascii.eqb d dquote then quoted_field (acc +:+ str1 dquote) u
            else if Ascii.eqb d "," then Some (acc, Some u)
            else if Ascii.eqb d nl && String.eqb u "" then Some (acc, None)
            else None
        end
      else quoted_field (acc +:+ str1 c) t
  end.
Fixpoint csv_fields (fuel : nat) (s : string) : option (list string) :=
  match fuel with
  | O => None
  | S fuel =>
      '(f, rest) ← (match s with
        | String c t => if Ascii.eqb c dquote then quoted_field "" t
                        else let '(f, rest) := match cut_byte "," s with Some (f, r) => (f, Some r) | None => (TrimSuffix s (str1 nl), None) end in
                             if has_byte dquote f then None else Some (f, rest)
        | EmptyString => Some ("", None)
        end);
      match rest with
      | None => Some [f]
      | Some r => fs ← csv_fields fuel r; Some (f :: fs)
      end
  end.
(** A line that ends in CR LF loses the CR, and so does an unfinished one; an empty
    line is skipped, and then nothing is left to read. *)
Definition csv_line (s : string) : string :=
  match strip_suffix (str1 nl) s with
  | Some l => TrimSuffix l (str1 "013") +:+ str1 nl
  | None => TrimSuffix s (str1 "013")
  end.
Definition csv_read (s : string) : option (list string) :=
  let l := csv_line s in
  if String.eqb l "" || String.eqb l (str1 nl) then None else csv_fields (S (String.length l)) l.

(** bufio.Reader.ReadString: the first line with its newline, and the rest. *)
Definition first_line (r : string) : string * string :=
  match cut_byte nl r with Some (l, rest) => (l +:+ str1 nl, rest) | None => (r, "") end.

Definition create_csv_table (table : string) (cols : list string) : string :=
  "CREATE TABLE IF NOT EXISTS " +:+ sqlIdent table +:+ " (" +:+ Join ", " ((λ c, sqlIdent c +:+ " text") <$> cols) +:+ ");".

Definition loadCSV (target r table : string) : prog unit :=
  let '(header, rest) := first_line r in
  if String.eqb header "" then fail (Errorf "empty CSV" []) else
  match csv_read header with
  | None => fail (Errorf "could not parse CSV header" [])
  | Some cols =>
      _ ← run (exec_in target false ["psql"; "-q"; "-U"; pgUser; "-d"; pgDatabase; "-c"; create_csv_table table cols]);
      pipeInto target rest ["psql"; "-q"; "-U"; pgUser; "-d"; pgDatabase; "-c";
        "\copy " +:+ sqlIdent table +:+ " FROM STDIN WITH (FORMAT csv, HEADER false)"]
  end.

(** ** JSON documents *)

(** What is left of a text, as the text that was read of it. *)
Definition read_part (l rest : list ascii) : string := of_bytes (take (List.length l - List.length rest) l).

(** One value at the front: its text and what follows it. *)
Definition take_raw (l : list ascii) : option (string * list ascii) :=
  let l := skip_ws l in
  '(_, rest) ← take_value (S (2 * List.length l)) 0 l;
  Some (read_part l rest, rest).

(** The documents passed on, and the error that ended the reading. *)
Definition emitted : Type := list string * option error.
Definition emit (d : string) (e : emitted) : emitted := (d :: e.1, e.2).

(** The elements of an array after its opening bracket; [n] of them are read. A
    comma stands before each but the first. *)
Fixpoint array_docs (fuel : nat) (n : Z) (l : list ascii) : emitted :=
  match fuel with
  | O => ([], Some (Errorf "out of fuel" []))
  | S fuel =>
      let bad m := ([], Some (Errorf "JSON array element %d is not valid JSON: %v" [format_int m; ""])) in
      let open := ([], Some (Errorf "the JSON array isn't closed after element %d: %v" [format_int n; ""])) in
      let element l :=
        match take_raw l with
        | None => bad (n + 1)%Z
        | Some (d, rest) => emit d (array_docs fuel (n + 1) rest)
        end in
      match skip_ws l with
      | [] => open
      | "]"%char :: _ => ([], None)
      | "}"%char :: _ => open
      | c :: t =>
          if (n =? 0)%Z then element (c :: t)
          else if Ascii.eqb c "," then element t else bad (n + 1)%Z
      end
  end.

(** Lines of documents: bufio.Scanner with a buffer of 64 MiB. *)
Definition max_line : N := 67108864.
Fixpoint line_docs (n : Z) (lines : list string) : emitted :=
  match lines with
  | [] => ([], None)
  | l :: t =>
      if (max_line <=? N.of_nat (String.length l))%N
      then ([], Some (Errorf "reading line %d: %v" [format_int (n + 1); "bufio.Scanner: token too long"]))
      else
        let raw := TrimSpace l in
        if String.eqb raw "" then line_docs (n + 1) t
        else match json_parse raw with
             | None => ([], Some (Errorf "line %d is not valid JSON" [format_int (n + 1)]))
             | Some _ => emit raw (line_docs (n + 1) t)
             end
  end.

(** [r] starts with its first character that is not blank. *)
Definition streamJSONDocs (r : list ascii) : emitted :=
  match r with
  | "["%char :: t => array_docs (S (List.length t)) 0 t
  | _ => line_docs 0 (Split nl (of_bytes r))
  end.

Definition insert_doc (qstage raw : string) : string :=
  "INSERT INTO " +:+ qstage +:+ "(doc) VALUES ('" +:+ ReplaceByte "'" "''" raw +:+ "'::jsonb);" +:+ str1 nl.
Definition docs_script (qstage : string) (e : emitted) : string :=
  "BEGIN;" +:+ str1 nl +:+ String.concat "" (insert_doc qstage <$> e.1)
  +:+ (match e.2 with Some _ => "ROLLBACK;" | None => "COMMIT;" end) +:+ str1 nl.

(** *** From documents to columns *)

Definition keysQuery (qstage : string) : string :=
  "SELECT e.key || chr(9) || coalesce(jsonb_typeof(e.value),'null') FROM " +:+ qstage +:+
  " s, LATERAL jsonb_each(s.doc) e WHERE jsonb_typeof(s.doc)='object' GROUP BY 1".

(** A key and a type; none for a line that is not one. *)
Definition key_type (l : string) : option (string * string) := cut_byte tab l.

(** The keys in the order of their first line, and the types of each. *)
Abbreviation kinds_of := (gmap string (gset string)).
Definition kind_step (s : list string * kinds_of) (l : string) : list string * kinds_of :=
  match key_type l with
  | None => s
  | Some (k, t) =>
      match s.2 !! k with
      | None => (s.1 ++ [k], <[k := {[t]}]> s.2)
      | Some ts => (s.1, <[k := {[t]} ∪ ts]> s.2)
      end
  end.
Definition key_kinds (out : string) : list string * kinds_of := foldl kind_step ([], ∅) (Split nl (TrimSpace out)).

(** Sorted, _id first. *)
Definition ordered_keys (keys : list string) (kinds : kinds_of) : list string :=
  let keys := sort_slice str_lt keys in
  match kinds !! "_id" with
  | Some _ => "_id" :: List.filter (λ k, negb (String.eqb k "_id")) keys
  | None => keys
  end.

Definition jsonColumn (key : string) (kinds : gset string) : string * string :=
  let kq := ReplaceByte "'" "''" key in
  if String.eqb key "_id" then ("text", "coalesce(doc->'" +:+ kq +:+ "'->>'$oid', doc->>'" +:+ kq +:+ "')") else
  match elements (kinds ∖ {["null"]}) with
  | [] => ("text", "doc->>'" +:+ kq +:+ "'")
  | [t] =>
      if String.eqb t "string" then ("text", "doc->>'" +:+ kq +:+ "'")
      else if String.eqb t "number" then ("numeric", "(doc->>'" +:+ kq +:+ "')::numeric")
      else if String.eqb t "boolean" then ("boolean", "(doc->>'" +:+ kq +:+ "')::boolean")
      else ("jsonb", "doc->'" +:+ kq +:+ "'")
  | _ => ("jsonb", "doc->'" +:+ kq +:+ "'")
  end.

Definition relational_sql (qstage qtable : string) (columns : list (string * (string * string))) : string :=
  "DROP TABLE IF EXISTS " +:+ qtable +:+ "; CREATE TABLE " +:+ qtable +:+ " ("
  +:+ Join ", " ((λ c : string * (string * string), sqlIdent c.1 +:+ " " +:+ c.2.1) <$> columns) +:+ "); INSERT INTO " +:+ qtable +:+ " SELECT "
  +:+ Join ", " ((λ c : string * (string * string), c.2.2 +:+ " AS " +:+ sqlIdent c.1) <$> columns) +:+ " FROM " +:+ qstage
  +:+ " WHERE jsonb_typeof(doc)='object'; DROP TABLE " +:+ qstage +:+ ";".

Definition keep_sql (qstage qtable : string) : string :=
  "DROP TABLE IF EXISTS " +:+ qtable +:+ "; ALTER TABLE " +:+ qstage +:+ " RENAME TO " +:+ qtable +:+ ";".

Definition relationalizeJSON (target stage table : string) : prog unit :=
  let qstage := sqlIdent stage in
  let qtable := sqlIdent table in
  out ← wrap "inspect documents: %w" []
    (capture_or_fail ["docker"; "exec"; container target; "psql"; "-U"; pgUser; "-d"; pgDatabase; "-tAc"; keysQuery qstage]);
  let '(keys, kinds) := key_kinds out in
  match keys with
  | [] => psqlExec target (keep_sql qstage qtable)
  | _ => psqlExec target (relational_sql qstage qtable
           ((λ k, (k, jsonColumn k (default ∅ (kinds !! k)))) <$> ordered_keys keys kinds))
  end.

Definition stage_of (table : string) : string := table +:+ "__odb_stage".

Definition stage_sql (qstage : string) : string :=
  "DROP TABLE IF EXISTS " +:+ qstage +:+ "; CREATE TABLE " +:+ qstage +:+ " (id bigserial PRIMARY KEY, doc jsonb);".

(** psql reads what the documents are turned into; its error comes before theirs. *)
Definition loadJSON (target r table : string) : prog unit :=
  let stage := stage_of table in
  let qstage := sqlIdent stage in
  let qtable := sqlIdent table in
  _ ← psqlExec target (stage_sql qstage);
  match skip_ws (to_bytes r) with
  | [] => psqlExec target ("DROP TABLE IF EXISTS " +:+ qstage +:+ "; CREATE TABLE " +:+ qtable +:+ " (doc jsonb);")
  | l =>
      let e := streamJSONDocs l in
      _ ← pipeInto target (docs_script qstage e) ["psql"; "-q"; "-U"; pgUser; "-d"; pgDatabase; "-v"; "ON_ERROR_STOP=1"];
      match e.2 with
      | Some err => fail err
      | None => relationalizeJSON target stage table
      end
  end.

(** ** MongoDB *)

Definition mongoImage : string := "mongo:7".
Definition mongo_args (uri script : string) : list string :=
  ["docker"; "run"; "--rm"; "--network"; network; mongoImage; "mongosh"; uri; "--quiet"; "--eval"; script].

Definition mongoCollections (uri : string) : prog (list string) :=
  let a := sudo (mongo_args uri "db.getCollectionNames().forEach(c=>print(c))") in
  r ← call a;
  if negb (rok r) then fail (Wrapf "could not reach the MongoDB source: %w" [] (CommandFailed a)) else
  mret (List.filter (λ l, negb (String.eqb l "") && negb (HasPrefix l "Warning")) (TrimSpace <$> Split nl (TrimSpace (rout r)))).

Definition mongoCleanJS : string :=
  "function clean(v){if(v==null)return v;if(v instanceof Date)return v.toISOString();"
  +:+ "if(typeof v!=='object')return v;if(v._bsontype)return v.toString();"
  +:+ "if(Array.isArray(v))return v.map(clean);var o={};for(var k in v)o[k]=clean(v[k]);return o;}".
Definition jsStr (s : string) : string := json_string s.
Definition export_script (coll : string) : string :=
  mongoCleanJS +:+ " db.getCollection(" +:+ jsStr coll +:+ ").find().forEach(function(d){print(JSON.stringify(clean(d)))})".

(** The command is started, its output loaded, and its end waited for. *)
Definition mongoImportCollection (target uri coll : string) : prog unit :=
  let a := sudo (mongo_args uri (export_script coll)) in
  r ← call a;
  if negb (rok r) then fail (CommandFailed a) else
  let wait := CallOut "cmd.Wait" (mongo_args uri (export_script coll)) in
  _ ← on_error (loadJSON target (rout r) coll) (λ e, _ ← ignore wait; fail e);
  perform wait.

Fixpoint import_collections (target uri : string) (cols : list string) : prog unit :=
  match cols with
  | [] => mret tt
  | c :: t =>
      _ ← wrap "collection %q: %w" [c] (mongoImportCollection target uri c);
      import_collections target uri t
  end.
Definition loadMongo (target uri : string) : prog unit :=
  cols ← mongoCollections uri;
  match cols with
  | [] => fail (Errorf "no collections found at the source" [])
  | _ => import_collections target uri cols
  end.

End documents.

(** ** The errors counted are the error lines *)

Definition error_line (l : string) : bool := Contains l "ERROR:" || Contains l "FATAL:".
Definition error_lines (ls : list string) : list string := List.filter error_line ls.

(** The collector after the lines [ls], with [p] waiting for its newline. *)
Definition after_lines (ls : list string) (p : string) : psqlErrorCollector :=
  mkCollector p (Z.of_nat (List.length (error_lines ls))) (take psqlErrorsShown (TrimSpace <$> error_lines ls)).

Lemma error_lines_app a b : error_lines (a ++ b) = error_lines a ++ error_lines b.
Proof. apply List.filter_app. Qed.

Lemma take_snoc {A} n (x : list A) a :
  (if (List.length (take n x) <? n)%nat then take n x ++ [a] else take n x) = take n (x ++ [a]).
Proof.
  rewrite length_take. destruct (Nat.ltb_spec (Nat.min n (List.length x)) n).
  - rewrite !take_ge; [done|rewrite length_app; cbn; lia|lia].
  - by rewrite take_app_le by lia.
Qed.

Lemma line_after ls p l : line (after_lines ls p) l = after_lines (ls ++ [l]) p.
Proof.
  unfold line, after_lines. rewrite <- negb_orb, error_lines_app. fold (error_line l).
  assert (error_lines [l] = if error_line l then [l] else []) as -> by done.
  destruct (error_line l); cbn [negb partial count first]; [|by rewrite app_nil_r].
  rewrite take_snoc, fmap_app, length_app. f_equal. cbn. lia.
Qed.

Lemma Split_extend c a b : Split c (a +:+ b) = removelast (Split c a) ++ Split c (List.last (Split c a) "" +:+ b).
Proof.
  induction a as [|d a IH]; [done|]. cbn [String.append Split]. rewrite IH.
  pose proof (Split_nonempty c a). destruct (Split c a) as [|w ws]; [done|].
  destruct (Ascii.eqb c d) eqn:Hd; [done|].
  destruct ws as [|w2 ws]; [|done]. cbn. by rewrite Hd.
Qed.

Lemma write_lines_after fuel ls p : (String.length p < fuel)%nat →
  write_lines fuel (after_lines ls p) = after_lines (ls ++ removelast (Split nl p)) (List.last (Split nl p) "").
Proof.
  revert ls p. induction fuel as [|fuel IH]; intros ls p Hf; [lia|]. cbn [write_lines].
  change (partial (after_lines ls p)) with p. destruct (cut_byte nl p) as [[l rest]|] eqn:Hc.
  - apply cut_byte_Some in Hc as [-> Hl]. rewrite (Split_app nl l rest) by done.
    change (mkCollector rest _ _) with (mkCollector rest (count (line (after_lines ls (l +:+ String nl rest)) l)) (first (line (after_lines ls (l +:+ String nl rest)) l))).
    rewrite line_after. change (mkCollector rest _ _) with (after_lines (ls ++ [l]) rest).
    rewrite IH by (rewrite length_sapp in Hf; cbn in Hf; lia).
    pose proof (Split_nonempty nl rest). destruct (Split nl rest) as [|w ws]; [done|].
    rewrite <- app_assoc. done.
  - apply cut_byte_None in Hc. rewrite (Split_no_sep nl p) by done. cbn. by rewrite app_nil_r.
Qed.

Lemma Write_after s b :
  Write (after_lines (removelast (Split nl s)) (List.last (Split nl s) "")) b
  = after_lines (removelast (Split nl (s +:+ b))) (List.last (Split nl (s +:+ b)) "").
Proof.
  unfold Write. cbn [partial after_lines]. set (p := List.last (Split nl s) "" +:+ b).
  change (mkCollector p _ _) with (after_lines (removelast (Split nl s)) p).
  rewrite write_lines_after by lia. rewrite (Split_extend nl s b). fold p.
  pose proof (Split_nonempty nl p) as Hne. rewrite removelast_app by done. f_equal.
  rewrite (app_removelast_last "" Hne), app_assoc, !List.last_last. done.
Qed.

Lemma concat_cons b l : String.concat "" (b :: l) = b +:+ String.concat "" l.
Proof. destruct l; cbn; [by rewrite sapp_nil_r|done]. Qed.

Lemma writes_after l s :
  foldl Write (after_lines (removelast (Split nl s)) (List.last (Split nl s) "")) l
  = after_lines (removelast (Split nl (s +:+ String.concat "" l))) (List.last (Split nl (s +:+ String.concat "" l)) "").
Proof.
  revert s. induction l as [|b l IH]; intros s; cbn [foldl]; [by rewrite sapp_nil_r|].
  by rewrite Write_after, IH, concat_cons, sapp_assoc.
Qed.

Lemma collected_lines writes : collected writes = after_lines (Split nl (String.concat "" writes)) "".
Proof.
  unfold collected. change new_collector with (after_lines (removelast (Split nl "")) (List.last (Split nl "") "")).
  rewrite writes_after. change ("" +:+ String.concat "" writes) with (String.concat "" writes).
  set (text := String.concat "" writes). pose proof (Split_nonempty nl text) as Hne.
  transitivity (after_lines (removelast (Split nl text) ++ [List.last (Split nl text) ""]) "");
    [|by rewrite <- app_removelast_last].
  unfold flush_partial. cbn [partial after_lines].
  destruct (String.eqb_spec (List.last (Split nl text) "") "") as [->|Hl].
  - unfold after_lines. rewrite error_lines_app. change (error_lines [""]) with (@nil string). by rewrite app_nil_r.
  - by rewrite line_after.
Qed.

(** ** Reading a value from a longer text *)

(** What follows a value in an array. *)
Definition array_stop (k : list ascii) : Prop := match k with c :: _ => c = ","%char ∨ c = "]"%char | [] => True end.

Lemma take_digits_stop l d r k : array_stop k → take_digits l = (d, r) → take_digits (l ++ k) = (d, r ++ k).
Proof.
  intros Hk. revert d r. induction l as [|c l IH]; intros d r H.
  - injection H as <- <-. destruct k as [|c k]; [done|]. by destruct Hk as [-> | ->].
  - cbn in H |- *. destruct (is_digit c); [|by injection H as <- <-].
    destruct (take_digits l) as [d' r'] eqn:Hl. injection H as <- <-. by rewrite (IH d' r').
Qed.

Lemma take_digits_some l k (P : list ascii * list ascii) : array_stop k →
  (match take_digits l with ([], _) => None | x => Some x end) = Some P →
  (match take_digits (l ++ k) with ([], _) => None | x => Some x end) = Some (P.1, P.2 ++ k).
Proof.
  intros Hk H. destruct (take_digits l) as [d r] eqn:Hl. rewrite (take_digits_stop l d r k) by done.
  destruct d; [done|]. by injection H as <-.
Qed.

Lemma take_int_stop l d r k : array_stop k → take_int l = Some (d, r) → take_int (l ++ k) = Some (d, r ++ k).
Proof.
  intros Hk H. destruct l as [|c l]; [done|]. unfold take_int in *. cbn [app].
  destruct (ascii_dec c "0") as [->|Hc]; [by injection H as <- <-|].
  assert (∀ A (f : list ascii → A) y t, match c :: t with "0"%char :: t => f t | _ => y end = y) as Hm
    by (intros A f y t; destruct c as [[] [] [] [] [] [] [] []]; done).
  rewrite (Hm _ (λ t, Some (["0"%char], t))) in H. rewrite (Hm _ (λ t, Some (["0"%char], t))).
  by apply (take_digits_some (c :: l) k (d, r)).
Qed.

Lemma take_frac_stop l d r k : array_stop k → take_frac l = Some (d, r) → take_frac (l ++ k) = Some (d, r ++ k).
Proof.
  intros Hk H. destruct l as [|c l].
  - injection H as <- <-. destruct k as [|c k]; [done|]. by destruct Hk as [-> | ->].
  - destruct (ascii_dec c ".") as [->|Hc].
    + cbn [take_frac app] in *. destruct (take_digits l) as [ds u] eqn:Hl. rewrite (take_digits_stop l ds u k) by done.
      destruct ds; [done|]. by injection H as <- <-.
    + destruct c as [[] [] [] [] [] [] [] []]; try done; by injection H as <- <-.
Qed.

Lemma take_exp_stop l d r k : array_stop k → take_exp l = Some (d, r) → take_exp (l ++ k) = Some (d, r ++ k).
Proof.
  intros Hk H. destruct l as [|c l].
  - injection H as <- <-. destruct k as [|c k]; [done|]. by destruct Hk as [-> | ->].
  - cbn [take_exp app] in *. destruct (negb (is_exp c)); [by injection H as <- <-|].
    destruct l as [|s l]; [cbn in H; done|]. cbn [app].
    destruct (is_sign s).
    + destruct (take_digits l) as [ds u] eqn:Hl. rewrite (take_digits_stop l ds u k) by done.
      destruct ds; [done|]. by injection H as <- <-.
    + change (s :: l ++ k) with ((s :: l) ++ k). destruct (take_digits (s :: l)) as [ds u] eqn:Hl.
      rewrite (take_digits_stop (s :: l) ds u k) by done. destruct ds; [done|]. by injection H as <- <-.
Qed.

Lemma take_number_stop l d r k : array_stop k → take_number l = Some (d, r) → take_number (l ++ k) = Some (d, r ++ k).
Proof.
  intros Hk.
  assert (∀ neg l1, ('(i, l2) ← take_int l1; '(f, l3) ← take_frac l2; '(e, l4) ← take_exp l3; Some (of_bytes (neg ++ i ++ f ++ e), l4)) = Some (d, r) →
    ('(i, l2) ← take_int (l1 ++ k); '(f, l3) ← take_frac l2; '(e, l4) ← take_exp l3; Some (of_bytes (neg ++ i ++ f ++ e), l4)) = Some (d, r ++ k)) as Hrest.
  { intros neg l1 H. destruct (take_int l1) as [[i l2]|] eqn:Hi; [|done]. rewrite (take_int_stop l1 i l2 k) by done. cbn in H |- *.
    destruct (take_frac l2) as [[f l3]|] eqn:Hf; [|done]. rewrite (take_frac_stop l2 f l3 k) by done. cbn in H |- *.
    destruct (take_exp l3) as [[e l4]|] eqn:He; [|done]. rewrite (take_exp_stop l3 e l4 k) by done. cbn in H |- *.
    by injection H as <- <-. }
  unfold take_number. destruct l as [|c l]; [done|]. cbn [app]. destruct (ascii_dec c "-") as [->|Hc]; [apply Hrest|].
  assert (∀ A (f : list ascii → A) y t, match c :: t with "-"%char :: t => f t | _ => y end = y) as Hm
    by (intros A f y t; destruct c as [[] [] [] [] [] [] [] []]; done).
  rewrite !(Hm _ (λ t, (["-"%char], t))). apply (Hrest [] (c :: l)).
Qed.

Lemma take_string_more k : ∀ n l p s r, (List.length l <= n)%nat →
  take_string p l = Some (s, r) → take_string p (l ++ k) = Some (s, r ++ k).
Proof.
  induction n as [|n IH]; intros l p s r Hn H; (destruct l as [|c t]; [done|]); cbn [List.length] in Hn; [lia|].
  cbn [take_string app] in *. destruct (Ascii.eqb c dquote); [by injection H as <- <-|].
  destruct (Ascii.eqb c "\").
  2:{ destruct (byte_val c <? 32)%Z; [done|]. destruct (take_string None t) as [[s' r']|] eqn:Ht; [|done].
      rewrite (IH t None s' r') by (done || lia). by injection H as <- <-. }
  destruct t as [|e u]; [done|]. cbn [List.length] in Hn.
  destruct (ascii_dec e "u") as [->|He].
  - do 4 (destruct u as [|? u]; [done|]). cbn [app List.length] in *. destruct (hex4 _ _ _ _) as [m|]; [|done]. cbn in H |- *.
    destruct (escaped_unit p m) as [out q]. destruct (take_string q u) as [[s' r']|] eqn:Ht; [|done].
    rewrite (IH u q s' r') by (done || lia). by injection H as <- <-.
  - assert (∀ A (f g : A), match e with "u"%char => f | _ => g end = g) as Hm
      by (intros A f g; destruct e as [[] [] [] [] [] [] [] []]; done).
    cbn [app]. rewrite Hm in H. rewrite Hm. destruct (simple_escape e) as [v|]; [|done]. cbn in H |- *.
    destruct (take_string None u) as [[s' r']|] eqn:Ht; [|done].
    rewrite (IH u None s' r') by (done || lia). by injection H as <- <-.
Qed.

Lemma take_word_more w l r k : take_word w l = Some r → take_word w (l ++ k) = Some (r ++ k).
Proof.
  revert l. induction w as [|c w IH]; intros l H; [by injection H as <-|].
  destruct l as [|d l]; [done|]. cbn in H |- *. destruct (Ascii.eqb c d); [by apply IH|done].
Qed.

Lemma skip_ws_more l k : skip_ws l ≠ [] → skip_ws (l ++ k) = skip_ws l ++ k.
Proof.
  unfold skip_ws. induction l as [|c l IH]; [done|]. cbn. destruct (json_space c); [apply IH|done].
Qed.

(** A reader that goes on reading the same from a longer text. *)
Definition extends {A} (p q : list ascii → option (A * list ascii)) (k : list ascii) : Prop :=
  ∀ l a r, p l = Some (a, r) → q (l ++ k) = Some (a, r ++ k).

(** A test for a character is a comparison with it. *)
Ltac by_char := repeat match goal with c : ascii |- _ => destruct c as [[] [] [] [] [] [] [] []] end; reflexivity.

Lemma json_head_case {A} c (x1 x2 x3 x4 x5 y : A) :
  match c with "{"%char => x1 | "["%char => x2 | "t"%char => x3 | "f"%char => x4 | "n"%char => x5 | _ => y end
  = if Ascii.eqb c "{" then x1 else if Ascii.eqb c "[" then x2 else if Ascii.eqb c "t" then x3
    else if Ascii.eqb c "f" then x4 else if Ascii.eqb c "n" then x5 else y.
Proof. by_char. Qed.

Lemma brace_case {A} (x : A) (y : list ascii → A) u :
  match u with "}"%char :: r => y r | _ => x end = match u with [] => x | e :: r => if Ascii.eqb e "}" then y r else x end.
Proof. destruct u as [|e u]; [done|by_char]. Qed.
Lemma bracket_case {A} (x : A) (y : list ascii → A) u :
  match u with "]"%char :: r => y r | _ => x end = match u with [] => x | e :: r => if Ascii.eqb e "]" then y r else x end.
Proof. destruct u as [|e u]; [done|by_char]. Qed.
Lemma colon_case {A} (x : A) (y : list ascii → A) u :
  match u with ":"%char :: r => y r | _ => x end = match u with [] => x | e :: r => if Ascii.eqb e ":" then y r else x end.
Proof. destruct u as [|e u]; [done|by_char]. Qed.
Lemma comma_brace_case {A} (x : A) (y z : list ascii → A) u :
  match u with ","%char :: r => y r | "}"%char :: r => z r | _ => x end
  = match u with [] => x | e :: r => if Ascii.eqb e "," then y r else if Ascii.eqb e "}" then z r else x end.
Proof. destruct u as [|e u]; [done|by_char]. Qed.
Lemma comma_bracket_case {A} (x : A) (y z : list ascii → A) u :
  match u with ","%char :: r => y r | "]"%char :: r => z r | _ => x end
  = match u with [] => x | e :: r => if Ascii.eqb e "," then y r else if Ascii.eqb e "]" then z r else x end.
Proof. destruct u as [|e u]; [done|by_char]. Qed.

Lemma take_value_eq f d l : take_value (S f) d l =
  match skip_ws l with
  | [] => None
  | c :: t =>
      if Ascii.eqb c "{" then
        if (10000 <=? d)%N then None else
        match skip_ws t with
        | [] => '(m, r) ← take_members f (N.succ d) t; Some (JObj m, r)
        | e :: r => if Ascii.eqb e "}" then Some (JObj [], r) else '(m, r) ← take_members f (N.succ d) t; Some (JObj m, r)
        end
      else if Ascii.eqb c "[" then
        if (10000 <=? d)%N then None else
        match skip_ws t with
        | [] => '(m, r) ← take_elements f (N.succ d) t; Some (JArr m, r)
        | e :: r => if Ascii.eqb e "]" then Some (JArr [], r) else '(m, r) ← take_elements f (N.succ d) t; Some (JArr m, r)
        end
      else if Ascii.eqb c "t" then r ← take_word ["r"; "u"; "e"]%char t; Some (JBool true, r)
      else if Ascii.eqb c "f" then r ← take_word ["a"; "l"; "s"; "e"]%char t; Some (JBool false, r)
      else if Ascii.eqb c "n" then r ← take_word ["u"; "l"; "l"]%char t; Some (JNull, r)
      else if Ascii.eqb c dquote then '(s, r) ← take_string None t; Some (JStr (of_bytes s), r)
      else '(n, r) ← take_number (c :: t); Some (JNum n, r)
  end.
Proof.
  cbn [take_value]. destruct (skip_ws l) as [|c t]; [done|].
  rewrite <- (brace_case _ (λ r, Some (JObj [], r))), <- (bracket_case _ (λ r, Some (JArr [], r))). apply json_head_case.
Qed.

(** A match on what follows some blanks goes on the same when more text follows. *)
Lemma after_ws_more {A} (F G : ascii → list ascii → option A) l k (a : option A) x :
  match skip_ws l with [] => None | e :: r => F e r end = Some x →
  (∀ e r, F e r = Some x → G e (r ++ k) = a) →
  match skip_ws (l ++ k) with [] => None | e :: r => G e r end = a.
Proof.
  intros H HG. destruct (skip_ws l) as [|e r] eqn:Hl; [done|].
  rewrite skip_ws_more, Hl by (by rewrite Hl). cbn. by apply HG.
Qed.

Lemma take_elements_eq f d l : take_elements (S f) d l =
  '(v, r) ← take_value f d l;
  match skip_ws r with
  | [] => None
  | e :: r => if Ascii.eqb e "," then '(m, r) ← take_elements f d r; Some (v :: m, r)
              else if Ascii.eqb e "]" then Some ([v], r) else None
  end.
Proof.
  cbn [take_elements]. destruct (take_value f d l) as [[v r]|]; [|done]. cbn.
  apply (comma_bracket_case None (λ r, '(m, r) ← take_elements f d r; Some (v :: m, r)) (λ r, Some ([v], r))).
Qed.

Lemma take_members_eq f d l : take_members (S f) d l =
  match skip_ws l with
  | [] => None
  | c :: t =>
      if negb (Ascii.eqb c dquote) then None else
      '(k, r) ← take_string None t;
      match skip_ws r with
      | [] => None
      | e :: r =>
          if Ascii.eqb e ":" then
            '(v, r) ← take_value f d r;
            match skip_ws r with
            | [] => None
            | e :: r => if Ascii.eqb e "," then '(m, r) ← take_members f d r; Some ((of_bytes k, v) :: m, r)
                        else if Ascii.eqb e "}" then Some ([(of_bytes k, v)], r) else None
            end
          else None
      end
  end.
Proof.
  cbn [take_members]. destruct (skip_ws l) as [|c t]; [done|]. destruct (negb _); [done|].
  destruct (take_string None t) as [[k r]|]; [|done]. cbn.
  rewrite (colon_case None (λ r, '(v, r) ← take_value f d r; match skip_ws r with
      | ","%char :: r => '(m, r) ← take_members f d r; Some ((of_bytes k, v) :: m, r)
      | "}"%char :: r => Some ([(of_bytes k, v)], r) | _ => None end)).
  destruct (skip_ws r) as [|e r1]; [done|]. destruct (Ascii.eqb e ":"); [|done].
  destruct (take_value f d r1) as [[v r2]|]; [|done]. cbn.
  apply (comma_brace_case None (λ r, '(m, r) ← take_members f d r; Some ((of_bytes k, v) :: m, r)) (λ r, Some ([(of_bytes k, v)], r))).
Qed.

(** Every value nested in another is read by less fuel, so more text and more fuel
    change nothing. *)
Lemma take_value_more k : array_stop k → ∀ f g d, (f <= g)%nat →
  extends (take_value f d) (take_value g d) k
  ∧ extends (take_members f d) (take_members g d) k
  ∧ extends (take_elements f d) (take_elements g d) k.
Proof.
  intros Hk. induction f as [|f IH]; intros g d Hg; [done|]. destruct g as [|g]; [lia|]. apply le_S_n in Hg.
  split_and!; intros l a r H.
  - rewrite take_value_eq in *. eapply after_ws_more; [exact H|]. clear H. intros c t H. cbv beta in *.
    destruct (IH g (N.succ d) Hg) as (_ & Hm & He).
    destruct (Ascii.eqb c "{").
    { destruct (10000 <=? d)%N; [done|]. destruct (skip_ws t) as [|e u] eqn:Ht.
      - destruct (take_members f (N.succ d) t) as [[m r']|] eqn:Hmem; [|done].
        destruct f as [|f]; [done|]. rewrite take_members_eq, Ht in Hmem. done.
      - rewrite skip_ws_more, Ht by (by rewrite Ht). cbn [app]. destruct (Ascii.eqb e "}"); [by injection H as <- <-|].
        destruct (take_members f (N.succ d) t) as [[m r']|] eqn:Hmem; [|done]. rewrite (Hm t m r') by done.
        by injection H as <- <-. }
    destruct (Ascii.eqb c "[").
    { destruct (10000 <=? d)%N; [done|]. destruct (skip_ws t) as [|e u] eqn:Ht.
      - destruct (take_elements f (N.succ d) t) as [[m r']|] eqn:Hmem; [|done].
        destruct f as [|f]; [done|]. rewrite take_elements_eq in Hmem.
        destruct f as [|f]; [done|]. rewrite take_value_eq, Ht in Hmem. done.
      - rewrite skip_ws_more, Ht by (by rewrite Ht). cbn [app]. destruct (Ascii.eqb e "]"); [by injection H as <- <-|].
        destruct (take_elements f (N.succ d) t) as [[m r']|] eqn:Hmem; [|done]. rewrite (He t m r') by done.
        by injection H as <- <-. }
    destruct (Ascii.eqb c "t"), (Ascii.eqb c "f"), (Ascii.eqb c "n"), (Ascii.eqb c dquote);
      first
        [ destruct (take_word _ t) as [r'|] eqn:Hw; [|done]; rewrite (take_word_more _ t r' k Hw); by injection H as <- <-
        | destruct (take_string None t) as [[s r']|] eqn:Hs; [|done];
          rewrite (take_string_more k (List.length t) t None s r') by done; by injection H as <- <-
        | destruct (take_number (c :: t)) as [[s r']|] eqn:Hs; [|done];
          change (c :: t ++ k) with ((c :: t) ++ k);
          rewrite (take_number_stop (c :: t) s r' k) by done; by injection H as <- <- ].
  - rewrite take_members_eq in *. eapply after_ws_more; [exact H|]. clear H. intros c t H. cbv beta in *.
    destruct (negb _); [done|]. destruct (take_string None t) as [[s u]|] eqn:Hs; [|done].
    rewrite (take_string_more k (List.length t) t None s u) by done. cbn in H |- *.
    eapply after_ws_more; [exact H|]. clear H. intros e v H. cbv beta in *.
    destruct (Ascii.eqb e ":"); [|done]. destruct (IH g d Hg) as (Hv & Hm & _).
    destruct (take_value f d v) as [[x w]|] eqn:Hx; [|done]. rewrite (Hv v x w) by done. cbn in H |- *.
    eapply after_ws_more; [exact H|]. clear H. intros e2 y H. cbv beta in *.
    destruct (Ascii.eqb e2 ","), (Ascii.eqb e2 "}"); try done; try (by injection H as <- <-);
      (destruct (take_members f d y) as [[m z]|] eqn:Hy; [|done]; rewrite (Hm y m z) by done; by injection H as <- <-).
  - rewrite take_elements_eq in *. destruct (IH g d Hg) as (Hv & _ & He).
    destruct (take_value f d l) as [[x w]|] eqn:Hx; [|done]. rewrite (Hv l x w) by done. cbn in H |- *.
    eapply after_ws_more; [exact H|]. clear H. intros e2 y H. cbv beta in *.
    destruct (Ascii.eqb e2 ","), (Ascii.eqb e2 "]"); try done; try (by injection H as <- <-);
      (destruct (take_elements f d y) as [[m z]|] eqn:Hy; [|done]; rewrite (He y m z) by done; by injection H as <- <-).
Qed.

(** ** An array of documents and a line each *)

Lemma take_raw_whole l : take_raw l = Some (of_bytes l, []) → skip_ws l = l ∧ ∃ v, take_value (S (2 * List.length l)) 0 l = Some (v, []).
Proof.
  unfold take_raw. cbv zeta. destruct (take_value _ _ _) as [[v r]|] eqn:Hv; [|done]. cbn [mbind option_bind].
  unfold read_part. intros [= H ->]. cbn [List.length] in H. rewrite Nat.sub_0_r, take_ge in H by done.
  assert (skip_ws l = l) as Hl by (apply (f_equal to_bytes) in H; by rewrite !to_of_bytes in H).
  rewrite Hl in Hv. eauto.
Qed.

Lemma take_raw_more l k : array_stop k → take_raw l = Some (of_bytes l, []) → take_raw (l ++ k) = Some (of_bytes l, k).
Proof.
  intros Hk [Hws [v Hv]]%take_raw_whole. unfold take_raw. cbv zeta.
  assert (l ≠ []) as Hne by (intros ->; done).
  rewrite skip_ws_more, Hws by (by rewrite Hws).
  destruct (take_value_more k Hk (S (2 * List.length l)) (S (2 * List.length (l ++ k))) 0) as (Hmore & _ & _);
    [rewrite length_app; lia|]. rewrite (Hmore l v []) by done. cbn [mbind option_bind app]. unfold read_part.
  rewrite length_app. replace (List.length l + List.length k - List.length k)%nat with (List.length l) by lia. by rewrite take_app_length.
Qed.

(** What a value starts with ends no array and separates nothing. *)
Lemma take_raw_head l r : take_raw l = Some r → ∃ c t, skip_ws l = c :: t ∧ c ≠ "]"%char ∧ c ≠ "}"%char.
Proof.
  unfold take_raw. cbv zeta. rewrite take_value_eq.
  assert (skip_ws (skip_ws l) = skip_ws l) as ->.
  { unfold skip_ws. induction l as [|c l IH]; [done|]. cbn. destruct (json_space c) eqn:Hc; [done|]. cbn. by rewrite Hc. }
  destruct (skip_ws l) as [|c t]; [done|]. intros H. exists c, t. split; [done|].
  split; intros ->; cbn in H; done.
Qed.

Lemma array_docs_head fuel n l c t : skip_ws l = c :: t → c ≠ "]"%char → c ≠ "}"%char →
  array_docs (S fuel) n l =
  let element l := match take_raw l with
    | None => ([], Some (Errorf "JSON array element %d is not valid JSON: %v" [format_int (n + 1); ""]))
    | Some (d, rest) => emit d (array_docs fuel (n + 1) rest)
    end in
  if (n =? 0)%Z then element (c :: t)
  else if Ascii.eqb c "," then element t
  else ([], Some (Errorf "JSON array element %d is not valid JSON: %v" [format_int (n + 1); ""])).
Proof.
  intros Hl H1 H2. cbn [array_docs]. rewrite Hl.
  assert (∀ A (x y z : A), match c with "]"%char => x | "}"%char => y | _ => z end = z) as Hm; [|apply Hm].
  intros A x y z. destruct c as [[] [] [] [] [] [] [] []]; done.
Qed.

(** The elements after the first, and the closing bracket. *)
Definition array_rest (docs : list string) : list ascii := (docs ≫= λ d, ","%char :: to_bytes d) ++ ["]"%char].

Lemma array_rest_stops docs : array_stop (array_rest docs).
Proof. destruct docs; [by right|by left]. Qed.

Definition whole (d : string) : Prop := take_raw (to_bytes d) = Some (d, []).

Lemma whole_more d k : whole d → array_stop k → take_raw (to_bytes d ++ k) = Some (d, k).
Proof. unfold whole. intros H Hk. rewrite <- (of_to_bytes d) in H at 2. by rewrite (take_raw_more _ k Hk H), of_to_bytes. Qed.

Lemma array_docs_rest docs : Forall whole docs → ∀ fuel n, (List.length docs < fuel)%nat → (0 < n)%Z →
  array_docs fuel n (array_rest docs) = (docs, None).
Proof.
  induction 1 as [|d docs Hd _ IH]; intros fuel n Hf Hn; (destruct fuel as [|fuel]; [cbn in Hf; lia|]); [done|].
  cbn [List.length] in Hf. unfold array_rest. cbn [mbind list_bind]. rewrite <- app_assoc.
  change ((","%char :: to_bytes d) ++ _) with (","%char :: to_bytes d ++ array_rest docs).
  rewrite (array_docs_head fuel n _ "," (to_bytes d ++ array_rest docs)) by done. cbv zeta.
  rewrite (proj2 (Z.eqb_neq n 0)) by lia. cbn [Ascii.eqb]. rewrite whole_more by (done || apply array_rest_stops).
  cbn. by rewrite IH by lia.
Qed.

(** A document on a line of its own. *)
Definition line_document (d : string) : Prop :=
  whole d ∧ TrimSpace d = d ∧ has_byte nl d = false ∧ (N.of_nat (String.length d) < max_line)%N.

Lemma whole_parses d : whole d → is_Some (json_parse d) ∧ d ≠ "".
Proof.
  unfold whole. intros H. rewrite <- (of_to_bytes d) in H at 2. pose proof H as [_ [v Hv]]%take_raw_whole.
  unfold json_parse. rewrite Hv. cbn. split; [by eexists|]. intros ->. done.
Qed.

Lemma line_docs_all docs n : Forall line_document docs → line_docs n docs = (docs, None).
Proof.
  intros H. revert n. induction H as [|d docs (Hw & Ht & _ & Hl) _ IH]; intros n; [done|].
  cbn [line_docs]. rewrite (proj2 (N.leb_gt _ _) Hl), Ht. destruct (whole_parses d Hw) as [[v ->] Hne].
  rewrite (proj2 (String.eqb_neq d "") Hne), IH. done.
Qed.

Lemma array_text d docs : to_bytes ("[" +:+ Join "," (d :: docs) +:+ "]") = "["%char :: to_bytes d ++ array_rest docs.
Proof.
  rewrite !to_bytes_app. cbn [to_bytes String.list_ascii_of_string app]. f_equal. revert d.
  induction docs as [|d2 docs IH]; intros d; [done|]. cbn [Join]. rewrite !to_bytes_app, <- !app_assoc.
  cbn [Join] in IH. rewrite IH. unfold array_rest. cbn [mbind list_bind]. by rewrite <- !app_assoc.
Qed.

Lemma array_rest_length docs : (List.length docs < List.length (array_rest docs))%nat.
Proof.
  unfold array_rest. rewrite length_app. cbn [List.length]. enough (List.length docs <= List.length (docs ≫= λ d, ","%char :: to_bytes d))%nat by lia.
  induction docs as [|d docs IH]; [done|]. rewrite bind_cons, length_app. cbn [List.length] in *. lia.
Qed.

Lemma array_docs_all d docs : Forall whole (d :: docs) →
  streamJSONDocs (to_bytes ("[" +:+ Join "," (d :: docs) +:+ "]")) = (d :: docs, None).
Proof.
  intros [Hd Hs]%Forall_cons. rewrite array_text. cbn [streamJSONDocs].
  pose proof (whole_more d (array_rest docs) Hd (array_rest_stops docs)) as Hraw.
  destruct (take_raw_head _ _ Hraw) as (c & t & Hws & H1 & H2). rewrite (array_docs_head _ 0 _ c t) by done. cbv zeta.
  change (0 =? 0)%Z with true. cbv iota. rewrite <- Hws.
  assert (take_raw (skip_ws (to_bytes d ++ array_rest docs)) = Some (d, array_rest docs)) as ->.
  { rewrite <- Hraw. pose proof Hd as Hd'. unfold whole in Hd'. rewrite <- (of_to_bytes d) in Hd' at 2. apply take_raw_whole in Hd' as [Hsk _].
    destruct (whole_parses d Hd) as [_ Hne]. rewrite skip_ws_more, Hsk; [done|]. rewrite Hsk. by destruct d. }
  cbv iota. rewrite array_docs_rest; [done|done| |done]. pose proof (array_rest_length docs). rewrite length_app. lia.
Qed.

(** C36. A file of JSON documents gives the same documents in both of its forms: an array
    of any documents, or the documents on a line each, provided that the first is not itself
    an array, is read as exactly those documents, in order, without an error. (A document is
    the text of one JSON value without blanks around it. Where the first line is an array,
    only that array is read: [streamJSONDocs_drops_lines].) *)
Theorem streamJSONDocs_formats d docs : Forall line_document (d :: docs) →
  streamJSONDocs (to_bytes ("[" +:+ Join "," (d :: docs) +:+ "]")) = (d :: docs, None)
  ∧ (HasPrefix d "[" = false → streamJSONDocs (to_bytes (Join (str1 nl) (d :: docs))) = (d :: docs, None)).
Proof.
  intros H. split.
  { apply array_docs_all. eapply Forall_impl; [exact H|]. by intros x [Hx _]. }
  intros Hp. pose proof H as [(Hw & _) _]%Forall_cons. destruct (whole_parses d Hw) as [_ Hne].
  destruct d as [|c d]; [done|]. unfold streamJSONDocs.
  assert (∃ t, to_bytes (Join (str1 nl) (String c d :: docs)) = c :: t) as [t Ht] by (destruct docs; cbn; eauto).
  assert (∀ A (f : list ascii → A) g, match c :: t with "["%char :: t => f t | _ => g end = g) as Hm.
  { intros A f g. assert (c ≠ "["%char) by (intros ->; done). destruct c as [[] [] [] [] [] [] [] []]; done. }
  rewrite Ht. rewrite (Hm _ (λ t, array_docs (S (List.length t)) 0 t)). rewrite <- Ht, of_to_bytes, Split_Join; [by apply line_docs_all|done|].
  eapply Forall_impl; [exact H|]. by intros x (_ & _ & Hx & _).
Qed.

(** What follows an array is never looked at: of two lines that hold an array each,
    the second is left out without an error. *)
Example streamJSONDocs_drops_lines : streamJSONDocs (to_bytes ("[1]" +:+ str1 nl +:+ "[2]")) = (["1"], None).
Proof. reflexivity. Qed.

Lemma streamJSONDocs_formats_witness :
  streamJSONDocs (to_bytes "[1,null,[2,3]]") = (["1"; "null"; "[2,3]"], None)
  ∧ (HasPrefix "1" "[" = false → streamJSONDocs (to_bytes (Join (str1 nl) ["1"; "null"; "[2,3]"])) = (["1"; "null"; "[2,3]"], None)).
Proof.
  apply (streamJSONDocs_formats "1" ["null"; "[2,3]"]). repeat constructor; vm_compute; try reflexivity; lia.
Defined.

(** ** The staging table of a long name *)

Lemma substring_app n s t : (n <= String.length s)%nat → substring 0 n (s +:+ t) = substring 0 n s.
Proof.
  revert n. induction s as [|c s IH]; intros n Hn; cbn in Hn.
  - assert (n = 0)%nat as -> by lia. by destruct t.
  - destruct n as [|n]; [done|]. cbn. by rewrite IH by lia.
Qed.

Lemma substring_all s : substring 0 (String.length s) s = s.
Proof. induction s as [|c s IH]; [done|]. cbn. by rewrite IH. Qed.

(** A table whose name has 63 bytes or more is its own staging table: both names are
    cut at 63 bytes, so what drops the table first drops the documents staged. *)
Lemma stage_collides table : (63 <= String.length table)%nat → sqlIdent (stage_of table) = sqlIdent table.
Proof.
  intros Hl. unfold sqlIdent, stage_of. rewrite length_sapp.
  replace (63 <? _ + _)%nat with true by (symmetry; apply Nat.ltb_lt; cbn; lia). rewrite substring_app by done.
  destruct (Nat.ltb_spec 63 (String.length table)) as [|H]; [done|].
  replace 63%nat with (String.length table) by lia. by rewrite substring_all.
Qed.

(** ** A dump's failed statements *)

Section counting.
Context {W : World} {En : Env} {Er : Stderr}.

(** Loading an SQL dump runs psql once on the whole dump, and the result is decided
    by the lines of its standard error, however they arrived: with no line that
    reports an error it is psql's own exit, and otherwise an error that gives the
    number of those lines and the first twenty of them. *)
Theorem loadSQL_counts target dump h :
  let cmd := Exec ("sudo" :: exec_in target true ["psql"; "-q"; "-U"; pgUser; "-d"; pgDatabase]) dump in
  let x := answer h cmd in
  let errs := error_lines (Split nl (String.concat "" (stderr_writes x))) in
  loadSQL target dump h =
    (match errs with
     | [] => if rok x then Ok tt else Err (CommandFailed cmd)
     | _ => Err (Errorf "%s" [failure_report target
              (mkCollector "" (Z.of_nat (List.length errs)) (take psqlErrorsShown (TrimSpace <$> errs)))])
     end, [(cmd, x)]).
Proof.
  cbv zeta. unfold loadSQL, run_counting, mbind, prog_bind, call. cbv zeta beta. cbn [fst snd app].
  rewrite collected_lines. unfold after_lines. cbn [count]. destruct (error_lines _) as [|e es]; [|done].
  cbn [List.length]. change (Z.of_nat 0 =? 0)%Z with true. cbv iota. by destruct (rok _).
Qed.

End counting.
