(* ===== verification/MySQL.v ===== *)
(** * Loading a MySQL or MariaDB source (internal/branch/import.go)

    pgloader for the sources it can read, and the path through mysqldump for MySQL 8:
    the tables and their columns read from information_schema, the Postgres types,
    the rows. *)
From S2P Require Import Prelude GoStrings GoNum GoRunes GoUrl Sql Effects Storage Container Documents.
Open Scope string_scope.
Open Scope list_scope.

Definition pgloaderImage : string := "oxyndb/pgloader:local".
Definition mysqlImage : string := "mysql:8".

(** strings.Replace with a count of one. *)
Definition replace_first (old new s : string) : string :=
  match cut_sub old s with Some (a, b) => a +:+ new +:+ b | None => s end.

Record myDSN : Type := mkDSN { my_host : string; my_port : string; my_user : string; my_pass : string; my_db : string }.

Definition myArgs (c : myDSN) (tool : string) (extra : list string) : list string :=
  ["docker"; "run"; "--rm"; "--network"; network; mysqlImage; tool; "-h"; my_host c; "-P"; my_port c; "-u"; my_user c]
  ++ (if String.eqb (my_pass c) "" then [] else ["-p" +:+ my_pass c]) ++ extra.
Definition my_query (c : myDSN) (q : string) : list string := myArgs c "mysql" ["-N"; "-B"; "-e"; q].

(** The leading decimal digits, in 64-bit arithmetic. *)
Fixpoint leading_number (acc : Z) (l : list ascii) : Z :=
  match l with
  | c :: t => if is_digit c then leading_number (wrap64 (wrap64 (acc * 10) + (byte_val c - 48))) t else acc
  | [] => acc
  end.

Definition tablesQuery (db : string) : string :=
  "SELECT table_name FROM information_schema.tables WHERE table_schema=" +:+ sqlQuote db
  +:+ " AND table_type='BASE TABLE' ORDER BY table_name".
Definition columnsQuery (db table : string) : string :=
  "SELECT column_name, data_type, column_type, is_nullable, column_key, extra "
  +:+ "FROM information_schema.columns WHERE table_schema=" +:+ sqlQuote db +:+ " AND table_name=" +:+ sqlQuote table
  +:+ " ORDER BY ordinal_position".

(** The text from the first parenthesis through the first closing one. Slicing backwards panics. *)
Definition parens (s : string) : outcome error (option string) :=
  match cut_byte "(" s with
  | None => Ok None
  | Some (before, _) =>
      let i := String.length before in
      let j := match cut_byte ")" s with Some (b, _) => S (String.length b) | None => 0%nat end in
      if (i <=? j)%nat then Ok (Some (substring i (j - i) s)) else Panic "slice bounds out of range"
  end.

Definition mapMySQLType (dataType columnType : string) : outcome error string :=
  let unsigned := Contains columnType "unsigned" in
  let of_type := String.eqb dataType in
  if of_type "tinyint" then Ok "smallint"
  else if of_type "smallint" then Ok (if unsigned then "integer" else "smallint")
  else if of_type "mediumint" || of_type "year" then Ok "integer"
  else if of_type "int" || of_type "integer" then Ok (if unsigned then "bigint" else "integer")
  else if of_type "bigint" then Ok (if unsigned then "numeric" else "bigint")
  else if of_type "decimal" || of_type "numeric" then
    p ← parens columnType; Ok (match p with Some p => "numeric" +:+ p | None => "numeric" end)
  else if of_type "float" then Ok "real"
  else if of_type "double" || of_type "real" then Ok "double precision"
  else if of_type "bit" then Ok "smallint"
  else if of_type "date" then Ok "date"
  else if of_type "datetime" || of_type "timestamp" then Ok "timestamp"
  else if of_type "time" then Ok "time"
  else if of_type "json" then Ok "jsonb"
  else Ok "text".

Definition insert_lines (out : string) : string :=
  String.concat "" ((λ l, l +:+ str1 nl) <$> List.filter (λ l, HasPrefix l "INSERT INTO ") (Split nl out)).
Definition rows_preamble : string :=
  "SET client_encoding='UTF8';" +:+ str1 nl +:+ "SET standard_conforming_strings=off;" +:+ str1 nl
  +:+ "SET backslash_quote=on;" +:+ str1 nl +:+ "SET client_min_messages=warning;" +:+ str1 nl.
Definition pgloader_dockerfile : string :=
  "FROM debian:stable-slim" +:+ str1 nl
  +:+ "RUN apt-get update && apt-get install -y --no-install-recommends pgloader ca-certificates && rm -rf /var/lib/apt/lists/*" +:+ str1 nl.

Section mysql.
Context {W : World} {En : Env} {U : Unicode} {IP : IPLiterals}.

Definition parseMyDSN (dsn : string) : myDSN :=
  match url_parse dsn with
  | None => mkDSN "" "" "" "" ""
  | Some u =>
      mkDSN (Hostname u) (if String.eqb (Port u) "" then "3306" else Port u) (default "" (UserName u)) (Password u)
        (TrimPrefix (Path u) "/")
  end.

Definition mysqlNeedsNative (dsn : string) : prog bool :=
  let c := parseMyDSN dsn in
  if String.eqb (my_host c) "" then mret false else
  r ← call (sudo (my_query c "SELECT VERSION()"));
  let v := string_lower (TrimSpace (rout r)) in
  mret (rok r && negb (String.eqb v "" || Contains v "mariadb") && (8 <=? leading_number 0 (to_bytes v))%Z).

Definition mysqlTables (c : myDSN) : prog (list string) :=
  let a := sudo (my_query c (tablesQuery (my_db c))) in
  r ← call a;
  if rok r then mret (output_lines (TrimSpace (rout r)))
  else fail (Wrapf "could not reach the MySQL source: %w" [] (CommandFailed a)).

(** A column's definition, and its name if it is in the primary key; none for a
    generated column or a line that is no column. *)
Definition column_of (l : string) : outcome error (option (string * option string)) :=
  match Split tab l with
  | name :: dtype :: ctype :: nullable :: key :: extra :: _ =>
      let extra := string_upper extra in
      if Contains extra "VIRTUAL GENERATED" || Contains extra "STORED GENERATED" then Ok None else
      type ← mapMySQLType (string_lower dtype) (string_lower ctype);
      Ok (Some (pgIdent name +:+ " " +:+ type +:+ (if String.eqb nullable "NO" then " NOT NULL" else ""),
                if String.eqb key "PRI" then Some (pgIdent name) else None))
  | _ => Ok None
  end.
Fixpoint columns_of (lines : list string) : outcome error (list (string * option string)) :=
  match lines with
  | [] => Ok []
  | l :: t => c ← column_of l; cs ← columns_of t; Ok (match c with Some c => c :: cs | None => cs end)
  end.

Definition create_table_text (table : string) (cols : list (string * option string)) : string :=
  let pk := omap snd cols in
  "CREATE TABLE " +:+ pgIdent table +:+ " (" +:+ Join ", " cols.*1
  +:+ (match pk with [] => "" | _ => ", PRIMARY KEY (" +:+ Join ", " pk +:+ ")" end) +:+ ");" +:+ str1 nl.

Definition mysqlCreateTable (c : myDSN) (table : string) : prog string :=
  let a := sudo (my_query c (columnsQuery (my_db c) table)) in
  r ← call a;
  if negb (rok r) then fail (CommandFailed a) else
  cols ← lift (columns_of (Split nl (trim_right_by (Ascii.eqb nl) (rout r))));
  match cols with
  | [] => fail (Errorf "no columns" [])
  | _ => mret (create_table_text table cols)
  end.

Fixpoint create_tables (c : myDSN) (tables : list string) : prog string :=
  match tables with
  | [] => mret ""
  | t :: ts =>
      stmt ← wrap "read schema of %q: %w" [t] (mysqlCreateTable c t);
      rest ← create_tables c ts;
      mret (stmt +:+ rest)
  end.

Definition dump_args (c : myDSN) : list string :=
  ["docker"; "run"; "--rm"; "--network"; network; mysqlImage; "mysqldump"; "-h"; my_host c; "-P"; my_port c; "-u"; my_user c]
  ++ (if String.eqb (my_pass c) "" then [] else ["-p" +:+ my_pass c])
  ++ ["--no-create-info"; "--compatible=ansi"; "--skip-extended-insert"; "--no-tablespaces"; "--skip-comments";
      "--skip-set-charset"; "--default-character-set=utf8mb4"; my_db c].
Definition mysqldumpData (c : myDSN) : prog string :=
  let a := sudo (dump_args c) in
  r ← call a;
  if rok r then mret (insert_lines (rout r)) else fail (Wrapf "mysqldump failed: %w" [] (CommandFailed a)).

Definition load_args : list string := ["psql"; "-q"; "-U"; pgUser; "-d"; pgDatabase; "-v"; "ON_ERROR_STOP=1"].

Definition loadMySQLNative (target dsn : string) : prog unit :=
  let c := parseMyDSN dsn in
  if String.eqb (my_db c) "" then fail (Errorf "the MySQL connection string must include a database name (…/dbname)" []) else
  tables ← mysqlTables c;
  match tables with
  | [] => fail (Errorf "no tables found in database %q" [my_db c])
  | _ =>
      ddl ← create_tables c tables;
      _ ← wrap "create tables: %w" [] (pipeInto target ddl load_args);
      data ← mysqldumpData c;
      wrap "load rows: %w" [] (pipeInto target (rows_preamble +:+ data) load_args)
  end.

Definition ensurePgloaderImage : prog unit :=
  there ← ok_sudo ["docker"; "image"; "inspect"; pgloaderImage];
  if (there : bool) then mret tt
  else perform (Exec ["sudo"; "docker"; "build"; "-t"; pgloaderImage; "-"] pgloader_dockerfile).

Definition loadMySQL (target dsn : string) : prog unit :=
  native ← mysqlNeedsNative dsn;
  if (native : bool) then loadMySQLNative target dsn else
  _ ← wrap "prepare pgloader: %w" [] ensurePgloaderImage;
  let dsn := replace_first "mariadb://" "mysql://" dsn in
  let pg_target := "postgresql://" +:+ pgUser +:+ ":" +:+ pgPass +:+ "@" +:+ container target +:+ ":5432/" +:+ pgDatabase in
  let a := sudo ["docker"; "run"; "--rm"; "--network"; network; pgloaderImage; "pgloader"; dsn; pg_target] in
  r ← call a;
  if negb (rok r) then fail (Wrapf "pgloader: %w" [] (CommandFailed a)) else
  n ← TableCount target;
  if (n =? 0)%Z then
    if Contains (rall r) "Failed to connect" || Contains (rall r) "UNSUPPORTED-AUTHENTICATION"
    then fail (Errorf "pgloader could not authenticate to the source (see log above); MySQL 8 needs the server started with mysql_native_password — its default caching_sha2_password handshake is unsupported" [])
    else fail (Errorf "pgloader loaded no tables (see log above); the source may be empty or unreadable — or export it to a .sql/.csv/.json file and run `odb import` on that" [])
  else mret tt.

End mysql.

(** ** What a MySQL server's answers can do *)

(** A decimal column whose type text closes its parenthesis before it opens one, or
    never, makes the import panic; every other type is mapped. *)
Theorem mapMySQLType_panics dataType columnType :
  panics (mapMySQLType dataType columnType) = true ↔
  (dataType = "decimal" ∨ dataType = "numeric")
  ∧ ∃ a b, cut_byte "(" columnType = Some (a, b)
    ∧ match cut_byte ")" columnType with Some (c, _) => (S (String.length c) < String.length a)%nat | None => a ≠ "" end.
Proof.
  assert (panics (mapMySQLType dataType columnType) = true ↔
    (dataType = "decimal" ∨ dataType = "numeric") ∧ panics (parens columnType) = true) as ->.
  { destruct (decide (dataType = "decimal" ∨ dataType = "numeric")) as [Hd|Hd].
    - transitivity (panics (parens columnType) = true); [|tauto].
      destruct Hd as [-> | ->]; unfold mapMySQLType; cbn; by destruct (parens columnType).
    - split; [|tauto]. unfold mapMySQLType. cbv zeta.
      destruct (String.eqb_spec dataType "decimal") as [?|_]; [tauto|].
      destruct (String.eqb_spec dataType "numeric") as [?|_]; [tauto|]. cbn [orb]. by repeat case_match. }
  assert (panics (parens columnType) = true ↔ ∃ a b, cut_byte "(" columnType = Some (a, b)
    ∧ match cut_byte ")" columnType with Some (c, _) => (S (String.length c) < String.length a)%nat | None => a ≠ "" end) as ->; [|done].
  unfold parens. destruct (cut_byte "(" columnType) as [[a b]|]; [|split; [done|by intros (? & ? & [=] & _)]].
  assert (∀ j, panics (if (String.length a <=? j)%nat then Ok (Some (substring (String.length a) (j - String.length a) columnType))
            else Panic (E := error) "slice bounds out of range") = true ↔ (j < String.length a)%nat) as Hj.
  { intros j. destruct (Nat.leb_spec (String.length a) j); cbn; split; try done; lia. }
  rewrite Hj. clear Hj. transitivity (match cut_byte ")" columnType with Some (c, _) => (S (String.length c) < String.length a)%nat | None => a ≠ "" end).
  - destruct (cut_byte ")" columnType) as [[c d]|]; [done|]. destruct a; cbn; split; try done; lia.
  - split; [by eauto|]. by intros (? & ? & [= <- <-] & H).
Qed.
