(* ===== verification/Import.v ===== *)
(** * Importing a source into a new instance (internal/branch/import.go)

    What kind of source a text names, the instance's name, the instance created for
    the import with its guardrail off while the loader runs, the continuous import
    and its cutover. Progress messages are left out, and so is the name that comes
    back next to an error, which no caller looks at. *)
From S2P Require Import Prelude GoStrings GoNum GoRunes GoUrl GoPath Sql Effects Storage Container HA Branch Documents MySQL.
Open Scope string_scope.
Open Scope list_scope.

Inductive sourceKind : Type := srcSQL | srcCSV | srcJSON.

Definition isPostgresDSN (s : string) : bool := HasPrefix s "postgres://" || HasPrefix s "postgresql://".
Definition hasScheme (s : string) (schemes : list string) : bool := existsb (λ sc, HasPrefix s (sc +:+ "://")) schemes.

(** filepath.Ext: from the last dot of the last element. *)
Definition Ext (path : string) : string :=
  let base := default path (after_last "/" path) in
  match after_last "." base with Some e => "." +:+ e | None => "" end.

Definition identifier_char (r : rune) : bool := within 97 122 r || within 48 57 r || (r =? 95)%N.
Definition leading_digit (s : string) : bool := match s with String c _ => is_digit c | EmptyString => false end.

Section names.
Context {U : Unicode}.

Definition kindFromExt (ext : string) : outcome error sourceKind :=
  let e := string_lower ext in
  if String.eqb e ".sql" then Ok srcSQL
  else if String.eqb e ".csv" then Ok srcCSV
  else if String.eqb e ".json" || String.eqb e ".ndjson" || String.eqb e ".jsonl" then Ok srcJSON
  else Err (Errorf "unsupported file type %q — supported: .sql, .csv, .json" [ext]).
Definition ParseKind (s : string) : outcome error sourceKind :=
  kindFromExt ("." +:+ TrimPrefix (string_lower (TrimSpace s)) ".").

Definition sanitizeIdent (s : string) : string :=
  let text := of_runes ((λ r, if identifier_char r then r else 95%N) <$> runes (string_lower (TrimSpace s))) in
  let out := trim_right_by (Ascii.eqb "_") text in
  let out := if String.eqb out "" || leading_digit out then "t_" +:+ out else out in
  if (63 <? String.length out)%nat then substring 0 63 out else out.

Definition defaultTargetName (dsn : string) : string :=
  let db := default dsn (after_last "/" dsn) in
  let db := match cut_byte "?" db with Some (a, _) => a | None => db end in
  if String.eqb db "" then "import-db" else "import-" +:+ sanitizeIdent db.

End names.

Section import.
Context {W : World} {En : Env} {Em : Embedded} {U : Unicode} {IP : IPLiterals} {Er : Stderr}.

Definition prepareTarget (target : string) : prog unit :=
  run (exec_in target false ["psql"; "-q"; "-U"; pgUser; "-d"; pgDatabase; "-c";
                             "DROP SCHEMA IF EXISTS public CASCADE; CREATE SCHEMA public;"]).

Definition no_tables (target : string) : error :=
  Errorf "no tables were imported into %q — the source is empty or the wrong database was named (check the connection string or file)" [target].

Definition importInstance (target defName : string) (load : string → prog unit) : prog string :=
  let target := if String.eqb target "" then defName else target in
  _ ← wrap "create target instance %q: %w" [target] (Create target "main");
  _ ← setGuard target false;
  finally (
    _ ← wrap "prepare target: %w" [] (prepareTarget target);
    _ ← wrap "import failed: %w" [] (load target);
    n ← TableCount target;
    if (n =? 0)%Z then fail (no_tables target) else mret target)
  (setGuard target true).

(** The table keeps the name of the source; the instance's name is made safe. *)
Definition ImportReaderTo (r : string) (kind : sourceKind) (srcname target : string) : prog string :=
  let stem := TrimSuffix srcname (Ext srcname) in
  importInstance target ("import-" +:+ sanitizeIdent stem) (λ t,
    match kind with
    | srcSQL => loadSQL t r
    | srcCSV => loadCSV t r stem
    | srcJSON => loadJSON t r stem
    end).

(** Opening and reading a file is one action. *)
Definition ImportTo (source target : string) : prog string :=
  if isPostgresDSN source then importInstance target (defaultTargetName source) (λ t, loadPostgres t source)
  else if hasScheme source ["mysql"; "mariadb"] then importInstance target (defaultTargetName source) (λ t, loadMySQL t source)
  else if hasScheme source ["mongodb"; "mongodb+srv"] then importInstance target (defaultTargetName source) (λ t, loadMongo t source)
  else
    file ← is_file (Stat source);
    if negb file
    then fail (Errorf "source must be a postgres:// connection string or a readable .sql/.csv/.json file (got %q)" [source])
    else
      kind ← lift (kindFromExt (Ext source));
      f ← call (ReadFile source);
      if rok f then ImportReaderTo (rout f) kind (Base source) target else fail (CommandFailed (ReadFile source)).

Definition schema_script (source : string) : string :=
  "set -euo pipefail; pg_dump " +:+ shellQuote source +:+ " --schema-only --no-owner --no-acl --no-comments "
  +:+ "--no-publications --no-subscriptions | psql -q -U " +:+ pgUser +:+ " -d " +:+ pgDatabase.
Definition subscription (source : string) : string :=
  "CREATE SUBSCRIPTION odb_sub CONNECTION " +:+ sqlQuote source +:+ " PUBLICATION odb_pub;".

Definition ImportContinuousTo (source target : string) : prog string :=
  if negb (isPostgresDSN source)
  then fail (Errorf "--continuous requires a postgres:// source (logical replication)" []) else
  let target := if String.eqb target "" then defaultTargetName source else target in
  _ ← wrap "create target instance %q: %w" [target] (Create target "main");
  _ ← setGuard target false;
  finally (
    _ ← wrap "prepare target: %w" [] (prepareTarget target);
    _ ← wrap "copy schema from source: %w" [] (run (exec_in target false ["bash"; "-c"; schema_script source]));
    n ← TableCount target;
    if (n =? 0)%Z
    then fail (Errorf "the source database has no tables to replicate (check the database name in the connection string)" [])
    else
      _ ← discard (run ["docker"; "exec"; container target; "psql"; source; "-v"; "ON_ERROR_STOP=0";
                        "-c"; "CREATE PUBLICATION odb_pub FOR ALL TABLES;"]);
      _ ← wrap "could not start replication — the source must allow logical replication (wal_level=logical), expose a replication-capable role, and be reachable from OxynDB: %w" []
            (run (exec_in target false ["psql"; "-U"; pgUser; "-d"; pgDatabase; "-v"; "ON_ERROR_STOP=1"; "-c"; subscription source]));
      mret target)
  (setGuard target true).

Definition ImportCutoverTo (target : string) : prog unit :=
  n ← TableCount target;
  if (n =? 0)%Z
  then fail (Errorf "instance %q has no tables — continuous replication never landed anything (the source was empty or the wrong database was named); nothing to finalize" [target])
  else
    _ ← run ["docker"; "exec"; container target; "psql"; "-U"; pgUser; "-d"; pgDatabase; "-c"; "DROP SUBSCRIPTION IF EXISTS odb_sub;"];
    _ ← TableCount target;
    mret tt.

End import.

(** ** Names made from sources *)

Definition name_byte (c : ascii) : bool := lower_or_digit c || Ascii.eqb c "_".

Lemma identifier_utf8 r : identifier_char r = true → ∃ c, utf8 r = [c] ∧ name_byte c = true.
Proof.
  intros Hr. assert (r < 128)%N as Hlt.
  { unfold identifier_char in Hr. rewrite !orb_true_iff, !within_spec in Hr. rewrite N.eqb_eq in Hr. lia. }
  exists (ascii_of_N r). assert (utf8 r = [ascii_of_N r]) as -> by (unfold utf8; by rewrite (proj2 (N.ltb_lt r 0x80))).
  split; [done|]. unfold name_byte, lower_or_digit, is_digit, byte_val.
  unfold identifier_char in Hr. rewrite !orb_true_iff, !within_spec in Hr. rewrite N.eqb_eq in Hr.
  rewrite N_ascii_embedding by lia.
  rewrite !orb_true_iff, !andb_true_iff, !Z.leb_le. destruct Hr as [[Hr|Hr]|Hr].
  - left. right. lia.
  - left. left. rewrite !N.leb_le. lia.
  - right. by rewrite Hr.
Qed.

Lemma name_bytes_text rs : forallb name_byte (to_bytes (of_runes ((λ r, if identifier_char r then r else 95%N) <$> rs))) = true.
Proof.
  unfold of_runes. rewrite to_of_bytes. induction rs as [|r rs IH]; [done|].
  rewrite fmap_cons, bind_cons, forallb_app, IH, andb_true_r. destruct (identifier_char r) eqn:Hr; [|done].
  destruct (identifier_utf8 r Hr) as (c & -> & Hc). cbn. by rewrite Hc.
Qed.

Lemma drop_while_all {A} (f g : A → bool) l : forallb g l = true → forallb g (drop_while f l) = true.
Proof. induction l as [|c l IH]; [done|]. cbn. intros H. destruct (f c); [apply IH; by apply andb_true_iff in H as [_ H]|done]. Qed.

Lemma forallb_reverse {A} (g : A → bool) l : forallb g (reverse l) = forallb g l.
Proof. induction l as [|c l IH]; [done|]. rewrite reverse_cons, forallb_app, IH. cbn. rewrite andb_true_r. apply andb_comm. Qed.

Lemma trim_right_all f g s : forallb g (to_bytes s) = true → forallb g (to_bytes (trim_right_by f s)) = true.
Proof.
  intros H. unfold trim_right_by. rewrite to_of_bytes, forallb_reverse. apply drop_while_all. by rewrite forallb_reverse.
Qed.

Lemma substring_bytes g n s : forallb g (to_bytes s) = true → forallb g (to_bytes (substring 0 n s)) = true.
Proof.
  revert n. induction s as [|c s IH]; intros n H; destruct n as [|n]; try done. cbn in H |- *.
  apply andb_true_iff in H as [-> H]. by apply IH.
Qed.

Lemma length_substring n s : String.length (substring 0 n s) = Nat.min n (String.length s).
Proof. revert n. induction s as [|c s IH]; intros [|n]; cbn; try done. by rewrite IH. Qed.

(** C40. Whatever text a source is named by, the name made of it is 1 to 63 bytes of
    lower-case letters, digits and underscores and does not start with a digit; so
    the default name of an import's instance, where no target is given, is a plain
    directory and container name: no slash and no snapshot mark. (A target that is
    given is taken as it is.) *)
Theorem sanitizeIdent_safe `{Unicode} s :
  let n := sanitizeIdent s in
  (1 <= String.length n <= 63)%nat ∧ forallb name_byte (to_bytes n) = true ∧ leading_digit n = false
  ∧ plain_name ("import-" +:+ n) = true.
Proof.
  cbv zeta. unfold sanitizeIdent. set (text := trim_right_by _ _).
  assert (forallb name_byte (to_bytes text) = true) as Ht by (apply trim_right_all, name_bytes_text).
  set (out := if String.eqb text "" || leading_digit text then "t_" +:+ text else text).
  assert (forallb name_byte (to_bytes out) = true ∧ leading_digit out = false ∧ out ≠ "") as (Ho & Hd & Hne).
  { subst out. destruct (String.eqb_spec text "") as [|Hn]; [done|]. cbn [orb]. by destruct (leading_digit text) eqn:Hl. }
  set (n := if (63 <? String.length out)%nat then substring 0 63 out else out).
  assert (forallb name_byte (to_bytes n) = true) as Hb.
  { subst n. destruct (63 <? _)%nat; [by apply substring_bytes|done]. }
  split_and!.
  - subst n. destruct (Nat.ltb_spec 63 (String.length out)); [rewrite length_substring; lia|].
    destruct out; [done|cbn in *; lia].
  - subst n. destruct (Nat.ltb_spec 63 (String.length out)); [rewrite length_substring; lia|lia].
  - done.
  - subst n. destruct (63 <? _)%nat; [|done]. by destruct out.
  - clearbody n. assert (∀ c, name_byte c = false → has_byte c ("import-" +:+ n) = has_byte c "import-") as Hhas.
    { intros c Hc. unfold has_byte. rewrite to_bytes_app, existsb_app.
      assert (existsb (Ascii.eqb c) (to_bytes n) = false) as ->.
      { apply not_true_iff_false. intros (d & Hin & ->%Ascii.eqb_eq)%existsb_exists.
        rewrite forallb_forall in Hb. rewrite (Hb d Hin) in Hc. done. }
      apply orb_false_r. }
    unfold plain_name. rewrite andb_true_iff, negb_true_iff, plain_elem_spec, (Hhas "/"%char), (Hhas "@"%char) by reflexivity.
    split; [|reflexivity]. split; [discriminate|]. split; [reflexivity|]. split; discriminate.
Qed.
