(* ===== verification/Pipeline.v ===== *)
(** * Pipelines (internal/branch/pipeline.go)

    A pipeline run: the target instance made anew, the source extracted into it and
    set aside in the schema raw, the SQL models run in order, the tests evaluated.
    And the guardrail of the imports and of a run, which is on again at the end. *)
From S2P Require Import Prelude GoStrings GoNum GoRunes GoUrl GoPath Checksums Sql Effects Storage Container HA Branch Documents MySQL Import.
Open Scope string_scope.
Open Scope list_scope.

Record PipelineModel : Type := mkModel { LName : string; LSQL : string; LMaterialized : string }.
Record PipelineTest : Type := mkTest {
  KName : string; KModel : string; KType : string; KColumn : string; KValues : list string; KMin : Z; KSQL : string }.
Record PipelineSpec : Type := mkSpec { Source : string; Models : list PipelineModel; Tests : list PipelineTest }.
Record TestResult : Type := mkTestResult { RName : string; RPassed : bool; RDetail : string }.
Record RunResult : Type := mkRunResult {
  RunBranch : string; RunTables : Z; RunModels : list string; RunTests : list TestResult; RunFailed : bool }.

(** ** Macros *)

Definition quote_char (c : ascii) : bool := Ascii.eqb c "'" || Ascii.eqb c dquote.
Fixpoint take_name (s : string) : option (string * string) :=
  match s with
  | EmptyString => None
  | String c t => if quote_char c then Some ("", t) else '(n, r) ← take_name t; Some (String c n, r)
  end.
(** The expression of reRef and reSource at the start of a text: the name, and what
    follows the macro. *)
Definition macro (word s : string) : option (string * string) :=
  s ← strip_prefix "{{" s;
  s ← strip_prefix (word +:+ "(") (trim_left_by re_space s);
  match trim_left_by re_space s with
  | String q t =>
      if negb (quote_char q) then None else
      '(n, r) ← take_name t;
      if String.eqb n "" then None else
      r ← strip_prefix ")" (trim_left_by re_space r);
      r ← strip_prefix "}}" (trim_left_by re_space r);
      Some (n, r)
  | EmptyString => None
  end.
(** Each turn reads a character or a macro. *)
Fixpoint replace_macros (fuel : nat) (word schema s : string) : string :=
  match fuel with
  | O => s
  | S fuel =>
      match macro word s with
      | Some (n, rest) => schema +:+ "." +:+ sqlIdent n +:+ replace_macros fuel word schema rest
      | None => match s with String c t => String c (replace_macros fuel word schema t) | EmptyString => "" end
      end
  end.
Definition renderSQL (sql : string) : string :=
  let sql := replace_macros (S (String.length sql)) "ref" "public" sql in
  replace_macros (S (String.length sql)) "source" "raw" sql.

(** ** Tests *)

Definition testName (t : PipelineTest) : string :=
  let n := TrimSpace (KName t) in
  if String.eqb n "" then TrimSpace (KType t +:+ " " +:+ KModel t +:+ " " +:+ KColumn t) else n.

Definition in_public (model : string) : string := "public." +:+ sqlIdent model.
Definition not_null_query (model col : string) : string :=
  "SELECT count(*) FROM " +:+ model +:+ " WHERE " +:+ col +:+ " IS NULL".
Definition unique_query (model col : string) : string :=
  "SELECT count(*) FROM (SELECT " +:+ col +:+ " FROM " +:+ model +:+ " GROUP BY " +:+ col +:+ " HAVING count(*)>1) x".

Definition testQuery (t : PipelineTest) : outcome error string :=
  let model := in_public (KModel t) in
  let col := sqlIdent (KColumn t) in
  if String.eqb (KType t) "not_null" then Ok (not_null_query model col)
  else if String.eqb (KType t) "unique" then Ok (unique_query model col)
  else if String.eqb (KType t) "accepted_values" then
    match KValues t with
    | [] => Err (Errorf "accepted_values needs a values list" [])
    | vs => Ok ("SELECT count(*) FROM " +:+ model +:+ " WHERE " +:+ col +:+ " NOT IN (" +:+ Join "," (sqlQuote <$> vs) +:+ ")")
    end
  else if String.eqb (KType t) "row_count_min" then
    Ok ("SELECT CASE WHEN count(*)>=" +:+ format_int (KMin t) +:+ " THEN 0 ELSE 1 END FROM " +:+ model)
  else if String.eqb (KType t) "custom" then Ok ("SELECT count(*) FROM (" +:+ renderSQL (KSQL t) +:+ ") x")
  else Err (Errorf "unknown test type %q" [KType t]).

Section pipeline.
Context {W : World} {En : Env} {Em : Embedded} {T : ErrorText} {U : Unicode} {IP : IPLiterals} {Er : Stderr}.

Definition runTest (branch : string) (t : PipelineTest) : prog TestResult :=
  let name := testName t in
  match testQuery t with
  | Ok query =>
      '(out, ok) ← capture ["docker"; "exec"; container branch; "psql"; "-U"; pgUser; "-d"; pgDatabase; "-tAc"; query];
      mret (if negb ok then mkTestResult name false ("query error: " +:+ TrimSpace out)
            else let n := atoi_value (TrimSpace out) in
                 if (n =? 0)%Z then mkTestResult name true ""
                 else mkTestResult name false (format_int n +:+ " violating row(s)"))
  | Err e => mret (mkTestResult name false (Error e))
  | Panic w => raise w
  end.

(** ** A run *)

Definition stage_raw : string := "DROP SCHEMA IF EXISTS raw CASCADE; ALTER SCHEMA public RENAME TO raw; CREATE SCHEMA public;".
Definition model_ddl (m : PipelineModel) : string :=
  let mat := if EqualFold (TrimSpace (LMaterialized m)) "view" then "VIEW" else "TABLE" in
  "CREATE " +:+ mat +:+ " public." +:+ sqlIdent (TrimSpace (LName m)) +:+ " AS " +:+ renderSQL (LSQL m) +:+ ";".

Fixpoint run_models (branch : string) (i : Z) (ms : list PipelineModel) : prog (list string) :=
  match ms with
  | [] => mret []
  | m :: t =>
      let name := TrimSpace (LName m) in
      if String.eqb name "" then fail (Errorf "model %d has no name" [format_int i]) else
      _ ← wrap "model %q: %w" [name] (psqlExec branch (model_ddl m));
      rest ← run_models branch (i + 1) t;
      mret (name :: rest)
  end.
Fixpoint run_tests (branch : string) (ts : list PipelineTest) : prog (list TestResult) :=
  match ts with
  | [] => mret []
  | t :: rest => r ← runTest branch t; rs ← run_tests branch rest; mret (r :: rs)
  end.

Definition RunPipeline (spec : PipelineSpec) (branch : string) : prog RunResult :=
  if String.eqb (TrimSpace (Source spec)) "" then fail (Errorf "pipeline needs a source connection string" []) else
  _ ← discard (Delete branch);
  _ ← wrap "extract: %w" [] (ImportTo (Source spec) branch);
  _ ← setGuard branch false;
  finally (
    _ ← wrap "stage raw: %w" [] (psqlExec branch stage_raw);
    models ← run_models branch 1 (Models spec);
    tests ← run_tests branch (Tests spec);
    n ← TableCount branch;
    mret (mkRunResult branch n models tests (existsb (λ r, negb (RPassed r)) tests)))
  (setGuard branch true).

End pipeline.

Example renderSQL_macros :
  renderSQL "SELECT * FROM {{ ref('Orders') }} JOIN {{source( 'raw t' )}} ON {{ref(x)}}"
  = "SELECT * FROM public." +:+ pgIdent "Orders" +:+ " JOIN raw." +:+ pgIdent "raw t" +:+ " ON {{ref(x)}}".
Proof. vm_compute. reflexivity. Qed.

(** ** The guardrail *)

Section guard.
Context {W : World} {En : Env} {Em : Embedded} {T : ErrorText} {U : Unicode} {IP : IPLiterals} {Er : Stderr}.

(** Switching an instance's guardrail. *)
Definition guard_action (target : string) (enabled : bool) : action :=
  sudo ["docker"; "exec"; container target; "psql"; "-q"; "-U"; pgUser; "-d"; pgDatabase; "-c"; guard_sql enabled].
Definition keeps_guard (a : action) : Prop := ∀ n, a ≠ guard_action n false.

Lemma other_command l i : head l ≠ Some "docker" → keeps_guard (Exec ("sudo" :: l) i).
Proof. by intros Hl n [= ->]. Qed.

Ltac keeps := first [done | (intros ?n; discriminate)].

Lemma Create_keeps name parent : emits keeps_guard (Create name parent).
Proof.
  unfold Create. destruct (storage_no_container keeps_guard) as (He & _ & Hc & _); [apply other_command|keeps|].
  emits_branch; auto; keeps.
Qed.
Lemma Delete_keeps name : emits keeps_guard (Delete name).
Proof.
  unfold Delete. destruct (storage_no_container keeps_guard) as (_ & _ & _ & Hd & _); [apply other_command|keeps|].
  emits_branch; auto; keeps.
Qed.
Lemma exec_in_keeps target argv : emits keeps_guard (run (exec_in target false argv)).
Proof. unfold run, exec_in. emits_go. keeps. Qed.
Lemma pipeInto_keeps target r argv : emits keeps_guard (pipeInto target r argv).
Proof. unfold pipeInto, exec_in. emits_go. keeps. Qed.
Lemma TableCount_keeps name : emits keeps_guard (TableCount name).
Proof. unfold TableCount, capture. emits_go. keeps. Qed.
Lemma wrap_keeps {A} f args (m : prog A) : emits keeps_guard m → emits keeps_guard (wrap f args m).
Proof. intros H. unfold wrap. emits_go. done. Qed.
#[local] Hint Resolve Create_keeps Delete_keeps exec_in_keeps pipeInto_keeps TableCount_keeps wrap_keeps : emits.

Lemma counting_keeps target argv i : emits keeps_guard (run_counting target (exec_in target i argv) "").
Proof. unfold run_counting, exec_in. emits_go; destruct i; keeps. Qed.
Lemma loadSQL_keeps target r : emits keeps_guard (loadSQL target r).
Proof. unfold loadSQL, run_counting, exec_in. emits_go; keeps. Qed.
Lemma loadCSV_keeps target r table : emits keeps_guard (loadCSV target r table).
Proof. unfold loadCSV. emits_go; auto with emits. Qed.
Lemma loadJSON_keeps target r table : emits keeps_guard (loadJSON target r table).
Proof.
  unfold loadJSON, psqlExec, relationalizeJSON, capture_or_fail, capture, psqlExec. cbv zeta.
  emits_go; auto with emits. all: try (apply wrap_keeps; emits_go; keeps).
Qed.
Lemma mongo_keeps target uri : emits keeps_guard (loadMongo target uri).
Proof.
  unfold loadMongo. apply emits_bind; [unfold mongoCollections; cbv zeta; emits_go; keeps|]. intros cols.
  destruct cols as [|c cols]; [apply emits_fail|]. generalize (c :: cols). clear. intros cols.
  induction cols as [|c cols IH]; cbn [import_collections]; emits_go; [|done]. apply wrap_keeps.
  unfold mongoImportCollection. cbv zeta. emits_go; try keeps. apply emits_on_error; [apply loadJSON_keeps|].
  intros e. emits_go. keeps.
Qed.
Lemma mysql_keeps target dsn : emits keeps_guard (loadMySQL target dsn).
Proof.
  unfold loadMySQL, mysqlNeedsNative. cbv zeta. emits_go; try keeps; auto with emits.
  - unfold loadMySQLNative, mysqlTables, mysqldumpData. cbv zeta. emits_go; try keeps; auto with emits.
    match goal with |- emits _ (create_tables _ (?x :: ?l)) => generalize (x :: l) end. intros ts.
    induction ts as [|t ts IH]; cbn [create_tables]; emits_go; [|done]. apply wrap_keeps.
    unfold mysqlCreateTable. cbv zeta. emits_go. keeps.
  - apply wrap_keeps. unfold ensurePgloaderImage, ok_sudo. emits_go; keeps.
Qed.

(** [m] runs from any history so that, when it switches the guardrail of [target]
    off, it switches it on last; nothing else of it touches a guardrail. *)
Definition restores (target : string) {A} (m : prog A) : Prop := ∀ h o t, runs m h o t →
  Forall (λ e, keeps_guard e.1) t
  ∨ ∃ t0 r t1 r', t = t0 ++ (guard_action target false, r) :: t1 ++ [(guard_action target true, r')]
      ∧ Forall (λ e, keeps_guard e.1) t0 ∧ Forall (λ e, keeps_guard e.1) t1.

Lemma restores_keeps target {A} (m : prog A) : emits keeps_guard m → restores target m.
Proof. intros Hm h o t Hrun. left. by eapply emits_runs. Qed.

Lemma restores_after target {A B} (m : prog A) (f : A → prog B) :
  emits keeps_guard m → (∀ a, restores target (f a)) → restores target (m ≫= f).
Proof.
  intros Hm Hf h o t [[Hs _]|(a & t1 & t2 & -> & Hs & _ & Hrun)]%(runs_after keeps_guard); [by left| |done].
  destruct (Hf a _ _ _ Hrun) as [Ht|(t0 & r & u & r' & -> & H0 & Hu)]; [left; by apply Forall_app|].
  right. exists (t1 ++ t0), r, u, r'. rewrite <- app_assoc. split_and!; [done|by apply Forall_app|done].
Qed.

Lemma setGuard_runs target b h o t : runs (setGuard target b) h o t → o = Ok tt ∧ ∃ r, t = [(guard_action target b, r)].
Proof.
  unfold setGuard, discard, run. intros [(a & t1 & t2 & Ha & [-> ->]%runs_ret & ->)|[(e & He & _)|(w & Hw & _)]]%runs_bind.
  - rewrite app_nil_r. split; [done|]. apply runs_attempt in Ha as [(x & [-> _]%runs_perform & _)|[(x & [-> _]%runs_perform & _)|(x & [-> _]%runs_perform & _)]]; eauto.
  - by apply no_err_attempt in He.
  - apply runs_attempt in Hw as [(x & _ & [=])|[(x & _ & [=])|(x & [_ Hp]%runs_perform & _)]]. by destruct (rok _).
Qed.

(** The guardrail is off only while [m] runs. *)
Lemma restores_guarded target {A} (m : prog A) :
  emits keeps_guard m → restores target (_ ← setGuard target false; finally m (setGuard target true)).
Proof.
  intros Hm h o t [([] & t1 & t2 & H1 & H2 & ->)|[(e & [[=] _]%setGuard_runs & _)|(w & [[=] _]%setGuard_runs & _)]]%runs_bind.
  apply setGuard_runs in H1 as [_ [r ->]].
  apply runs_finally in H2 as (om & od & u1 & u2 & Hu1 & Hu2 & -> & _). apply setGuard_runs in Hu2 as [_ [r' ->]].
  right. exists [], r, u1, r'. split_and!; [done|constructor|by eapply emits_runs].
Qed.

Lemma importInstance_restores target def load : (∀ t, emits keeps_guard (load t)) →
  restores (if String.eqb target "" then def else target) (importInstance target def load).
Proof.
  intros Hl. unfold importInstance. apply restores_after; [apply wrap_keeps, Create_keeps|]. intros _.
  apply restores_guarded. emits_go; auto with emits. apply wrap_keeps. unfold prepareTarget. auto with emits.
Qed.

(** The name an import's instance gets. *)
Definition import_name (source target : string) : string :=
  if negb (String.eqb target "") then target
  else if isPostgresDSN source || hasScheme source ["mysql"; "mariadb"; "mongodb"; "mongodb+srv"] then defaultTargetName source
  else "import-" +:+ sanitizeIdent (TrimSuffix (Base source) (Ext (Base source))).

Lemma import_name_eq target def source :
  (target = "" → def = import_name source "") → (if String.eqb target "" then def else target) = import_name source target.
Proof. intros Hd. unfold import_name. destruct (String.eqb_spec target "") as [->|]; [by apply Hd|done]. Qed.

Lemma ImportTo_restores source target : restores (import_name source target) (ImportTo source target).
Proof.
  unfold ImportTo. destruct (isPostgresDSN source) eqn:Hp.
  { rewrite <- (import_name_eq target (defaultTargetName source)) by (unfold import_name; by rewrite Hp).
    apply importInstance_restores. intros t. apply counting_keeps. }
  destruct (hasScheme source ["mysql"; "mariadb"]) eqn:Hm.
  { rewrite <- (import_name_eq target (defaultTargetName source))
      by (unfold import_name; rewrite Hp; cbn in Hm |- *; destruct (HasPrefix source "mysql://"), (HasPrefix source "mariadb://"); done).
    apply importInstance_restores. intros t. apply mysql_keeps. }
  destruct (hasScheme source ["mongodb"; "mongodb+srv"]) eqn:Hg.
  { rewrite <- (import_name_eq target (defaultTargetName source))
      by (unfold import_name; rewrite Hp; cbn in Hm, Hg |- *; destruct (HasPrefix source "mysql://"), (HasPrefix source "mariadb://"), (HasPrefix source "mongodb://"), (HasPrefix source "mongodb+srv://"); done).
    apply importInstance_restores. intros t. apply mongo_keeps. }
  apply restores_after; [unfold is_file; emits_go; keeps|]. intros file.
  destruct (negb file); [apply restores_keeps, emits_fail|].
  apply restores_after; [apply emits_lift|]. intros kind. apply restores_after; [emits_go; keeps|]. intros f.
  destruct (rok f); [|apply restores_keeps, emits_fail]. unfold ImportReaderTo.
  rewrite <- (import_name_eq target ("import-" +:+ sanitizeIdent (TrimSuffix (Base source) (Ext (Base source))))).
  - apply importInstance_restores. intros t. destruct kind; [apply loadSQL_keeps|apply loadCSV_keeps|apply loadJSON_keeps].
  - intros _. unfold import_name. rewrite Hp. cbn in Hm, Hg |- *.
    destruct (HasPrefix source "mysql://"), (HasPrefix source "mariadb://"), (HasPrefix source "mongodb://"), (HasPrefix source "mongodb+srv://"); done.
Qed.

Lemma ImportContinuousTo_restores source target :
  restores (if String.eqb target "" then defaultTargetName source else target) (ImportContinuousTo source target).
Proof.
  unfold ImportContinuousTo. destruct (negb _); [apply restores_keeps, emits_fail|]. cbv zeta.
  apply restores_after; [apply wrap_keeps, Create_keeps|]. intros _. apply restores_guarded.
  emits_go; auto with emits; try (apply wrap_keeps; unfold prepareTarget; auto with emits).
  unfold run. emits_go. keeps.
Qed.

Lemma runTest_keeps branch t : emits keeps_guard (runTest branch t).
Proof. unfold runTest, capture. emits_go; keeps. Qed.

Lemma run_keeps branch spec :
  emits keeps_guard (
    _ ← wrap "stage raw: %w" [] (psqlExec branch stage_raw);
    models ← run_models branch 1 (Models spec);
    tests ← run_tests branch (Tests spec);
    n ← TableCount branch;
    mret (mkRunResult branch n models tests (existsb (λ r, negb (RPassed r)) tests))).
Proof.
  apply emits_bind; [apply wrap_keeps; unfold psqlExec; auto with emits|]. intros _.
  apply emits_bind; [|intros models; apply emits_bind; [|intros tests; emits_go; auto with emits]].
  - generalize 1%Z. induction (Models spec) as [|m ms IH]; intros i; cbn [run_models]; emits_go; [|done].
    apply wrap_keeps. unfold psqlExec. auto with emits.
  - induction (Tests spec) as [|t ts IH]; cbn [run_tests]; emits_go; [apply runTest_keeps|done].
Qed.

Lemma guard_action_off n m b : guard_action n false = guard_action m b → n = m ∧ b = false.
Proof.
  intros H. assert (container n = container m ∧ guard_sql false = guard_sql b) as [Hc Hb].
  { unfold guard_action, sudo in H. apply (f_equal (λ a, match a with Exec l _ => (l !! 3%nat, last l) | _ => (None, None) end)) in H.
    cbn [lookup list_lookup last] in H. split; congruence. }
  destruct b; [discriminate Hb|]. split; [by apply container_inj|done].
Qed.

Lemma guard_event n (r : reply) m b (q : reply) : (guard_action n false, r) = (guard_action m b, q) → n = m ∧ b = false.
Proof. intros H%(f_equal fst). by apply guard_action_off. Qed.

Lemma not_kept n r (t : history) : Forall (λ e, keeps_guard e.1) t → (guard_action n false, r) ∈ t → False.
Proof. intros Ht Hin. rewrite Forall_forall in Ht. by apply (Ht _ Hin n). Qed.

(** The last thing done is to switch a guardrail on. *)
Definition ends_guarded (target : string) (t : history) : Prop := ∃ u r, t = u ++ [(guard_action target true, r)].

Lemma restores_last target {A} (m : prog A) h o t n r : restores target m → runs m h o t → (guard_action n false, r) ∈ t →
  n = target ∧ ends_guarded n t.
Proof.
  intros Hm Hrun Hin. destruct (Hm h o t Hrun) as [Ht|(t0 & q & t1 & r' & -> & H0 & H1)]; [by destruct (not_kept n r t)|].
  assert (n = target) as ->.
  { rewrite elem_of_app, elem_of_cons, elem_of_app, list_elem_of_singleton in Hin.
    destruct Hin as [Hin|[Hin|[Hin|Hin]]]; [by destruct (not_kept n r t0)| |by destruct (not_kept n r t1)|];
      apply guard_event in Hin as [? ?]; done. }
  split; [done|]. exists (t0 ++ (guard_action target false, q) :: t1), r'. by rewrite <- app_assoc.
Qed.

Lemma restores_wrap target {A} f args (m : prog A) : restores target m → restores target (wrap f args m).
Proof.
  intros Hm h o t Hr. assert (∃ o', runs m h o' t) as [o' Ho]; [|by eapply Hm].
  unfold wrap in Hr. apply runs_bind in Hr as [(x & u1 & u2 & Hx & Hr & ->)|[(e & Hr & _)|(w & Hr & _)]].
  - assert (u2 = []) as -> by (by destruct x; apply runs_lift in Hr as [_ ->]). rewrite app_nil_r.
    apply runs_attempt in Hx as [(y & Hy & _)|[(y & Hy & _)|(y & Hy & _)]]; eauto.
  - by apply no_err_attempt in Hr.
  - apply runs_attempt in Hr as [(y & _ & [=])|[(y & _ & [=])|(y & Hy & _)]]. eauto.
Qed.

Lemma RunPipeline_restores spec branch h o t n r : branch ≠ "" →
  runs (RunPipeline spec branch) h o t → (guard_action n false, r) ∈ t → n = branch ∧ ends_guarded n t.
Proof.
  intros Hb Hrun Hin. unfold RunPipeline in Hrun.
  destruct (String.eqb (TrimSpace _) ""); [apply runs_lift in Hrun as [_ ->]; by apply elem_of_nil in Hin|].
  apply (runs_after keeps_guard) in Hrun; [|apply emits_discard, Delete_keeps].
  destruct Hrun as [[Hs _]|(? & td & t1 & -> & Hd & _ & Hrun)]; [by destruct (not_kept n r t)|].
  pose proof (restores_wrap _ "extract: %w" [] _ (ImportTo_restores (Source spec) branch)) as Himp.
  assert (import_name (Source spec) branch = branch) as Hn
    by (unfold import_name; by rewrite (proj2 (String.eqb_neq branch "") Hb)).
  rewrite Hn in Himp.
  apply elem_of_app in Hin as [Hin|Hin]; [by destruct (not_kept n r td)|].
  enough (n = branch ∧ ends_guarded n t1) as [-> (u & q & ->)] by (split; [done|]; exists (td ++ u), q; by rewrite app_assoc).
  apply runs_bind in Hrun as [(y & u1 & u2 & Hi & Hrun & ->)|[(e & Hi & ->)|(w & Hi & ->)]];
    [|by eapply restores_last; [apply Himp| |]..].
  pose proof (restores_guarded branch _ (run_keeps branch spec) _ _ _ Hrun) as [Hk|(t0 & q & t2 & r' & -> & H0 & H1)].
  { exfalso. apply runs_bind in Hrun as [([] & v1 & v2 & [_ [q ->]]%setGuard_runs & _ & ->)|[(e & [[=] _]%setGuard_runs & _)|(w & [[=] _]%setGuard_runs & _)]].
    apply Forall_app in Hk as [Hk _]. by apply Forall_cons in Hk as [Hk%(λ H, H branch) _]. }
  assert (n = branch) as ->.
  { apply elem_of_app in Hin as [Hin|Hin]; [by destruct (restores_last branch _ _ _ _ n r Himp Hi Hin)|].
    rewrite elem_of_app, elem_of_cons, elem_of_app, list_elem_of_singleton in Hin.
    destruct Hin as [Hin|[Hin|[Hin|Hin]]]; [by destruct (not_kept n r t0)| |by destruct (not_kept n r t2)|];
      apply guard_event in Hin as [? ?]; done. }
  split; [done|]. exists (u1 ++ t0 ++ (guard_action branch false, q) :: t2), r'. by rewrite <- !app_assoc.
Qed.

(** C12. A load relaxes the guardrail of its own instance only: whatever the source, the
    machine's answers and the way it ends (an error, even a panic), an import, a
    continuous import and a pipeline run switch no other instance's guardrail off,
    and a run that switched it off has switched it on again as the very last thing
    it did. *)
Theorem import_guard_restored h t n r : (guard_action n false, r) ∈ t →
  (∀ source target o, runs (ImportTo source target) h o t → n = import_name source target ∧ ends_guarded n t)
  ∧ (∀ source target o, runs (ImportContinuousTo source target) h o t →
       n = (if String.eqb target "" then defaultTargetName source else target) ∧ ends_guarded n t)
  ∧ (∀ spec branch o, branch ≠ "" → runs (RunPipeline spec branch) h o t → n = branch ∧ ends_guarded n t).
Proof.
  intros Hin. split_and!.
  - intros source target o Hrun. by eapply restores_last; [apply ImportTo_restores| |].
  - intros source target o Hrun. by eapply restores_last; [apply ImportContinuousTo_restores| |].
  - intros spec branch o Hb Hrun. by eapply RunPipeline_restores.
Qed.

End guard.

(** ** A pipeline run that succeeds *)

Definition quiet_stderr : Stderr := {| stderr_writes := λ _, [] |}.
Definition no_literals : IPLiterals := {| ip_literal := λ _, false |}.
Definition load_world : World := {| answer := λ _ a,
  match a with
  | Exec l _ =>
      if bool_decide ("list" ∈ l) then mkReply (Contains (default "" (last l)) "main") "" "" 0
      else if Contains (default "" (last l)) "information_schema" then reply_ok "3" else reply_ok ""
  | _ => reply_ok ""
  end |}.
Definition load_run : outcome error RunResult * history :=
  @RunPipeline load_world sample_env plain_errors ascii_unicode no_literals quiet_stderr
    (mkSpec "postgres://db.local/shop" [] []) "dash" [].

Lemma import_guard_restored_witness :
  match load_run.1 with Ok r => (RunBranch r, RunTables r, RunFailed r) = ("dash", 3%Z, false) | _ => False end
  ∧ ∃ r, (guard_action "dash" false, r) ∈ load_run.2 ∧ ends_guarded "dash" load_run.2.
Proof.
  split; [vm_compute; reflexivity|]. exists (reply_ok "").
  assert ((guard_action "dash" false, reply_ok "") ∈ load_run.2) as Hin
    by (apply (bool_decide_unpack _); vm_compute; reflexivity).
  split; [exact Hin|].
  destruct (@import_guard_restored load_world sample_env plain_errors ascii_unicode no_literals quiet_stderr [] load_run.2 "dash" (reply_ok "") Hin)
    as (_ & _ & Hpipeline).
  apply (Hpipeline (mkSpec "postgres://db.local/shop" [] []) "dash" load_run.1); [discriminate|]. apply surjective_pairing.
Defined.
