(* ===== verification/Daemon.v ===== *)
(** * Background servers (internal/daemon)

    A service is the engine's own binary, started detached, with a pidfile and a log
    under ~/.oxyndb. Sending a signal is an action of the machine's; signal 0 only asks
    whether the process is there. *)
From S2P Require Import Prelude GoStrings GoNum GoPath Effects Storage Container HA.
Open Scope string_scope.
Open Scope list_scope.

Section daemon.
Context {W : World} {En : Env}.

Definition runDir : prog string :=
  let home := user_home in
  let d := JoinPath [home; ".oxyndb"] in
  _ ← ignore (MkdirAll d); mret d.
Definition pidPath (name : string) : prog string := d ← runDir; mret (JoinPath [d; name +:+ ".pid"]).
Definition LogPath (name : string) : prog string := d ← runDir; mret (JoinPath [d; name +:+ ".log"]).

(** 0 when there is no pidfile, or none that reads as a number. *)
Definition readPid (name : string) : prog Z :=
  path ← pidPath name;
  r ← call (ReadFile path);
  mret (if rok r then atoi_value (TrimSpace (rout r)) else 0%Z).

Definition signal (pid : Z) (sig : string) : action := CallOut "syscall.Kill" [format_int pid; sig].
Definition processAlive (pid : Z) : prog bool := succeeds (signal pid "0").
Definition terminate (pid : Z) : prog unit := ignore (signal pid "SIGTERM").
Definition kill (pid : Z) : prog unit := ignore (signal pid "SIGKILL").

Definition Alive (name : string) : prog bool :=
  pid ← readPid name; if (0 <? pid)%Z then processAlive pid else mret false.

(** The process started, detached, its output appended to the log. *)
Definition start_process (exe : string) (args : list string) (log : string) : action := CallOut "cmd.Start" (exe :: args ++ [log]).

Definition Start (name : string) (args : list string) : prog unit :=
  alive ← Alive name;
  if (alive : bool) then mret tt else
  exe ← call (CallOut "os.Executable" []);
  if negb (rok exe) then fail (CommandFailed (CallOut "os.Executable" [])) else
  log ← LogPath name;
  _ ← perform (CallOut "os.OpenFile" [log]);
  let a := start_process (rout exe) args log in
  p ← call a;
  if negb (rok p) then fail (CommandFailed a) else
  path ← pidPath name;
  perform (WriteFile path (format_int (rnum p)) 420).

(** Up to three seconds for a process to go; whether it is still there is asked once
    more at the end. *)
Fixpoint await_exit (n : nat) (pid : Z) : prog unit :=
  match n with
  | O => mret tt
  | S n => alive ← processAlive pid; if (alive : bool) then _ ← ignore (Sleep (sec / 10)); await_exit n pid else mret tt
  end.

Definition stop_process (pid : Z) : prog unit :=
  _ ← terminate pid;
  _ ← await_exit 30 pid;
  alive ← processAlive pid;
  when alive (kill pid).

Definition Stop (name : string) : prog unit :=
  pid ← readPid name;
  _ ← when (0 <? pid)%Z (stop_process pid);
  path ← pidPath name;
  ignore (Remove path).

Definition Status (name : string) : prog string :=
  alive ← Alive name;
  if (alive : bool) then pid ← readPid name; mret ("running (pid " +:+ format_int pid +:+ ")") else mret "stopped".

End daemon.

(** ** Stopping *)

Section stopping.
Context {W : World} {En : Env}.

(** The process was found gone, or it was sent the signal it cannot ignore. *)
Definition ended (pid : Z) (t : history) : Prop :=
  (pid <= 0)%Z ∨ (∃ r, (signal pid "0", r) ∈ t ∧ rok r = false) ∨ ∃ r, (signal pid "SIGKILL", r) ∈ t.

Lemma await_exit_runs n pid h o t : runs (await_exit n pid) h o t → o = Ok tt ∧ (List.length t <= 2 * n)%nat.
Proof.
  revert h o t. induction n as [|n IH]; intros h o t; cbn [await_exit]; [intros [-> ->]%runs_ret; split; [done|cbn; lia]|].
  unfold processAlive. intros [(b & t1 & t2 & [[= ->] ->]%runs_succeeds & Hr & ->)|[(e & [[=] _]%runs_succeeds & _)|(w & [[=] _]%runs_succeeds & _)]]%runs_bind.
  destruct (rok _); [|apply runs_ret in Hr as [-> ->]; split; [done|cbn; lia]].
  apply runs_bind in Hr as [(x & u1 & u2 & [_ ->]%runs_ignore & Hr & ->)|[(e & [[=] _]%runs_ignore & _)|(w & [[=] _]%runs_ignore & _)]].
  apply IH in Hr as [-> Hl]. split; [done|]. rewrite !length_app. cbn. lia.
Qed.

Lemma stop_process_runs pid h o t : runs (stop_process pid) h o t → o = Ok tt ∧ ended pid t ∧ (List.length t <= 63)%nat.
Proof.
  unfold stop_process, terminate.
  intros [(x & t1 & t2 & [_ ->]%runs_ignore & Hr & ->)|[(e & [[=] _]%runs_ignore & _)|(w & [[=] _]%runs_ignore & _)]]%runs_bind.
  apply runs_bind in Hr as [(y & u1 & u2 & [_ Hl]%await_exit_runs & Hr & ->)|[(e & [[=] _]%await_exit_runs & _)|(w & [[=] _]%await_exit_runs & _)]].
  unfold processAlive in Hr.
  apply runs_bind in Hr as [(b & v1 & v2 & [[= ->] ->]%runs_succeeds & Hr & ->)|[(e & [[=] _]%runs_succeeds & _)|(w & [[=] _]%runs_succeeds & _)]].
  set (r := answer _ _) in *. destruct (rok r) eqn:Hb; cbn [when] in Hr.
  - apply runs_ignore in Hr as [-> ->]. split; [done|]. split; [|rewrite !length_app; cbn; lia].
    right. right. eexists. rewrite !elem_of_app. right. right. right. by left.
  - apply runs_ret in Hr as [-> ->]. split; [done|]. split; [|rewrite !length_app; cbn; lia].
    right. left. exists r. split; [|done]. rewrite !elem_of_app. right. right. left. by left.
Qed.

Lemma pidPath_runs name h o t : runs (pidPath name) h o t → (∃ path, o = Ok path) ∧ List.length t = 1%nat.
Proof.
  unfold pidPath, runDir.
  intros [(d & t1 & t2 & Hd & [-> ->]%runs_ret & ->)|[(e & Hd & _)|(w & Hd & _)]]%runs_bind.
  - split; [eauto|].
    apply runs_bind in Hd as [(x & u1 & u2 & [_ ->]%runs_ignore & [_ ->]%runs_ret & ->)|[(e & _ & [=])|(w & _ & [=])]]. done.
  - apply runs_bind in Hd as [(x & u1 & u2 & _ & [[=] _]%runs_ret & _)|[(e' & [[=] _]%runs_ignore & _)|(w & _ & [=])]].
  - apply runs_bind in Hd as [(x & u1 & u2 & _ & [[=] _]%runs_ret & _)|[(e & _ & [=])|(w' & [[=] _]%runs_ignore & _)]].
Qed.

Lemma readPid_runs name h o t : runs (readPid name) h o t → (∃ pid, o = Ok pid) ∧ List.length t = 2%nat.
Proof.
  unfold readPid. intros [(path & t1 & t2 & [_ Hl]%pidPath_runs & Hr & ->)|[(e & [[? [=]] _]%pidPath_runs & _)|(w & [[? [=]] _]%pidPath_runs & _)]]%runs_bind.
  apply runs_call_bind in Hr as (u & [-> ->]%runs_ret & ->). split; [eauto|]. rewrite length_app, Hl. done.
Qed.

(** Stopping a service always ends, within seventy calls and however the process
    behaves, and the pidfile is removed only when the process its pidfile named was seen
    to be gone or was sent SIGKILL. *)
Theorem Stop_ends name h o t :
  runs (Stop name) h o t →
  o = Ok tt ∧ (List.length t <= 70)%nat ∧
  ∃ pid t1 t2 path r, runs (readPid name) h (Ok pid) t1 ∧ t = t1 ++ t2 ++ [(Remove path, r)] ∧ ended pid t2.
Proof.
  unfold Stop. intros [(pid & t1 & t2 & Hp & Hr & ->)|[(e & [[? [=]] _]%readPid_runs & _)|(w & [[? [=]] _]%readPid_runs & _)]]%runs_bind.
  pose proof (proj2 (readPid_runs _ _ _ _ Hp)) as Hl1.
  assert (∀ h' o' u, runs (when (0 <? pid)%Z (stop_process pid)) h' o' u → o' = Ok tt ∧ ended pid u ∧ (List.length u <= 63)%nat) as Hs.
  { intros h' o' u. destruct (Z.ltb_spec 0 pid); [apply stop_process_runs|]. intros [-> ->]%runs_ret. split; [done|].
    split; [by left|cbn; lia]. }
  apply runs_bind in Hr as [(x & u1 & u2 & (_ & He & Hl2)%Hs & Hr & ->)|[(e & ([=] & _)%Hs & _)|(w & ([=] & _)%Hs & _)]].
  apply runs_bind in Hr as [(path & v1 & v2 & [_ Hl3]%pidPath_runs & Hr & ->)|[(e & [[? [=]] _]%pidPath_runs & _)|(w & [[? [=]] _]%pidPath_runs & _)]].
  apply runs_ignore in Hr as [-> ->]. split; [done|]. split; [rewrite !length_app, Hl1, Hl3; cbn; lia|].
  exists pid, t1, (u1 ++ v1), path. eexists. split; [done|]. split; [by rewrite <- !app_assoc|].
  destruct He as [He|[(r & Hr & Hk)|(r & Hr)]]; [by left|right; left; exists r|right; right; exists r]; rewrite ?elem_of_app; tauto.
Qed.

End stopping.

(** A service whose process ignores SIGTERM. *)
Definition stubborn_world : World := {| answer := λ _ a, match a with ReadFile _ => reply_ok "4242" | _ => reply_ok "" end |}.

Lemma Stop_ends_witness :
  List.length (Stop (W := stubborn_world) (En := sample_env) "gateway" []).2 = 67%nat ∧
  (Stop (W := stubborn_world) (En := sample_env) "gateway" []).1 = Ok tt.
Proof.
  split; [vm_compute; reflexivity|].
  refine (proj1 (Stop_ends (W := stubborn_world) (En := sample_env) "gateway" [] _ (Stop (W := stubborn_world) (En := sample_env) "gateway" []).2 _)).
  vm_compute. reflexivity.
Defined.
