(* ===== verification/Web.v ===== *)
(** * The REST API over the Blackbox (internal/controlplane: policy.go, ledger_v2.go,
    impact.go, blackbox.go)

    A handler is a program: it calls the engine and ends in a reply, a status and what
    the body is made from. The account the request acts for comes from the session or
    the API key (Login.Authn), the path and query values from net/http, and the body is
    its text. *)
From S2P Require Import Prelude GoStrings GoNum GoRunes Json Integrity Effects Storage Container HA Branch Store Blackbox Policy Impact Recovery Provenance.
Open Scope string_scope.
Open Scope list_scope.

Record http_request : Type := mkHttp {
  path_value : string → string; query_value : string → string; body : string }.

Inductive payload : Type :=
| PError (e : error)
| PStrings (fields : list (string * string))
| PRules (rules : list PolicyRule)
| PMatches (command : string) (matches : list PolicyDetail)
| PEvaluations (evs : list PolicyEvaluation)
| PAdmins (names : list string) (you : string) (am_admin : bool)
| PReport (r : Report * list string)
| PCheckpoint (c : option (Anchor * string))
| PEntries (es : list LedgerEntry)
| PSessions (ss : list AgentSession)
| PBefore (r : BeforeEntryResult)
| PExport (err : option error)
| PImpact (r : ImpactReport)
| PDiff (d : LedgerDiff).

Record web_reply : Type := mkWeb { code : Z; sent : payload }.

Definition writeJSON (code : Z) (p : payload) : prog web_reply := mret (mkWeb code p).
Definition writeErr (code : Z) (e : error) : prog web_reply := writeJSON code (PError e).

(** Calling the engine: what to answer when it fails, and what to do when it does not. *)
Definition calling {A B} (m : prog A) (bad : error → prog B) (good : A → prog B) : prog B :=
  r ← attempt m; match r with inl a => good a | inr e => bad e end.

Definition first_err (l : list (error * Z)) (default_ : Z) (e : error) : Z :=
  match List.find (λ p, errors_Is e (fst p)) l with Some (_, c) => c | None => default_ end.

(** ** blackbox.go *)

Definition blackboxToLedgerPath (p : string) : option string :=
  match SplitN "/" 6 p with
  | a :: b :: c :: name :: e :: rest =>
      if String.eqb a "" && String.eqb b "api" && String.eqb c "branches" && negb (String.eqb name "") && String.eqb e "blackbox"
      then Some (Join "/" (a :: b :: c :: name :: "ledger" :: rest))
      else None
  | _ => None
  end.

Section web.
Context {W : World} {En : Env} {Em : Embedded} {T : ErrorText} {U : Unicode} {O : Outside}.

(** ** policy.go *)

Definition running (name : string) (next : prog web_reply) : prog web_reply :=
  calling (EnsureRunning name) (writeErr 404) (λ _, next).

Definition admin (u : User) (name what : string) (next : string → prog web_reply) : prog web_reply :=
  calling (IsAdmin name (Email u)) (writeErr 500) (λ ok,
    if negb ok
    then writeErr 403 (Errorf "%s needs odb_admin on %q — ask an admin to grant it on the Policies page, or run: odb admin grant %s --branch %s"
                         [what; name; Email u; name])
    else next (Email u)).

Definition policy_fail (e : error) : prog web_reply :=
  writeErr (first_err [(ErrInvalidRequest, 400); (ErrRuleNotFound, 404); (ErrRuleExists, 409); (ErrBuiltinRule, 409)]%Z 500 e) e.

Definition invalid_json : error := Errorf "invalid JSON: %w" [].

Definition getPolicies (r : http_request) : prog web_reply :=
  let name := path_value r "name" in
  running name (calling (PolicyRules name) policy_fail (λ rules, writeJSON 200 (PRules rules))).

Definition with_action (rule : PolicyRule) (a : string) : PolicyRule :=
  mkRule (RuleID rule) (RCommand rule) (Pattern rule) a (Reason rule) (Hint rule) (Enabled rule) (Builtin rule)
    (UpdatedAt rule) (UpdatedBy rule).

Definition changing_rules : string := "changing Blackbox policy rules".

Definition postPolicy (u : User) (r : http_request) : prog web_reply :=
  let name := path_value r "name" in
  running name (admin u name changing_rules (λ email,
    match json_first (body r) ≫= decode_rule with
    | None => writeErr 400 invalid_json
    | Some rule =>
        let rule := if String.eqb (RAction rule) "" then with_action rule "warn" else rule in
        calling (AddPolicyRule name rule email) policy_fail (λ _,
          writeJSON 201 (PStrings [("rule_id", RuleID rule); ("status", "added")]))
    end)).

Definition decode_update (j : json) : option (option string * option bool) :=
  m ← as_object j; a ← pointer as_string "action" m; e ← pointer as_bool "enabled" m; Some (a, e).

Definition putPolicy (u : User) (r : http_request) : prog web_reply :=
  let name := path_value r "name" in
  running name (admin u name changing_rules (λ email,
    match json_first (body r) ≫= decode_update with
    | None => writeErr 400 invalid_json
    | Some (action, enabled) =>
        calling (UpdatePolicyRule name (path_value r "rule") action enabled email) policy_fail (λ _,
          writeJSON 200 (PStrings [("rule_id", path_value r "rule"); ("status", "updated")]))
    end)).

Definition deletePolicy (u : User) (r : http_request) : prog web_reply :=
  let name := path_value r "name" in
  running name (admin u name changing_rules (λ email,
    calling (RemovePolicyRule name (path_value r "rule") email) policy_fail (λ _,
      writeJSON 200 (PStrings [("rule_id", path_value r "rule"); ("status", "removed")])))).

Definition checkPolicy (r : http_request) : prog web_reply :=
  let name := path_value r "name" in
  running name (
    let sql := lenient as_string "" "sql" (lenient_object (json_first (body r))) in
    calling (PolicyCheck name sql) policy_fail (λ '(tag, matches), writeJSON 200 (PMatches tag matches))).

Definition getEvaluations (r : http_request) : prog web_reply :=
  let name := path_value r "name" in
  running name (calling (PolicyEvaluations name (atoi_value (query_value r "limit"))) policy_fail (λ evs, writeJSON 200 (PEvaluations evs))).

Definition getAdmins (u : User) (r : http_request) : prog web_reply :=
  let name := path_value r "name" in
  running name (calling (ListAdmins name) (writeErr 500) (λ names,
    calling (IsAdmin name (Email u)) (writeErr 500) (λ you, writeJSON 200 (PAdmins names (Email u) you)))).

Definition decode_email (j : json) : option string := m ← as_object j; field as_string "" "email" m.

(** [accounts]: the store's UserByEmail at that moment; [cached]: whether this process
    has made the role already. *)
Definition postAdmin (accounts : string → option User) (cached : bool) (u : User) (r : http_request) : prog web_reply :=
  let name := path_value r "name" in
  running name (admin u name "granting override permission" (λ _,
    match json_first (body r) ≫= decode_email with
    | None => writeErr 400 invalid_json
    | Some email =>
        let email := norm_email email in
        if String.eqb email "" then writeErr 400 (Errorf "email is required" []) else
        match accounts email with
        | None => writeErr 404 (Errorf "no account for %s — they need to sign up first" [email])
        | Some v =>
            calling (GrantAdmin cached name (Email v)) (writeErr 500) (λ _,
              writeJSON 200 (PStrings [("email", Email v); ("branch", name); ("status", "granted")]))
        end
    end)).

Definition deleteAdmin (u : User) (r : http_request) : prog web_reply :=
  let name := path_value r "name" in
  running name (admin u name "revoking override permission" (λ _,
    let email := norm_email (path_value r "email") in
    calling (ListAdmins name) (writeErr 500) (λ names,
      if negb (existsb (String.eqb email) names) then writeErr 404 (Errorf "%s is not an admin on %q" [email; name])
      else if (List.length names =? 1)%nat
      then writeErr 409 (Errorf "%s is the only admin on %q — grant someone else first (or run: odb admin revoke %s --branch %s)"
                           [email; name; email; name])
      else calling (RevokeAdmin name email) (writeErr 500) (λ _,
             writeJSON 200 (PStrings [("email", email); ("branch", name); ("status", "revoked")]))))).

(** ** ledger_v2.go *)

Definition getIntegrity (r : http_request) : prog web_reply :=
  let name := path_value r "name" in
  running name (calling (Integrity name) (writeErr 500) (λ rep, writeJSON 200 (PReport rep))).

Definition postCheckpoint (r : http_request) : prog web_reply :=
  let name := path_value r "name" in
  running name (calling (Checkpoint name) (writeErr 500) (λ a,
    writeJSON (match a with None => 200 | Some _ => 201 end)%Z (PCheckpoint a))).

Definition getEntries (r : http_request) : prog web_reply :=
  let name := path_value r "name" in
  running name (calling (LedgerEntries name (atoi_value (query_value r "limit"))) (writeErr 500) (λ es, writeJSON 200 (PEntries es))).

Definition getSessions (r : http_request) : prog web_reply :=
  let name := path_value r "name" in
  running name (calling (AgentSessions name (atoi_value (query_value r "limit"))) (writeErr 500) (λ ss, writeJSON 200 (PSessions ss))).

(** [script] is where the restore script is. *)
Definition postBranchBefore (script : string) (r : http_request) : prog web_reply :=
  match atoi (path_value r "id") with
  | Some id =>
      if (id <=? 0)%Z then writeErr 400 (Errorf "entry id must be a positive ledger id" []) else
      calling (BranchBeforeEntry script (path_value r "name") id (lenient as_string "" "name" (lenient_object (json_first (body r)))))
        (λ e, writeErr (first_err [(ErrInvalidRequest, 400); (ErrEntryNotFound, 404); (ErrBranchExists, 409); (ErrNoBaseBackup, 422)]%Z 500 e) e)
        (λ res, writeJSON 201 (PBefore res))
  | None => writeErr 400 (Errorf "entry id must be a positive ledger id" [])
  end.

(** The lines go out as they are read; an error after the first of them cannot change
    the status that was sent. *)
Definition getExport (r : http_request) : prog web_reply :=
  let name := path_value r "name" in
  running name (calling (ExportLedger name "w") (λ e, writeJSON 500 (PExport (Some e))) (λ _, writeJSON 200 (PExport None))).

(** ** impact.go *)

Definition postImpact (r : http_request) : prog web_reply :=
  let name := path_value r "name" in
  running name (
    let m := lenient_object (json_first (body r)) in
    calling (Impact name (lenient as_string "" "sql" m) (lenient as_string "" "object" m) (lenient as_string "" "column" m))
      (λ e, writeErr (first_err [(ErrInvalidRequest, 400)]%Z 500 e) e) (λ rep, writeJSON 200 (PImpact rep))).

Definition getDiff (r : http_request) : prog web_reply :=
  let a := query_value r "a" in
  let b := query_value r "b" in
  if String.eqb a "" || String.eqb b "" then writeErr 400 (Errorf "query parameters a and b (branch names) are required" []) else
  running a (running b (calling (DiffLedgers a b) (writeErr 500) (λ d, writeJSON 200 (PDiff d)))).

End web.

(** ** What a request can do *)

Section web_lemmas.
Context {W : World} {En : Env} {Em : Embedded} {T : ErrorText} {U : Unicode} {O : Outside}.

(** A handler ends in a reply, after what it called; only a crash of the engine's is not
    answered. *)
Lemma runs_calling {A B} (m : prog A) (bad : error → prog B) (good : A → prog B) h o t :
  runs (calling m bad good) h o t ↔
  (∃ a t1 t2, runs m h (Ok a) t1 ∧ runs (good a) (h ++ t1) o t2 ∧ t = t1 ++ t2)
  ∨ (∃ e t1 t2, runs m h (Err e) t1 ∧ runs (bad e) (h ++ t1) o t2 ∧ t = t1 ++ t2)
  ∨ (∃ w, runs m h (Panic w) t ∧ o = Panic w).
Proof.
  unfold calling. rewrite runs_bind. setoid_rewrite runs_attempt. split.
  - intros [(r & t1 & t2 & [(a & Ha & [= ->])|[(e & He & [= ->])|(w & _ & [=])]] & Hr & ->)|[(e & [(a & _ & [=])|[(e' & _ & [=])|(w & _ & [=])]] & _)|(w & Hw & ->)]].
    + left. by exists a, t1, t2.
    + right. left. by exists e, t1, t2.
    + right. right. destruct Hw as [(a & _ & [=])|[(e' & _ & [=])|(w' & Hw & [= ->])]]. eauto.
  - intros [(a & t1 & t2 & Ha & Hg & ->)|[(e & t1 & t2 & He & Hb & ->)|(w & Hw & ->)]].
    + left. exists (inl a), t1, t2. split; [left; eauto|done].
    + left. exists (inr e), t1, t2. split; [right; left; eauto|done].
    + right. right. exists w. split; [right; right; eauto|done].
Qed.

Lemma runs_writeErr c e h o t : runs (writeErr c e) h o t ↔ o = Ok (mkWeb c (PError e)) ∧ t = [].
Proof. apply runs_ret. Qed.

(** The question whether an account may change a branch's rules, and the answer yes. *)
Definition admin_question (branch email : string) : action :=
  sudo (psql_c (container branch) ["-X"; "-q"; "-t"; "-A"; "-v"; "ON_ERROR_STOP=1"; "-c"] (isAdminQuery email)).
Definition answered_yes (r : reply) : Prop := rok r = true ∧ head (output_lines (rout r)) = Some "t".

Lemma IsAdmin_runs name email h o t : runs (IsAdmin name email) h o t →
  (t = [] ∧ o ≠ Ok true)
  ∨ ∃ branch r, ledgerBranchName name = Ok branch ∧ t = [(admin_question branch email, r)] ∧ (o = Ok true → answered_yes r).
Proof.
  unfold IsAdmin. destruct (ledgerBranchName name) as [branch|e|w] eqn:Hb.
  - intros [(x & t1 & t2 & [[= ->] ->]%runs_lift & Hr & ->)|[(e & [[=] _]%runs_lift & _)|(w & [[=] _]%runs_lift & _)]]%runs_bind.
    rewrite app_nil_l in *. destruct (String.eqb email "") eqn:He.
    + apply runs_ret in Hr as [-> ->]. left. by split.
    + right. exists branch. unfold ledgerLines in Hr. apply runs_bind in Hr as [(l & t1 & t3 & Hl & Hr & ->)|[(e & Hl & ->)|(w & Hl & ->)]].
      * apply runs_ret in Hr as [-> ->]. apply runs_call_bind in Hl as (u & Hl & ->). fold (admin_question branch email) in Hl |- *.
        set (a := answer _ _) in *. exists a. destruct (rok a) eqn:Ha.
        -- apply runs_ret in Hl as [[= ->] ->]. split_and!; [done|done|]. intros [= Hl]. split; [done|].
           destruct (output_lines (rout a)) as [|x l]; [done|]. apply String.eqb_eq in Hl as ->. done.
        -- by apply runs_lift in Hl as [[=] _].
      * apply runs_call_bind in Hl as (u & Hl & ->). eexists. destruct (rok _).
        -- by apply runs_ret in Hl as [[=] _].
        -- by apply runs_lift in Hl as [_ ->].
      * apply runs_call_bind in Hl as (u & Hl & ->). destruct (rok _); [by apply runs_ret in Hl as [[=] _]|by apply runs_lift in Hl as [[=] _]].
  - intros [(x & t1 & t2 & [[=] _]%runs_lift & _)|[(e' & [[= ->] ->]%runs_lift & ->)|(w & [[=] _]%runs_lift & _)]]%runs_bind. by left.
  - intros [(x & t1 & t2 & [[=] _]%runs_lift & _)|[(e' & [[=] _]%runs_lift & _)|(w' & [[= ->] ->]%runs_lift & ->)]]%runs_bind. by left.
Qed.

(** What a guarded request does: it wakes the branch and asks whether the account is an
    admin there. Without a yes it does nothing else, and is refused. *)
Definition refused (o : outcome error web_reply) : Prop := ∀ r, o = Ok r → (400 <= code r)%Z.
Definition guarded (u : User) (name : string) (h : history) (o : outcome error web_reply) (t : history) : Prop :=
  ∃ woken t1 t2, runs (EnsureRunning name) h woken t1 ∧ t = t1 ++ t2 ∧
    ((t2 = [] ∧ refused o)
     ∨ ∃ branch r t3, ledgerBranchName name = Ok branch ∧ t2 = (admin_question branch (Email u), r) :: t3
         ∧ ((t3 = [] ∧ refused o) ∨ answered_yes r)).

Lemma admin_guarded u name what next h o t :
  runs (running name (admin u name what next)) h o t → guarded u name h o t.
Proof.
  unfold running, admin.
  intros [(addr & t1 & t2 & Hr & Hn & ->)|[(e & t1 & t2 & Hr & Hn & ->)|(w & Hr & ->)]]%runs_calling.
  - exists (Ok addr), t1, t2. split; [done|]. split; [done|].
    apply runs_calling in Hn as [(ok & u1 & u2 & Hi & Hn & ->)|[(e & u1 & u2 & Hi & Hn & ->)|(w & Hi & ->)]].
    + apply IsAdmin_runs in Hi as [[-> Hi]|(branch & r & Hb & -> & Hi)].
      * destruct ok; [done|]. cbn in Hn. apply runs_writeErr in Hn as [-> ->]. left. split; [done|]. by intros r [= <-].
      * right. exists branch, r, u2. split; [done|]. split; [done|]. destruct ok; [right; by apply Hi|left].
        cbn in Hn. apply runs_writeErr in Hn as [-> ->]. split; [done|]. by intros r' [= <-].
    + apply runs_writeErr in Hn as [-> ->]. rewrite app_nil_r.
      apply IsAdmin_runs in Hi as [[-> _]|(branch & r & Hb & -> & _)]; [left; split; [done|]; by intros r [= <-]|].
      right. exists branch, r, []. split; [done|]. split; [done|]. left. split; [done|]. by intros r' [= <-].
    + apply IsAdmin_runs in Hi as [[-> _]|(branch & r & Hb & -> & _)]; [left; by split|].
      right. exists branch, r, []. split; [done|]. split; [done|]. left. by split.
  - exists (Err e), t1, t2. split; [done|]. apply runs_writeErr in Hn as [-> ->]. split; [done|]. left. split; [done|].
    by intros r [= <-].
  - exists (Panic w), t, []. rewrite app_nil_r. split; [done|]. split; [done|]. by left.
Qed.

(** The requests that change who may do what on a branch. *)
Inductive change_request : Type :=
| AddRule | ChangeRule | RemoveRule | Grant (accounts : string → option User) (cached : bool) | Revoke.
Definition handle_change (c : change_request) : User → http_request → prog web_reply :=
  match c with
  | AddRule => postPolicy | ChangeRule => putPolicy | RemoveRule => deletePolicy
  | Grant accounts cached => postAdmin accounts cached | Revoke => deleteAdmin
  end.

(** C15. Rules and admins are changed for admins only: every request that adds, changes or
    removes a policy rule or grants or revokes odb_admin first wakes the branch and asks
    its database whether the account is an admin there; without a yes it does nothing
    more and is refused. *)
Theorem changes_need_admin c u r h o t :
  runs (handle_change c u r) h o t → guarded u (path_value r "name") h o t.
Proof. destruct c; apply admin_guarded. Qed.

End web_lemmas.

Section revoking.
Context {W : World} {En : Env} {Em : Embedded} {T : ErrorText} {U : Unicode} {O : Outside}.

Definition revoke_action (name email : string) : action := Exec (psql_stdin_args name) (revoke_sql email).
Definition revokes (a : action) : Prop := ∃ name email, a = revoke_action name email.

Lemma not_revoke_sudo l i : head l ≠ Some "docker" → ¬ revokes (Exec ("sudo" :: l) i).
Proof. by intros Hl (n & e & [= ->]). Qed.
Lemma not_revoke_plain l : ¬ revokes (Exec l "").
Proof. by intros (n & e & [=]). Qed.
Lemma not_revoke_other a : match a with Exec _ _ => False | _ => True end → ¬ revokes a.
Proof. by intros Ha (n & e & ->). Qed.

Lemma EnsureRunning_no_revoke name : emits (λ a, ¬ revokes a) (EnsureRunning name).
Proof.
  unfold EnsureRunning. destruct (storage_no_container (λ a, ¬ revokes a)) as (He & _); [apply not_revoke_sudo|by intros; apply not_revoke_other|].
  emits_branch; first [by apply not_revoke_plain|by apply not_revoke_other|done|apply He].
Qed.
Lemma IsAdmin_no_revoke name email : emits (λ a, ¬ revokes a) (IsAdmin name email).
Proof. unfold IsAdmin, ledgerLines. emits_go; by apply not_revoke_plain. Qed.
Lemma ListAdmins_no_revoke name : emits (λ a, ¬ revokes a) (ListAdmins name).
Proof. unfold ListAdmins, wrap, Query, capture_or_fail, capture, on_error. emits_go; by apply not_revoke_plain. Qed.

(** Taking odb_admin away never leaves a branch without an admin: the role is revoked
    only from an account in the list of admins just read, and only when that list has
    another entry. In every other case nothing is revoked and the request is refused. *)
Theorem deleteAdmin_leaves_one u r h o t :
  runs (deleteAdmin u r) h o t →
  let name := path_value r "name" in
  let email := norm_email (path_value r "email") in
  (Forall (λ e, ¬ revokes e.1) t ∧ refused o)
  ∨ ∃ t0 names t1 r, runs (ListAdmins name) (h ++ t0) (Ok names) t1 ∧ email ∈ names ∧ (2 <= List.length names)%nat
      ∧ t = t0 ++ t1 ++ [(revoke_action name email, r)] ∧ Forall (λ e, ¬ revokes e.1) (t0 ++ t1).
Proof.
  intros Hr name email. unfold deleteAdmin, running, admin in Hr. fold name email in Hr.
  assert (∀ c e, (400 <= c)%Z → refused (Ok (mkWeb c (PError e)))) as Hbad by (intros c e Hc x [= <-]; done).
  apply runs_calling in Hr as [(addr & t1 & u1 & H1 & Hr & ->)|[(e & t1 & t2 & H1 & [-> ->]%runs_writeErr & ->)|(w & H1 & ->)]];
    pose proof (emits_runs _ _ _ _ _ (EnsureRunning_no_revoke name) H1) as F1;
    [|left; rewrite app_nil_r; split; [done|by apply Hbad]|by left].
  apply runs_calling in Hr as [(ok & t2 & u2 & H2 & Hr & ->)|[(e & t2 & u2 & H2 & [-> ->]%runs_writeErr & ->)|(w & H2 & ->)]];
    pose proof (emits_runs _ _ _ _ _ (IsAdmin_no_revoke name (Email u)) H2) as F2;
    [|left; rewrite app_nil_r; split; [by apply Forall_app|by apply Hbad]|left; by rewrite Forall_app].
  destruct ok; cbn [negb] in Hr;
    [|apply runs_writeErr in Hr as [-> ->]; left; rewrite app_nil_r; split; [by apply Forall_app|by apply Hbad]].
  apply runs_calling in Hr as [(names & t3 & u3 & H3 & Hr & ->)|[(e & t3 & u3 & H3 & [-> ->]%runs_writeErr & ->)|(w & H3 & ->)]];
    pose proof (emits_runs _ _ _ _ _ (ListAdmins_no_revoke name) H3) as F3;
    [|left; rewrite app_nil_r, !Forall_app; split; [done|by apply Hbad]|left; by rewrite !Forall_app].
  destruct (existsb _ names) eqn:Hex; cbn [negb] in Hr;
    [|apply runs_writeErr in Hr as [-> ->]; left; rewrite app_nil_r, !Forall_app; split; [done|by apply Hbad]].
  destruct (Nat.eqb_spec (List.length names) 1) as [Hl|Hl];
    [apply runs_writeErr in Hr as [-> ->]; left; rewrite app_nil_r, !Forall_app; split; [done|by apply Hbad]|].
  assert (email ∈ names) as Hin.
  { apply existsb_exists in Hex as (x & Hx & ->%String.eqb_eq). by apply list_elem_of_In. }
  right. exists (t1 ++ t2), names, t3.
  assert (∃ r, u3 = [(revoke_action name email, r)]) as [r' ->].
  { apply runs_calling in Hr as [([] & t4 & u4 & [-> _]%runs_perform & [_ ->]%runs_ret & ->)
      |[(e & t4 & u4 & [-> _]%runs_perform & [_ ->]%runs_writeErr & ->)|(w & [-> Hw]%runs_perform & _)]]; eauto. }
  exists r'. split_and!; [by rewrite app_assoc|done| |by rewrite <- !app_assoc|by rewrite !Forall_app].
  destruct names as [|x [|y names]]; [by apply not_elem_of_nil in Hin|done|cbn; lia].
Qed.

End revoking.

(** ** The Blackbox's own paths *)

Lemma SplitN_cut c n w s : has_byte c w = false → SplitN c (S (S n)) (w +:+ String c s) = w :: SplitN c (S n) s.
Proof. intros Hw. change (SplitN c (S (S n)) ?x) with (match cut_byte c x with Some (a, b) => a :: SplitN c (S n) b | None => [x] end). by rewrite cut_byte_app. Qed.

Lemma SplitN_cons c n s a b l : SplitN c (S n) s = a :: b :: l →
  ∃ s', s = a +:+ String c s' ∧ has_byte c a = false ∧ SplitN c n s' = b :: l.
Proof.
  destruct n as [|n]; [done|]. change (SplitN c (S (S n)) s) with (match cut_byte c s with Some (a, b) => a :: SplitN c (S n) b | None => [s] end).
  destruct (cut_byte c s) as [[x y]|] eqn:Hc; [|done]. intros [-> H]%cons_inv. apply cut_byte_Some in Hc as [-> Hx]. eauto.
Qed.

Lemma SplitN_last c s a l : SplitN c 2 s = a :: l →
  has_byte c a = false ∧ ((l = [] ∧ s = a) ∨ ∃ b, l = [b] ∧ s = a +:+ String c b).
Proof.
  change (SplitN c 2 s) with (match cut_byte c s with Some (a, b) => [a; b] | None => [s] end).
  destruct (cut_byte c s) as [[x y]|] eqn:Hc; intros [-> <-]%cons_inv.
  - apply cut_byte_Some in Hc as [-> Hx]. split; [done|]. right. eauto.
  - apply cut_byte_None in Hc. split; [done|]. by left.
Qed.

(** A path under /blackbox is served as the same path under /ledger, and no other path
    is touched. *)
Theorem blackboxToLedgerPath_spec p q :
  blackboxToLedgerPath p = Some q ↔
  ∃ name rest, has_byte "/" name = false ∧ name ≠ "" ∧ (rest = "" ∨ HasPrefix rest "/" = true)
    ∧ p = "/api/branches/" +:+ name +:+ "/blackbox" +:+ rest ∧ q = "/api/branches/" +:+ name +:+ "/ledger" +:+ rest.
Proof.
  unfold blackboxToLedgerPath. split.
  - destruct (SplitN "/" 6 p) as [|a [|b [|c [|name [|e rest]]]]] eqn:Hs; try done.
    apply SplitN_cons in Hs as (p1 & -> & _ & Hs). apply SplitN_cons in Hs as (p2 & -> & _ & Hs).
    apply SplitN_cons in Hs as (p3 & -> & _ & Hs). apply SplitN_cons in Hs as (p4 & -> & Hn & Hs).
    apply SplitN_last in Hs as (He & Hs).
    destruct (_ && _) eqn:Hc; [|done]. repeat (apply andb_true_iff in Hc as [Hc ?]). intros [= <-].
    repeat match goal with H : String.eqb _ _ = true |- _ => apply String.eqb_eq in H as -> end.
    exists name. destruct Hs as [[-> ->]|(b & -> & ->)].
    + exists "". split_and!; [done|intros ->; done|by left|reflexivity|reflexivity].
    + exists (String "/" b). split_and!; [done|intros ->; done|by right|reflexivity|reflexivity].
  - intros (name & rest & Hn & Hne & Hr & -> & ->).
    change ("/api/branches/" +:+ name +:+ "/blackbox" +:+ rest)
      with ("" +:+ String "/" ("api" +:+ String "/" ("branches" +:+ String "/" (name +:+ String "/" ("blackbox" +:+ rest))))).
    rewrite !SplitN_cut by done. destruct rest as [|x rest].
    + cbn [SplitN]. change (cut_byte "/" ("blackbox" +:+ "")) with (@None (string * string)).
      rewrite (proj2 (String.eqb_neq name "")) by done. cbn. by rewrite ?sapp_nil_r.
    + destruct Hr as [|Hr]; [done|]. assert (x = "/"%char) as ->.
      { unfold HasPrefix in Hr. cbn [strip_prefix] in Hr. destruct (Ascii.eqb_spec "/" x); done. }
      rewrite (SplitN_cut "/" 0) by done.
      cbn [SplitN]. rewrite (proj2 (String.eqb_neq name "")) by done. done.
Qed.

(** ** Witnesses *)

Definition admin_world : World := {| answer := λ _ a,
  match a with
  | Exec l _ => reply_ok (if Contains (List.last l "") "SELECT CASE WHEN" then "t"
                          else if Contains (List.last l "") "SELECT r.rolname" then "ann@x.org bob@x.org" else "10.0.0.1")
  | _ => reply_ok "main"
  end |}.

#[local] Existing Instance sample_outside.
#[local] Existing Instance admin_world.
#[local] Existing Instance sample_env.
#[local] Existing Instance sample_embedded.
#[local] Existing Instance plain_errors.
#[local] Existing Instance ascii_unicode.

Definition ann : User := mkUser 1 "ann@x.org".
Definition remove_bob : http_request :=
  mkHttp (λ k, if String.eqb k "name" then "dev" else " Bob@x.org ") (λ _, "") "".

Lemma changes_need_admin_witness :
  guarded ann "dev" [] (deleteAdmin ann remove_bob []).1 (deleteAdmin ann remove_bob []).2
  ∧ code <$> (match (deleteAdmin ann remove_bob []).1 with Ok r => Some r | _ => None end) = Some 200%Z.
Proof. split; [apply (changes_need_admin Revoke ann remove_bob); vm_compute; reflexivity|vm_compute; reflexivity]. Defined.

Lemma deleteAdmin_leaves_one_witness :
  ¬ (Forall (λ e, ¬ revokes e.1) (deleteAdmin ann remove_bob []).2 ∧ refused (deleteAdmin ann remove_bob []).1) ∧
  ∃ t0 names t1 r, runs (ListAdmins "dev") t0 (Ok names) t1 ∧ "bob@x.org" ∈ names ∧ (2 <= List.length names)%nat
    ∧ (deleteAdmin ann remove_bob []).2 = t0 ++ t1 ++ [(revoke_action "dev" "bob@x.org", r)].
Proof.
  assert (¬ (Forall (λ e, ¬ revokes e.1) (deleteAdmin ann remove_bob []).2 ∧ refused (deleteAdmin ann remove_bob []).1)) as Hno.
  { intros [_ Hr]. specialize (Hr _ eq_refl). vm_compute in Hr. by destruct Hr. }
  split; [exact Hno|].
  destruct (deleteAdmin_leaves_one ann remove_bob [] (deleteAdmin ann remove_bob []).1 (deleteAdmin ann remove_bob []).2)
    as [[H1 H2]|(t0 & names & t1 & r & H1 & H2 & H3 & H4 & _)]; [vm_compute; reflexivity|by destruct Hno|].
  exists t0, names, t1, r. split_and!; [exact H1|exact H2|exact H3|exact H4].
Defined.
