(* ===== verification/Server.v ===== *)
(** * The REST API's own work (internal/controlplane/server.go, internal/branch/replication.go)

    The handlers over branches, imports, replication and pipelines, the query the
    Blackbox view runs, the console's queries, cross-origin requests and the
    single-page app. What pgx makes of a result is the class [Console]. *)
From S2P Require Import Prelude GoStrings GoNum GoRunes GoUrl GoPath Sha256 Sql Json Effects Storage Container HA Branch Store Gateway Blackbox Recovery Provenance Documents MySQL Import Pipeline Daemon Web.
Open Scope string_scope.
Open Scope list_scope.

Definition nameRe : string → bool := slug 40.
Definition ruleIDRe : string → bool := slug 62.

(** ** The Blackbox view *)

Definition sqlEsc (s : string) : string := ReplaceByte "'" "''" s.

Definition like (col v : string) : list string :=
  let v := TrimSpace v in if String.eqb v "" then [] else [col +:+ " ILIKE '%" +:+ sqlEsc v +:+ "%'"].
(** [op] with its blanks: the equality filters and the two bounds of time. *)
Definition compare_with (op col v : string) : list string :=
  let v := TrimSpace v in if String.eqb v "" then [] else [col +:+ op +:+ "'" +:+ sqlEsc v +:+ "'"].
Definition eq_filter : string → string → list string := compare_with " = ".

Definition ledger_where (q : string → string) : list string :=
  "true" :: like "actor" (q "actor") ++ like "object_identity" (q "table") ++ eq_filter "risk" (q "risk")
  ++ eq_filter "status" (q "status") ++ eq_filter "actor_kind" (q "kind")
  ++ compare_with " >= " "at" (q "since") ++ compare_with " <= " "at" (q "until").
Definition ledger_limit (s : string) : Z :=
  match atoi s with Some n => if ((0 <? n) && (n <=? 2000))%Z then n else 200%Z | None => 200%Z end.
Definition ledger_offset (s : string) : Z :=
  match atoi s with Some n => if (0 <? n)%Z then n else 0%Z | None => 0%Z end.
Definition extra_columns (with_ : string) : string :=
  if existsb (λ w, String.eqb (TrimSpace w) "session") (Split "," with_) then ", session" else "".

Definition tabs : string := str1 nl +:+ str1 tab +:+ str1 tab.
Definition ledgerSQL (q : string → string) : string :=
  "SELECT to_char(at,'YYYY-MM-DD HH24:MI:SS') AS at, actor, actor_kind, tool," +:+ tabs
  +:+ "branch, command_tag, object_identity, statement, status, risk" +:+ extra_columns (q "with") +:+ tabs
  +:+ "FROM odb.schema_ledger WHERE " +:+ Join " AND " (ledger_where q) +:+ " ORDER BY at DESC LIMIT "
  +:+ format_int (ledger_limit (q "limit")) +:+ " OFFSET " +:+ format_int (ledger_offset (q "offset")).

(** ** A query of the console's *)

(** A decoded value: what encoding/json renders as it stands, times (with their zone's
    text), uuids, byte strings, arrays, JSON objects, and pgx's own types, some with a
    JSON form of their own. *)
#[warnings="-register-all"]
Inductive pgvalue : Type :=
| VNil | VBool (b : bool) | VString (s : string) | VInt (z : Z) | VFloat (literal : string)
| VTime (rfc3339nano : string) | VUuid (bytes : string) | VBytes (bytes : string)
| VArray (l : list pgvalue) | VMap (m : list (string * json)) | VOther (marshaler : bool) (v : string).

Class Console := {
  (** A query's columns with their types, its rows (none where a row could not be
      decoded), whether reading ended in an error, and its command tag. *)
  columns_of : reply → list (string * N);
  rows_of : reply → list (option (list pgvalue));
  rows_error : reply → option error;
  command_tag_of : reply → string;
  (** pgx's text form of a value of a type, an array's element type (0 for none),
      encoding/json's text, and fmt's. *)
  pgText : N → pgvalue → option string;
  elementOID : N → N;
  marshal : pgvalue → option string;
  sprint : pgvalue → string
}.

Definition ByteaOID : N := 17.

Section cell.
Context {Co : Console}.

Definition jsonText (v : pgvalue) : pgvalue := VString (default (sprint v) (marshal v)).

Fixpoint cell (oid : N) (v : pgvalue) : pgvalue :=
  match v with
  | VNil | VBool _ | VString _ | VInt _ | VFloat _ => v
  | VTime t => VString t
  | VUuid b => VString (default (hex_encode b) (pgText oid v))
  | VBytes b => VString (if (oid =? ByteaOID)%N then default b (pgText oid v) else b)
  | VArray l => let elem := elementOID oid in jsonText (VArray (List.map (cell elem) l))
  | VMap _ => jsonText v
  | VOther true _ => jsonText v
  | VOther false _ => match pgText oid v with Some s => VString s | None => jsonText v end
  end.

End cell.

Inductive query_result : Type :=
| QError (e : error)
| QTable (columns : list string) (rows : list (list pgvalue)) (command : string).

Record queryAs : Type := mkAs { ABranch : string; AActor : string; AllowDestructive : bool; AllowRules : list string }.
Definition engine_read : queryAs := mkAs "" "" false [].

Section query.
Context {W : World} {En : Env} {Em : Embedded} {Co : Console}.

(** The rows up to the cap; whether it was reached; none where a row failed. *)
Fixpoint read_rows (room : nat) (oids : list N) (l : list (option (list pgvalue))) : option (list (list pgvalue) * bool) :=
  match l, room with
  | [], _ => Some ([], false)
  | _ :: _, O => Some ([], true)
  | None :: _, S _ => None
  | Some vals :: rest, S room =>
      '(out, more) ← read_rows room oids rest; Some (zip_with cell oids vals :: out, more)
  end.

Definition console_parse (addr : string) : action := CallOut "pgx.ParseConfig" ["postgres://" +:+ addr +:+ "/oxyndb"].
Definition console_connect (addr user : string) : action :=
  CallOut "pgx.ConnectConfig" ["postgres://" +:+ addr +:+ "/oxyndb"; user; pgPass].
Definition set_actor (actor : string) : action := CallOut "conn.Exec"
  ["SELECT set_config('odb.actor',$1,false), set_config('odb.actor_kind','human',false), set_config('application_name','console',false)"; actor].
Definition set_rules (rules : list string) : action :=
  CallOut "conn.Exec" ["SELECT set_config('odb.policy_allow',$1,false)"; Join "," rules].
Definition set_destructive : action := CallOut "conn.Exec" ["SELECT set_config('odb.allow_destructive','on',false)"].
Definition console_query (sql : string) : action := CallOut "conn.Query" [sql].

(** A step whose error is the answer. *)
Definition or_answer (a : action) (next : reply → prog query_result) : prog query_result :=
  r ← call a; if rok r then next r else mret (QError (CommandFailed a)).
Definition or_answer_if (b : bool) (a : action) (next : prog query_result) : prog query_result :=
  if b then or_answer a (λ _, next) else next.

Definition table_of (r : reply) : query_result :=
  match read_rows 1000 (columns_of r).*2 (rows_of r) with
  | None => QError (Errorf "rows.Values" [])
  | Some (out, more) =>
      match (if more then None else rows_error r) with
      | Some e => QError e
      | None => QTable (columns_of r).*1 out (if more then "" else command_tag_of r)
      end
  end.

Definition runQuery (cached : bool) (addr sql : string) (as_ : queryAs) : prog query_result :=
  or_answer (console_parse addr) (λ _,
  user ← (if negb (String.eqb (AActor as_) "") && negb (String.eqb (ABranch as_) "")
          then r ← attempt (EnsureUserRole cached (ABranch as_) (AActor as_));
               mret (match r with inl _ => AActor as_ | inr _ => "odbclient" end)
          else mret "odbclient");
  or_answer (console_connect addr user) (λ _,
  finally (
    or_answer_if (negb (String.eqb (AActor as_) "")) (set_actor (AActor as_)) (
    or_answer_if (negb (bool_decide (AllowRules as_ = []))) (set_rules (AllowRules as_)) (
    or_answer_if (AllowDestructive as_) set_destructive (
    or_answer (console_query sql) (λ r, mret (table_of r))))))
  (ignore close_conn))).

End query.

(** ** Continuous imports (replication.go) *)

Definition ErrNotReplicating : error := Errorf "not a continuous import" [].

Section replication.
Context {W : World} {En : Env} {Em : Embedded} {T : ErrorText} {U : Unicode}.

Definition CutoverReplication (name : string) : prog Z :=
  r ← ReplicationStatus name;
  if negb (Replicating_ r) then fail (Wrapf "%w: branch %q has no replication to cut over" [name] ErrNotReplicating) else
  _ ← ImportCutoverTo name;
  TableCount name.

End replication.

(** ** Handlers *)

Inductive reply_body : Type :=
| Bad (e : error)
| Fields (fields : list (string * string))
| StatusOf (mainReady : bool) (branches agents : Z) (ha : HAState) (storage : string * string) (gateway api : bool)
| BranchList (bs : list BranchInfo)
| QueryOf (q : query_result)
| BackupList_ (bs : list BackupInfo)
| ReplicationList (rs : list Replication)
| ReplicationOf (r : Replication)
| CutOver (branch : string) (tables : Z)
| PipelineList (ps : list Pipeline)
| PipelineOf (p : Pipeline)
| RunList (rs : list PipelineRun)
| Events.  (**r a stream: what it sent are the program's own actions *)

Record served : Type := mkServed { http_code : Z; content : reply_body }.
Definition answer_with (c : Z) (a : reply_body) : prog served := mret (mkServed c a).
Definition refuse (c : Z) (e : error) : prog served := answer_with c (Bad e).

(** An event of a stream, with its data. *)
Definition send {W : World} (event : string) (data : list string) : prog unit := ignore (CallOut "sse" (event :: data)).

Definition isConnString (s : string) : bool :=
  existsb (HasPrefix s) ["postgres://"; "postgresql://"; "mysql://"; "mariadb://"; "mongodb://"; "mongodb+srv://"].

Section handlers.
Context {W : World} {En : Env} {Em : Embedded} {T : ErrorText} {U : Unicode} {IP : IPLiterals} {Er : Stderr} {Co : Console}.

Definition getStatus : prog served :=
  calling Branches (refuse 500) (λ bs,
    let mainReady := foldl (λ m b, if BPrimary b then String.eqb (BState b) "running" else m) false bs in
    let count f := Z.of_nat (List.length (List.filter f bs)) in
    ha ← HAInfo;
    st ← StorageInfo;
    gateway ← Alive "gateway";
    api ← Alive "api";
    answer_with 200 (StatusOf mainReady (count (λ b, negb (BPrimary b) && negb (BAgent b))) (count (λ b, negb (BPrimary b) && BAgent b))
                       ha st gateway api)).

Definition getBranches : prog served := calling Branches (refuse 500) (λ bs, answer_with 200 (BranchList bs)).

Definition body_string (r : http_request) (key : string) : string := lenient as_string "" key (lenient_object (json_first (body r))).

Definition postBranch (r : http_request) : prog served :=
  let name := body_string r "name" in
  let from := body_string r "from" in
  if negb (nameRe name) then refuse 400 (Errorf "invalid name (use lowercase letters, digits, dashes)" []) else
  if negb (String.eqb from "") && negb (nameRe from) then refuse 400 (Errorf "invalid from: %q is not a branch name" [from]) else
  calling (Create name from) (λ e, refuse (first_err [(ErrParentNotFound, 404%Z)] 409 e) e) (λ _,
    answer_with 201 (Fields [("name", name); ("from", or_main from); ("status", "created")])).

Definition deleteBranch (r : http_request) : prog served :=
  calling (Delete (path_value r "name")) (refuse 500) (λ _, answer_with 200 (Fields [("status", "deleted")])).

Definition postSuspend (r : http_request) : prog served :=
  let name := path_value r "name" in
  if String.eqb name "main" then refuse 400 (Errorf "refusing to suspend the primary 'main'" []) else
  calling (Suspend name) (refuse 500) (λ _, answer_with 200 (Fields [("status", "suspended")])).

Definition postResume (r : http_request) : prog served :=
  calling (Wake (path_value r "name")) (refuse 500) (λ _, answer_with 200 (Fields [("status", "resumed")])).

(** A list of strings, an element of another type left empty. *)
Definition as_strings (j : json) : option (list string) :=
  match j with JArr l => Some ((λ v, match v with JStr s => s | _ => "" end) <$> l) | _ => None end.

Definition postQuery (cached : bool) (u : User) (r : http_request) : prog served :=
  let name := path_value r "name" in
  let m := lenient_object (json_first (body r)) in
  let sql := lenient as_string "" "sql" m in
  let rules := lenient as_strings [] "allow_rules" m in
  if String.eqb (TrimSpace sql) "" then refuse 400 (Errorf "sql is required" []) else
  calling (EnsureRunning name) (refuse 404) (λ addr,
    match List.find (λ id, negb (ruleIDRe id)) rules with
    | Some id => refuse 400 (Errorf "allow_rules: %q is not a rule id" [id])
    | None =>
        q ← runQuery cached addr sql (mkAs name (Email u) (lenient as_bool false "allow_destructive" m) rules);
        answer_with 200 (QueryOf q)
    end).

(** [flusher]: whether the server can stream. Progress lines are left out. *)
Definition postImport (flusher : bool) (r : http_request) : prog served :=
  let m := lenient_object (json_first (body r)) in
  let source := TrimSpace (lenient as_string "" "source" m) in
  let target := TrimSpace (lenient as_string "" "target" m) in
  if negb flusher then refuse 500 (Errorf "streaming is not supported by this server" []) else
  if negb (isConnString source)
  then _ ← send "error" ["web import needs a connection string (postgres://, mysql://, mariadb://, mongodb://); use the file panel for .sql/.csv/.json"];
       answer_with 200 Events
  else
    let continuous := lenient as_bool false "continuous" m in
    calling (if continuous then ImportContinuousTo source target else ImportTo source target)
      (λ e, _ ← send "error" [Error e]; answer_with 200 Events)
      (λ t, n ← TableCount t;
            _ ← send "done" [if continuous then "replicating" else "imported"; t; format_int n];
            answer_with 200 Events).

(** [file]: the form's file, its name and what it holds. *)
Definition postImportFile (flusher : bool) (file : option (string * string)) (target : string) : prog served :=
  if negb flusher then refuse 500 (Errorf "streaming is not supported by this server" []) else
  match file with
  | None => _ ← send "error" ["a file is required"]; answer_with 200 Events
  | Some (filename, text) =>
      calling (lift (ParseKind (Ext filename))) (λ e, _ ← send "error" [Error e]; answer_with 200 Events) (λ kind,
        calling (ImportReaderTo text kind filename (TrimSpace target)) (λ e, _ ← send "error" [Error e]; answer_with 200 Events) (λ t,
          n ← TableCount t; _ ← send "done" ["imported"; t; format_int n]; answer_with 200 Events))
  end.

Definition getBackups : prog served := calling Backups (refuse 500) (λ bs, answer_with 200 (BackupList_ bs)).
Definition getReplications : prog served := calling Replicating (refuse 500) (λ rs, answer_with 200 (ReplicationList rs)).
Definition getReplication (r : http_request) : prog served :=
  let name := path_value r "name" in
  calling (EnsureRunning name) (refuse 404) (λ _,
    calling (ReplicationStatus name) (refuse 500) (λ rep, answer_with 200 (ReplicationOf rep))).
Definition postCutover (r : http_request) : prog served :=
  let name := path_value r "name" in
  calling (EnsureRunning name) (refuse 404) (λ _,
    calling (CutoverReplication name) (λ e, refuse (first_err [(ErrNotReplicating, 409%Z)] 500 e) e) (λ n,
      answer_with 200 (CutOver name n))).

(** Reads of the engine's own run as the shared client role. *)
Definition getLedger (r : http_request) : prog served :=
  calling (EnsureRunning (path_value r "name")) (refuse 404) (λ addr,
    q ← runQuery false addr (ledgerSQL (query_value r)) engine_read; answer_with 200 (QueryOf q)).
Definition getVerify (r : http_request) : prog served :=
  calling (EnsureRunning (path_value r "name")) (refuse 404) (λ addr,
    q ← runQuery false addr LedgerVerifySQL engine_read; answer_with 200 (QueryOf q)).

End handlers.

(** ** Pipelines *)

Definition elem_string (j : json) : option string := match j with JNull => Some "" | _ => as_string j end.
Definition decode_model (j : json) : option PipelineModel :=
  m ← as_object j;
  name ← field as_string "" "name" m; sql ← field as_string "" "sql" m; mat ← field as_string "" "materialized" m;
  Some (mkModel name sql mat).
Definition decode_test (j : json) : option PipelineTest :=
  m ← as_object j;
  name ← field as_string "" "name" m; model ← field as_string "" "model" m; type ← field as_string "" "type" m;
  column ← field as_string "" "column" m; vals ← field (as_list elem_string) [] "values" m; min ← field as_int 0%Z "min" m;
  sql ← field as_string "" "sql" m;
  Some (mkTest name model type column vals min sql).
Definition decode_spec (j : json) : option PipelineSpec :=
  m ← as_object j;
  source ← field as_string "" "source" m;
  models ← field (as_list decode_model) [] "models" m;
  tests ← field (as_list decode_test) [] "tests" m;
  Some (mkSpec source models tests).

(** The text of the last value given for a field, as it was written. *)
Definition raw_field (name : string) (m : list (string * (json * string))) : string :=
  List.last (snd ∘ snd <$> filter (λ kv, EqualFold (fst kv) name = true) m) "".

(** Name and spec, the spec kept as it was written. *)
Definition decodePipelineBody (b : string) : outcome error (string * string) :=
  let raw := match json_first b with Some (JObj _) => raw_object b | _ => [] end in
  let name := TrimSpace (lenient as_string "" "name" (prod_map id fst <$> raw)) in
  let spec := raw_field "spec" raw in
  if String.eqb name "" then Err (Errorf "a pipeline name is required" []) else
  if String.eqb spec "" then Err (Errorf "a pipeline spec is required" []) else
  match json_parse spec ≫= decode_spec with
  | None => Err (Errorf "invalid spec: %w" [])
  | Some ps =>
      if String.eqb (TrimSpace (Source ps)) "" then Err (Errorf "the pipeline spec needs a source connection string" [])
      else Ok (name, spec)
  end.

Definition name_rune (r : rune) : bool := within 97 122 r || within 48 57 r.
Definition starts_lower (s : string) : bool :=
  match s with String c _ => ((97 <=? byte_val c) && (byte_val c <=? 122))%Z | EmptyString => false end.
Definition trim_dashes (s : string) : string := trim_right_by (Ascii.eqb "-") (trim_left_by (Ascii.eqb "-") s).

Definition pipelineBranch {U : Unicode} (p : Pipeline) : string :=
  let b := of_runes ((λ r, if name_rune r then r else 45%N) <$> runes (string_lower (PName p))) in
  let name := trim_dashes b in
  let name := if starts_lower name then name else "pl-" +:+ PID p in
  if (40 <? String.length name)%nat then trim_dashes (substring 0 40 name) else name.

(** The store's error, in a reply. *)
Definition store_error_of (e : store_error) : error :=
  match e with Message m => Errorf m [] | NoRows => Errorf "sql: no rows in result set" [] | _ => Errorf "store error" [] end.

Section pipelines.
Context {O : Outside}.

(** The handlers that only use the store are the store's own programs. *)
Definition serve (c : Z) (a : reply_body) : op served := mret (mkServed c a).
Definition stored {A} (bad : Z) (m : op A) (good : A → reply_body) : op served :=
  r ← caught m;
  match r with inl a => serve 200 (good a) | inr e => serve bad (Bad (store_error_of e)) end.
Definition ok_fields (s : string) : reply_body := Fields [("status", s)].

Definition getPipelines (u : User) : op served := stored 500 (ListPipelines (UserID u)) PipelineList.
Definition postPipeline (u : User) (r : http_request) : op served :=
  match decodePipelineBody (body r) with
  | Ok (name, spec) => stored 500 (CreatePipeline (UserID u) name spec) PipelineOf
  | Err e => serve 400 (Bad e)
  | Panic w => serve 500 (Bad (Errorf w []))
  end.
Definition not_found : error := Errorf "pipeline not found" [].
Definition getPipeline (u : User) (r : http_request) : op served :=
  p ← GetPipeline (path_value r "id") (UserID u);
  match p with Some p => serve 200 (PipelineOf p) | None => serve 404 (Bad not_found) end.
Definition putPipeline (u : User) (r : http_request) : op served :=
  match decodePipelineBody (body r) with
  | Ok (name, spec) => stored 404 (UpdatePipeline (path_value r "id") (UserID u) name spec) (λ _, ok_fields "updated")
  | Err e => serve 400 (Bad e)
  | Panic w => serve 500 (Bad (Errorf w []))
  end.
Definition deletePipeline (u : User) (r : http_request) : op served :=
  stored 500 (DeletePipeline (path_value r "id") (UserID u)) (λ _, ok_fields "deleted").
Definition getRuns (u : User) (r : http_request) : op served :=
  stored 500 (ListRuns (path_value r "id") (UserID u)) RunList.

Context {W : World} {En : Env} {Em : Embedded} {T : ErrorText} {U : Unicode} {IP : IPLiterals} {Er : Stderr}.

Definition test_json (t : TestResult) : string :=
  "{" +:+ json_string "name" +:+ ":" +:+ json_string (RName t) +:+ "," +:+ json_string "passed" +:+ ":"
  +:+ (if RPassed t then "true" else "false")
  +:+ (if String.eqb (RDetail t) "" then "" else "," +:+ json_string "detail" +:+ ":" +:+ json_string (RDetail t)) +:+ "}".
Definition tests_json (ts : list TestResult) : string :=
  match ts with [] => "null" | _ => "[" +:+ Join "," (test_json <$> ts) +:+ "]" end.

(** A run uses the store before and after the engine: the state it leaves is part of
    the result. The run's log is the argument [log]. *)
Definition stored_value {A} (m : op A) (s : state) : option A * state :=
  match m s with (Ok a, s) => (Some a, s) | (_, s) => (None, s) end.

Definition postRun (flusher : bool) (log : string) (u : User) (r : http_request) (s : state) : prog (served * state) :=
  let '(pl, s) := stored_value (GetPipeline (path_value r "id") (UserID u)) s in
  if negb flusher then mret (mkServed 500 (Bad (Errorf "streaming is not supported by this server" [])), s) else
  match mjoin pl with
  | None => _ ← send "error" ["pipeline not found"]; mret (mkServed 200 Events, s)
  | Some pl =>
      match json_parse (PSpec pl) ≫= decode_spec with
      | None => _ ← send "error" ["invalid pipeline spec"]; mret (mkServed 200 Events, s)
      | Some spec =>
          let target := pipelineBranch pl in
          let '(started, s) := stored_value (StartRun (PID pl) (UserID u)) s in
          let runID := default "" (fst <$> started) in
          calling (RunPipeline spec target)
            (λ e, let '(_, s) := stored_value (FinishRun runID "error" 0 "[]" log) s in
                  _ ← send "error" [Error e]; mret (mkServed 200 Events, s))
            (λ res, let status := if RunFailed res then "failed" else "success" in
                    let '(_, s) := stored_value (FinishRun runID status (RunTables res) (tests_json (RunTests res)) log) s in
                    _ ← send "done" [status; target; format_int (RunTables res)]; mret (mkServed 200 Events, s))
      end
  end.

End pipelines.

(** ** Cross-origin requests and the console's files *)

Section origins.
Context {IP : IPLiterals}.

Definition isLocalhostOrigin (o : string) : bool :=
  match url_parse o with
  | None => false
  | Some u => existsb (String.eqb (Hostname u)) ["localhost"; "127.0.0.1"; "::1"]
  end.

Definition allowOrigin (configured reqOrigin : string) : string :=
  if negb (String.eqb reqOrigin "") && (String.eqb reqOrigin configured || isLocalhostOrigin reqOrigin) then reqOrigin else configured.

(** The headers every reply gets; a preflight request goes no further. *)
Definition cors_headers (origin reqOrigin : string) : list (string * string) :=
  [("Access-Control-Allow-Origin", allowOrigin origin reqOrigin); ("Vary", "Origin"); ("Access-Control-Allow-Credentials", "true");
   ("Access-Control-Allow-Methods", "GET, POST, PUT, DELETE, OPTIONS");
   ("Access-Control-Allow-Headers", "Content-Type, Authorization, X-API-Key")].
Definition cors {A} (origin reqOrigin method : string) (no_content : A) (next : A) : list (string * string) * A :=
  (cors_headers origin reqOrigin, if String.eqb method "OPTIONS" then no_content else next).

End origins.

(** What is served for a path: a file of the build, else the app itself. *)
Inductive page : Type := Asset (path : string) | Index | NoPage.
Definition serveUI (has : string → bool) (path : string) : page :=
  let p := TrimPrefix (Clean path) "/" in
  if negb (String.eqb p "") && has p then Asset p else if has "index.html" then Index else NoPage.

(** ** What the console's queries do *)

Section console.
Context {W : World} {En : Env} {Em : Embedded} {Co : Console}.

Definition queries (a : action) : Prop := ∃ sql, a = console_query sql.
(** What a session is told besides its query: the account, the rules the request overrides
    if it names some, and leave to destroy if it asks for that. *)
Definition asked_setting (as_ : queryAs) (a : action) : Prop :=
  ∀ l, a = CallOut "conn.Exec" l →
    a = set_actor (AActor as_) ∨ (a = set_rules (AllowRules as_) ∧ AllowRules as_ ≠ [])
    ∨ (a = set_destructive ∧ AllowDestructive as_ = true).

Lemma runs_or_answer_full a next h o t :
  runs (or_answer a next) h o t →
  ∃ r u, t = (a, r) :: u ∧ if rok r then runs (next r) (h ++ [(a, r)]) o u else o = Ok (QError (CommandFailed a)) ∧ u = [].
Proof.
  unfold or_answer. intros (u & Hr & ->)%runs_call_bind. exists (answer h a), u. split; [done|].
  destruct (rok _); [done|]. by apply runs_ret in Hr as [-> ->].
Qed.
Lemma runs_or_answer a next h o t :
  runs (or_answer a next) h o t →
  ∃ r u, t = (a, r) :: u ∧ if rok r then runs (next r) (h ++ [(a, r)]) o u else u = [].
Proof. intros (r & u & -> & Hr)%runs_or_answer_full. exists r, u. split; [done|]. destruct (rok r); [done|]. by destruct Hr. Qed.

Lemma emits_or_answer (P : action → Prop) a next : P a → (∀ r, emits P (next r)) → emits P (or_answer a next).
Proof. intros Ha Hn. unfold or_answer. emits_go; [done|apply Hn]. Qed.
Lemma emits_or_answer_if (P : action → Prop) b a next : (b = true → P a) → emits P next → emits P (or_answer_if b a next).
Proof. intros Ha Hn. destruct b; [|done]. apply emits_or_answer; [by apply Ha|done]. Qed.

Lemma EnsureUserRole_local cached branch email : emits local_action (EnsureUserRole cached branch email).
Proof. unfold EnsureUserRole, psqlStdin. emits_go; done. Qed.

(** What comes once the connection is there. *)
Definition session_body (sql : string) (as_ : queryAs) : prog query_result :=
  or_answer_if (negb (bool_decide (AllowRules as_ = []))) (set_rules (AllowRules as_)) (
  or_answer_if (AllowDestructive as_) set_destructive (
  or_answer (console_query sql) (λ r, mret (table_of r)))).

Lemma session_body_queries sql as_ : emits (λ a, queries a → a = console_query sql) (session_body sql as_).
Proof.
  unfold session_body. apply emits_or_answer_if; [by intros _ (s & [=])|].
  apply emits_or_answer_if; [by intros _ (s & [=])|]. apply emits_or_answer; [by intros _|]. intros r. apply emits_ret.
Qed.

Lemma user_local cached as_ :
  emits local_action (if negb (String.eqb (AActor as_) "") && negb (String.eqb (ABranch as_) "")
    then r ← attempt (EnsureUserRole cached (ABranch as_) (AActor as_));
         mret (match r with inl _ => AActor as_ | inr _ => "odbclient" end)
    else mret "odbclient").
Proof. emits_go. apply EnsureUserRole_local. Qed.

Lemma runQuery_settings cached addr sql as_ : emits (asked_setting as_) (runQuery cached addr sql as_).
Proof.
  unfold runQuery. apply emits_or_answer; [by intros l|]. intros _.
  apply emits_bind; [eapply emits_mono; [|apply user_local]; by intros [] Ha l|]. intros user.
  apply emits_or_answer; [by intros l|]. intros _. apply emits_finally; [|apply emits_ignore; by intros l].
  apply emits_or_answer_if; [intros _ l _; by left|].
  apply emits_or_answer_if; [intros Hb l _; right; left; split; [done|]; by apply negb_true_iff, bool_decide_eq_false in Hb|].
  apply emits_or_answer_if; [intros Hb l _; by right; right|].
  apply emits_or_answer; [by intros l|]. intros r. apply emits_ret.
Qed.

(** C30. A console query is the account's own: the statement is sent only after the session
    was told, without error, which account it acts for; only the statement asked for is
    sent; and the only settings made are the account's, the rules that the request itself
    overrides, if it names some, and leave to destroy, if it asks for that. *)
Theorem runQuery_attributed cached addr sql as_ h o t :
  runs (runQuery cached addr sql as_) h o t → AActor as_ ≠ "" →
  (Forall (λ e, ¬ queries e.1) t
   ∨ ∃ t1 r t2, t = t1 ++ (set_actor (AActor as_), r) :: t2 ∧ rok r = true
       ∧ Forall (λ e, ¬ queries e.1) t1 ∧ Forall (λ e, queries e.1 → e.1 = console_query sql) t2)
  ∧ Forall (λ e, asked_setting as_ e.1) t.
Proof.
  intros Hrun Ha. split; [|exact (emits_runs _ _ _ _ _ (runQuery_settings cached addr sql as_) Hrun)].
  unfold runQuery in Hrun. apply runs_or_answer in Hrun as (r1 & u & -> & Hrun).
  assert (¬ queries (console_parse addr)) as Hp by (by intros (s & [=])).
  destruct (rok r1); [|subst u; left; by repeat constructor].
  apply (runs_after local_action) in Hrun as [[Hl _]|(user & t1 & t2 & -> & Hl & _ & Hrun)]; [| |apply user_local].
  { left. constructor; [done|]. eapply Forall_impl; [exact Hl|]. intros [a r] He (s & Hs). cbn in He, Hs. by subst a. }
  assert (Forall (λ e, ¬ queries e.1) t1) as Hl'.
  { eapply Forall_impl; [exact Hl|]. intros [a r] He (s & Hs). cbn in He, Hs. by subst a. }
  apply runs_or_answer in Hrun as (r2 & u & -> & Hrun).
  assert (¬ queries (console_connect addr user)) as Hc by (by intros (s & [=])).
  destruct (rok r2); [|subst u; left; constructor; [done|]; apply Forall_app; split; [done|by repeat constructor]].
  apply runs_finally in Hrun as (om & od & v1 & v2 & Hm & Hd & -> & _).
  apply runs_ignore in Hd as [_ ->]. rewrite (proj2 (String.eqb_neq _ _) Ha) in Hm. cbn [negb or_answer_if] in Hm.
  apply runs_or_answer in Hm as (r3 & w & -> & Hm).
  assert (¬ queries close_conn) as Hcl by (by intros (s & [=])).
  destruct (rok r3) eqn:Hk.
  - right. exists ((console_parse addr, r1) :: t1 ++ [(console_connect addr user, r2)]), r3. eexists (w ++ _).
    split; [rewrite <- !app_assoc; cbn [app]; rewrite <- ?app_assoc; reflexivity|].
    split; [exact Hk|]. split; [constructor; [done|]; apply Forall_app; split; [done|by repeat constructor]|].
    apply Forall_app. split; [exact (emits_runs _ _ _ _ _ (session_body_queries sql as_) Hm)|].
    repeat constructor. intros Hq. by destruct Hcl.
  - subst w. left. constructor; [done|]. apply Forall_app. split; [done|]. constructor; [done|]. cbn [app].
    repeat constructor; [by intros (s & [=])|exact Hcl].
Qed.

End console.

(** ** What the console is sent *)

Section shape.
Context {W : World} {En : Env} {Em : Embedded} {Co : Console}.

(** What encoding/json writes as null, true, a number or a string. *)
Definition scalar (v : pgvalue) : bool :=
  match v with VNil | VBool _ | VString _ | VInt _ | VFloat _ => true | _ => false end.
Definition console_table (r : query_result) : Prop :=
  match r with
  | QError _ => True
  | QTable cols rows _ => (List.length rows <= 1000)%nat ∧ Forall (λ row, List.length row <= List.length cols ∧ forallb scalar row = true)%nat rows
  end.

Lemma cell_scalar oid v : scalar (cell oid v) = true.
Proof. destruct v as [| | | | | | | | | |[]]; try done. cbn [cell]. by destruct (pgText oid _). Qed.

Lemma read_rows_shape room oids l out more : read_rows room oids l = Some (out, more) →
  (List.length out <= room)%nat ∧ Forall (λ row, List.length row <= List.length oids ∧ forallb scalar row = true)%nat out.
Proof.
  revert room out. induction l as [|[vals|] l IH]; intros [|room] out; cbn [read_rows]; try (intros [= <- <-]; split; [cbn; lia|constructor]); [|done].
  destruct (read_rows room oids l) as [[out' more']|] eqn:Hr; [|done]. intros [= <- <-]. destruct (IH room out' Hr) as [Hl Ho].
  split; [cbn; lia|]. constructor; [|done]. split; [rewrite length_zip_with; lia|].
  clear. revert vals. induction oids as [|o oids IH]; intros [|v vals]; try done. cbn. by rewrite cell_scalar, IH.
Qed.

Lemma table_of_shape r : console_table (table_of r).
Proof.
  unfold table_of. destruct (read_rows _ _ _) as [[out more]|] eqn:Hr; [|done]. apply read_rows_shape in Hr as [Hl Ho].
  destruct (if more then None else rows_error r); [done|]. cbn. rewrite length_fmap in *. split; [done|].
  eapply Forall_impl; [exact Ho|]. by intros row [H1 H2]; rewrite length_fmap in H1.
Qed.

Lemma or_answer_shape a next : (∀ r, returns console_table (next r)) → returns console_table (or_answer a next).
Proof.
  intros Hn h q t (r & u & -> & Hr)%runs_or_answer_full. destruct (rok r); [by eapply Hn|]. by destruct Hr as [[= ->] _].
Qed.

Lemma or_answer_if_shape b a next : returns console_table next → returns console_table (or_answer_if b a next).
Proof. intros Hn. destruct b; [by apply or_answer_shape|done]. Qed.

(** C39. Whatever a query returns, the console is sent at most a thousand rows, none with
    more cells than there are columns, and every cell is null, a boolean, a number or a
    string: arrays, byte strings, times and pgx's own types have become text. *)
Theorem runQuery_shape cached addr sql as_ h t cols rows command :
  runs (runQuery cached addr sql as_) h (Ok (QTable cols rows command)) t →
  (List.length rows <= 1000)%nat ∧ Forall (λ row, List.length row <= List.length cols ∧ forallb scalar row = true)%nat rows.
Proof.
  intros Hrun. enough (returns console_table (runQuery cached addr sql as_)) as H by exact (H _ _ _ Hrun).
  unfold runQuery. apply or_answer_shape. intros _ h' q u (user & t1 & t2 & _ & Hr & _)%runs_bind_ok. revert Hr.
  apply (or_answer_shape (console_connect addr user)). intros _ h2 q2 u2 (om & od & v1 & v2 & Hm & _ & _ & [<-|(w & _ & [=])])%runs_finally.
  revert Hm. apply (or_answer_if_shape _ _ _). do 2 apply or_answer_if_shape. apply or_answer_shape.
  intros r h3 q3 u3 [[= ->] _]%runs_ret. apply table_of_shape.
Qed.

End shape.

(** ** The branch of a pipeline *)

(** The bytes of a pipeline's id (randToken). *)
Definition id_byte (c : ascii) : bool := existsb (Ascii.eqb c) (to_bytes b64url).

Lemma name_rune_byte r : forallb id_byte (utf8 (if name_rune r then r else 45%N)) = true.
Proof.
  destruct (name_rune r) eqn:Hr; [|done].
  assert (identifier_char r = true) as Hi by (unfold identifier_char; unfold name_rune in Hr; by rewrite Hr).
  destruct (identifier_utf8 r Hi) as (c & -> & Hc). cbn [forallb]. rewrite andb_true_r. clear -Hc.
  destruct c as [[] [] [] [] [] [] [] []]; vm_compute in Hc |- *; congruence.
Qed.

Lemma trim_left_all f g s : forallb g (to_bytes s) = true → forallb g (to_bytes (trim_left_by f s)) = true.
Proof. intros H. unfold trim_left_by. rewrite to_of_bytes. by apply drop_while_all. Qed.
Lemma trim_dashes_all g s : forallb g (to_bytes s) = true → forallb g (to_bytes (trim_dashes s)) = true.
Proof. intros H. by apply trim_right_all, trim_left_all. Qed.

Lemma drop_while_suffix {A} (f : A → bool) l : ∃ p, l = p ++ drop_while f l.
Proof. induction l as [|x l [p IH]]; [by exists []|]. cbn. destruct (f x); [exists (x :: p); by rewrite IH at 1|by exists []]. Qed.

Lemma drop_while_last {A} (f : A → bool) l x : f x = false → ∃ m, drop_while f (l ++ [x]) = m ++ [x].
Proof. intros Hx. induction l as [|y l IH]; cbn; [rewrite Hx; by exists []|]. destruct (f y); [done|]. by exists (y :: l). Qed.

(** Trimming keeps a first character that is not trimmed. *)
Lemma trim_dashes_head c s : Ascii.eqb "-" c = false → ∃ t, trim_dashes (String c s) = String c t ∧ (String.length t <= String.length s)%nat.
Proof.
  intros Hc. unfold trim_dashes, trim_left_by. cbn [to_bytes drop_while]. rewrite Hc.
  change (c :: to_bytes s) with (to_bytes (String c s)). rewrite of_to_bytes. unfold trim_right_by. cbn [to_bytes].
  rewrite reverse_cons. destruct (drop_while_last (Ascii.eqb "-") (reverse (to_bytes s)) c Hc) as [m Hm].
  pose proof (drop_while_suffix (Ascii.eqb "-") (reverse (to_bytes s) ++ [c])) as [p Hp]. rewrite Hm in Hp |- *.
  exists (of_bytes (reverse m)). split; [by rewrite reverse_app|].
  rewrite app_assoc in Hp. apply app_inj_tail in Hp as [Hp _]. apply (f_equal List.length) in Hp.
  rewrite length_app, length_reverse, !length_to_bytes in Hp.
  rewrite <- length_to_bytes, to_of_bytes, length_reverse. lia.
Qed.

Lemma id_bytes_no c s : id_byte c = false → forallb id_byte (to_bytes s) = true → has_byte c s = false.
Proof.
  intros Hc Hs. apply has_byte_false. intros Hin. rewrite forallb_forall in Hs.
  rewrite (Hs c) in Hc; [done|]. by apply list_elem_of_In.
Qed.

(** Whatever a pipeline is called, the branch its runs rebuild has a name of at most
    40 bytes that starts with a lower-case letter and is a plain directory and container
    name: no slash, no snapshot mark, no way out of the branches. *)
Theorem pipelineBranch_plain `{Unicode} p :
  forallb id_byte (to_bytes (PID p)) = true →
  let n := pipelineBranch p in
  plain_name n = true ∧ starts_lower n = true ∧ (String.length n <= 40)%nat ∧ forallb id_byte (to_bytes n) = true.
Proof.
  intros Hid. cbv zeta. unfold pipelineBranch. set (b := of_runes _).
  assert (forallb id_byte (to_bytes b) = true) as Hb.
  { subst b. unfold of_runes. rewrite to_of_bytes. induction (runes (string_lower (PName p))) as [|r rs IH]; [done|].
    rewrite fmap_cons, bind_cons, forallb_app, IH, andb_true_r. apply name_rune_byte. }
  set (n := if starts_lower (trim_dashes b) then trim_dashes b else "pl-" +:+ PID p).
  assert (forallb id_byte (to_bytes n) = true ∧ starts_lower n = true) as [Hn Hs].
  { subst n. destruct (starts_lower (trim_dashes b)) eqn:Hs; [split; [by apply trim_dashes_all|done]|]. split; [|done].
    rewrite to_bytes_app, forallb_app, Hid. done. }
  clearbody n. clear b Hb Hid. set (m := if (40 <? String.length n)%nat then trim_dashes (substring 0 40 n) else n).
  assert (forallb id_byte (to_bytes m) = true ∧ starts_lower m = true ∧ (String.length m <= 40)%nat) as (Hm & Hl & Hlen).
  { subst m. destruct (Nat.ltb_spec 40 (String.length n)); [|by split_and!].
    split; [by apply trim_dashes_all, substring_bytes|]. destruct n as [|c n]; [done|].
    cbn [substring]. destruct (trim_dashes_head c (substring 0 39 n)) as (t & -> & Ht).
    - destruct (Ascii.eqb_spec "-" c) as [<-|]; [|done]. by cbn in Hs.
    - split; [done|]. rewrite length_substring in Ht. cbn. lia. }
  clearbody m. split_and!; [|done..]. unfold plain_name. rewrite andb_true_iff, negb_true_iff, plain_elem_spec.
  rewrite !(id_bytes_no _ m) by (done || reflexivity). split; [|done]. split_and!; [by intros ->|done|by intros ->|by intros ->].
Qed.

Definition nightly : Pipeline := mkPipeline "Ab-_3dE9xyz" "  Nightly load: Orders & Customers (EU region only)" "" 0 0.
Lemma pipelineBranch_plain_witness :
  plain_name (@pipelineBranch ascii_unicode nightly) = true ∧ @pipelineBranch ascii_unicode nightly = "nightly-load--orders---customers--eu-reg".
Proof. split; [apply (@pipelineBranch_plain ascii_unicode nightly); vm_compute; reflexivity|vm_compute; reflexivity]. Defined.

(** Two accounts' pipelines of one name rebuild the same branch, and a pipeline can be
    named after the standby. *)
Example pipelineBranch_shared :
  @pipelineBranch ascii_unicode (mkPipeline "id1" "Sales" "" 0 0) = @pipelineBranch ascii_unicode (mkPipeline "id2" "sales" "" 0 0)
  ∧ @pipelineBranch ascii_unicode (mkPipeline "id3" "Standby" "" 0 0) = "standby".
Proof. split; vm_compute; reflexivity. Qed.

(** ** What a run leaves in the store *)

Section run_records.
Context {O : Outside}.

Lemma GetPipeline_reads id uid s : (∀ k, fault k = false) →
  stored_value (GetPipeline id uid) s
  = (Some (pipeline_of <$> List.find (own_pipeline id uid) (pipelines (db s))), mkState (S (tick s)) (db s)).
Proof.
  intros Hf. unfold stored_value, GetPipeline, option_of, caught, query, mbind, op_bind, mret, op_ret. rewrite Hf.
  by destruct (List.find _ _) as [r|].
Qed.

(** The id that a run started at this tick is given. *)
Definition run_token (k : nat) : string := of_bytes (b64_encode (rand_byte k <$> seq 0 8)).

Lemma StartRun_adds pid uid s :
  (∀ k, fault k = false) → existsb (λ x, String.eqb (p_id x) pid) (pipelines (db s)) = true →
  run_token (tick s) ∉ (r_id <$> pipeline_runs (db s)) →
  ∃ s' started, stored_value (StartRun pid uid) s = (Some (run_token (tick s), None), s')
    ∧ pipeline_runs (db s') = pipeline_runs (db s) ++ [mkRunRow (run_token (tick s)) pid uid "running" started None 0 "[]" ""].
Proof.
  intros Hf Hp Hnew.
  unfold stored_value, StartRun, randToken, unix, unix_in, ticked, caught, exec, mbind, op_bind, mret, op_ret. cbn [tick db].
  rewrite Hf. unfold insert_run. cbn [r_id r_pipeline]. fold (run_token (tick s)). rewrite Hp.
  destruct (existsb (λ x, String.eqb (r_id x) _) _) eqn:He; [|by eexists _, _].
  apply existsb_exists in He as (x & Hx%list_elem_of_In & He%String.eqb_eq). exfalso. apply Hnew. rewrite <- He. by apply list_elem_of_fmap_2.
Qed.

Lemma FinishRun_sets id status n tests log s : (∀ k, fault k = false) →
  ∃ v s' now, stored_value (FinishRun id status n tests log) s = (v, s')
    ∧ pipeline_runs (db s') = finish_run id status now n tests log <$> pipeline_runs (db s).
Proof.
  intros Hf. unfold stored_value, FinishRun, unix, unix_in, ticked, exec, mbind, op_bind. cbn [tick db]. rewrite Hf.
  eexists _, _, _. split; reflexivity.
Qed.

Lemma finish_new id status now n tests log (rows : list run_row) row :
  id ∉ (r_id <$> rows) → r_id row = id →
  finish_run id status now n tests log <$> (rows ++ [row])
  = rows ++ [mkRunRow id (r_pipeline row) (r_user row) status (r_started row) (Some now) n tests log].
Proof.
  intros Hnew Hid. rewrite fmap_app. f_equal.
  - rewrite <- (list_fmap_id rows) at 2. apply list_fmap_ext. intros i x Hx. unfold finish_run.
    destruct (String.eqb_spec (r_id x) id) as [He|]; [|done]. exfalso. apply Hnew. rewrite <- He.
    by eapply list_elem_of_fmap_2, list_elem_of_lookup_2.
  - cbn. unfold finish_run. rewrite Hid, String.eqb_refl. done.
Qed.

Context {W : World} {En : Env} {Em : Embedded} {T : ErrorText} {U : Unicode} {IP : IPLiterals} {Er : Stderr}.

Definition streams (a : action) : Prop := ∃ data, a = CallOut "sse" data.

(** How a run that ended in [o] is recorded: status, number of tables, tests. *)
Definition recorded_status (o : outcome error RunResult) : string :=
  match o with Ok res => if RunFailed res then "failed" else "success" | _ => "error" end.
Definition recorded_tables (o : outcome error RunResult) : Z := match o with Ok res => RunTables res | _ => 0%Z end.
Definition recorded_tests (o : outcome error RunResult) : string := match o with Ok res => tests_json (RunTests res) | _ => "[]" end.

(** C29. A pipeline's run is recorded to its end. With a store that refuses nothing and a
    run id that no other run has: when the reply is made, the pipeline was run once, exactly
    one run was added to the records, of that pipeline and account, with the status that
    the pipeline's own outcome says (success, failed tests, an error), its number of tables,
    its tests and its log, and the other runs are as they were. A request that runs nothing
    (no such pipeline of the account, a specification that cannot be read, a server that
    cannot stream) leaves the store unchanged and the engine unused. *)
Theorem postRun_settles flusher log u r s h rep s' t :
  (∀ k, fault k = false) → run_token (S (tick s)) ∉ (r_id <$> pipeline_runs (db s)) →
  runs (postRun flusher log u r s) h (Ok (rep, s')) t →
  match List.find (own_pipeline (path_value r "id") (UserID u)) (pipelines (db s)), flusher with
  | Some row, true =>
      match json_parse (p_spec row) ≫= decode_spec with
      | Some spec =>
          ∃ o t1 t2 started finished,
            t = t1 ++ t2 ∧ runs (RunPipeline spec (pipelineBranch (pipeline_of row))) h o t1 ∧ Forall (λ e, streams e.1) t2
            ∧ pipeline_runs (db s') = pipeline_runs (db s)
                ++ [mkRunRow (run_token (S (tick s))) (p_id row) (UserID u) (recorded_status o) started (Some finished)
                      (recorded_tables o) (recorded_tests o) log]
      | None => db s' = db s ∧ Forall (λ e, streams e.1) t
      end
  | _, _ => db s' = db s ∧ Forall (λ e, streams e.1) t
  end.
Proof.
  intros Hf Hnew Hrun. unfold postRun in Hrun. rewrite GetPipeline_reads in Hrun by done.
  assert (∀ (k : string) (d : list string) (x : served * state) h' o u', runs (_ ← send k d; mret x) h' o u' → o = Ok x ∧ Forall (λ e, streams e.1) u') as Hsend.
  { intros k d x h' o u' Hr. unfold send in Hr.
    apply runs_bind in Hr as [(y & u1 & u2 & [_ ->]%runs_ignore & [-> ->]%runs_ret & ->)|[(e & [[=] _]%runs_ignore & _)|(w & [[=] _]%runs_ignore & _)]].
    split; [done|]. repeat constructor. by eexists. }
  destruct flusher; cbn [negb] in Hrun.
  2: { apply runs_ret in Hrun as [[= -> ->] ->]. by destruct (List.find _ _). }
  cbn [mjoin option_join] in Hrun. destruct (List.find _ _) as [row|] eqn:Hfind; cbn [fmap option_fmap option_map mjoin option_join] in Hrun.
  2: { by apply Hsend in Hrun as [[= -> ->] Hs]. }
  change (PSpec (pipeline_of row)) with (p_spec row) in Hrun. destruct (json_parse _ ≫= decode_spec) as [spec|].
  2: { by apply Hsend in Hrun as [[= -> ->] Hs]. }
  destruct (StartRun_adds (PID (pipeline_of row)) (UserID u) (mkState (S (tick s)) (db s)) Hf) as (s2 & started & Hst & Hrows); [|done|].
  { apply List.find_some in Hfind as [Hin _]. apply existsb_exists. exists row. split; [done|]. apply String.eqb_refl. }
  rewrite Hst in Hrun. cbn [tick db fmap option_fmap option_map fst default from_option] in Hrun, Hrows.
  assert (∀ status n tests x s3, stored_value (FinishRun (run_token (S (tick s))) status n tests log) s2 = (x, s3) →
    ∃ finished, pipeline_runs (db s3) = pipeline_runs (db s)
      ++ [mkRunRow (run_token (S (tick s))) (p_id row) (UserID u) status started (Some finished) n tests log]) as Hdone.
  { intros status n tests x s3 Hfin.
    destruct (FinishRun_sets (run_token (S (tick s))) status n tests log s2 Hf) as (v' & s4 & now & Hfin' & Hset).
    rewrite Hfin in Hfin'. injection Hfin' as <- <-. exists now. rewrite Hset, Hrows. by apply finish_new. }
  apply runs_calling in Hrun as [(res & t1 & t2 & Hpipe & Hrun & ->)|[(e & t1 & t2 & Hpipe & Hrun & ->)|(w & _ & [=])]].
  - destruct (stored_value (FinishRun _ _ _ _ _) s2) as [x s3] eqn:Hfin. apply Hsend in Hrun as [[= -> ->] Hs].
    apply Hdone in Hfin as [now Hfin]. by exists (Ok res), t1, t2, started, now.
  - destruct (stored_value (FinishRun _ _ _ _ _) s2) as [x s3] eqn:Hfin. apply Hsend in Hrun as [[= -> ->] Hs].
    apply Hdone in Hfin as [now Hfin]. by exists (Err e), t1, t2, started, now.
Qed.

End run_records.

(** ** Witnesses *)

Definition plain_console : Console := {|
  columns_of := λ _, [("id", 23%N); ("tags", 1009%N)];
  rows_of := λ _, [Some [VInt 1; VArray [VString "a"; VUuid "x"]]];
  rows_error := λ _, None; command_tag_of := λ _, "SELECT 1";
  pgText := λ _ _, None; elementOID := λ _, 25%N; marshal := λ _, Some "json"; sprint := λ _, "" |}.
Definition console_world : World := {| answer := λ _ _, reply_ok "" |}.
Definition ann_asks : queryAs := mkAs "dev" "ann@x.org" false [].

Lemma runQuery_shape_witness :
  Forall (λ row, List.length row <= 2 ∧ forallb scalar row = true)%nat [[VInt 1; VString "json"]].
Proof.
  refine (proj2 (runQuery_shape (W := console_world) (En := sample_env) (Co := plain_console) false "10.0.0.7:5432" "SELECT 1" ann_asks []
    (runQuery (W := console_world) (En := sample_env) (Co := plain_console) false "10.0.0.7:5432" "SELECT 1" ann_asks []).2
    ["id"; "tags"] _ "SELECT 1" _)).
  vm_compute. reflexivity.
Defined.

Lemma runQuery_attributed_witness :
  let run := runQuery (W := console_world) (En := sample_env) (Co := plain_console) false "10.0.0.7:5432" "SELECT 1" ann_asks [] in
  run.1 = Ok (QTable ["id"; "tags"] [[VInt 1; VString "json"]] "SELECT 1")
  ∧ existsb (λ e, bool_decide (e.1 = console_query "SELECT 1")) run.2 = true
  ∧ Forall (λ e, asked_setting ann_asks e.1) run.2.
Proof.
  intros run. split_and!; [vm_compute; reflexivity|vm_compute; reflexivity|].
  refine (proj2 (runQuery_attributed (W := console_world) (En := sample_env) (Co := plain_console) false "10.0.0.7:5432" "SELECT 1" ann_asks []
    run.1 run.2 _ _)); [vm_compute; reflexivity|discriminate].
Defined.

Definition spec_text : string :=
  "{" +:+ json_string "source" +:+ ":" +:+ json_string "postgres://db.local/shop" +:+ "}".
Definition store_before : state := @do_operations sample_outside [DoCreatePipeline 1 "dash" spec_text] sample_state.
Definition stored_id : string := match pipelines (db store_before) with r :: _ => p_id r | [] => "" end.
Definition run_request : http_request := mkHttp (λ _, stored_id) (λ _, "") "".
Definition run_outcome : outcome error (served * state) * history :=
  @postRun sample_outside load_world sample_env plain_errors ascii_unicode no_literals quiet_stderr true "" (mkUser 1 "ann@x.org")
    run_request store_before [].
Definition state_after : state := match run_outcome.1 with Ok (_, s) => s | _ => store_before end.

Lemma postRun_settles_witness :
  (r_status <$> pipeline_runs (db state_after)) = ["success"]
  ∧ ∃ row, pipeline_runs (db state_after) = pipeline_runs (db store_before) ++ [row] ∧ r_user row = 1%Z.
Proof.
  split; [vm_compute; reflexivity|].
  pose proof (@postRun_settles sample_outside load_world sample_env plain_errors ascii_unicode no_literals quiet_stderr true ""
    (mkUser 1 "ann@x.org") run_request store_before [] (mkServed 200 Events) state_after run_outcome.2 (λ _, eq_refl)) as H.
  assert (∃ row, List.find (own_pipeline (path_value run_request "id") 1) (pipelines (db store_before)) = Some row
            ∧ is_Some (json_parse (p_spec row) ≫= decode_spec)) as (row & Hrow & [spec Hspec])
    by (eexists; split; [vm_compute; reflexivity|eexists; vm_compute; reflexivity]).
  cbn [UserID] in H. rewrite Hrow, Hspec in H.
  destruct H as (o & t1 & t2 & st & fin & _ & _ & _ & H);
    [change (pipeline_runs (db store_before)) with ([] : list run_row); apply not_elem_of_nil|vm_compute; reflexivity|].
  by eexists; split; [exact H|].
Defined.
