(* ===== verification/Agents.v ===== *)
(** * Agents' ways in (internal/agentapi/server.go, internal/mcp)

    The Agent Branch API's handlers and its reaper's pace, and the MCP server: the
    account it acts for, the scope of its key, and its tools. Arguments are the JSON
    values the client sent; what a tool's text is made from stands for the text. How
    encoding/json writes a number it has read as a float64 is the class [Floats]. *)
From S2P Require Import Prelude GoStrings GoNum GoRunes GoTime GoSort GoTimeParse GoDuration Json Integrity Effects Storage Container HA Branch Store Blackbox Policy Impact Recovery Provenance Web.
Open Scope string_scope.
Open Scope list_scope.

(** ** The Agent Branch API *)

Inductive agent_answer : Type :=
| AError (e : error)
| AStatus (fields : list (string * string))
| AInfos (infos : list Info)
| AInfo (i : Info)
| AInfoSession (i : Info) (session task parent : string).
Record agent_reply : Type := mkAgentReply { agent_code : Z; agent_sent : agent_answer }.

Section agentapi.
Context {W : World} {En : Env} {Em : Embedded} {T : ErrorText} {U : Unicode} {Mo : MapOrder}.

Definition agentTTL : Z :=
  let v := getenv "OXYNDB_AGENT_TTL" in
  if String.eqb v "" then 0%Z else match ParseDuration v with Some d => if (0 <? d)%Z then d else 0%Z | None => 0%Z end.

(** How long reapLoop sleeps between two looks. *)
Definition reap_interval (ttl : Z) : Z :=
  let i := (ttl ÷ 4)%Z in
  let i := if (i <? minute)%Z then minute else i in
  if (15 * minute <? i)%Z then (15 * minute)%Z else i.
(** One turn of reapLoop, which never ends. *)
Definition reap_turn (ttl : Z) : prog unit := _ ← ignore (Sleep (reap_interval ttl)); discard (ReapAgentBranches ttl).

Definition agent_json (c : Z) (a : agent_answer) : prog agent_reply := mret (mkAgentReply c a).

Definition healthz : prog agent_reply := agent_json 200 (AStatus [("status", "ok")]).
Definition getAgents : prog agent_reply := calling ListAgentBranches (λ e, agent_json 500 (AError e)) (λ infos, agent_json 200 (AInfos infos)).

Definition lenient_provenance (b : string) : Provenance :=
  let m := lenient_object (json_first b) in
  mkProvenance (lenient as_string "" "session_id" m) (lenient as_string "" "task_id" m) (lenient as_string "" "parent_session_id" m).

Definition postAgentBranch (r : http_request) : prog agent_reply :=
  let p := lenient_provenance (body r) in
  if negb (Requested p)
  then calling (CreateAgentBranch (path_value r "id")) (λ e, agent_json 409 (AError e)) (λ info, agent_json 201 (AInfo info))
  else calling (CreateAgentBranchWithProvenance (path_value r "id") p)
         (λ e, agent_json (first_err [(ErrInvalidRequest, 400%Z)] 409 e) (AError e))
         (λ '(info, s), agent_json 201 (AInfoSession info (SSession s) (VTask p) (VParent p))).

Definition deleteAgentBranch (r : http_request) : prog agent_reply :=
  let id := path_value r "id" in
  calling (DeleteAgentBranch id) (λ e, agent_json 500 (AError e)) (λ _, agent_json 200 (AStatus [("agent", id); ("status", "deleted")])).

End agentapi.

(** ** The MCP server: who it acts for *)

Record identity : Type := mkIdentity { Actor : string; Scope : string }.

Definition ErrNoKey : error := Errorf "no API key" [].

(** Opening the store is left out: [VerifyKey] is the store's own. *)
Definition authenticate `{Outside} (key : string) : op (outcome error identity) :=
  let key := TrimSpace key in
  if String.eqb key "" then mret (Err ErrNoKey) else
  v ← VerifyKey key;
  mret (match v with
        | None => Err (Errorf "that API key is not valid (it may have been revoked)" [])
        | Some (u, scope) =>
            if String.eqb (Email u) "" then Err (Errorf "that API key has no account" []) else Ok (mkIdentity (Email u) scope)
        end).

Definition scopedKeyRefuses (tool : string) : option string :=
  snd <$> List.find (λ p, String.eqb (fst p) tool)
    [("create_branch", "creating another agent's branch"); ("delete_branch", "deleting another agent's branch");
     ("list_branches", "listing every agent's branch"); ("blackbox_diff", "comparing two branches");
     ("branch_before_change", "branching main")].

Class Floats := { refloat : string → option string }.

Section scope.
Context {F : Floats}.

(** A value read into an any and written again. *)
Fixpoint rewrite_json (j : json) : option json :=
  match j with
  | JNum l => JNum <$> refloat l
  | JArr l => JArr <$> (fix go l := match l with [] => Some [] | v :: t => v ← rewrite_json v; t ← go t; Some (v :: t) end) l
  | JObj m => JObj <$> (fix go m := match m with [] => Some [] | (k, v) :: t => v ← rewrite_json v; t ← go t; Some ((k, v) :: t) end) m
  | _ => Some j
  end.

(** A map[string]any: of equal keys the last counts. *)
Fixpoint to_map (m : list (string * json)) (acc : gmap string json) : option (gmap string json) :=
  match m with
  | [] => Some acc
  | (k, v) :: t => v ← rewrite_json v; to_map t (<[k := v]> acc)
  end.
(** Written with its keys in order. *)
Definition key_before (x y : string * json) : bool := str_lt (fst x) (fst y).
Definition write_map (m : gmap string json) : list (string * json) := sort_slice key_before (map_to_list m).

Definition not_object : error := Errorf "arguments are not a JSON object: %w" [].
Definition out_of_reach (scope what : string) : error := Errorf "this API key is limited to branch %q, so %s is out of reach" [scope; what].

(** The arguments of a tool call, none when the call gives none. *)
Definition arguments_map (args : option json) : outcome error (gmap string json) :=
  match args with
  | None | Some JNull => Ok ∅
  | Some (JObj l) => match to_map l ∅ with Some m => Ok m | None => Err not_object end
  | Some _ => Err not_object
  end.
Definition named_branch (v : option json) : string := match v with Some (JStr s) => s | _ => "" end.
Definition applyScope (scope tool : string) (args : option json) : outcome error (option json) :=
  if String.eqb scope "" then Ok args else
  match scopedKeyRefuses tool with
  | Some what => Err (out_of_reach scope what)
  | None =>
      m ← arguments_map args;
      let name := named_branch (m !! "branch") in
      if negb (String.eqb name "") && negb (String.eqb name scope)
      then Err (Errorf "this API key is limited to branch %q, so %q is out of reach" [scope; name])
      else Ok (Some (JObj (write_map (<["branch" := JStr scope]> m))))
  end.

End scope.

(** ** The MCP server: its tools *)

Definition blackboxToolNames : list (string * string) :=
  [("verify_blackbox", "verify_ledger"); ("blackbox_integrity", "ledger_integrity"); ("blackbox_entries", "ledger_entries")].
Definition resolveTool (name : string) : string :=
  match List.find (λ p, String.eqb (fst p) name) blackboxToolNames with Some (_, l) => l | None => name end.

(** What a tool's text is made from; a change's result that is an error to the client. *)
Inductive tool_text : Type :=
| TText (format : string) (args : list string)
| TInfos (infos : list Info)
| TReport (r : Report * list string)
| TEntries (es : list LedgerEntry)
| TChange (r : ExecuteChangeResult)
| TImpact (r : ImpactReport)
| TDiff (d : LedgerDiff)
| TCheck (tag : string) (matches : list PolicyDetail)
| TBefore (r : BeforeEntryResult)
| TFailed (r : ExecuteChangeResult).

(** The process's session and the client's name; the session's id is made once. *)
Record session : Type := mkMcp { me : identity; client_name : string; mcp_session : string }.
Definition with_session (s : session) (id : string) : session := mkMcp (me s) (client_name s) id.

Section tools.
Context {W : World} {En : Env} {Em : Embedded} {T : ErrorText} {U : Unicode} {Mo : MapOrder} {Px : Pgx} {F : Floats}.

Definition LedgerText (name : string) (limit : Z) : prog string :=
  let limit := if (limit <=? 0)%Z then 50%Z else limit in
  QueryText name ("SELECT to_char(at,'MM-DD HH24:MI:SS') AS time," +:+ str1 nl +:+ str1 tab +:+ str1 tab
    +:+ "coalesce(actor,'-') AS actor, actor_kind AS kind, command_tag AS command," +:+ str1 nl +:+ str1 tab +:+ str1 tab
    +:+ "coalesce(object_identity,'') AS object, status, coalesce(risk,'') AS risk" +:+ str1 nl +:+ str1 tab +:+ str1 tab
    +:+ "FROM odb.schema_ledger ORDER BY at DESC LIMIT " +:+ format_int limit).

Definition sessionID (s : session) : prog (session * string) :=
  if String.eqb (mcp_session s) "" then id ← NewSessionID "mcp"; mret (with_session s id, id) else mret (s, mcp_session s).

Definition texts_of (m : prog string) : prog tool_text := t ← m; mret (TText "%s" [t]).

(** [script] is where the restore script is. *)
Definition run_tool (script : string) (s : session) (name tool : string) (args : option json) : prog (session * (tool_text + error)) :=
  let m := lenient_object args in
  let get k := lenient as_string "" k m in
  let num k := lenient as_int 0%Z k m in
  let here (p : prog tool_text) : prog (session * (tool_text + error)) := t ← attempt p; mret (s, t) in
  let branch := get "branch" in
  if String.eqb tool "create_branch" then here
    (if String.eqb (get "agent_id") "" then fail (Errorf "agent_id is required" []) else
     info ← CreateAgentBranch (get "agent_id");
     mret (TText "Branch %q is ready — a disposable Postgres isolated from main.\nDSN: %s" [IBranch info; IDSN info]))
  else if String.eqb tool "list_branches" then here (infos ← ListAgentBranches; mret (TInfos infos))
  else if String.eqb tool "delete_branch" then here
    (if String.eqb (get "agent_id") "" then fail (Errorf "agent_id is required" []) else
     _ ← DeleteAgentBranch (get "agent_id");
     mret (TText "Deleted the branch for agent %q." [get "agent_id"]))
  else if String.eqb tool "run_sql" then here
    (if String.eqb (TrimSpace (get "sql")) "" then fail (Errorf "sql is required" []) else
     texts_of (if MCPSuperuser then QueryText branch (get "sql") else ClientQueryTextAs branch (get "sql") "mcp" (Actor (me s))))
  else if String.eqb tool "changes" then here (texts_of (LedgerText branch (num "limit")))
  else if String.eqb tool "verify_ledger" then here ('(f, a) ← LedgerVerify branch; mret (TText f a))
  else if String.eqb tool "ledger_integrity" then here (rep ← Integrity branch; mret (TReport rep))
  else if String.eqb tool "ledger_entries" then here (es ← LedgerEntries branch (num "limit"); mret (TEntries es))
  else if String.eqb tool "execute_change" then
    calling (sessionID s) (λ e, mret (s, inr e)) (λ '(s, sid),
      r ← attempt (ExecuteChange (Provenance.mkRequest branch (get "sql") (get "task_id") (get "parent_session_id") sid (client_name s) "mcp"
                                    (lenient as_bool false "dry_run" m)));
      mret (s, match r with
               | inl res => inl (if String.eqb (ZStatus res) "blocked" || String.eqb (ZStatus res) "error" then TFailed res else TChange res)
               | inr e => inr e
               end))
  else if String.eqb tool "impact" then here
    (rep ← Impact branch (get "sql") (get "object") (get "column"); mret (TImpact rep))
  else if String.eqb tool "blackbox_diff" then here
    (if String.eqb (get "a") "" || String.eqb (get "b") "" then fail (Errorf "a and b are required" []) else
     d ← DiffLedgers (get "a") (get "b"); mret (TDiff d))
  else if String.eqb tool "policy_check" then here
    ('(tag, matches) ← PolicyCheck branch (get "sql"); mret (TCheck tag matches))
  else if String.eqb tool "branch_before_change" then here
    (if (num "entry_id" <=? 0)%Z then fail (Errorf "entry_id is required" []) else
     res ← BranchBeforeEntry script branch (num "entry_id") (get "name"); mret (TBefore res))
  else here (fail (Errorf "unknown tool: %s" [name])).

Definition runTool (script : string) (s : session) (name : string) (args : option json) : prog (session * (tool_text + error)) :=
  let tool := resolveTool name in
  calling (lift (applyScope (Scope (me s)) tool args)) (λ e, mret (s, inr e)) (λ args, run_tool script s name tool args).

(** ** Requests *)

Record rpcRequest : Type := mkRpc { rpc_id : option json; rpc_method : string; rpc_params : option json }.
Inductive rpc_result : Type :=
| RInitialize | REmpty | RTools
| RCall (isError : bool) (r : tool_text + error)
| RNotFound (method : string)
| RNothing.

(** The last value of a raw field, a null included. *)
Definition raw_value (key : string) (m : list (string * json)) : option json := last (field_values key m).

Definition callTool (script : string) (s : session) (params : option json) : prog (session * rpc_result) :=
  let m := lenient_object params in
  '(s, r) ← runTool script s (lenient as_string "" "name" m) (raw_value "arguments" m);
  mret (s, RCall (match r with inl (TFailed _) | inr _ => true | _ => false end) r).

Definition client_of (params : option json) : string :=
  lenient as_string "" "name" (field_values "clientInfo" (lenient_object params) ≫= λ v, lenient_object (Some v)).

(** The session after a request, and the response, none for a notification. *)
Definition dispatch (script : string) (s : session) (req : rpcRequest) : prog (session * option rpc_result) :=
  '(s, r) ← (if String.eqb (rpc_method req) "initialize" then
               let n := client_of (rpc_params req) in
               mret (if ValidProvenanceID n then mkMcp (me s) n (mcp_session s) else s, RInitialize)
             else if String.eqb (rpc_method req) "ping" then mret (s, REmpty)
             else if String.eqb (rpc_method req) "tools/list" then mret (s, RTools)
             else if String.eqb (rpc_method req) "tools/call" then callTool script s (rpc_params req)
             else mret (s, match rpc_id req with Some _ => RNotFound (rpc_method req) | None => RNothing end));
  mret (s, match rpc_id req with Some _ => Some r | None => None end).

Definition decode_request (j : json) : option rpcRequest :=
  m ← as_object j;
  _ ← field as_string "" "jsonrpc" m;
  method ← field as_string "" "method" m;
  Some (mkRpc (raw_value "id" m) method (raw_value "params" m)).

(** What the decoder makes of the rest of the input. An error in the text itself stays:
    the decoder returns it again on every later call. A value of the wrong shape is
    passed over. *)
Inductive decoded : Type := DEnd | DError (rest : list ascii) | DRequest (q : rpcRequest) (rest : list ascii).
Definition read_request (input : list ascii) : decoded :=
  match skip_ws input with
  | [] => DEnd
  | l => match take_value (S (2 * List.length l)) 0 l with
         | None => DError input
         | Some (j, rest) => match decode_request j with Some q => DRequest q rest | None => DError rest end
         end
  end.

(** Serve's loop; each turn takes something off the input, or is one the loop cannot get
    past. *)
Fixpoint Serve (fuel : nat) (script : string) (s : session) (input : list ascii) : prog (session * list rpc_result) :=
  match fuel with
  | O => raise "out of fuel"
  | S fuel =>
      match read_request input with
      | DEnd => mret (s, [])
      | DError rest => Serve fuel script s rest
      | DRequest q rest =>
          '(s, r) ← dispatch script s q;
          '(s, rs) ← Serve fuel script s rest;
          mret (s, match r with Some r => r :: rs | None => rs end)
      end
  end.

(** Input that is not JSON, or that stops in the middle of a message, is never got past:
    the loop goes on for ever, however long it is given. *)
Lemma Serve_stuck fuel script s input h :
  read_request input = DError input → (Serve fuel script s input h).1 = Panic "out of fuel".
Proof. intros Hi. revert h. induction fuel as [|fuel IH]; intros h; [done|]. cbn [Serve]. rewrite Hi. apply IH. Qed.

(** A client that dies in the middle of a message. *)
Example truncated_input : let input := to_bytes ("{" +:+ json_string "method" +:+ ":") in read_request input = DError input.
Proof. vm_compute. reflexivity. Qed.

End tools.

(** ** A scoped key reaches its branch and no other *)

(** Another spelling of a lower-case key comes before it: where they first differ it
    has the upper-case letter. *)
Lemma upper_before c d : lower_byte c = lower_byte d → lower_byte c = c → d ≠ c → (N_of_ascii d < N_of_ascii c)%N.
Proof.
  intros Hcd Hc Hne. unfold lower_byte, byte_of, byte_val in *.
  destruct ((65 <=? Z.of_N (N_of_ascii d)) && (Z.of_N (N_of_ascii d) <=? 90))%Z eqn:Hd.
  - destruct ((65 <=? Z.of_N (N_of_ascii c)) && (Z.of_N (N_of_ascii c) <=? 90))%Z eqn:Hc2.
    + exfalso. apply (f_equal N_of_ascii) in Hc. rewrite N_ascii_embedding in Hc; lia.
    + subst c. rewrite N_ascii_embedding; lia.
  - destruct ((65 <=? Z.of_N (N_of_ascii c)) && (Z.of_N (N_of_ascii c) <=? 90))%Z eqn:Hc2.
    + exfalso. apply (f_equal N_of_ascii) in Hc. rewrite N_ascii_embedding in Hc; lia.
    + by subst d.
Qed.

Lemma fold_eq_before p s :
  forallb (λ c, Ascii.eqb (lower_byte c) c && negb (Ascii.eqb c "s") && negb (Ascii.eqb c "k")) p = true →
  fold_eq p s = true → of_bytes s = of_bytes p ∨ str_lt (of_bytes s) (of_bytes p) = true.
Proof.
  revert s. induction p as [|c p IH]; intros s Hp Hf; [destruct s; [by left|done]|]. cbn [forallb] in Hp.
  apply andb_true_iff in Hp as [[[Hl%Ascii.eqb_eq Hs%negb_true_iff]%andb_true_iff Hk%negb_true_iff]%andb_true_iff Hp].
  destruct s as [|d s]; [done|]. cbn [fold_eq] in Hf. rewrite Hl, Hs, Hk in Hf. cbn [andb] in Hf.
  destruct (Ascii.eqb_spec c (lower_byte d)) as [Hcd|Hcd].
  - change (of_bytes (?x :: ?l)) with (String x (of_bytes l)). destruct (decide (d = c)) as [->|Hne].
    + destruct (IH s Hp Hf) as [->|Hlt]; [by left|]. right. apply str_lt_cons. right. done.
    + right. apply str_lt_cons. left. apply upper_before; [by rewrite Hl|done|done].
  - destruct s as [|e [|f s]]; done.
Qed.

Lemma EqualFold_before k key :
  forallb (λ c, Ascii.eqb (lower_byte c) c && negb (Ascii.eqb c "s") && negb (Ascii.eqb c "k")) (to_bytes key) = true →
  EqualFold k key = true → k = key ∨ str_lt k key = true.
Proof.
  intros Hk Hf. unfold EqualFold in Hf. apply fold_eq_before in Hf; [|done]. by rewrite !of_to_bytes in Hf.
Qed.

Lemma key_before_trans x y z : key_before y x = false → key_before z y = false → key_before z x = false.
Proof.
  unfold key_before. intros H1 H2. destruct (str_lt (fst z) (fst x)) eqn:H; [|done].
  destruct (decide (fst y = fst x)) as [He|He]; [by rewrite He, H in H2|].
  destruct (decide (fst z = fst y)) as [He2|He2]; [by rewrite He2, H1 in H|].
  pose proof (str_lt_total _ _ He) as Ht. rewrite H1 in Ht. symmetry in Ht. apply negb_false_iff in Ht.
  pose proof (str_lt_trans _ _ _ H Ht) as Hc. congruence.
Qed.
Lemma key_before_asym x y : key_before x y = true → key_before y x = false.
Proof.
  unfold key_before. intros H. destruct (str_lt (fst y) (fst x)) eqn:H2; [|done].
  pose proof (str_lt_trans _ _ _ H H2) as Hc. by rewrite str_lt_irrefl in Hc.
Qed.

(** The value written for a lower-case key is the one a field of that name gets. *)
Lemma written_field (m : gmap string json) key s :
  forallb (λ c, Ascii.eqb (lower_byte c) c && negb (Ascii.eqb c "s") && negb (Ascii.eqb c "k")) (to_bytes key) = true →
  m !! key = Some (JStr s) → lenient as_string "" key (write_map m) = s.
Proof.
  intros Hk Hm. unfold write_map.
  pose proof (sort_slice_perm key_before (map_to_list m)) as Hperm.
  pose proof (sort_slice_sorted key_before key_before_trans key_before_asym (map_to_list m)) as Hsort.
  set (l := sort_slice key_before (map_to_list m)) in *.
  assert (NoDup l.*1) as Hnd by (rewrite Hperm; apply NoDup_fst_map_to_list).
  assert ((key, JStr s) ∈ l) as Hin by (rewrite Hperm; by apply elem_of_map_to_list).
  apply list_elem_of_split in Hin as (l1 & l2 & Hl). rewrite Hl in Hsort, Hnd |- *. clear Hl Hperm. clearbody l.
  assert (filter (λ kv, EqualFold (fst kv) key = true) l2 = []) as Hnone.
  { enough (Forall (λ kv, ¬ EqualFold (fst kv) key = true) l2) as Hf.
    { clear -Hf. induction Hf as [|x l Hx _ IH]; [done|]. by rewrite filter_cons, decide_False. }
    apply Forall_forall. intros [k v] Hkv Hf. cbn in Hf.
    rewrite fmap_app, fmap_cons, NoDup_app, NoDup_cons in Hnd. destruct Hnd as (_ & _ & Hnot & _).
    destruct (EqualFold_before k key Hk Hf) as [->|Hlt].
    - apply Hnot. apply list_elem_of_fmap. by exists (key, v).
    - apply StronglySorted_app_1_r in Hsort. apply StronglySorted_inv in Hsort as [_ Hall]. rewrite Forall_forall in Hall.
      specialize (Hall _ Hkv). unfold le_of, key_before in Hall. cbn in Hall. congruence. }
  unfold lenient, field_values. rewrite filter_app, filter_cons, Hnone. rewrite decide_True.
  2: { cbn. unfold EqualFold. clear. induction (to_bytes key) as [|c p IH]; [done|]. cbn. by rewrite Ascii.eqb_refl. }
  rewrite fmap_app, foldl_app. done.
Qed.

(** A command that keeps to the branch; told by its words. *)
Ltac own_cmd := split; [intros ?c [?H|?H]; cbn in *; first [done | by subst | easy]|]; split; [ask_cmd|by apply idle_spares].

Section scoped.
Context {W : World} {En : Env} {Em : Embedded} {T : ErrorText} {U : Unicode} {Mo : MapOrder} {Px : Pgx} {F : Floats}.

Lemma applyScope_pins scope tool args args' :
  scope ≠ "" → applyScope scope tool args = Ok args' →
  scopedKeyRefuses tool = None ∧ lenient as_string "" "branch" (lenient_object args') = scope.
Proof.
  intros Hs. unfold applyScope. rewrite (proj2 (String.eqb_neq _ _) Hs). destruct (scopedKeyRefuses tool); [done|].
  intros H. split; [done|]. destruct (arguments_map args) as [m|e|w]; [|done|done]. cbn in H.
  destruct (_ && _); [done|]. injection H as <-. cbn [lenient_object]. by apply written_field; [|rewrite lookup_insert_eq].
Qed.

(** *** What the tools left to such a key do *)

Lemma exec_sql a c s : exec_of a = Some (c, s) → sql_of a = Some s.
Proof.
  unfold exec_of, sql_of. destruct a; try done. repeat (case_match; try done); intros (x & _ & Hx)%bind_Some.
  all: destruct (last _); try done; by injection Hx as _ ->.
Qed.

Lemma looks_own name a : looks a → own_action name a.
Proof.
  intros ([Hh Hr] & _ & Hs). split; [intros c Hc; destruct (Hh c); tauto|]. split; [|by apply idle_spares].
  intros c s He%exec_sql. right. by apply Hs.
Qed.

Lemma ledger_own name sql : emits (own_action name) (ledgerLines name sql).
Proof. eapply emits_mono; [|apply ledgerLines_gentle; by left]. intros a. apply gentle_own. Qed.
#[local] Hint Resolve ledger_own : emits.

Lemma wake_asks name : emits (λ a, asks_others name a ∧ removes a = None ∧ ∀ c, stops c a → c = container name) (EnsureRunning name).
Proof.
  unfold EnsureRunning. destruct (storage_gentle name) as [He _]. emits_branch.
  all: try (eapply emits_mono; [|exact He]; intros x ([Hh Hr] & Ha & _); split_and!; [exact Ha|exact Hr|intros c Hc; by destruct (Hh c)]).
  all: split_and!; [ask_cmd|done|intros c Hc; cbn in Hc; first [easy|by subst c]].
Qed.

Lemma EnsureRunning_own name : emits (own_action name) (EnsureRunning name).
Proof.
  eapply emits_mono; [|apply emits_and; [apply wake_asks|apply EnsureRunning_starts]].
  intros a [(Ha & Hr & Hs) Hc]. split; [intros c [H|H]; [by apply Hc|by apply Hs]|]. split; [done|by apply idle_spares].
Qed.

Lemma text_own name sql tool actor :
  name ≠ "" → emits (own_action name) (QueryText name sql) ∧ emits (own_action name) (ClientQueryTextAs name sql tool actor)
    ∧ emits (own_action name) (LedgerVerify name).
Proof.
  intros Hn. unfold QueryText, ClientQueryTextAs, LedgerVerify, or_main, wrap, client_query_args.
  rewrite (proj2 (String.eqb_neq name "")) by done. destruct (HasPrefix name "agent-"); split_and!; emits_branch; own_cmd.
Qed.

Lemma branch_name name : name ≠ "" → returns (λ n, n = name) (lift (ledgerBranchName name)).
Proof.
  intros Hn h a t [Ha _]%runs_lift. unfold ledgerBranchName, or_main in Ha. rewrite (proj2 (String.eqb_neq name "")) in Ha by done.
  by destruct (_ || has_byte _ _); simplify_eq.
Qed.
(** What runs on the branch a name stands for. *)
Lemma own_named {B} name (f : string → prog B) :
  name ≠ "" → emits (own_action name) (f name) → emits (own_action name) (n ← lift (ledgerBranchName name); f n).
Proof. intros Hn Hf. eapply emits_bind_returns; [apply emits_lift|by apply branch_name|]. by intros n ->. Qed.

Lemma Integrity_own name : name ≠ "" → emits (own_action name) (Integrity name) ∧ ∀ n, emits (own_action name) (LedgerEntries name n).
Proof.
  intros Hn. split; [|intros k]; apply own_named; try done.
  - assert (∀ dir es, emits (own_action name) (load_anchors dir es)) as Hload.
    { intros dir es. induction es as [|e es IH]; cbn [load_anchors]; emits_go; try apply IH; own_cmd. }
    unfold ledgerV2Tables, loadLedgerRows, LoadAnchors, lift_never. emits_go; auto with emits; own_cmd.
  - emits_go. auto with emits.
Qed.

Lemma look_own {A} name (m : prog A) : emits looks m → emits (own_action name) m.
Proof. apply emits_mono. intros a. apply looks_own. Qed.

Lemma new_session_own name p : emits (own_action name) (NewSessionID p).
Proof. unfold NewSessionID. emits_go; own_cmd. Qed.
#[local] Hint Resolve new_session_own : emits.

Lemma run_change_own name addr agent tool sql marker res : emits (own_action name) (run_change name addr agent tool sql marker res).
Proof. unfold run_change, finished. emits_go; auto with emits; own_cmd. Qed.

Lemma ExecuteChange_own req : QBranch req ≠ "" → emits (own_action (QBranch req)) (ExecuteChange req).
Proof.
  intros Hn. apply own_named; [done|]. emits_go; unfold or_new_session; emits_go; auto using EnsureRunning_own with emits.
  - apply look_own, policyCheck_looks.
  - apply look_own, impact_looks.
  - apply own_named; [done|]. emits_go. apply emits_on_error; [auto with emits|intros e; apply emits_fail].
  - unfold marker_of. emits_go. auto with emits.
  - apply run_change_own.
Qed.

Lemma emits_if {A} (P : action → Prop) (b : bool) (m n : prog A) :
  (b = true → emits P m) → (b = false → emits P n) → emits P (if b then m else n).
Proof. destruct b; auto. Qed.

Lemma run_tool_own script s name tool args scope :
  scope ≠ "" → lenient as_string "" "branch" (lenient_object args) = scope → scopedKeyRefuses tool = None →
  emits (own_action scope) (run_tool script s name tool args).
Proof.
  intros Hn Hb Hr. unfold run_tool. cbv zeta. rewrite Hb.
  assert (∀ t, t ∈ ["create_branch"; "list_branches"; "delete_branch"; "blackbox_diff"; "branch_before_change"] → String.eqb tool t = false) as Hno.
  { intros t Ht. apply String.eqb_neq. intros ->. unfold scopedKeyRefuses in Hr.
    repeat (apply elem_of_cons in Ht as [->|Ht]; [discriminate Hr|]). by apply elem_of_nil in Ht. }
  rewrite (Hno "create_branch"), (Hno "list_branches"), (Hno "delete_branch") by set_solver.
  assert (∀ p : prog tool_text, emits (own_action scope) p → emits (own_action scope) (t ← attempt p; mret (s, t))) as Hhere.
  { intros p Hp. apply emits_bind; [by apply emits_attempt|]. intros t. apply emits_ret. }
  assert (∀ sql, emits (own_action scope) (texts_of (QueryText scope sql))
            ∧ emits (own_action scope) (texts_of (ClientQueryTextAs scope sql "mcp" (Actor (me s))))) as Htext.
  { intros sql. destruct (text_own scope sql "mcp" (Actor (me s)) Hn) as (H1 & H2 & _).
    split; unfold texts_of; (apply emits_bind; [done|]; intros t; apply emits_ret). }
  destruct (text_own scope "" "" "" Hn) as (_ & _ & Hver). destruct (Integrity_own scope Hn) as [Hint Hent].
  assert (∀ A (m : prog A) (f : A → tool_text), emits (own_action scope) m → emits (own_action scope) (x ← m; mret (f x))) as Hret.
  { intros A m f Hm. apply emits_bind; [done|]. intros x. apply emits_ret. }
  apply emits_if; intros _.
  { apply Hhere, emits_if; intros _; [apply emits_fail|]. destruct MCPSuperuser; [apply (proj1 (Htext _))|apply (proj2 (Htext _))]. }
  apply emits_if; intros _; [apply Hhere, (proj1 (Htext _))|].
  apply emits_if; intros _; [apply Hhere; apply emits_bind; [done|]; intros [f a]; apply emits_ret|].
  apply emits_if; intros _; [apply Hhere, Hret, Hint|].
  apply emits_if; intros _; [apply Hhere, Hret, Hent|].
  apply emits_if; intros _.
  { unfold calling. apply emits_bind; [apply emits_attempt; unfold sessionID; apply emits_if; intros _|intros [[s' sid]|e]].
    - apply emits_bind; [apply new_session_own|]. intros id. apply emits_ret.
    - apply emits_ret.
    - apply emits_bind; [|intros r; apply emits_ret]. apply emits_attempt.
      by apply (ExecuteChange_own (Provenance.mkRequest scope _ _ _ _ _ _ _)).
    - apply emits_ret. }
  apply emits_if; intros _; [apply Hhere, Hret, look_own, impact_looks|].
  rewrite (Hno "blackbox_diff") by set_solver.
  apply emits_if; intros _; [apply Hhere; apply emits_bind; [apply look_own, policyCheck_looks|]; intros [tag ms]; apply emits_ret|].
  rewrite (Hno "branch_before_change") by set_solver. apply Hhere, emits_fail.
Qed.

(** C16. A key limited to one branch works on that branch: whatever a client sends (other
    spellings of "branch", the key given twice, no arguments at all), a tool call either is
    refused with nothing run, or runs a tool that takes one branch, on the key's own. Then no
    container but that branch's is started or stopped, no other branch's storage is removed,
    and the commands run inside other containers are SELECTs (impact and execute_change ask
    every running branch whether it holds the object). *)
Theorem scoped_tool_pinned script s name args h s' r t :
  Scope (me s) ≠ "" →
  runs (runTool script s name args) h (Ok (s', r)) t →
  (t = [] ∧ s' = s ∧ ∃ e, r = inr e)
  ∨ ∃ args', lenient as_string "" "branch" (lenient_object args') = Scope (me s)
      ∧ (∀ other, other ∈ ["create_branch"; "delete_branch"; "list_branches"; "blackbox_diff"; "branch_before_change"] → resolveTool name ≠ other)
      ∧ runs (run_tool script s name (resolveTool name) args') h (Ok (s', r)) t
      ∧ Forall (λ e, own_action (Scope (me s)) e.1) t.
Proof.
  intros Hs. unfold runTool.
  intros [(args' & t1 & t2 & [Ha ->]%runs_lift & Hr & ->)|[(e & t1 & t2 & [Ha ->]%runs_lift & [[= -> ->] ->]%runs_ret & ->)|(w & _ & [=])]]%runs_calling;
    [|by left; eauto].
  symmetry in Ha. destruct (applyScope_pins _ _ _ _ Hs Ha) as [Hn Hb]. right. exists args'. split; [done|]. split.
  - intros other Ho He. rewrite He in Hn. clear -Ho Hn. repeat (apply elem_of_cons in Ho as [->|Ho]; [done|]). by apply elem_of_nil in Ho.
  - rewrite app_nil_r in Hr. split; [done|]. by eapply emits_runs, Hr; apply run_tool_own.
Qed.

End scoped.

(** A client that asks for main under another spelling gets the key's branch. *)
Definition whole_floats : Floats := {| refloat := Some |}.
Definition agent_session : session := mkMcp (mkIdentity "ann@x.org" "agent-7") "bot" "".
Definition sly_arguments : option json :=
  json_parse ("{" +:+ json_string "Branch" +:+ ":" +:+ json_string "main" +:+ "," +:+ json_string "sql" +:+ ":" +:+ json_string "SELECT 1" +:+ "}").
Definition client_world : World := {| answer := λ _ _, reply_ok "one row" |}.
Definition sly_run := runTool (W := client_world) (En := sample_env) (T := plain_errors) (U := ascii_unicode)
  (Mo := listed_order) (Px := calm_pgx) (F := whole_floats) "" agent_session "run_sql" sly_arguments [].

Lemma scoped_tool_pinned_witness :
  sly_run.1 = Ok (agent_session, inl (TText "%s" ["one row"]))
  ∧ existsb (λ e, match e.1 with Exec l _ => bool_decide (container "agent-7" ∈ l) | _ => false end) sly_run.2 = true
  ∧ ∃ args', lenient as_string "" "branch" (lenient_object args') = "agent-7"
      ∧ runs (run_tool (W := client_world) (En := sample_env) (T := plain_errors) (U := ascii_unicode)
                (Mo := listed_order) (Px := calm_pgx) "" agent_session "run_sql" "run_sql" args') [] sly_run.1 sly_run.2
      ∧ Forall (λ e, own_action "agent-7" e.1) sly_run.2.
Proof.
  split_and!; [vm_compute; reflexivity|vm_compute; reflexivity|].
  destruct (scoped_tool_pinned (W := client_world) (En := sample_env) (T := plain_errors) (U := ascii_unicode)
    (Mo := listed_order) (Px := calm_pgx) (F := whole_floats) "" agent_session "run_sql" sly_arguments [] agent_session
    (inl (TText "%s" ["one row"])) sly_run.2) as [(_ & _ & e & [=])|(args' & Hb & _ & Hr & Hown)].
  - discriminate.
  - vm_compute. reflexivity.
  - exists args'. split; [exact Hb|]. split; [exact Hr|exact Hown].
Defined.
