(* ===== verification/Routes.v ===== *)
(** * The servers' requests, from the socket to the handler (controlplane Serve, agentapi Serve, auth MountPublic/MountKeys/Authn)

    A request goes through CORS, the outer mux and, below /api/ (or /agents), the
    authentication and the inner mux to its handler. The handlers are those of Login.v
    (accounts), Server.v and Web.v (the API) and Agents.v; here they are put together,
    with the account store threaded through. *)
From S2P Require Import Prelude GoStrings GoNum GoRunes GoUrl GoPath GoTime GoSort GoTimeParse GoDuration Mux Json Integrity Effects Storage Container HA Branch Store Login Gateway Blackbox Policy Impact Recovery Provenance Documents MySQL Import Pipeline Daemon Web Server Agents.
Open Scope string_scope.
Open Scope list_scope.

(** ** Requests and answers *)

(** What the handlers read of a request: its method and path as sent (percent-encoded),
    its credentials and origin, its query, body and uploaded file. *)
Record http_call : Type := mkCall {
  hc_method : string; hc_path : string; hc_cookies : list (string * string); hc_authorization : string; hc_x_api_key : string;
  hc_origin : string; hc_query : string → string; hc_body : string;
  hc_upload : option (string * string); hc_form : string → string }.

Inductive answer : Type :=
| OfAccounts (r : response)
| OfWeb (r : web_reply)
| OfServer (r : served)
| OfAgents (r : agent_reply)
| OpenAPISpec
| OfPage (p : page)
| RedirectTo (path : string)
| MethodNotAllowed
| PageNotFound
| NoContent
| Nothing.  (**r a handler that left without writing; none does *)

(** What surrounds the handlers: whether replies can be streamed, the text a run has
    logged, whether the process remembers the role at hand, the restore script, and the
    files of the built-in console, when there is one. *)
Record serving : Type := mkServing {
  flusher : bool; run_log : string; role_cached : bool; before_script : string; ui_files : option (string → bool) }.

Definition values : Type := string → string.
Definition no_values : values := λ _, "".

Definition login_request (c : http_call) (v : values) : Login.request :=
  Login.mkRequest (hc_cookies c) (hc_authorization c) (hc_x_api_key c) v (hc_query c).
Definition web_request (c : http_call) (v : values) : Web.http_request := Web.mkHttp v (hc_query c) (hc_body c).
Definition body_text (c : http_call) (key : string) : string := lenient as_string "" key (lenient_object (json_first (hc_body c))).

Section routes.
Context {O : Outside} {Pr : Provider} (cfg : Config).
Context {W : World} {En : Env} {Em : Embedded} {T : ErrorText} {U : Unicode} {IP : IPLiterals} {Er : Stderr} {Co : Console} {Mo : MapOrder}.
Context (sv : serving).

Definition outcome_of : Type := prog (answer * state).

(** A handler over the account store, and one over the engine. *)
Definition on_store {A} (f : A → answer) (m : op A) (s : state) : outcome_of :=
  match m s with
  | (Ok a, s') => mret (f a, s')
  | (Err _, s') => mret (Nothing, s')
  | (Panic w, _) => raise w
  end.
Definition on_engine {A} (f : A → answer) (m : prog A) (s : state) : outcome_of := a ← m; mret (f a, s).

Definition public_handler : Type := http_call → values → state → outcome_of.
Definition api_handler : Type := User → http_call → values → state → outcome_of.

Definition rt {A} (p : string) (a : A) : route A := (parse_pattern p, a).

Definition MountPublic : list (route public_handler) :=
  [rt "POST /auth/register" (λ c _, on_store OfAccounts (handleRegister cfg (body_text c "Email") (body_text c "Password")));
   rt "POST /auth/login" (λ c _, on_store OfAccounts (handleLogin cfg (body_text c "Email") (body_text c "Password")));
   rt "POST /auth/logout" (λ c v, on_store OfAccounts (handleLogout (login_request c v)));
   rt "GET /auth/me" (λ c v, on_store OfAccounts (handleMe (login_request c v)));
   rt "GET /auth/providers" (λ _ _, on_store OfAccounts (handleProviders cfg));
   rt "GET /auth/oauth/{provider}" (λ c v, on_store OfAccounts (handleOAuthStart cfg (login_request c v)));
   rt "GET /auth/oauth/{provider}/callback" (λ c v, on_store OfAccounts (handleOAuthCallback cfg (login_request c v)))].

Definition MountKeys : list (route api_handler) :=
  [rt "GET /api/keys" (λ u c v, on_store OfAccounts (handleListKeys u (login_request c v)));
   rt "POST /api/keys" (λ u c _, on_store OfAccounts (handleCreateKey u (body_text c "Name")));
   rt "DELETE /api/keys/{id}" (λ u c v, on_store OfAccounts (handleRevokeKey u (login_request c v)))].

Definition registerAPI : list (route api_handler) :=
  [rt "GET /api/status" (λ _ _ _, on_engine OfServer getStatus);
   rt "GET /api/branches" (λ _ _ _, on_engine OfServer getBranches);
   rt "POST /api/branches" (λ _ c v, on_engine OfServer (postBranch (web_request c v)));
   rt "DELETE /api/branches/{name}" (λ _ c v, on_engine OfServer (deleteBranch (web_request c v)));
   rt "POST /api/branches/{name}/suspend" (λ _ c v, on_engine OfServer (postSuspend (web_request c v)));
   rt "POST /api/branches/{name}/resume" (λ _ c v, on_engine OfServer (postResume (web_request c v)));
   rt "POST /api/branches/{name}/query" (λ u c v, on_engine OfServer (postQuery (role_cached sv) u (web_request c v)));
   rt "POST /api/import" (λ _ c v, on_engine OfServer (postImport (flusher sv) (web_request c v)));
   rt "GET /api/backups" (λ _ _ _, on_engine OfServer getBackups);
   rt "GET /api/replication" (λ _ _ _, on_engine OfServer getReplications);
   rt "GET /api/branches/{name}/replication" (λ _ c v, on_engine OfServer (getReplication (web_request c v)));
   rt "POST /api/branches/{name}/replication/cutover" (λ _ c v, on_engine OfServer (postCutover (web_request c v)));
   rt "POST /api/import/file" (λ _ c _, on_engine OfServer (postImportFile (flusher sv) (hc_upload c) (hc_form c "target")));
   rt "GET /api/branches/{name}/ledger" (λ _ c v, on_engine OfServer (getLedger (web_request c v)));
   rt "GET /api/branches/{name}/ledger/verify" (λ _ c v, on_engine OfServer (getVerify (web_request c v)))].

Definition registerPipelines : list (route api_handler) :=
  [rt "GET /api/pipelines" (λ u _ _, on_store OfServer (getPipelines u));
   rt "POST /api/pipelines" (λ u c v, on_store OfServer (postPipeline u (web_request c v)));
   rt "GET /api/pipelines/{id}" (λ u c v, on_store OfServer (getPipeline u (web_request c v)));
   rt "PUT /api/pipelines/{id}" (λ u c v, on_store OfServer (putPipeline u (web_request c v)));
   rt "DELETE /api/pipelines/{id}" (λ u c v, on_store OfServer (deletePipeline u (web_request c v)));
   rt "GET /api/pipelines/{id}/runs" (λ u c v, on_store OfServer (getRuns u (web_request c v)));
   rt "POST /api/pipelines/{id}/run" (λ u c v s,
     '(a, s') ← postRun (flusher sv) (run_log sv) u (web_request c v) s; mret (OfServer a, s'))].

Definition registerImpact : list (route api_handler) :=
  [rt "POST /api/branches/{name}/impact" (λ _ c v, on_engine OfWeb (postImpact (web_request c v)));
   rt "GET /api/ledger/diff" (λ _ c v, on_engine OfWeb (getDiff (web_request c v)));
   rt "GET /api/blackbox/diff" (λ _ c v, on_engine OfWeb (getDiff (web_request c v)))].

(** The account an address belongs to, as the store answers at the time. *)
Definition account_of (s : state) (email : string) : option User :=
  match UserByEmail email s with (Ok u, _) => u | _ => None end.

Definition registerPolicy : list (route api_handler) :=
  [rt "GET /api/branches/{name}/policies" (λ _ c v, on_engine OfWeb (getPolicies (web_request c v)));
   rt "POST /api/branches/{name}/policies" (λ u c v, on_engine OfWeb (postPolicy u (web_request c v)));
   rt "PUT /api/branches/{name}/policies/{rule}" (λ u c v, on_engine OfWeb (putPolicy u (web_request c v)));
   rt "DELETE /api/branches/{name}/policies/{rule}" (λ u c v, on_engine OfWeb (deletePolicy u (web_request c v)));
   rt "POST /api/branches/{name}/policies/check" (λ _ c v, on_engine OfWeb (checkPolicy (web_request c v)));
   rt "GET /api/branches/{name}/policies/evaluations" (λ _ c v, on_engine OfWeb (getEvaluations (web_request c v)));
   rt "GET /api/branches/{name}/admins" (λ u c v, on_engine OfWeb (getAdmins u (web_request c v)));
   rt "POST /api/branches/{name}/admins" (λ u c v s, on_engine OfWeb (postAdmin (account_of s) (role_cached sv) u (web_request c v)) s);
   rt "DELETE /api/branches/{name}/admins/{email}" (λ u c v, on_engine OfWeb (deleteAdmin u (web_request c v)))].

Definition registerLedgerV2 : list (route api_handler) :=
  [rt "GET /api/branches/{name}/ledger/integrity" (λ _ c v, on_engine OfWeb (getIntegrity (web_request c v)));
   rt "POST /api/branches/{name}/ledger/checkpoint" (λ _ c v, on_engine OfWeb (postCheckpoint (web_request c v)));
   rt "GET /api/branches/{name}/ledger/entries" (λ _ c v, on_engine OfWeb (getEntries (web_request c v)));
   rt "GET /api/branches/{name}/ledger/sessions" (λ _ c v, on_engine OfWeb (getSessions (web_request c v)));
   rt "POST /api/branches/{name}/ledger/{id}/branch" (λ _ c v, on_engine OfWeb (postBranchBefore (before_script sv) (web_request c v)));
   rt "GET /api/branches/{name}/ledger/export" (λ _ c v, on_engine OfWeb (getExport (web_request c v)))].

Definition api_routes : list (route api_handler) :=
  registerAPI ++ registerPipelines ++ registerImpact ++ registerPolicy ++ registerLedgerV2 ++ MountKeys.

(** ** From the request to the handler *)

Definition answered {A} (n : routed A) (s : state) (run : pattern → A → list string → outcome_of) : outcome_of :=
  match n with
  | Found p a vs => run p a vs
  | Moved to_ => mret (RedirectTo to_, s)
  | NotAllowed => mret (MethodNotAllowed, s)
  | NotFound => mret (PageNotFound, s)
  end.

(** The inner mux of a server, for the account the request was let in as. *)
Definition serve_as (rs : list (route api_handler)) (u : User) (c : http_call) (s : state) : outcome_of :=
  answered (findHandler rs (hc_method c) (hc_path c)) s (λ p a vs, a u c (PathValue p vs) s).

(** Authn, around any handler. *)
Definition authenticated (next : User → http_call → state → outcome_of) (c : http_call) (s : state) : outcome_of :=
  match userFromRequest (login_request c no_values) s with
  | (Ok (Some u), s') => next u c s'
  | (Ok None, s') | (Err _, s') => mret (OfAccounts (mkResponse 401 (JError "authentication required") []), s')
  | (Panic w, _) => raise w
  end.

Definition with_path (c : http_call) (p : string) : http_call :=
  mkCall (hc_method c) p (hc_cookies c) (hc_authorization c) (hc_x_api_key c) (hc_origin c) (hc_query c) (hc_body c) (hc_upload c) (hc_form c).

(** A request for …/blackbox… goes on as one for …/ledger… *)
Definition blackboxAlias (next : http_call → state → outcome_of) (c : http_call) (s : state) : outcome_of :=
  match blackboxToLedgerPath (pathUnescape (hc_path c)) with
  | Some p => next (with_path c (path_escape p)) s
  | None => next c s
  end.

Definition control_plane_routes : list (route public_handler) :=
  MountPublic
  ++ [rt "GET /api/openapi.yaml" (λ _ _ s, mret (OpenAPISpec, s));
      rt "/api/" (λ c _, authenticated (λ u, blackboxAlias (serve_as api_routes u)) c)]
  ++ match ui_files sv with
     | Some has => [rt "/" (λ c _ s, mret (OfPage (serveUI has (pathUnescape (hc_path c))), s))]
     | None => []
     end.

Definition serve_public (rs : list (route public_handler)) (c : http_call) (s : state) : outcome_of :=
  answered (findHandler rs (hc_method c) (hc_path c)) s (λ p a vs, a c (PathValue p vs) s).

Definition control_plane (c : http_call) (s : state) : list (string * string) * outcome_of :=
  cors (WebOrigin cfg) (hc_origin c) (hc_method c) (mret (NoContent, s)) (serve_public control_plane_routes c s).

(** ** The Agent Branch API *)

Definition agent_routes : list (route api_handler) :=
  [rt "GET /agents" (λ _ _ _, on_engine OfAgents getAgents);
   rt "POST /agents/{id}/branch" (λ _ c v, on_engine OfAgents (postAgentBranch (web_request c v)));
   rt "DELETE /agents/{id}/branch" (λ _ c v, on_engine OfAgents (deleteAgentBranch (web_request c v)))].

Definition agent_api_routes : list (route public_handler) :=
  let protected := λ (c : http_call) (_ : values), authenticated (serve_as agent_routes) c in
  [rt "GET /healthz" (λ _ _, on_engine OfAgents healthz); rt "/agents" protected; rt "/agents/" protected].

Definition agent_api (c : http_call) (s : state) : list (string * string) * outcome_of :=
  cors (WebOrigin cfg) (hc_origin c) (hc_method c) (mret (NoContent, s)) (serve_public agent_api_routes c s).

(** ** Nobody gets in without an account *)

(** What only an account may change: its keys (when one was last used apart), pipelines
    and their runs. *)
Definition key_itself (r : key_row) : string * Z * string * string * string * string * Z :=
  (k_id r, k_user r, k_name r, k_hash r, k_prefix r, k_scope r, k_created r).
Definition same_holdings (d d' : tables) : Prop :=
  key_itself <$> api_keys d' = key_itself <$> api_keys d ∧ pipelines d' = pipelines d ∧ pipeline_runs d' = pipeline_runs d.

(** A run that left the engine alone and other people's holdings too. *)
Definition stays_out (P : answer → Prop) (m : outcome_of) (s : state) : Prop :=
  ∀ h o t, runs m h o t → t = [] ∧ ∀ a s', o = Ok (a, s') → same_holdings (db s) (db s') ∧ P a.

Lemma stays_ret (P : answer → Prop) a s s' : P a → same_holdings (db s) (db s') → stays_out P (mret (a, s')) s.
Proof. intros Ha Hd h o t [-> ->]%runs_ret. split; [done|]. by intros ? ? [= <- <-]. Qed.
Lemma stays_raise P w s : stays_out P (raise w) s.
Proof. intros h o t [-> ->]%runs_lift. split; [done|]. by intros. Qed.

Lemma stays_store {A} P (f : A → answer) m s :
  (∀ d, keeps (same_holdings d) m) → (∀ a, P (f a)) → P Nothing → stays_out P (on_store f m s) s.
Proof.
  intros Hm Hf Hn. unfold on_store. pose proof (Hm (db s) s) as Hd. unfold same_holdings in *.
  destruct (m s) as [[a|e|w] s'].
  - apply stays_ret; [done|by apply Hd].
  - apply stays_ret; [done|by apply Hd].
  - apply stays_raise.
Qed.

Lemma stays_answered {A} (P : answer → Prop) (n : routed A) s run :
  (∀ p, P (RedirectTo p)) → P MethodNotAllowed → P PageNotFound →
  (∀ p a vs, n = Found p a vs → stays_out P (run p a vs) s) → stays_out P (answered n s run) s.
Proof.
  intros Hr Hm Hn Hf. destruct n as [p a vs|to_| |]; cbn [answered]; [by apply Hf|apply stays_ret; [auto|by split_and!]..].
Qed.

Definition nobody (c : http_call) (s : state) : Prop :=
  ∀ u s', userFromRequest (login_request c no_values) s ≠ (Ok (Some u), s').

Definition not_api (a : answer) : Prop := match a with OfWeb _ | OfServer _ => False | OfAgents r => r = mkAgentReply 200 (AStatus [("status", "ok")]) | _ => True end.

Lemma key_itself_used (l : list key_row) f :
  (∀ r, key_itself (f r) = key_itself r) → key_itself <$> (f <$> l) = key_itself <$> l.
Proof. intros Hf. induction l as [|x l IH]; [done|]. cbn. by rewrite Hf, <- IH. Qed.

(** Statements that change neither keys nor pipelines. *)
Ltac holdings_go :=
  unfold same_holdings; keeps_go;
  try (apply keeps_exec; intros ? ? ? Hf; cbv beta in Hf; repeat case_match; simplify_eq; done).

Lemma keeps_userFromRequest r d : keeps (same_holdings d) (userFromRequest r).
Proof.
  unfold userFromRequest, by_session, by_key, userBySession, deleteSession, delete_session, VerifyKey, bump, userByID, unix, unix_in.
  holdings_go. cbn [api_keys set_keys]. rewrite key_itself_used; [done|]. intros x. by destruct (_ && _).
Qed.

Lemma keeps_signed_in code u d : keeps (same_holdings d) (signed_in cfg code u).
Proof. unfold signed_in, createSession, setCookie, insert_session, randToken, unix_in. holdings_go. Qed.

Lemma keeps_upsertOAuth provider subject email d : keeps (same_holdings d) (upsertOAuth provider subject email).
Proof. unfold upsertOAuth, userByID, CreateUser, insert_user, insert_identity, last_user_id, unix, unix_in. holdings_go. Qed.

(** What the endpoints of /auth do to the store. *)
Lemma keeps_auth d :
  (∀ e p, keeps (same_holdings d) (handleRegister cfg e p)) ∧ (∀ e p, keeps (same_holdings d) (handleLogin cfg e p))
  ∧ (∀ r, keeps (same_holdings d) (handleLogout r)) ∧ (∀ r, keeps (same_holdings d) (handleMe r))
  ∧ keeps (same_holdings d) (handleProviders cfg) ∧ (∀ r, keeps (same_holdings d) (handleOAuthStart cfg r))
  ∧ (∀ r, keeps (same_holdings d) (handleOAuthCallback cfg r)).
Proof.
  pose proof keeps_signed_in as Hs. pose proof keeps_userFromRequest as Hu. pose proof keeps_upsertOAuth as Ho.
  split_and!; intros;
    unfold handleRegister, handleLogin, handleLogout, handleMe, handleProviders, handleOAuthStart, handleOAuthCallback, reply_json, http_error.
  all: keeps_go; try apply Hs; try apply Hu; try apply Ho.
  all: unfold CreateUser, last_user_id, Login, insert_user, createSession, insert_session, setCookie, deleteSession, delete_session,
    randToken, unix, unix_in; holdings_go.
Qed.

Lemma stays_public p a c v s : (p, a) ∈ MountPublic → stays_out not_api (a c v s) s.
Proof.
  unfold MountPublic, rt. intros Hin.
  repeat (apply elem_of_cons in Hin as [Hin|Hin]; [injection Hin as -> ->|]); [..|by apply not_elem_of_nil in Hin].
  all: apply stays_store; try done; intros d; destruct (keeps_auth d) as (? & ? & ? & ? & ? & ? & ?); auto.
Qed.

Lemma stays_authenticated next c s : nobody c s → stays_out not_api (authenticated next c s) s.
Proof.
  intros Hno. unfold authenticated. pose proof (keeps_userFromRequest (login_request c no_values) (db s) s) as Hd.
  unfold nobody in Hno. unfold same_holdings in Hd.
  destruct (userFromRequest (login_request c no_values) s) as [[[u|]|e|w] s']; [by destruct (Hno u s')|..].
  1,2: apply stays_ret; [done|by apply Hd]. apply stays_raise.
Qed.

Lemma stays_cors hs (run : outcome_of) m s o : stays_out not_api run s →
  stays_out not_api (cors (A := outcome_of) hs o m (mret (NoContent, s)) run).2 s.
Proof. intros Hr. unfold cors. cbn [snd]. destruct (String.eqb m "OPTIONS"); [by apply stays_ret|done]. Qed.

Lemma control_plane_stays c s : nobody c s → stays_out not_api (control_plane c s).2 s.
Proof.
  intros Hno. apply stays_cors. unfold serve_public. apply stays_answered; [done..|].
  intros p a vs (Hin & _ & _)%findHandler_sound. unfold control_plane_routes in Hin.
  rewrite !elem_of_app in Hin. destruct Hin as [Hin|[Hin|Hin]].
  - by eapply stays_public.
  - unfold rt in Hin. apply elem_of_cons in Hin as [[= -> ->]|Hin]; [by apply stays_ret|].
    apply elem_of_cons in Hin as [[= -> ->]|Hin]; [by apply stays_authenticated|by apply not_elem_of_nil in Hin].
  - destruct (ui_files sv) as [has|]; [|by apply not_elem_of_nil in Hin].
    apply list_elem_of_singleton in Hin as [= -> ->]. by apply stays_ret.
Qed.

Lemma agent_api_stays c s : nobody c s → stays_out not_api (agent_api c s).2 s.
Proof.
  intros Hno. apply stays_cors. unfold serve_public. apply stays_answered; [done..|].
  intros p a vs (Hin & _ & _)%findHandler_sound. unfold agent_api_routes, rt in Hin.
  apply elem_of_cons in Hin as [[= -> ->]|Hin]; [by apply stays_ret|].
  repeat (apply elem_of_cons in Hin as [[= -> ->]|Hin]; [by apply stays_authenticated|]). by apply not_elem_of_nil in Hin.
Qed.

(** C7. Nobody gets in without an account: a request that carries neither an unexpired
    session nor an unscoped key of an account, to whatever path of the control plane or
    of the agents' API and with whatever method, makes the engine do nothing at all,
    leaves every key, pipeline and run as it was, and gets no answer from the API (the
    health check's apart). *)
Theorem nobody_gets_in c s h a s' t :
  nobody c s →
  runs (control_plane c s).2 h (Ok (a, s')) t ∨ runs (agent_api c s).2 h (Ok (a, s')) t →
  t = [] ∧ same_holdings (db s) (db s') ∧ not_api a.
Proof.
  intros Hno [Hr|Hr]; [apply control_plane_stays in Hr as [-> Hk]|apply agent_api_stays in Hr as [-> Hk]]; try done;
    by destruct (Hk a s' eq_refl).
Qed.

(** ** Every endpoint is reached *)

(** A path as the client wrote it, and the texts it stands for. *)
Definition sent_as (e v : string) : Prop :=
  unescape_string false e = Some v ∧ plain_elem e = true ∧ plain_elem v = true.

(** The path an endpoint is registered under, for the path it is asked for by. *)
Definition registered (asked path : list string) : Prop :=
  path = asked ∨ ∃ name rest, asked = "api" :: "branches" :: name :: "blackbox" :: rest
                            ∧ path = "api" :: "branches" :: name :: "ledger" :: rest.

Definition api_shape (p : pattern) : bool :=
  negb (p_subtree p) && existsb (String.eqb (p_method p)) ["GET"; "POST"; "PUT"; "DELETE"]
  && match p_segments p with
     | Literal a :: Literal b :: t =>
         String.eqb a "api" && negb (String.eqb b "openapi.yaml")
         && match t with
            | _ :: Literal d :: _ => negb (String.eqb b "branches" && String.eqb d "blackbox")
            | _ :: Wildcard _ :: _ => negb (String.eqb b "branches")
            | _ => true
            end
     | _ => false
     end.

Lemma api_unambiguous : unambiguous api_routes = true.
Proof. vm_compute. reflexivity. Qed.
Lemma api_shapes : forallb (λ r, api_shape (fst r)) api_routes = true.
Proof. vm_compute. reflexivity. Qed.

Definition api_route : route public_handler :=
  rt "/api/" (λ c _, authenticated (λ u, blackboxAlias (serve_as api_routes u)) c).

Lemma outer_method m b t : m ∈ ["GET"; "POST"; "PUT"; "DELETE"] → b ≠ "openapi.yaml" →
  matchPath (of_method m control_plane_routes) ("api" :: b :: t) [] = None.
Proof.
  intros Hm Hb. destruct (matchPath _ _ _) as [[r v]|] eqn:Hp; [|done].
  apply matchPath_sound in Hp as (p & tree & w & (Hin & Hr & <- & <-)%of_method_in & Hs & _). exfalso.
  unfold control_plane_routes, MountPublic, rt in Hin. rewrite !elem_of_app in Hin.
  assert (m ≠ "") as Hne by (by intros ->; set_solver).
  destruct Hin as [Hin|[Hin|Hin]].
  - repeat (apply elem_of_cons in Hin as [->|Hin]; [discriminate Hs|]). by apply not_elem_of_nil in Hin.
  - apply elem_of_cons in Hin as [->|Hin]; [|apply elem_of_cons in Hin as [->|Hin]; [by destruct Hne|by apply not_elem_of_nil in Hin]].
    change (seg_match [Literal "api"; Literal "openapi.yaml"] false ("api" :: b :: t) = Some w) in Hs. cbn [seg_match] in Hs.
    rewrite (proj2 (String.eqb_neq "openapi.yaml" b)) in Hs by done. by destruct (String.eqb "api" "api").
  - destruct (ui_files sv) as [has|]; [|by apply not_elem_of_nil in Hin]. apply list_elem_of_singleton in Hin as ->. by destruct Hne.
Qed.

Lemma outer_any b t : matchPath (of_method "" control_plane_routes) ("api" :: b :: t) [] = Some (api_route, []).
Proof.
  unfold control_plane_routes. apply matchPath_literal. destruct (ui_files sv); apply (matchPath_root api_route).
Qed.

Lemma outer_match m path b t : m ∈ ["GET"; "POST"; "PUT"; "DELETE"] → b ≠ "openapi.yaml" →
  path_segments path = "api" :: b :: t → matchMethodAndPath control_plane_routes m path = Some (api_route, []).
Proof.
  intros Hm Hb Hp. unfold matchMethodAndPath. cbv zeta. rewrite Hp, outer_method, outer_any by done.
  assert (String.eqb m "HEAD" = false) as -> by (apply String.eqb_neq; set_solver). done.
Qed.

Lemma outer_found m es b t : m ∈ ["GET"; "POST"; "PUT"; "DELETE"] → b ≠ "openapi.yaml" →
  Forall (λ e, plain_elem e = true) es → pathUnescape <$> es = "api" :: b :: t →
  findHandler control_plane_routes m (rooted es) = Found (fst api_route) (snd api_route) [].
Proof.
  intros Hm Hb Hes Hs. assert (es ≠ []) as Hne by (by intros ->).
  assert (String.eqb m "CONNECT" = false) as Hc by (apply String.eqb_neq; set_solver).
  unfold findHandler. rewrite Hc, rooted_clean by done. cbv zeta. unfold matchOrRedirect. cbv zeta.
  rewrite (outer_match m (rooted es) b t) by (try done; by rewrite rooted_segments).
  rewrite (outer_match m (rooted es +:+ "/") b (t ++ ["/"])) by (try done; by rewrite rooted_slash_segments, Hs).
  assert (exactMatch (Some (api_route, [])) (rooted es +:+ "/") = false) as ->.
  { unfold exactMatch, api_route, rt. rewrite count_slashes_app, count_slashes_rooted by done.
    rewrite <- (length_fmap pathUnescape es), Hs. cbn [fst p_subtree parse_pattern negb List.length].
    change (count_slashes "/") with 1%nat. rewrite Nat.add_comm. apply andb_false_r. }
  rewrite andb_false_r. by rewrite String.eqb_refl.
Qed.

(** No handler of the API looks at the path itself. *)
Lemma api_ignores_path p a u c q v s : (p, a) ∈ api_routes → a u (with_path c q) v s = a u c v s.
Proof.
  unfold api_routes, registerAPI, registerPipelines, registerImpact, registerPolicy, registerLedgerV2, MountKeys, rt. cbn [app]. intros Hin.
  repeat (apply elem_of_cons in Hin as [[= -> ->]|Hin]; [reflexivity|]). by apply not_elem_of_nil in Hin.
Qed.

Lemma api_route_shape p a : (p, a) ∈ api_routes → api_shape p = true.
Proof. intros Hin%list_elem_of_In. pose proof api_shapes as Hs. rewrite List.forallb_forall in Hs. by apply Hs in Hin. Qed.

Lemma alias_other p a path vs : (p, a) ∈ api_routes → seg_match (p_segments p) false path = Some vs →
  Forall (λ v, plain_elem v = true) path → blackboxToLedgerPath (rooted path) = None.
Proof.
  intros Hin%api_route_shape Hm Hp. destruct (blackboxToLedgerPath (rooted path)) as [q|] eqn:Hq; [exfalso|done].
  apply blackboxToLedgerPath_spec in Hq as (name & rest & Hn & Hne & Hrest & Hpath & _).
  assert (path ≠ []) as Hnil by (intros ->; by destruct (p_segments p) as [|[] ?]).
  apply (f_equal (Split "/")) in Hpath. unfold rooted in Hpath. rewrite Split_rooted in Hpath by done.
  change (Split "/" ("/api/branches/" +:+ name +:+ "/blackbox" +:+ rest))
    with ("" :: "api" :: "branches" :: Split "/" (name +:+ "/blackbox" +:+ rest)) in Hpath.
  change ("/blackbox" +:+ rest) with (String "/" ("blackbox" +:+ rest)) in Hpath. rewrite Split_app in Hpath by done.
  assert (∃ k, Split "/" ("blackbox" +:+ rest) = "blackbox" :: k) as [k Hk].
  { destruct Hrest as [->|(r & ->)%HasPrefix_spec]; [by exists []|]. eexists.
    change ("blackbox" +:+ "/" +:+ r) with ("blackbox" +:+ String "/" r). by apply Split_app. }
  rewrite Hk in Hpath. injection Hpath as ->. unfold api_shape in Hin. repeat (apply andb_true_iff in Hin as [Hin ?]).
  destruct (p_segments p) as [|[x|] [|[y|] [|z [|[d|] ps]]]]; try done; cbn [seg_match] in Hm.
  all: repeat match goal with H : context [String.eqb ?x ?y] |- _ => destruct (String.eqb_spec x y); simplify_eq; try done end.
  all: destruct z; cbn in *; repeat case_match; done.
Qed.

Lemma alias_blackbox name rest : plain_elem name = true → Forall (λ v, plain_elem v = true) rest →
  blackboxToLedgerPath (rooted ("api" :: "branches" :: name :: "blackbox" :: rest))
  = Some (rooted ("api" :: "branches" :: name :: "ledger" :: rest)).
Proof.
  intros (Hne & Hs & _)%plain_elem_spec Hr. apply blackboxToLedgerPath_spec.
  exists name, (match rest with [] => "" | _ => rooted rest end). unfold rooted.
  split; [exact Hs|]. split; [exact Hne|]. split; [destruct rest; [by left|by right]|].
  split; destruct rest; reflexivity.
Qed.

Lemma sent_segments es vs : Forall2 sent_as es vs → pathUnescape <$> es = vs.
Proof.
  induction 1 as [|e v es vs (He & _) _ IH]; [done|]. cbn. rewrite IH. unfold pathUnescape. by rewrite He.
Qed.
Lemma sent_plain es vs : Forall2 sent_as es vs → Forall (λ e, plain_elem e = true) es ∧ Forall (λ v, plain_elem v = true) vs.
Proof. induction 1 as [|e v es vs (_ & ? & ?) _ [??]]; split; constructor; done. Qed.

Lemma api_method p : api_shape p = true →
  p_method p ∈ ["GET"; "POST"; "PUT"; "DELETE"] ∧ String.eqb (p_method p) "OPTIONS" = false.
Proof.
  unfold api_shape. intros [[_ (m & Hm & Heq%String.eqb_eq)%existsb_exists]%andb_true_iff _]%andb_true_iff.
  rewrite Heq. split; [by apply list_elem_of_In|]. apply String.eqb_neq. intros ->. by destruct Hm as [?|[?|[?|[?|[]]]]].
Qed.

Lemma registered_head asked path p vs : api_shape p = true → seg_match (p_segments p) false path = Some vs → registered asked path →
  ∃ b t, asked = "api" :: b :: t ∧ b ≠ "openapi.yaml".
Proof.
  unfold api_shape. intros Hp Hm Hreg. apply andb_true_iff in Hp as [_ Hp].
  destruct (p_segments p) as [|[x|] [|[y|] ps]]; try done. apply andb_true_iff in Hp as [[->%String.eqb_eq Hy]%andb_true_iff _].
  apply negb_true_iff, String.eqb_neq in Hy.
  destruct Hreg as [->|(name & rest & -> & ->)]; [|by eexists _, _].
  destruct asked as [|a [|b t]]; cbn [seg_match] in Hm; try done; [by destruct (String.eqb _ _)|].
  destruct (String.eqb_spec "api" a) as [<-|]; [|done]. destruct (String.eqb_spec y b) as [<-|]; [|done]. by eexists _, _.
Qed.

Lemma escaped_segments (l : list string) : pathUnescape <$> (path_escape <$> l) = l.
Proof. induction l as [|v l IH]; [done|]. cbn. rewrite IH. unfold pathUnescape. by rewrite unescape_path_escape. Qed.

Lemma serve_as_exact p a u c s path vs : (p, a) ∈ api_routes → Forall (λ v, plain_elem v = true) path →
  seg_match (p_segments p) false path = Some vs → hc_method c = p_method p →
  ∀ es, Forall (λ e, plain_elem e = true) es → pathUnescape <$> es = path → hc_path c = rooted es →
  serve_as api_routes u c s = a u c (PathValue p vs) s.
Proof.
  intros Hin Hplain Hm Hmethod es Hes <- Hpath. unfold serve_as. rewrite Hmethod, Hpath.
  pose proof (api_route_shape _ _ Hin) as Hshape. unfold api_shape in Hshape.
  apply andb_true_iff in Hshape as [[Hsub _]%andb_true_iff _]. apply negb_true_iff in Hsub.
  assert (es ≠ []) as Hne by (intros ->; apply api_route_shape in Hin; unfold api_shape in Hin; by destruct (p_segments p) as [|[] ?]; rewrite ?andb_false_r in Hin).
  by rewrite (findHandler_exact api_routes p a es vs api_unambiguous Hin Hsub Hne Hes Hm).
Qed.

(** C38. Every endpoint of the API is reached: a request of a signed-in account, with the
    endpoint's method and a path made by its pattern (any texts for its wildcards that
    are path elements, percent-encoded in any way), runs that endpoint's handler and no
    other, for that account and with exactly those texts, also when the path says
    blackbox where the endpoint is registered under ledger. *)
Theorem endpoint_reached p a u es asked path vs c s s1 :
  (p, a) ∈ api_routes → hc_method c = p_method p → hc_path c = rooted es →
  Forall2 sent_as es asked → registered asked path → seg_match (p_segments p) false path = Some vs →
  userFromRequest (login_request c no_values) s = (Ok (Some u), s1) →
  (control_plane c s).2 = a u c (PathValue p vs) s1.
Proof.
  intros Hin Hmethod Hpath Hsent Hreg Hm Hu. pose proof (api_route_shape _ _ Hin) as Hshape.
  destruct (registered_head _ _ _ _ Hshape Hm Hreg) as (b & t & Hasked & Hb).
  destruct (api_method _ Hshape) as [Hp Hopt].
  pose proof (sent_plain _ _ Hsent) as [Hes Hvs]. pose proof (sent_segments _ _ Hsent) as Hseg.
  unfold control_plane, cors. cbn [snd]. rewrite Hmethod, Hopt.
  unfold serve_public. rewrite Hmethod, Hpath.
  rewrite (outer_found _ es b t) by (try done; by rewrite Hseg). cbn [answered fst snd api_route rt].
  unfold authenticated. rewrite Hu. unfold blackboxAlias, pathUnescape. rewrite Hpath.
  rewrite (unescape_rooted es asked) by (eapply Forall2_impl; [exact Hsent|by intros ? ? []]). cbn [default from_option id].
  destruct Hreg as [->|(name & rest & -> & ->)].
  - rewrite (alias_other p a asked vs) by done.
    by apply (serve_as_exact p a u c s1 asked vs Hin Hvs Hm Hmethod es).
  - apply Forall_cons_1 in Hvs as [_ [_ [Hname [_ Hrest]%Forall_cons_1]%Forall_cons_1]%Forall_cons_1].
    rewrite alias_blackbox by done.
    set (path := "api" :: "branches" :: name :: "ledger" :: rest) in *.
    assert (Forall (λ v, plain_elem v = true) path) as Hplain by by repeat constructor.
    rewrite path_escape_rooted.
    rewrite (serve_as_exact p a u (with_path c (rooted (path_escape <$> path))) s1 path vs Hin Hplain Hm Hmethod (path_escape <$> path)).
    + by eapply api_ignores_path.
    + apply Forall_fmap. eapply Forall_impl; [exact Hplain|]. apply path_escape_plain.
    + by rewrite escaped_segments.
    + done.
Qed.


End routes.

(** ** Witnesses *)

Definition no_provider : Provider := {|
  auth_code_url := λ _ _, ""; exchange := λ _ _, None; github_user := λ _, None; github_emails := λ _, None; google_user := λ _, None |}.
Definition plain_cfg : Config := mkConfig "https://localhost:8080" "https://localhost:8080" true (mkApp "" "") (mkApp "" "").
Definition plain_serving : serving := mkServing true "" false "restore.sh" None.

Section samples.
#[local] Existing Instances sample_outside no_provider console_world sample_env sample_embedded plain_errors ascii_unicode no_literals quiet_stderr
  plain_console listed_order.

Definition sample_call (method path key : string) : http_call :=
  mkCall method path [] "" key "" (λ _, "") "" None (λ _, "").

Definition stranger : http_call := sample_call "DELETE" "/api/branches/dev" "odb_guess".
Lemma nobody_gets_in_witness : ∃ a s',
  runs (control_plane plain_cfg plain_serving stranger account_state).2 [] (Ok (a, s')) []
  ∧ same_holdings (db account_state) (db s') ∧ not_api a.
Proof.
  eexists _, _. split; [vm_compute; reflexivity|].
  refine (proj2 (nobody_gets_in plain_cfg plain_serving stranger account_state [] _ _ [] _ _)).
  - intros u s' Hu. vm_compute in Hu. discriminate.
  - left. vm_compute. reflexivity.
Defined.

Definition verify_call : http_call := sample_call "GET" "/api/branches/de%76/blackbox/verify" sample_secret.
Lemma endpoint_reached_witness :
  (control_plane plain_cfg plain_serving verify_call account_state).2
  = on_engine OfServer (getVerify (web_request verify_call
      (PathValue (parse_pattern "GET /api/branches/{name}/ledger/verify") ["dev"])))
      (userFromRequest (login_request verify_call no_values) account_state).2.
Proof.
  apply (endpoint_reached plain_cfg plain_serving (parse_pattern "GET /api/branches/{name}/ledger/verify")
    (λ _ c v, on_engine OfServer (getVerify (web_request c v))) (mkUser 1 "ann@example.com")
    ["api"; "branches"; "de%76"; "blackbox"; "verify"] ["api"; "branches"; "dev"; "blackbox"; "verify"]
    ["api"; "branches"; "dev"; "ledger"; "verify"] ["dev"]).
  - unfold api_routes, registerAPI. cbn [app]. do 14 (apply list_elem_of_further). apply list_elem_of_here.
  - reflexivity.
  - reflexivity.
  - repeat constructor.
  - right. exists "dev", ["verify"]. split; reflexivity.
  - vm_compute. reflexivity.
  - vm_compute. reflexivity.
Defined.

End samples.
