(* ===== verification/Texts.v ===== *)
(** * What the command line prints (the Format functions of internal/branch, Report.Summary)

    Tables go through text/tabwriter, as the code sets it up: cells end with a tab, two
    blanks between columns, and a column is as wide as its widest cell in the lines that
    have it one below the other. *)
From S2P Require Import Prelude GoStrings GoNum GoRunes GoTime Effects Storage Json Integrity.
From S2P Require Blackbox Policy Impact Provenance.
Open Scope string_scope.
Open Scope list_scope.

(** ** text/tabwriter *)

Definition cell_width (c : string) : nat := List.length (runes c).
Definition padding : nat := 2.
Definition blanks (n : nat) : string := of_bytes (repeat " "%char n).

(** The cells of a line; the last one belongs to no column. *)
Definition cells (line : string) : list string := Split tab line.

(** One line with the widths of its first columns known. *)
Fixpoint pad_cells (widths : list nat) (cs : list string) : string :=
  match cs, widths with
  | [], _ => ""
  | [c], w :: _ => c +:+ blanks (w - cell_width c)
  | [c], [] => c
  | c :: t, w :: ws => c +:+ blanks (w - cell_width c) +:+ pad_cells ws t
  | c :: t, [] => c +:+ pad_cells [] t
  end.

(** Whether a line has a cell that ends in the column [column]. *)
Definition has_column (column : nat) (line : list string) : bool := (S column <? List.length line)%nat.
Definition column_width (column : nat) (block : list (list string)) : nat :=
  foldr (λ l w, Nat.max (cell_width (nth column l "") + padding) w) 0%nat block.

Fixpoint take_while {A} (f : A → bool) (l : list A) : list A :=
  match l with [] => [] | x :: t => if f x then x :: take_while f t else [] end.

(** Writer.format: the lines, with the widths of the columns to the left. [fuel] is for a
    column or a block of lines each. *)
Fixpoint format_lines (fuel : nat) (widths : list nat) (lines : list (list string)) : list string :=
  match fuel with
  | O => pad_cells widths <$> lines
  | S fuel =>
      match lines with
      | [] => []
      | l :: t =>
          let column := List.length widths in
          if negb (has_column column l) then pad_cells widths l :: format_lines fuel widths t else
          let block := take_while (has_column column) lines in
          format_lines fuel (widths ++ [column_width column block]) block ++ format_lines fuel widths (drop_while (has_column column) lines)
      end
  end.

(** What is written to the tabwriter, line by line, and flushed. *)
Definition tabulate (lines : list string) : list string :=
  let cs := cells <$> lines in
  format_lines (S (List.length lines + foldr (λ l n, (List.length l + n)%nat) 0%nat cs)) [] cs.

(** What a flushed writer has passed on of a text. *)
Definition flushed (text : string) : string := Join (str1 nl) (tabulate (Split nl text)).
Definition row (cs : list string) : string := Join (str1 tab) cs +:+ str1 nl.
Definition rows_text (rows : list (list string)) : string := String.concat "" (row <$> rows).
Definition trim_lines (s : string) : string := trim_right_by (Ascii.eqb nl) s.
Definition table (header : list string) (rows : list (list string)) : string := trim_lines (flushed (rows_text (header :: rows))).

Definition str (p : option string) : string := default "" p.
Definition bool_text (b : bool) : string := if b then "true" else "false".

(** ** The branch package's tables *)

Section formats.
Context {U : Unicode}.

Definition FormatPolicyRules (rules : list Policy.PolicyRule) : string :=
  match rules with
  | [] => "No policy rules."
  | _ => table ["RULE"; "ACTION"; "ENABLED"; "COMMAND"; "PATTERN"; "REASON"]
           ((λ r, [Policy.RuleID r +:+ (if Policy.Builtin r then " (built-in)" else ""); Policy.RAction r; bool_text (Policy.Enabled r);
                   Policy.RCommand r; str (Policy.Pattern r); Policy.Reason r]) <$> rules)
  end.

Definition match_row (indent : string) (m : Policy.PolicyDetail) : list string :=
  [indent +:+ string_upper (Policy.PAction m); Policy.PRuleID m; Policy.PReason m].
Definition FormatPolicyCheck (tag : string) (matches : list Policy.PolicyDetail) : string :=
  "command: " +:+ tag +:+ str1 nl +:+
  match matches with
  | [] => "no policy rule matches"
  | _ => trim_lines (flushed (rows_text (match_row "" <$> matches)))
  end.

Definition FormatPolicyEvaluations (evs : list Policy.PolicyEvaluation) : string :=
  match evs with
  | [] => "No policy evaluations."
  | _ => table ["ID"; "TIME (UTC)"; "RULE"; "ACTION"; "COMMAND"; "ACTOR"; "BLACKBOX ENTRY"]
           ((λ e, [format_int (Policy.EID e); Policy.EAt e; Policy.ERuleID e; Policy.EAction e; str (Policy.ECommandTag e); str (Policy.EActor e);
                   default "" (format_int <$> Policy.EBlackboxID e)]) <$> evs)
  end.

Definition FormatLedgerEntries (entries : list Blackbox.LedgerEntry) : string :=
  match entries with
  | [] => "No ledger entries."
  | _ => table ["ID"; "TIME (UTC)"; "ACTOR"; "COMMAND"; "OBJECT"; "STATUS"; "RISK"]
           ((λ e, [format_int (Blackbox.EID e); Blackbox.EAt e; Blackbox.EActor e; Blackbox.ECommandTag e; Blackbox.EObject e;
                   Blackbox.EStatus e; Blackbox.ERisk e]) <$> entries)
  end.

Definition FormatAgentSessions (ss : list Provenance.AgentSession) : string :=
  match ss with
  | [] => "No agent sessions."
  | _ => table ["SESSION"; "AGENT"; "TASK"; "PARENT SESSION"; "TOOL"; "STARTED (UTC)"; "ENTRIES"]
           ((λ s, [Provenance.SSession s; Provenance.SAgent s; str (Provenance.STask s); str (Provenance.SParent s); str (Provenance.STool s);
                   Provenance.SStarted s; format_int (Provenance.SEntries s)]) <$> ss)
  end.

Definition ids (xs : list Z) : string := Join "," ((λ x, "#" +:+ format_int x) <$> xs).
Definition diff_section (title : string) (es : list Blackbox.DiffEntry) : string :=
  "only on " +:+ title +:+ " (" +:+ format_int (Z.of_nat (List.length es)) +:+ "):" +:+ str1 nl
  +:+ flushed (rows_text ((λ e, ["  #" +:+ format_int (Blackbox.DID e); Blackbox.DAt e; Blackbox.DCommandTag e; Blackbox.DObject e;
                                 Blackbox.DStatus e; Blackbox.DActor e]) <$> es)).
Definition FormatDiff (d : Blackbox.LedgerDiff) : string :=
  let line s := s +:+ str1 nl in
  let cloned name parent := if String.eqb parent "" then "" else line ("  " +:+ name +:+ " was cloned from " +:+ parent) in
  let A := Blackbox.DA d in let B := Blackbox.DB d in
  trim_lines (
    line ("Blackbox diff: " +:+ A +:+ " vs " +:+ B)
    +:+ cloned A (Blackbox.AParent d) +:+ cloned B (Blackbox.BParent d)
    +:+ (if (0 <? Blackbox.CommonEntries d)%Z
         then line ("  shared history: " +:+ format_int (Blackbox.CommonEntries d) +:+ " entries, up to #" +:+ format_int (Blackbox.ForkAfterID d)
                    +:+ " (" +:+ Blackbox.ForkAfterAt d +:+ ")")
         else line "  no shared history")
    +:+ diff_section A (Blackbox.AOnly d) +:+ diff_section B (Blackbox.BOnly d)
    +:+ line ("changed on both (" +:+ format_int (Z.of_nat (List.length (Blackbox.BothTouched d))) +:+ "):")
    +:+ String.concat "" ((λ o, line ("  " +:+ Blackbox.Object o +:+ "  " +:+ A +:+ " " +:+ ids (Blackbox.AEntries o)
                                     +:+ "  " +:+ B +:+ " " +:+ ids (Blackbox.BEntries o))) <$> Blackbox.BothTouched d)).

Definition dependent_row (d : Impact.ImpactDependent) : list string :=
  ["    " +:+ Impact.IType d; Impact.IIdentity d; Impact.IDependency d; match Impact.IVia d with Some v => "via " +:+ v | None => "" end].
Definition presence_row (p : Impact.BranchPresence) : list string :=
  ["    " +:+ Impact.HBranch p;
   if Impact.HChecked p then if Impact.HPresent p then "has it" else "does not have it" else "not checked (not running)";
   if String.eqb (Impact.HParent p) "" then "" else "cloned from " +:+ Impact.HParent p].
Definition FormatImpact (r : Impact.ImpactReport) : string :=
  let line s := s +:+ str1 nl in
  let col := match Impact.MColumn r with Some c => ", column " +:+ c | None => "" end in
  if negb (Impact.MFound r) then "impact on " +:+ Impact.MBranch r +:+ ": " +:+ Impact.MTarget r +:+ col +:+ " — not found on this branch" else
  trim_lines (
    line ("impact on " +:+ Impact.MBranch r +:+ ": " +:+ Impact.MTarget r +:+ " (" +:+ Impact.MType r +:+ ")" +:+ col +:+ " — "
          +:+ string_upper (Impact.MLevel r) +:+ " (score " +:+ format_int (Impact.MScore r) +:+ ")")
    +:+ line ("  change   " +:+ Impact.MAction r +:+ (if Impact.MDestructive r then " (destructive)" else ""))
    +:+ line ("  size     ~" +:+ format_int (Impact.MRowsEstimate r) +:+ " rows, " +:+ humanBytes (Z.max (Impact.MSizeBytes r) 0))
    +:+ line "  why" +:+ String.concat "" ((λ why, line ("    " +:+ why)) <$> Impact.MReasons r)
    +:+ flushed (
      (match Impact.MDependents r with
       | [] => line "  nothing depends on it"
       | ds => rows_text (["  depends on it"] :: (dependent_row <$> ds))
       end)
      +:+ (if Impact.MTruncated r then line "    … and more beyond the depth checked" else "")
      +:+ (match Impact.MBranches r with [] => "" | bs => rows_text (["  other branches"] :: (presence_row <$> bs)) end)
      +:+ (match Impact.MPolicy r with [] => "" | ps => rows_text (["  policy"] :: (match_row "    " <$> ps)) end))).

End formats.

(** ** The report of an integrity check *)

Definition checkpoint_label (a : Anchor) : string :=
  "checkpoint " +:+ format_int (CheckpointID a) +:+ " (ledger ids " +:+ format_int (FromID a) +:+ "–" +:+ format_int (ToID a) +:+ ")".

(** At most [maxProblems] problems are listed. *)
Definition problem_line (p : problem) : string :=
  match p with
  | Edited _ | LinkBroken _ => Blackbox.problem_text p
  | UnknownFormat a => checkpoint_label a +:+ ": unknown anchor format " +:+ Quote (Format a)
  | NotContinuing a p => checkpoint_label a +:+ " does not continue checkpoint " +:+ format_int (CheckpointID p) +:+ " (ids " +:+ format_int (FromID p)
      +:+ "–" +:+ format_int (ToID p) +:+ "): anchors are missing or overlap"
  | AnchorChainBroken a p => checkpoint_label a +:+ ": anchor chain broken (prev_root does not match checkpoint " +:+ format_int (CheckpointID p) +:+ ")"
  | CountDiffers a have => checkpoint_label a +:+ ": " +:+ format_int (EntryCount a) +:+ " rows were anchored but the ledger now has " +:+ format_int have
      +:+ " in that range (rows deleted or inserted)"
  | RootDiffers a => checkpoint_label a +:+ ": the rows no longer match what was anchored (Merkle root mismatch)"
  | LastRowDiffers a => checkpoint_label a +:+ ": the last anchored row differs from its anchor"
  | Omitted => "…further problems omitted"
  end.
Definition note_line (a : Anchor) : string :=
  "the earliest anchor here (" +:+ checkpoint_label a +:+ ") continues an older checkpoint whose anchor file is not present; rows before id "
  +:+ format_int (FromID a) +:+ " are only hash-chain checked".

(** [more] are the notes that were added to the report's. *)
Definition Summary (r : Report) (more : list string) : string :=
  "ledger integrity: " +:+ (if Intact r then "INTACT" else "TAMPERED") +:+ " — " +:+ format_int (Rows r) +:+ " rows (" +:+ format_int (ChainedRows r) +:+ " hash-chained"
  +:+ (if (0 <? LegacyRows r)%Z then ", " +:+ format_int (LegacyRows r) +:+ " unchained legacy" else "") +:+ ")"
  +:+ (if (Checkpoints r =? 0)%Z then "; no checkpoint anchors found"
       else "; " +:+ format_int (Checkpoints r) +:+ " checkpoint anchor(s) cover " +:+ format_int (AnchoredRows r) +:+ " rows")
  +:+ (if (0 <? UnanchoredRows r)%Z then "; " +:+ format_int (UnanchoredRows r) +:+ " row(s) not yet anchored" else "")
  +:+ String.concat "" ((λ p, str1 nl +:+ "  ✗ " +:+ problem_line p) <$> Problems r)
  +:+ String.concat "" ((λ n, str1 nl +:+ "  · " +:+ n) <$> ((note_line <$> Notes r) ++ more)).

(** ** Lemmas *)

Lemma while_split {A} (f : A → bool) l : take_while f l ++ drop_while f l = l.
Proof. induction l as [|x l IH]; [done|]. cbn. destruct (f x); [cbn; by rewrite IH|done]. Qed.
Lemma take_while_all {A} (f : A → bool) l : forallb f l = true → take_while f l = l ∧ drop_while f l = [].
Proof. induction l as [|x l IH]; [done|]. cbn. intros [-> Hl]%andb_true_iff. by destruct (IH Hl) as [-> ->]. Qed.

(** A table of [n] columns and a last cell in each line. *)
Definition rectangular (n : nat) (lines : list (list string)) : Prop := Forall (λ l, List.length l = S n) lines.

Definition plain_widths (n : nat) (lines : list (list string)) : list nat := (λ j, column_width j lines) <$> seq 0 n.

Lemma format_plain fuel widths n lines : rectangular n lines → List.length widths = n → format_lines fuel widths lines = pad_cells widths <$> lines.
Proof.
  intros Hr <-. revert lines Hr. induction fuel as [|fuel IH]; intros lines Hr; [done|]. destruct lines as [|l t]; [done|]. inversion Hr as [|? ? Hl Ht]; subst.
  cbn [format_lines]. unfold has_column. rewrite Hl, (proj2 (Nat.ltb_ge _ _)) by lia. cbn [negb fmap list_fmap]. by rewrite IH.
Qed.

Lemma format_rectangle fuel n k lines : rectangular n lines → (k <= n)%nat → (n - k <= fuel)%nat →
  format_lines (S fuel) (plain_widths k lines) lines = pad_cells (plain_widths n lines) <$> lines.
Proof.
  intros Hr. revert k. induction fuel as [|fuel IH]; intros k Hk Hf.
  { assert (k = n) as -> by lia. apply (format_plain _ _ n); [done|]. unfold plain_widths. by rewrite length_fmap, length_seq. }
  destruct (decide (k = n)) as [->|Hne]; [apply (format_plain _ _ n); [done|]; unfold plain_widths; by rewrite length_fmap, length_seq|].
  destruct lines as [|l t]; [done|]. remember (l :: t) as ls eqn:Hls.
  assert (List.length (plain_widths k ls) = k) as Hlen by (unfold plain_widths; by rewrite length_fmap, length_seq).
  assert (forallb (has_column k) ls = true) as Hall.
  { apply forallb_forall. intros x Hx. unfold has_column. apply Nat.ltb_lt. unfold rectangular in Hr. rewrite Forall_forall in Hr.
    rewrite (Hr x) by (by apply list_elem_of_In). lia. }
  destruct (take_while_all _ _ Hall) as [Htake Hdrop].
  rewrite Hls at 2. remember (S fuel) as f eqn:Hfe. cbn [format_lines]. rewrite <-Hls, Hlen, Htake, Hdrop.
  assert (has_column k l = true) as -> by (rewrite Hls in Hall; cbn in Hall; by apply andb_true_iff in Hall as [? _]). cbn [negb].
  assert (plain_widths k ls ++ [column_width k ls] = plain_widths (S k) ls) as ->
    by (unfold plain_widths; by rewrite seq_S, fmap_app).
  subst f. rewrite IH by lia. cbn [format_lines]. apply app_nil_r.
Qed.

(** A table is what padding every cell to its column's width gives. *)
Lemma tabulate_table n lines : rectangular n (cells <$> lines) →
  tabulate lines = pad_cells (plain_widths n (cells <$> lines)) <$> (cells <$> lines).
Proof.
  intros Hr. unfold tabulate. destruct lines as [|l t]; [done|]. remember (l :: t) as ls eqn:Hls.
  change (@nil nat) with (plain_widths 0 (cells <$> ls)). apply format_rectangle; [done|lia|].
  rewrite Hls in *. cbn [fmap list_fmap foldr] in *. inversion Hr as [|? ? Hl _]; subst. rewrite Hl. lia.
Qed.
