(* ===== verification/Cli.v ===== *)
(** * The command line (cmd/odb)

    A command works on the machine (through the engine's programs) and on the account
    store, prints, and may end the process with a code. [main] is the engine's own, on
    Linux; what comes before it on macOS and Windows is in Forward.v. *)
From S2P Require Import Prelude GoStrings GoNum GoRunes GoUrl GoPath GoDuration GoTime Sha256 Json Effects Storage Container HA Store Texts.
From S2P Require Branch Blackbox Policy Impact Recovery Provenance Documents Import Pipeline Daemon Server Update Integrity.
Open Scope string_scope.
Open Scope list_scope.

(** ** Commands *)

Inductive finish (A : Type) : Type := Done (a : A) | Exit (code : Z) | Crash (w : string).
Arguments Done {A} a. Arguments Exit {A} code. Arguments Crash {A} w.

(** From the store and the history so far: how it ends, the store after it and what it
    added to the history. *)
Definition cmd (A : Type) : Type := state → history → finish A * state * history.

#[export] Instance cmd_ret : MRet cmd := λ A a s h, (Done a, s, []).
#[export] Instance cmd_bind : MBind cmd := λ A B f m s h,
  match m s h with
  | (Done a, s', t) => let '(o, s'', u) := f a s' (h ++ t) in (o, s'', t ++ u)
  | (Exit c, s', t) => (Exit c, s', t)
  | (Crash w, s', t) => (Crash w, s', t)
  end.
(** os.Exit. *)
Definition exit {A} (code : Z) : cmd A := λ s h, (Exit code, s, []).
(** A call into the engine, and one into the store, with their errors. *)
Definition engine {A} (m : prog A) : cmd (A + error) := λ s h,
  match m h with
  | (Ok a, t) => (Done (inl a), s, t)
  | (Err e, t) => (Done (inr e), s, t)
  | (Panic w, t) => (Crash w, s, t)
  end.
Definition accounts {A} (m : op A) : cmd (A + store_error) := λ s h,
  match m s with
  | (Ok a, s') => (Done (inl a), s', [])
  | (Err e, s') => (Done (inr e), s', [])
  | (Panic w, s') => (Crash w, s', [])
  end.

Definition usage : string := lines_of
  ["OxynDB — serverless Postgres control CLI";
   "";
   "Usage:";
   "  odb <command> [args]";
   "";
   "Setup:";
   "  setup                One-time: create/start the local engine VM (macOS: Lima, Windows: WSL2) and bring the stack up";
   "  vm [status|shell]    The engine VM (macOS: Lima, Windows: WSL2): its state and size, or a shell inside it";
   "  update [--check]     Install the newest release: new engine, restarted servers, Blackbox upgrades — data untouched";
   "                       (--yes skips the confirmation, --version vX.Y.Z picks a release)";
   "";
   "Stack:";
   "  start                Bring EVERYTHING up in the background: stack + gateway + APIs";
   "  stop                 Stop background servers and all containers";
   "  up                   Bring up the stack: network + MinIO + primary 'main' (archiving)";
   "  down                 Stop MinIO and all Postgres containers (ZFS data preserved)";
   "  status               Show servers, main readiness, stored backups, and branches";
   "  logs [gateway|api]   Print a background server's log";
   "  psql                 Open a psql shell on the primary 'main'";
   "";
   "Durability / time-travel:";
   "  backup create        Base backup of 'main' -> object storage";
   "  backup list          List base backups in object storage";
   "  restore --to <ts>    PITR into a disposable container on port 5433 (ts or 'latest')";
   "";
   "Branching:";
   "  branch create <name> [--from <branch>]  Instant copy-on-write branch of main, or of another branch";
   "  branch list           List branches and their containers";
   "  branch delete <name>  Stop and destroy a branch";
   "  branch reset <name>   Re-clone from parent, discarding everything done on it";
   "  branch suspend <name> Stop a branch (data preserved); resumes on next connect";
   "  branch resume <name>  Start a suspended branch";
   "  branch diff <a> <b>   Schema changes made on each branch since they split (from Blackbox; --json)";
   "";
   "Blackbox — the database's record of every schema change (RECORD layer; odb ledger … works too):";
   "  blackbox [branch] [--limit N]   Show captured DDL changes — attributed & policy-checked";
   "  blackbox verify [branch]        Verify the tamper-evident hash chain is intact";
   "  blackbox upgrade [branch|--all] Apply the current Blackbox definition to existing branches";
   "  blackbox checkpoint [branch]    Anchor new entries outside the database (Merkle checkpoint)";
   "  blackbox integrity [branch]     Check the record against its anchors (detects rewritten history)";
   "  blackbox export [branch]        Write every entry as JSON lines (for odb-verify / audits)";
   "  blackbox entries [branch]       Newest entries with their ids (--limit N)";
   "  blackbox sessions [branch]      Agent sessions: agent, task, parent session, entries (--limit N)";
   "  blackbox diff <a> <b>           Changes on each branch since they split, and objects both changed (--json)";
   "  blackbox branch-before <id>     New branch of main as it was just before entry <id> (--as name)";
   "  blackbox revert --to <ts>       Point-in-time restore of main into a disposable container on :5433 (same as odb restore)";
   "";
   "Blackbox policy gate — checks every schema change before it runs (docs/policy-errors.md):";
   "  policy [list] [--branch b]      Show the rules: action (warn|block) and whether enabled";
   "  policy check " +:+ str1 dquote +:+ "<SQL>" +:+ str1 dquote +:+ "            Preview the rules a statement would trigger (exit 1 if one blocks)";
   "  policy block|warn <rule>        Refuse matching changes (ODB01) or only warn about them (ODB02)";
   "  policy enable|disable <rule>    Turn a rule on or off";
   "  policy add <rule> --command " +:+ str1 dquote +:+ "ALTER TABLE" +:+ str1 dquote +:+ " [--pattern <regex>] [--block] --reason " +:+ str1 dquote +:+ "…" +:+ str1 dquote +:+ " [--hint " +:+ str1 dquote +:+ "…" +:+ str1 dquote +:+ "]";
   "  policy remove <rule>            Remove a rule you added (built-in rules can only be disabled)";
   "  policy evaluations [--limit N]  Recent warnings, blocks and overrides";
   "";
   "Impact analysis — what a change would affect, before you run it:";
   "  impact " +:+ str1 dquote +:+ "<SQL>" +:+ str1 dquote +:+ " [--branch b]     Dependents (views, foreign keys, indexes, …), other branches, policy, score";
   "  impact --object <name> [--column c]   The same for a table, view or index directly (--json for JSON)";
   "";
   "Migration:";
   "  import --from <src> [--as <name>]  Migrate a DB into a new instance. <src> is a";
   "                       connection string — postgres://, mysql://, mariadb://, mongodb:// —";
   "                       or a .sql / .csv / .json file (picked from anywhere)";
   "  import --from <pg-dsn> --continuous [--as <name>]";
   "                       Continuous logical replication from a Postgres source";
   "                       (initial copy + streaming) for zero-downtime cutover";
   "  import-cutover <name>  Stop replication for a --continuous instance, keeping its data";
   "  pipeline run <spec.json> [--as <name>]  Run an ETL pipeline (extract → land raw →";
   "                       SQL transform models → data-quality tests) into a fresh instance";
   "";
   "High availability:";
   "  ha enable            Provision a hot standby streaming from main";
   "  ha status            Show replication status (primary + standby)";
   "  ha failover          Promote the standby to primary (reroutes 'main')";
   "  ha disable           Remove the standby";
   "  ha failback          After a failover: move 'main' back to its own container, keeping every write";
   "";
   "Serverless front door:";
   "  gateway [--addr :6432] [--idle 2m]";
   "                       Smart SQL gateway: reads dbname=<branch> and routes to it,";
   "                       auto-resuming suspended branches, auto-suspending idle ones (--idle 0 = off)";
   "  controlplane [--addr :8080]";
   "                       Control-plane REST API (JSON; the web UI is a separate app in web/)";
   "";
   "Agent Branch API:";
   "  serve [--addr :8088] Run the HTTP API: one database branch per AI agent";
   "  mcp [--key <odb_…>]  Run the MCP server on stdio: an agent framework gets a database,";
   "                       runs SQL, sees what it changed (Blackbox), and throws it away.";
   "                       Needs an API key (OXYNDB_API_KEY or --key); a key scoped";
   "                       to one branch limits the server to that branch";
   "";
   "Auth (admin):";
   "  user create <email>            Create an account (prompts for a password)";
   "  apikey create <email> [name]   Mint an API key (shown once)";
   "  apikey list <email>            List a user's API keys";
   "  apikey revoke <email> <id>     Revoke an API key";
   "  admin grant <email> [--branch <name>]   Let a user override the destructive-DDL guardrail";
   "  admin revoke <email> [--branch <name>]  Remove that permission";
   "  admin list [--branch <name>]            Show who may override (default: main + running branches)";
   "";
   "  version              Print the odb version"] +:+ str1 nl.

(** ** Arguments *)

(** addrFlag, and optValue where nothing is the default. *)
Fixpoint flag_value (args : list string) (flag def : string) : string :=
  match args with
  | a :: ((v :: _) as t) => if String.eqb a flag then v else flag_value t flag def
  | _ => def
  end.
Definition addrFlag (args : list string) (def : string) : string := flag_value args "--addr" def.
Definition optValue (args : list string) (flag : string) : string := flag_value args flag "".

Fixpoint durFlag (args : list string) (name : string) (def : Z) : Z :=
  match args with
  | a :: ((v :: _) as t) =>
      match (if String.eqb a name then ParseDuration v else None) with Some d => d | None => durFlag t name def end
  | _ => def
  end.

(** The first argument that is neither a flag nor a flag's value. *)
Fixpoint firstPositional (args valueFlags : list string) : string :=
  match args with
  | [] => ""
  | a :: t =>
      if HasPrefix a "-" then
        if existsb (String.eqb a) valueFlags then match t with [] => "" | _ :: t => firstPositional t valueFlags end
        else firstPositional t valueFlags
      else a
  end.

Definition argPresent (args : list string) (flag : string) : bool := existsb (String.eqb flag) args.
Definition restoreArg (args : list string) : string :=
  match args with
  | [] => ""
  | a :: t => if String.eqb a "--to" then match t with [] => "" | ts :: _ => ts end else a
  end.
Definition or_default (v def : string) : string := if String.eqb v "" then def else v.
(** What `--limit N` asks for. *)
Definition limit_of (v : string) (def : Z) : Z := default def (atoi v).

Record import_args : Type := mkImportArgs { ISource : string; ITarget : string; IKind : string; ISrcName : string; IContinuous : bool }.
Fixpoint parse_import (args : list string) (r : import_args) : import_args :=
  match args with
  | [] => r
  | a :: t =>
      let with_value (set : string → import_args) := match t with v :: t' => parse_import t' (set v) | [] => r end in
      if String.eqb a "--continuous" then parse_import t (mkImportArgs (ISource r) (ITarget r) (IKind r) (ISrcName r) true)
      else if String.eqb a "--from" then with_value (λ v, mkImportArgs v (ITarget r) (IKind r) (ISrcName r) (IContinuous r))
      else if String.eqb a "--as" || String.eqb a "--to" then with_value (λ v, mkImportArgs (ISource r) v (IKind r) (ISrcName r) (IContinuous r))
      else if String.eqb a "--kind" then with_value (λ v, mkImportArgs (ISource r) (ITarget r) v (ISrcName r) (IContinuous r))
      else if String.eqb a "--srcname" then with_value (λ v, mkImportArgs (ISource r) (ITarget r) (IKind r) v (IContinuous r))
      else if String.eqb (ISource r) "" && negb (HasPrefix a "-")
           then parse_import t (mkImportArgs a (ITarget r) (IKind r) (ISrcName r) (IContinuous r))
      else parse_import t r
  end.

(** The last `--flag value` of a list. *)
Fixpoint last_value (args : list string) (flag def : string) : string :=
  match args with
  | a :: ((v :: t') as t) => if String.eqb a flag then last_value t' flag v else last_value t flag def
  | _ => def
  end.

(** `odb blackbox [branch] [--limit N]`. *)
Fixpoint ledger_args (args : list string) (name : string) (limit : Z) : string * Z :=
  match args with
  | [] => (name, limit)
  | a :: t =>
      if String.eqb a "--limit" then match t with v :: t' => ledger_args t' name (limit_of v limit) | [] => (name, limit) end
      else if negb (HasPrefix a "-") then ledger_args t a limit else ledger_args t name limit
  end.

(** ** The machine a command runs on *)

(** What is built into the binary, the process's working directory, and what JSON makes
    of the two reports. *)
Class Build := { web_ui : bool; odb_version : string; working_dir : option string;
                 impact_json : Impact.ImpactReport → string; diff_json : Blackbox.LedgerDiff → string }.

Section cli.
Context {W : World} {En : Env} {Em : Embedded} {T : ErrorText} {U : Unicode} {IP : IPLiterals} {Er : Documents.Stderr} {Ou : Outside}.
Context {Bu : Build} {Mo : Provenance.MapOrder}.

Definition say (format : string) (args : list string) : cmd unit := _ ← engine (ignore (Print format args)); mret tt.
Definition complain (text : string) : cmd unit := _ ← engine (ignore (CallOut "stderr" [text])); mret tt.
Definition usage_exit {A} (text : string) : cmd A := _ ← say text []; exit 2.

Definition fail_with {A} (text : string) : cmd A := _ ← complain ("error: " +:+ text); exit 1.
Definition must {A} (m : prog A) : cmd A := r ← engine m; match r with inl a => mret a | inr e => fail_with (Error e) end.
Definition store_text (e : store_error) : string :=
  match e with Message t => t | NoRows => "sql: no rows in result set" | _ => failure_text (CallOut "sqlite" []) end.
Definition must_store {A} (m : op A) : cmd A := r ← accounts m; match r with inl a => mret a | inr e => fail_with (store_text e) end.

(** auth.OpenFromEnv. *)
Definition OpenFromEnv : prog unit := perform (CallOut "auth.OpenFromEnv" []).
Definition openStore : cmd unit := must OpenFromEnv.

Definition no_such_user (email : string) : string := "no such user: " +:+ email +:+ " (create it with: odb user create " +:+ email +:+ ")".
(** The account a command is about. *)
Definition account (email : string) : cmd User :=
  _ ← openStore;
  u ← must_store (UserByEmail email);
  match u with Some u => mret u | None => fail_with (no_such_user email) end.

(** ** branch and ha *)

Definition PsqlShell (name : string) : prog unit :=
  perform (Exec ["sudo"; "docker"; "exec"; "-it"; "-e"; "PGPASSWORD=" +:+ pgPass; container name; "psql"; "-U"; pgUser; "-d"; pgDatabase] "").
Definition ledger_listing (limit : Z) : string := lines_of
  ["SELECT to_char(at,'MM-DD HH24:MI:SS') AS time,";
   str1 tab +:+ str1 tab +:+ "coalesce(actor,'-') AS actor, actor_kind AS kind, coalesce(tool,'-') AS tool,";
   str1 tab +:+ str1 tab +:+ "command_tag AS command, coalesce(object_identity,'') AS object,";
   str1 tab +:+ str1 tab +:+ "status, coalesce(risk,'') AS risk";
   str1 tab +:+ str1 tab +:+ "FROM odb.schema_ledger ORDER BY at DESC LIMIT " +:+ format_int limit].
Definition Ledger (name : string) (limit : Z) : prog unit :=
  run ["docker"; "exec"; "-e"; "PGPASSWORD=" +:+ pgPass; container (or_main name); "psql"; "-U"; pgUser; "-d"; pgDatabase;
       "-P"; "pager=off"; "-c"; ledger_listing (if (limit <=? 0)%Z then 50%Z else limit)].

Definition diffCmd (args : list string) : cmd unit :=
  match filter (λ a, HasPrefix a "-" = false) args with
  | [a; b] =>
      d ← must (Blackbox.DiffLedgers a b);
      say "%s" [if argPresent args "--json" then diff_json d else FormatDiff d]
  | _ => usage_exit "usage: odb blackbox diff <branch-a> <branch-b> [--json]   (also: odb branch diff)"
  end.

Definition branchCmd (args : list string) : cmd unit :=
  match args with
  | [] => usage_exit "usage: odb branch <create|list|delete|reset|suspend|resume> [name]"
  | sub :: rest =>
      if String.eqb sub "create" then
        let name := firstPositional rest ["--from"] in
        if String.eqb name "" then usage_exit "usage: odb branch create <name> [--from <branch>]"
        else must (Branch.Create name (optValue rest "--from"))
      else if String.eqb sub "list" then must Branch.List_
      else if String.eqb sub "delete" then
        match rest with [] => usage_exit "usage: odb branch delete <name>" | n :: _ => must (Branch.Delete n) end
      else if String.eqb sub "reset" then
        match rest with
        | [] => usage_exit "usage: odb branch reset <name> [--from <parent>]"
        | n :: more => must (Branch.Reset n (last_value more "--from" "main"))
        end
      else if String.eqb sub "suspend" then
        match rest with [] => usage_exit "usage: odb branch suspend <name>" | n :: _ => must (Branch.Suspend n) end
      else if String.eqb sub "resume" then
        match rest with [] => usage_exit "usage: odb branch resume <name>" | n :: _ => must (Branch.Wake n) end
      else if String.eqb sub "diff" then diffCmd rest
      else usage_exit ("unknown branch subcommand: " +:+ sub)
  end.

Definition haCmd (args : list string) : cmd unit :=
  match args with
  | [] => usage_exit "usage: odb ha <enable|status|failover|disable|failback>"
  | sub :: _ =>
      if String.eqb sub "enable" then must HAEnable
      else if String.eqb sub "status" then must HAStatus
      else if String.eqb sub "failover" then must HAFailover
      else if String.eqb sub "disable" then must HADisable
      else if String.eqb sub "failback" then must HAFailback
      else usage_exit ("unknown ha subcommand: " +:+ sub)
  end.

(** ** Policy, impact and Blackbox *)

Definition policyUsage {A} : cmd A := usage_exit (lines_of
  ["usage:"; "  odb policy [list] [--branch <name>]"; "  odb policy check " +:+ str1 dquote +:+ "<SQL>" +:+ str1 dquote +:+ " [--branch <name>]";
   "  odb policy block|warn|enable|disable|remove <rule> [--branch <name>]";
   "  odb policy add <rule> --command " +:+ str1 dquote +:+ "ALTER TABLE" +:+ str1 dquote +:+ " [--pattern <regex>] [--block] --reason " +:+ str1 dquote
     +:+ "<why>" +:+ str1 dquote +:+ " [--hint " +:+ str1 dquote +:+ "<next step>" +:+ str1 dquote +:+ "] [--branch <name>]";
   "  odb policy evaluations [--limit N] [--branch <name>]"]).
Definition cli_actor : string := "odb-cli".
Definition optional (v : string) : option string := if String.eqb v "" then None else Some v.
Definition new_rule (args : list string) (arg : string) : Policy.PolicyRule :=
  Policy.mkRule arg (string_upper (TrimSpace (optValue args "--command"))) (optional (optValue args "--pattern"))
    (if argPresent args "--block" then "block" else "warn") (optValue args "--reason") (optional (optValue args "--hint")) false false "" None.

Definition policyCmd (args : list string) : cmd unit :=
  let '(sub, args) := match args with a :: t => if HasPrefix a "-" then ("list", args) else (a, t) | [] => ("list", args) end in
  let name := or_default (optValue args "--branch") "main" in
  let arg := firstPositional args ["--branch"; "--command"; "--pattern"; "--reason"; "--hint"; "--limit"] in
  let with_arg (m : cmd unit) := if String.eqb arg "" then policyUsage else m in
  if String.eqb sub "list" then rules ← must (Policy.PolicyRules name); say "%s" [FormatPolicyRules rules]
  else if String.eqb sub "check" then with_arg (
    '(tag, matches) ← must (Policy.PolicyCheck name arg);
    _ ← say "%s" [FormatPolicyCheck tag matches];
    if existsb (λ m, String.eqb (Policy.PAction m) "block") matches then exit 1 else mret tt)
  else if String.eqb sub "block" || String.eqb sub "warn" then with_arg (
    _ ← must (Policy.UpdatePolicyRule name arg (Some sub) None cli_actor);
    say "%s: rule %s now %ss matching changes" [name; arg; sub])
  else if String.eqb sub "enable" || String.eqb sub "disable" then with_arg (
    _ ← must (Policy.UpdatePolicyRule name arg None (Some (String.eqb sub "enable")) cli_actor);
    say "%s: rule %s %sd" [name; arg; sub])
  else if String.eqb sub "add" then with_arg (
    _ ← must (Policy.AddPolicyRule name (new_rule args arg) cli_actor);
    say "%s: added rule %s (%s)" [name; arg; Policy.RAction (new_rule args arg)])
  else if String.eqb sub "remove" then with_arg (
    _ ← must (Policy.RemovePolicyRule name arg cli_actor);
    say "%s: removed rule %s" [name; arg])
  else if String.eqb sub "evaluations" then
    evs ← must (Policy.PolicyEvaluations name (limit_of (optValue args "--limit") 20));
    say "%s" [FormatPolicyEvaluations evs]
  else policyUsage.

Definition impactCmd (args : list string) : cmd unit :=
  let sql := firstPositional args ["--branch"; "--object"; "--column"] in
  let object := optValue args "--object" in let column := optValue args "--column" in
  if String.eqb sql "" && String.eqb object ""
  then usage_exit ("usage: odb impact " +:+ str1 dquote +:+ "<SQL>" +:+ str1 dquote +:+ " [--branch <name>] [--object <table|view|index>] [--column <name>] [--json]")
  else
    rep ← must (Impact.Impact (or_default (optValue args "--branch") "main") sql object column);
    say "%s" [if argPresent args "--json" then impact_json rep else FormatImpact rep].

Definition branchBeforeCmd (script : string) (args : list string) : cmd unit :=
  let id := firstPositional args ["--branch"; "--as"] in
  match (if String.eqb id "" then None else atoi id) with
  | None => usage_exit "usage: odb ledger branch-before <entry-id> [--branch main] [--as <new-branch>]"
  | Some entryID =>
      if (entryID <=? 0)%Z then usage_exit "usage: odb ledger branch-before <entry-id> [--branch main] [--as <new-branch>]" else
      let src := or_default (optValue args "--branch") "main" in
      _ ← say "Branching %s from just before ledger entry %d (base backup + WAL replay — this can take a few minutes)…" [src; format_int entryID];
      res ← must (Recovery.BranchBeforeEntry script src entryID (optValue args "--as"));
      _ ← say "branch %q is ready (%ds): %s as it was just before entry %d"
            [Recovery.RBranch res; format_int (Recovery.Seconds res); Recovery.Source res; format_int (Recovery.EntryID res)];
      _ ← say "  excluded   %s %s" [Recovery.RCommandTag res; Recovery.RObject res];
      _ ← say "  target     %s %s (base backup %s)" [Recovery.TargetKind res; Recovery.RTarget res; Recovery.BaseBackup res];
      say "  connect    postgresql://oxyndb:<api-key>@localhost:6432/%s?sslmode=require" [Recovery.RBranch res]
  end.

(** The subcommands of Blackbox 2.0; false for any other. *)
Definition ledgerV2Cmd (script : string) (args : list string) : cmd bool :=
  match args with
  | [] => mret false
  | sub :: rest =>
      let name := match rest with n :: _ => if HasPrefix n "-" then "main" else n | [] => "main" end in
      let positional := or_default (firstPositional rest ["--limit"]) "main" in
      let limit := limit_of (optValue args "--limit") 50 in
      if String.eqb sub "checkpoint" then
        a ← must (Blackbox.Checkpoint name);
        match a with
        | None => _ ← say "%s: nothing new to checkpoint" [name]; mret true
        | Some (a, path) =>
            _ ← say "checkpoint #%d on %s: ledger ids %d–%d (%d entries)"
                  [format_int (Integrity.CheckpointID a); name; format_int (Integrity.FromID a); format_int (Integrity.ToID a); format_int (Integrity.EntryCount a)];
            _ ← say "  root   %s" [Integrity.AMerkleRoot a];
            _ ← say "  anchor %s" [path]; mret true
        end
      else if String.eqb sub "integrity" then
        '(rep, notes) ← must (Blackbox.Integrity name);
        _ ← say "%s" [Summary rep notes];
        if Integrity.Intact rep then mret true else exit 1
      else if String.eqb sub "export" then
        let f := optValue args "--format" in
        if negb (String.eqb f "") && negb (String.eqb f "jsonl") then fail_with ("unsupported export format " +:+ Quote f +:+ " (supported: jsonl)")
        else _ ← must (Blackbox.ExportLedger name "os.Stdout"); mret true
      else if String.eqb sub "entries" then es ← must (Blackbox.LedgerEntries positional limit); _ ← say "%s" [FormatLedgerEntries es]; mret true
      else if String.eqb sub "sessions" then ss ← must (Provenance.AgentSessions positional limit); _ ← say "%s" [FormatAgentSessions ss]; mret true
      else if String.eqb sub "diff" then _ ← diffCmd rest; mret true
      else if String.eqb sub "branch-before" then _ ← branchBeforeCmd script rest; mret true
      else mret false
  end.

(** One line for each branch; whether any failed. *)
Fixpoint each_branch (f : string → cmd (unit + error)) (branches : list string) : cmd bool :=
  match branches with
  | [] => mret false
  | b :: t =>
      r ← f b;
      match r with
      | inl _ => each_branch f t
      | inr e => _ ← complain ("  " +:+ b +:+ ": " +:+ Error e); _ ← each_branch f t; mret true
      end
  end.
Definition exit_if (failed : bool) : cmd unit := if failed then exit 1 else mret tt.

Definition ledgerUpgradeCmd (args : list string) : cmd unit :=
  branches ← match args with
             | a :: _ => if String.eqb a "--all" then must RunningBranches else if HasPrefix a "-" then mret ["main"] else mret [a]
             | [] => mret ["main"]
             end;
  failed ← each_branch (λ b,
    r ← engine (_ ← InstallLedger b; EnsureLedgerV2 b);
    match r with inl _ => _ ← say "  %s: ledger up to date (including 2.0 capture)" [b]; mret (inl tt) | inr e => mret (inr e) end) branches;
  exit_if failed.

Definition ledgerCmd (script : string) (args : list string) : cmd unit :=
  known ← ledgerV2Cmd script args;
  if (known : bool) then mret tt else
  let sub := match args with a :: _ => a | [] => "" end in
  let rest := tail args in
  if String.eqb sub "revert" then
    let ts := restoreArg rest in
    if String.eqb ts "" then usage_exit "usage: odb ledger revert --to '<timestamp>'|latest" else
    _ ← say "Restoring main to that moment in a disposable container on :5433 (the same as `odb restore`)." [];
    _ ← say "Nothing is reverted: main and every branch stay as they are." [];
    _ ← must (Recovery.Restore ts);
    say "For a branch holding main as it was just before a specific change: odb blackbox branch-before <entry id>  (ids: odb blackbox entries)" []
  else if String.eqb sub "upgrade" then ledgerUpgradeCmd rest
  else if String.eqb sub "verify" then
    let name := match rest with n :: _ => if HasPrefix n "-" then "main" else n | [] => "main" end in
    '(format, vals) ← must (LedgerVerify name); say format vals
  else
    let '(name, limit) := ledger_args args "main" 50 in must (Ledger name limit).

(** ** Admins *)

Definition adminUsage {A} : cmd A := usage_exit (lines_of
  ["usage: odb admin grant <email> [--branch <name>]"; "       odb admin revoke <email> [--branch <name>]";
   "       odb admin list [--branch <name>]"]).
Definition adminScope (named : string) : prog (list string) :=
  if negb (String.eqb named "") then mret [named] else
  running ← RunningBranches;
  match running with
  | "main" :: _ => mret running
  | _ => fail (Errorf "main is not running — start OxynDB first (odb start)" [])
  end.

Definition adminCmd (args : list string) : cmd unit :=
  match args with
  | [] => adminUsage
  | sub :: rest =>
      branches ← must (adminScope (optValue rest "--branch"));
      if String.eqb sub "grant" || String.eqb sub "revoke" then
        let email := firstPositional rest ["--branch"] in
        if String.eqb email "" then adminUsage else
        u ← account email;
        failed ← each_branch (λ b,
          r ← engine (if String.eqb sub "grant" then GrantAdmin false b (Email u) else RevokeAdmin b (Email u));
          match r with
          | inl _ => _ ← say "  %s: %s %s" [b; if String.eqb sub "grant" then "granted odb_admin to" else "revoked odb_admin from"; Email u]; mret (inl tt)
          | inr e => mret (inr e)
          end) branches;
        exit_if failed
      else if String.eqb sub "list" then
        failed ← each_branch (λ b,
          r ← engine (ListAdmins b);
          match r with
          | inl names => _ ← say "  %s: %s" [b; or_default (Join ", " names) "(none — only superusers may override)"]; mret (inl tt)
          | inr e => mret (inr e)
          end) branches;
        exit_if failed
      else adminUsage
  end.

(** ** Imports and pipelines *)

Definition importCmd (args : list string) : cmd unit :=
  let r := parse_import args (mkImportArgs "" "" "" "" false) in
  if String.eqb (ISource r) "" then usage_exit "usage: odb import --from <postgres://… | file.sql|.csv|.json> [--as <instance>]"
  else if String.eqb (ISource r) "-" then
    k ← must (lift (Import.ParseKind (IKind r)));
    input ← engine (call (CallOut "io.ReadAll" ["os.Stdin"]));
    let data := match input with inl x => rout x | inr _ => "" end in
    _ ← must (Import.ImportReaderTo data k (or_default (ISrcName r) "stdin") (ITarget r)); mret tt
  else if IContinuous r then _ ← must (Import.ImportContinuousTo (ISource r) (ITarget r)); mret tt
  else _ ← must (Import.ImportTo (ISource r) (ITarget r)); mret tt.

Definition pipelineCmd (args : list string) : cmd unit :=
  match args with
  | sub :: specPath :: rest =>
      if negb (String.eqb sub "run") then usage_exit "usage: odb pipeline run <spec.json> [--as <instance>]" else
      b ← must (r ← call (ReadFile specPath); if rok r then mret (rout r) else fail (CommandFailed (ReadFile specPath)));
      spec ← must (match json_parse b ≫= Server.decode_spec with Some s => mret s | None => fail (Errorf "json: cannot unmarshal" []) end);
      let target := last_value rest "--as" "" in
      let target := or_default target ("pl-" +:+ TrimSuffix (Base specPath) (Import.Ext specPath)) in
      res ← must (Pipeline.RunPipeline spec target);
      exit_if (Pipeline.RunFailed res)
  | _ => usage_exit "usage: odb pipeline run <spec.json> [--as <instance>]"
  end.

(** ** Accounts *)

Definition userCreate (email : string) : cmd unit :=
  _ ← say "password (min 8 chars): " [];
  line ← engine (call (CallOut "stdin.ReadString" []));
  let pw := TrimSpace (match line with inl r => rout r | inr _ => "" end) in
  if (String.length pw <? 8)%nat then fail_with "password must be at least 8 characters" else
  _ ← openStore;
  u ← must_store (CreateUser email pw);
  say "created user %s (id %d)" [Email u; format_int (UserID u)].

Definition apikeyCmd (args : list string) : cmd unit :=
  match args with
  | sub :: email :: rest =>
      u ← account email;
      if String.eqb sub "create" then
        '(secret, info) ← must_store (CreateAPIKey (UserID u) (match rest with n :: _ => n | [] => "key" end));
        say "API key %q created — copy it now, it won't be shown again:\n\n  %s" [KName info; secret]
      else if String.eqb sub "list" then
        keys ← must_store (ListKeys (UserID u));
        match keys with
        | [] => say "no API keys" []
        | _ => foldr (λ k m, _ ← say "  %s  %-16s  %s…" [KID k; KName k; KPrefix k]; m) (mret tt) keys
        end
      else if String.eqb sub "revoke" then
        match rest with
        | [] => usage_exit "usage: odb apikey revoke <email> <id>"
        | id :: _ => _ ← must_store (RevokeKey (UserID u) id); say "revoked" []
        end
      else usage_exit ("unknown apikey subcommand: " +:+ sub)
  | _ => usage_exit "usage: odb apikey <create|list|revoke> <email> [name|id]"
  end.

(** ** The first key *)

Definition oxyndbDir : string := JoinPath [user_home; ".oxyndb"].
Definition configPath : string := JoinPath [oxyndbDir; "config"].

Fixpoint api_key_line (lines : list string) : string :=
  match lines with
  | [] => ""
  | l :: t => match strip_prefix "api_key=" (TrimSpace l) with Some v => v | None => api_key_line t end
  end.
Definition readCachedKey : prog string :=
  r ← call (ReadFile configPath); mret (if rok r then api_key_line (Split nl (rout r)) else "").
Definition writeCachedKey (key : string) : prog unit :=
  _ ← ignore (MkdirAll oxyndbDir); ignore (WriteFile configPath ("api_key=" +:+ key +:+ str1 nl) 384).

(** Sixteen random bytes in hex, as the first account's password. *)
Definition random_password : op string := ticked (λ k, hex_encode (of_bytes ((λ j, rand_byte k j) <$> seq 0 16))).

(** Whatever fails, the answer is no key. *)
Definition bootstrapLocalKey : cmd string :=
  k ← engine readCachedKey;
  match k with
  | inl (String _ _ as k) => mret k
  | _ =>
      opened ← engine OpenFromEnv;
      match opened with
      | inr _ => mret ""
      | inl _ =>
          any ← accounts HasAnyUser;
          match any with
          | inl true | inr _ => mret ""
          | inl false =>
              made ← accounts (pw ← random_password; u ← CreateUser "local@oxyndb" pw; k ← CreateAPIKey (UserID u) "setup"; mret (u, k.1));
              match made with
              | inr _ => mret ""
              | inl (u, key) =>
                  _ ← engine (writeCachedKey key);
                  g ← engine (GrantAdmin false "main" (Email u));
                  _ ← (match g with inr e => complain ("note: could not grant odb_admin to " +:+ Email u +:+ ": " +:+ Error e) | inl _ => mret tt end);
                  mret key
              end
          end
      end
  end.

(** ** The whole command *)

Definition services : list (string * list string) :=
  [("controlplane", ["controlplane"; "--addr"; ":8080"]); ("gateway", ["gateway"; "--addr"; ":6432"; "--idle"; "2m"]);
   ("api", ["serve"; "--addr"; ":8088"])].
(** Go visits the map in an order of its own. *)
Definition service_order : list string := fst <$> Provenance.visit ((λ s, (s.1, "")) <$> services).
Definition service_args (name : string) : list string := default [] (snd <$> List.find (λ s, String.eqb s.1 name) services).
Definition each_service (f : string → cmd unit) : cmd unit := foldr (λ n m, _ ← f n; m) (mret tt) service_order.

Definition start_banner (apiKey : string) : cmd unit :=
  _ ← say "\nOxynDB is up (background):" [];
  _ ← (if web_ui then say "  web UI       https://localhost:8080" [] else mret tt);
  _ ← say "  control API  https://localhost:8080/api/status" [];
  _ ← say "  agent API    https://localhost:8088   (POST /agents/{id}/branch)" [];
  _ ← (if String.eqb apiKey "" then say "  gateway(SQL) postgresql://oxyndb:<API_KEY>@localhost:6432/<branch>?sslmode=require" []
       else say "  gateway(SQL) postgresql://oxyndb:%s@localhost:6432/main?sslmode=require" [apiKey]);
  _ ← say "  storage      http://localhost:9001   (console login in ~/.oxyndb/secrets.json)" [];
  _ ← (if web_ui then mret tt
       else say "\nThe web UI isn't embedded in this build — run it with:  make web-dev   (http://localhost:5173)" []);
  _ ← say "\nThe connection string above uses a ready-to-go API key (also saved in ~/.oxyndb/config)." [];
  say "Stop everything with: odb stop" [].
Definition start_all : cmd unit :=
  _ ← must (Branch.Up working_dir);
  _ ← each_service (λ n, must (Daemon.Start n (service_args n)));
  key ← bootstrapLocalKey;
  start_banner key.
Definition stop_all : cmd unit :=
  _ ← each_service (λ n, must (Daemon.Stop n));
  must Branch.Down.

Definition logs (args : list string) : cmd unit :=
  let svc := match args with s :: _ => s | [] => "gateway" end in
  path ← must (Daemon.LogPath svc);
  r ← engine (call (ReadFile path));
  match r with
  | inl r => if rok r then say "%s" [rout r] else say "no log for %q yet" [svc]
  | inr _ => mret tt
  end.
Definition status_all : cmd unit :=
  let server label name := st ← must (Daemon.Status name); say (label +:+ ": %s") [st] in
  _ ← say "=== servers ===" [];
  _ ← server "control API" "controlplane";
  _ ← server "gateway" "gateway";
  _ ← server "agent API" "api";
  _ ← say "" [];
  must Branch.Status.

(** Servers that go on for ever: the calls that start them. *)
Definition serving (what : string) (args : list string) : cmd unit := must (perform (CallOut what args)).
Definition mcpKey (args : list string) : string := or_default (optValue args "--key") (getenv "OXYNDB_API_KEY").

(** What the host package makes of `setup` and `vm` on Linux. *)
Definition vmUsage : string := "usage: odb vm [status|shell]".
Definition vmSubcommand (args : list string) : outcome error string :=
  match args with
  | [] => Ok "status"
  | a :: t =>
      if String.eqb a "status" || String.eqb a "shell" then
        match t with [] => Ok a | _ => Err (Errorf "odb vm %s takes no arguments — %s" [a; vmUsage]) end
      else if String.eqb a "help" || String.eqb a "-h" || String.eqb a "--help" then Ok "help"
      else Err (Errorf "unknown vm command %q — %s" [a; vmUsage])
  end.
Definition VM (args : list string) : cmd unit :=
  sub ← must (lift (vmSubcommand args));
  if String.eqb sub "help" then
    _ ← say vmUsage [];
    _ ← say "  status  (default) where the engine VM is, whether it's running, and its size" [];
    say "  shell   open a shell inside the engine VM" []
  else if String.eqb sub "shell"
  then fail_with "Linux host — there is no VM to open a shell in; OxynDB runs directly on this machine"
  else say "Linux host — OxynDB runs directly on this machine; there is no VM." [].

(** [update] and [update_guest] are the update component's commands. *)
Definition main (script : string) (update update_guest : list string → cmd unit) (args : list string) : cmd unit :=
  match args with
  | [] => usage_exit usage
  | c :: rest =>
      if existsb (String.eqb c) ["version"; "-v"; "--version"] then say "odb %s" [odb_version]
      else if String.eqb c "setup" then say "Linux host — no VM needed. Run `odb start`." []
      else if String.eqb c "vm" then VM rest
      else if String.eqb c "start" then start_all
      else if String.eqb c "update" then update rest
      else if String.eqb c "_update-guest" then update_guest rest
      else if String.eqb c "stop" then _ ← stop_all; say "stopped: control API, agent API, gateway, and all containers" []
      else if String.eqb c "logs" then logs rest
      else if String.eqb c "up" then must (Branch.Up working_dir)
      else if String.eqb c "down" then stop_all
      else if String.eqb c "status" then status_all
      else if String.eqb c "psql" then must (PsqlShell "main")
      else if String.eqb c "backup" then
        match rest with
        | [] => usage_exit "usage: odb backup <create|list>"
        | a :: _ => if String.eqb a "create" then must Branch.Backup else if String.eqb a "list" then must Branch.BackupList
                    else usage_exit ("unknown backup subcommand: " +:+ a)
        end
      else if String.eqb c "restore" then
        let ts := restoreArg rest in
        if String.eqb ts "" then usage_exit "usage: odb restore --to '<timestamp>'|latest" else must (Recovery.Restore ts)
      else if String.eqb c "branch" then branchCmd rest
      else if String.eqb c "impact" then impactCmd rest
      else if String.eqb c "ledger" || String.eqb c "blackbox" then ledgerCmd script rest
      else if String.eqb c "import" then importCmd rest
      else if String.eqb c "import-cutover" then
        match rest with [] => usage_exit "usage: odb import-cutover <instance>" | n :: _ => must (Import.ImportCutoverTo n) end
      else if String.eqb c "pipeline" then pipelineCmd rest
      else if String.eqb c "ha" then haCmd rest
      else if String.eqb c "user" then
        match rest with
        | a :: email :: _ => if String.eqb a "create" then userCreate email else usage_exit "usage: odb user create <email>"
        | _ => usage_exit "usage: odb user create <email>"
        end
      else if String.eqb c "apikey" then apikeyCmd rest
      else if String.eqb c "admin" then adminCmd rest
      else if String.eqb c "policy" then policyCmd rest
      else if String.eqb c "serve" then serving "agentapi.Serve" [addrFlag rest ":8088"]
      else if String.eqb c "controlplane" then serving "controlplane.Serve" [addrFlag rest ":8080"]
      else if String.eqb c "gateway" then serving "proxy.Serve" [addrFlag rest ":6432"; format_int (durFlag rest "--idle" (2 * minute))]
      else if String.eqb c "mcp" then serving "mcp.Serve" [mcpKey rest]
      else _ ← say "unknown command: %s\n" [c]; usage_exit usage
  end.


End cli.

(** ** What exit codes tell *)

Section exits.
Context {W : World} {En : Env} {Em : Embedded} {T : ErrorText} {U : Unicode} {IP : IPLiterals} {Er : Documents.Stderr} {Ou : Outside}.
Context {Bu : Build} {Mo : Provenance.MapOrder}.

(** What a command may do before it finds its command line not understood: printing, opening
    the account store, which makes its directory and tables where they are missing
    (Opening.v), listing the running containers. *)
Definition idle_call (a : action) : bool :=
  match a with
  | Print _ _ => true
  | CallOut what _ => String.eqb what "stderr" || String.eqb what "auth.OpenFromEnv"
  | Exec argv _ => bool_decide (argv = ["sudo"; "docker"; "ps"; "--filter"; "name=oxyn-"; "--format"; "{{.Names}}"])
  | _ => false
  end.

(** Only such calls, and the accounts stay as they are. *)
Definition idle {A} (m : cmd A) : Prop := ∀ s h, match m s h with (o, s', t) => Forall (λ e, idle_call e.1 = true) t ∧ db s' = db s end.
(** Ends, if at all, with code 1. *)
Definition exits_1 {A} (m : cmd A) : Prop := ∀ s h, match m s h with (Exit c, _, _) => c = 1%Z | _ => True end.
(** Code 2 means that nothing was done; there is no code but 1 and 2. *)
Definition exits_well {A} (m : cmd A) : Prop :=
  ∀ s h, match m s h with
         | (Exit c, s', t) => c = 1%Z ∨ c = 2%Z ∧ Forall (λ e, idle_call e.1 = true) t ∧ db s' = db s
         | _ => True
         end.

Lemma exits_1_well {A} (m : cmd A) : exits_1 m → exits_well m.
Proof. intros Hm s h. specialize (Hm s h). destruct (m s h) as [[[a|c|w] s'] t]; try done. by left. Qed.

Lemma exits_1_ret {A} (a : A) : exits_1 (mret a).
Proof. by intros s h. Qed.
Lemma exits_1_exit {A} : exits_1 (@exit A 1).
Proof. by intros s h. Qed.
Lemma exits_1_engine {A} (m : prog A) : exits_1 (engine m).
Proof. intros s h. unfold engine. by destruct (m h) as [[]]. Qed.
Lemma exits_1_accounts {A} (m : op A) : exits_1 (accounts m).
Proof. intros s h. unfold accounts. by destruct (m s) as [[]]. Qed.
Lemma exits_1_bind {A B} (m : cmd A) (f : A → cmd B) : exits_1 m → (∀ a, exits_1 (f a)) → exits_1 (m ≫= f).
Proof.
  intros Hm Hf s h. specialize (Hm s h). unfold mbind, cmd_bind. destruct (m s h) as [[[a|c|w] s'] t]; [|done|done].
  specialize (Hf a s' (h ++ t)). by destruct (f a _ _) as [[[]]].
Qed.
Lemma exits_1_say f args : exits_1 (say f args).
Proof. apply exits_1_bind; [apply exits_1_engine|intros; apply exits_1_ret]. Qed.
Lemma exits_1_complain text : exits_1 (complain text).
Proof. apply exits_1_bind; [apply exits_1_engine|intros; apply exits_1_ret]. Qed.
Lemma exits_1_fail {A} text : exits_1 (@fail_with _ A text).
Proof. apply exits_1_bind; [apply exits_1_complain|intros; apply exits_1_exit]. Qed.
Lemma exits_1_must {A} (m : prog A) : exits_1 (must m).
Proof. apply exits_1_bind; [apply exits_1_engine|]. intros []; [apply exits_1_ret|apply exits_1_fail]. Qed.
Lemma exits_1_must_store {A} (m : op A) : exits_1 (must_store m).
Proof. apply exits_1_bind; [apply exits_1_accounts|]. intros []; [apply exits_1_ret|apply exits_1_fail]. Qed.

Lemma exits_well_bind {A B} (m : cmd A) (f : A → cmd B) : idle m → exits_1 m → (∀ a, exits_well (f a)) → exits_well (m ≫= f).
Proof.
  intros Hi Hm Hf s h. specialize (Hm s h). specialize (Hi s h). unfold mbind, cmd_bind. destruct (m s h) as [[[a|c|w] s'] t]; [|by left|done].
  specialize (Hf a s' (h ++ t)). destruct (f a _ _) as [[[b|c|w] s''] u]; try done. destruct Hi as [Ht Hs].
  destruct Hf as [->|(-> & Hu & Hs')]; [by left|]. right. split_and!; [done|by apply Forall_app|congruence].
Qed.

Lemma idle_bind {A B} (m : cmd A) (f : A → cmd B) : idle m → (∀ a, idle (f a)) → idle (m ≫= f).
Proof.
  intros Hm Hf s h. specialize (Hm s h). unfold mbind, cmd_bind. destruct (m s h) as [[[a|c|w] s'] t]; [|done|done]. destruct Hm as [Ht Hs].
  specialize (Hf a s' (h ++ t)). destruct (f a _ _) as [[o s''] u]. destruct Hf as [Hu Hs']. split; [by apply Forall_app|congruence].
Qed.
Lemma idle_ret {A} (a : A) : idle (mret a).
Proof. by intros s h. Qed.
Lemma idle_exit {A} c : idle (@exit A c).
Proof. by intros s h. Qed.
Lemma idle_engine {A} (m : prog A) : emits (λ a, idle_call a = true) m → idle (engine m).
Proof. intros Hm s h. specialize (Hm h). unfold engine. destruct (m h) as [[]]; by split. Qed.
Lemma idle_say f args : idle (say f args).
Proof. apply idle_bind; [|intros; apply idle_ret]. apply idle_engine. unfold ignore. apply emits_bind; [by apply emits_call|intros; apply emits_ret]. Qed.
Lemma idle_complain text : idle (complain text).
Proof. apply idle_bind; [|intros; apply idle_ret]. apply idle_engine. unfold ignore. apply emits_bind; [by apply emits_call|intros; apply emits_ret]. Qed.
Lemma idle_fail {A} text : idle (@fail_with _ A text).
Proof. apply idle_bind; [apply idle_complain|intros; apply idle_exit]. Qed.
Lemma idle_must {A} (m : prog A) : emits (λ a, idle_call a = true) m → idle (must m).
Proof. intros Hm. apply idle_bind; [by apply idle_engine|]. intros []; [apply idle_ret|apply idle_fail]. Qed.
Lemma idle_accounts {A} (m : op A) : (∀ s, db (m s).2 = db s) → idle (accounts m).
Proof. intros Hm s h. specialize (Hm s). unfold accounts. destruct (m s) as [[]]; by split. Qed.
Lemma idle_account email : idle (account email).
Proof.
  unfold account, openStore. apply idle_bind; [apply idle_must; by apply emits_perform|]. intros _. apply idle_bind.
  - apply idle_bind; [|intros []; [apply idle_ret|apply idle_fail]]. apply idle_accounts. intros s.
    unfold UserByEmail, option_of, caught, query, mbind, op_bind. destruct (fault (tick s)); [done|]. by destruct (find_user _ _).
  - intros []; [apply idle_ret|apply idle_fail].
Qed.
Lemma exits_1_account email : exits_1 (account email).
Proof.
  apply exits_1_bind; [apply exits_1_must|intros _]. apply exits_1_bind; [apply exits_1_must_store|]. intros []; [apply exits_1_ret|apply exits_1_fail].
Qed.
Lemma exits_well_usage {A} text : exits_well (@usage_exit _ A text).
Proof. apply exits_well_bind; [apply idle_say|apply exits_1_say|]. intros _ s h. by right. Qed.

Lemma exits_1_each_branch f branches : (∀ b, exits_1 (f b)) → exits_1 (each_branch f branches).
Proof.
  intros Hf. induction branches as [|b t IH]; cbn [each_branch]; [apply exits_1_ret|]. apply exits_1_bind; [apply Hf|]. intros [_|e]; [done|].
  apply exits_1_bind; [apply exits_1_complain|intros _]. apply exits_1_bind; [done|intros _; apply exits_1_ret].
Qed.
Lemma exits_1_foldr {A} (f : A → cmd unit) l : (∀ x, exits_1 (f x)) → exits_1 (foldr (λ x m, _ ← f x; m) (mret tt) l).
Proof. intros Hf. induction l as [|x l IH]; cbn [foldr]; [apply exits_1_ret|]. by apply exits_1_bind. Qed.

(** A command that ends well, and then one that ends with 1 at most. *)
Lemma exits_well_then {A B} (m : cmd A) (f : A → cmd B) : exits_well m → (∀ a, exits_1 (f a)) → exits_well (m ≫= f).
Proof.
  intros Hm Hf s h. specialize (Hm s h). unfold mbind, cmd_bind. destruct (m s h) as [[[a|c|w] s'] t]; [|done|done].
  specialize (Hf a s' (h ++ t)). destruct (f a _ _) as [[[b|c|w] s''] u]; try done. by left.
Qed.

#[local] Create HintDb cli.
#[local] Hint Resolve exits_1_ret exits_1_exit exits_1_engine exits_1_accounts exits_1_say exits_1_complain exits_1_fail exits_1_must exits_1_must_store
  exits_1_account : cli.
#[local] Ltac exits_1_go := repeat match goal with
  | |- exits_1 (_ ≫= _) => apply exits_1_bind; [|intros]
  | |- exits_1 (each_branch _ _) => apply exits_1_each_branch; intros
  | |- exits_1 (foldr _ _ _) => apply exits_1_foldr; intros
  | |- exits_1 (match ?x with _ => _ end) => destruct x
  | |- _ => solve [eauto 1 with cli]
  end.
(** Either a command that only ends with 1, or something idle first. *)
#[local] Ltac exits_go := repeat match goal with
  | |- exits_well (usage_exit _) => apply exits_well_usage
  | |- exits_well policyUsage => apply exits_well_usage
  | |- exits_well adminUsage => apply exits_well_usage
  | |- exits_well (match ?x with _ => _ end) => destruct x
  | |- exits_well (let '(_, _) := ?x in _) => destruct x
  | |- exits_well _ => solve [apply exits_1_well; exits_1_go]
  end.

Lemma exits_well_diff args : exits_well (diffCmd args).
Proof. unfold diffCmd. exits_go. Qed.
Lemma exits_well_branch args : exits_well (branchCmd args).
Proof. unfold branchCmd. destruct args as [|sub rest]; [exits_go|]. cbv zeta. exits_go. apply exits_well_diff. Qed.
Lemma exits_well_ha args : exits_well (haCmd args).
Proof. unfold haCmd. exits_go. Qed.
Lemma exits_well_policy args : exits_well (policyCmd args).
Proof. unfold policyCmd. destruct (match args with [] => _ | _ => _ end) as [sub rest]. cbv zeta. exits_go. Qed.
Lemma exits_well_impact args : exits_well (impactCmd args).
Proof. unfold impactCmd. cbv zeta. exits_go. Qed.
Lemma exits_well_before script args : exits_well (branchBeforeCmd script args).
Proof. unfold branchBeforeCmd. cbv zeta. exits_go. Qed.
Lemma exits_well_v2 script args : exits_well (ledgerV2Cmd script args).
Proof.
  unfold ledgerV2Cmd. destruct args as [|sub rest]; [exits_go|]. cbv zeta. exits_go.
  all: apply exits_well_then; [apply exits_well_diff || apply exits_well_before|intros; exits_1_go].
Qed.

Definition says_true (m : cmd bool) : Prop := ∀ s h, match m s h with (Done b, _, _) => b = true | _ => True end.
Lemma says_true_bind {A} (m : cmd A) f : (∀ a, says_true (f a)) → says_true (m ≫= f).
Proof.
  intros Hf s h. unfold mbind, cmd_bind. destruct (m s h) as [[[a|c|w] s'] t]; [|done|done].
  specialize (Hf a s' (h ++ t)). by destruct (f a _ _) as [[[]]].
Qed.
Lemma v2_unknown script args s h : match ledgerV2Cmd script args s h with (Done false, s', t) => s' = s ∧ t = [] | _ => True end.
Proof.
  unfold ledgerV2Cmd. destruct args as [|sub rest]; [done|]. cbv zeta.
  assert (∀ m, says_true m → match m s h with (Done false, s', t) => s' = s ∧ t = [] | _ => True end) as Htrue.
  { intros m Hm. specialize (Hm s h). destruct (m s h) as [[[[]|c|w] s'] t]; done. }
  repeat match goal with
  | |- context [if String.eqb sub ?x then _ else _] => destruct (String.eqb sub x)
  end; [apply Htrue; repeat (apply says_true_bind; intros) ..|done].
  all: repeat match goal with
  | |- says_true (match ?x with _ => _ end) => destruct x
  | |- says_true (_ ≫= _) => apply says_true_bind; intros
  | |- _ => solve [by intros ? ?]
  end.
Qed.

Lemma exits_well_upgrade args : exits_well (ledgerUpgradeCmd args).
Proof. unfold ledgerUpgradeCmd, exit_if. exits_go. Qed.
Lemma exits_well_unknown script args (rest : cmd unit) : exits_well rest →
  exits_well (known ← ledgerV2Cmd script args; if (known : bool) then mret tt else rest).
Proof.
  intros Hr s h. pose proof (exits_well_v2 script args s h) as H2. pose proof (v2_unknown script args s h) as Hu. unfold mbind, cmd_bind.
  destruct (ledgerV2Cmd script args s h) as [[[known|c|w] s'] t]; [|done|done].
  destruct known; [done|]. destruct Hu as [-> ->]. rewrite app_nil_r. specialize (Hr s h). by destruct (rest s h) as [[[]]].
Qed.
Lemma exits_well_ledger script args : exits_well (ledgerCmd script args).
Proof. unfold ledgerCmd. apply exits_well_unknown. cbv zeta. exits_go. apply exits_well_upgrade. Qed.

Lemma exits_well_import args : exits_well (importCmd args).
Proof. unfold importCmd. cbv zeta. exits_go. Qed.
Lemma exits_well_pipeline args : exits_well (pipelineCmd args).
Proof. unfold pipelineCmd, exit_if. cbv zeta. exits_go. Qed.
Lemma exits_1_userCreate email : exits_1 (userCreate email).
Proof. unfold userCreate, openStore. cbv zeta. exits_1_go. Qed.
Lemma exits_well_apikey args : exits_well (apikeyCmd args).
Proof.
  unfold apikeyCmd. destruct args as [|sub [|email rest]]; [exits_go..|].
  apply exits_well_bind; [apply idle_account|apply exits_1_account|]. intros u. exits_go.
Qed.
Lemma emits_running : emits (λ a, idle_call a = true) RunningBranches.
Proof.
  unfold RunningBranches, capture_or_fail, capture. apply emits_bind; [|intros; apply emits_ret]. apply emits_bind.
  - apply emits_bind; [by apply emits_call|intros; apply emits_ret].
  - intros [out []]; [apply emits_ret|apply emits_fail].
Qed.
Lemma exits_well_admin args : exits_well (adminCmd args).
Proof.
  unfold adminCmd. destruct args as [|sub rest]; [apply exits_well_usage|].
  apply exits_well_bind; [apply idle_must|apply exits_1_must|].
  - unfold adminScope. destruct (negb _); [apply emits_ret|]. apply emits_bind; [apply emits_running|]. intros l.
    destruct l as [|x l]; [apply emits_fail|]. repeat match goal with |- emits _ (match ?x with _ => _ end) => destruct x end; apply emits_ret || apply emits_fail.
  - intros branches. destruct (String.eqb sub "grant" || _); [|unfold exit_if; exits_go].
    cbv zeta. destruct (String.eqb _ ""); [apply exits_well_usage|]. unfold exit_if. apply exits_1_well. exits_1_go.
Qed.
Lemma exits_1_bootstrap : exits_1 bootstrapLocalKey.
Proof. unfold bootstrapLocalKey. exits_1_go. Qed.
#[local] Hint Resolve exits_1_bootstrap : cli.

Definition update_command (args : list string) : bool :=
  match args with c :: _ => String.eqb c "update" || String.eqb c "_update-guest" | [] => false end.

(** C37. Exit codes tell what happened: a command other than update and _update-guest that
    ends the process ends it with 1 or 2, and with 2, which is for a command line that is not
    understood, it has only printed, opened the account store (which makes its directory and
    tables where they are missing) or listed the running containers, and no account, key or
    pipeline has changed. *)
Theorem main_exits script up upg args s h c s' t : update_command args = false →
  main script up upg args s h = (Exit c, s', t) →
  c = 1%Z ∨ c = 2%Z ∧ Forall (λ e, idle_call e.1 = true) t ∧ db s' = db s.
Proof.
  intros Hup Hrun. assert (exits_well (main script up upg args)) as Hm; [|specialize (Hm s h); by rewrite Hrun in Hm].
  unfold main. destruct args as [|x rest]; [apply exits_well_usage|]. cbn [update_command] in Hup. apply orb_false_iff in Hup as [H1 H2]. rewrite H1, H2.
  cbv zeta. unfold VM, start_all, start_banner, stop_all, logs, status_all, each_service, serving. cbv zeta.
  repeat match goal with |- exits_well (if String.eqb x ?y then _ else _) => destruct (String.eqb x y) end; exits_go.
  all: first [apply exits_well_branch|apply exits_well_impact|apply exits_well_ledger|apply exits_well_import|apply exits_well_pipeline|apply exits_well_ha
    |apply exits_1_well, exits_1_userCreate|apply exits_well_apikey|apply exits_well_admin|apply exits_well_policy|idtac].
  apply exits_well_bind; [apply idle_say|apply exits_1_say|intros _; apply exits_well_usage].
Qed.
End exits.

(** ** Commands that tell the truth *)

Section truth.
Context {W : World} {En : Env} {Em : Embedded} {T : ErrorText} {U : Unicode} {IP : IPLiterals} {Er : Documents.Stderr} {Ou : Outside}.
Context {Bu : Build} {Mo : Provenance.MapOrder}.

(** [m] was run and gave [a], as part of what was done. *)
Definition ran {A} (m : prog A) (a : A) (t : history) : Prop := ∃ h pre t1 post, t = pre ++ t1 ++ post ∧ runs m h (Ok a) t1.

Lemma ran_within {A} (m : prog A) a t pre post : ran m a t → ran m a (pre ++ t ++ post).
Proof. intros (h & p & t1 & q & -> & Hr). exists h, (pre ++ p), t1, (q ++ post). split; [by rewrite !app_assoc|done]. Qed.

(** A command that came to its end came to the end of its parts. *)
Lemma cmd_bind_done {A B} (m : cmd A) (f : A → cmd B) s h b s' t : (m ≫= f) s h = (Done b, s', t) →
  ∃ a s1 t1 t2, m s h = (Done a, s1, t1) ∧ f a s1 (h ++ t1) = (Done b, s', t2) ∧ t = t1 ++ t2.
Proof.
  unfold mbind, cmd_bind. destruct (m s h) as [[[a|c|w] s1] t1]; [|done|done]. destruct (f a s1 (h ++ t1)) as [[o s2] t2] eqn:Hf.
  intros [= -> -> <-]. by exists a, s1, t1, t2.
Qed.
Lemma must_done {A} (m : prog A) s h a s' t : must m s h = (Done a, s', t) → runs m h (Ok a) t ∧ s' = s.
Proof.
  intros (r & s1 & t1 & t2 & Hm & Hr & ->)%cmd_bind_done. unfold engine in Hm. destruct (m h) as [[b|e|w] u] eqn:Hmh; [| |done].
  - injection Hm as <- <- <-. injection Hr as <- <- <-. rewrite app_nil_r. done.
  - injection Hm as <- <- <-. unfold fail_with in Hr. apply cmd_bind_done in Hr as (x & s2 & t3 & t4 & _ & Hx & _). done.
Qed.

(** The exit code of `odb blackbox integrity` is the verdict: the command comes to its
    end only when the ledger was read and found intact. *)
Theorem integrity_exit script up upg c name s h s' t : c ∈ ["ledger"; "blackbox"] → HasPrefix name "-" = false →
  main script up upg [c; "integrity"; name] s h = (Done tt, s', t) →
  ∃ rep notes, ran (Blackbox.Integrity name) (rep, notes) t ∧ Integrity.Intact rep = true ∧ s' = s.
Proof.
  intros Hc Hn Hrun.
  assert (ledgerCmd script ["integrity"; name] s h = (Done tt, s', t)) as Hl by (set_unfold in Hc; destruct Hc as [->|[->|[]]]; exact Hrun).
  unfold ledgerCmd in Hl. apply cmd_bind_done in Hl as (known & s1 & t1 & t2 & Hv & Hrest & ->). unfold ledgerV2Cmd in Hv. cbv zeta in Hv. rewrite Hn in Hv.
  change (String.eqb "integrity" "checkpoint") with false in Hv. change (String.eqb "integrity" "integrity") with true in Hv. cbv iota in Hv.
  apply cmd_bind_done in Hv as ([rep notes] & s2 & t3 & t4 & Hm & Hv & ->). apply must_done in Hm as [Hm ->].
  apply cmd_bind_done in Hv as ([] & s3 & t5 & t6 & Hs & Hv & ->).
  assert (s3 = s) as -> by (unfold say, engine, mbind, cmd_bind in Hs; destruct (ignore _ _) as [[]]; by inversion Hs).
  destruct (Integrity.Intact rep) eqn:Hi; [|done]. injection Hv as <- <- <-. injection Hrest as <- <-. exists rep, notes. split_and!; [|done|done].
  exists h, [], t3, ((t5 ++ []) ++ []). split; [by rewrite <-!app_assoc|done].
Qed.

Lemma each_branch_done (f : string → cmd (unit + error)) branches s h s' t : each_branch f branches s h = (Done false, s', t) →
  ∀ b, b ∈ branches → ∃ s1 h1 s2 pre t1 post, t = pre ++ t1 ++ post ∧ f b s1 h1 = (Done (inl tt), s2, t1).
Proof.
  revert s h t. induction branches as [|x bs IH]; intros s h t Hrun b Hb; [by apply not_elem_of_nil in Hb|]. cbn [each_branch] in Hrun.
  apply cmd_bind_done in Hrun as ([[]|e] & s1 & t1 & t2 & Hf & Hrest & ->).
  - apply elem_of_cons in Hb as [->|Hb]; [by exists s, h, s1, [], t1, t2|].
    destruct (IH _ _ _ Hrest b Hb) as (s3 & h3 & s4 & pre & t3 & post & -> & Hfb). exists s3, h3, s4, (t1 ++ pre), t3, post. by rewrite app_assoc.
  - apply cmd_bind_done in Hrest as (u & s2 & t3 & t4 & _ & Hrest & _). by apply cmd_bind_done in Hrest as (v & s3 & t5 & t6 & _ & Hv & _).
Qed.

(** An admin change that reports success was made everywhere: when `odb admin grant` or
    `revoke` of an account comes to its end, it was made on main and on every other running
    branch, or on the one branch that was named. *)
Theorem admin_change_everywhere sub rest s h s' t : sub ∈ ["grant"; "revoke"] →
  adminCmd (sub :: rest) s h = (Done tt, s', t) →
  ∃ u branches, ran (adminScope (optValue rest "--branch")) branches t
    ∧ ∀ b, b ∈ branches → ran (if String.eqb sub "grant" then GrantAdmin false b (Email u) else RevokeAdmin b (Email u)) tt t.
Proof.
  intros Hsub Hrun. unfold adminCmd in Hrun. apply cmd_bind_done in Hrun as (branches & s1 & t1 & t2 & Hm & Hrun & ->).
  apply must_done in Hm as [Hm _].
  assert (String.eqb sub "grant" || String.eqb sub "revoke" = true) as Hs by (set_unfold in Hsub; destruct Hsub as [->|[->|[]]]; done). rewrite Hs in Hrun.
  cbv zeta in Hrun. destruct (String.eqb (firstPositional rest ["--branch"]) "");
    [by apply cmd_bind_done in Hrun as (x & s2 & t3 & t4 & _ & Hx & _)|].
  apply cmd_bind_done in Hrun as (u & s2 & t3 & t4 & _ & Hrun & ->). apply cmd_bind_done in Hrun as (failed & s3 & t5 & t6 & Heach & Hexit & ->).
  destruct failed; [done|]. exists u, branches. split; [by exists h, [], t1, (t3 ++ t5 ++ t6)|].
  intros b Hb. destruct (each_branch_done _ _ _ _ _ _ Heach b Hb) as (s4 & h4 & s5 & pre & t7 & post & -> & Hf).
  apply cmd_bind_done in Hf as ([[]|e] & s6 & t8 & t9 & He & Hf & ->); [|done]. unfold engine in He.
  match type of He with context [?m h4] => destruct (m h4) as [[[]|e|w] v] eqn:Hg; [|done|done] end. injection He as <- <-.
  eexists h4, (t1 ++ t3 ++ pre), v, (t9 ++ post ++ t6). split; [by rewrite <-!app_assoc|exact Hg].
Qed.

Lemma cmd_bind_value {A B} (m : cmd A) (f : A → cmd B) s h a s1 t1 : m s h = (Done a, s1, t1) →
  (m ≫= f) s h = let '(o, s2, t2) := f a s1 (h ++ t1) in (o, s2, t1 ++ t2).
Proof. unfold mbind, cmd_bind. by intros ->. Qed.
Lemma engine_perform a s h : engine (perform a) s h = (Done (if rok (answer h a) then inl tt else inr (CommandFailed a)), s, [(a, answer h a)]).
Proof. unfold engine, perform, mbind, prog_bind, call. cbn. by destruct (rok _). Qed.
Lemma engine_read s h : engine readCachedKey s h =
  (Done (inl (if rok (answer h (ReadFile configPath)) then api_key_line (Split nl (rout (answer h (ReadFile configPath)))) else "")), s,
   [(ReadFile configPath, answer h (ReadFile configPath))]).
Proof. done. Qed.
Lemma has_any_user s : fault (tick s) = false → HasAnyUser s = (Ok (negb (bool_decide (users (db s) = []))), mkState (S (tick s)) (db s)).
Proof.
  intros Hf. unfold HasAnyUser, option_of, caught, query, mbind, op_bind. rewrite Hf. by destruct (users (db s)).
Qed.

(** Starting the stack makes an account only on a new install: where the store has a
    user, and can be read, no account, key or file is touched, whatever the configuration
    file holds. *)
Theorem bootstrap_first_only s h o s' t : users (db s) ≠ [] → fault (tick s) = false →
  bootstrapLocalKey s h = (o, s', t) → db s' = db s ∧ Forall (λ e, e.1 = ReadFile configPath ∨ e.1 = CallOut "auth.OpenFromEnv" []) t.
Proof.
  intros Hu Hf. unfold bootstrapLocalKey.
  rewrite (cmd_bind_value _ _ _ _ _ _ _ (engine_read s h)). destruct (if rok _ then _ else _) as [|ch k].
  2: { intros [= <- <- <-]. split; [done|]. constructor; [by left|constructor]. }
  cbv beta iota. unfold OpenFromEnv. rewrite (cmd_bind_value _ _ _ _ _ _ _ (engine_perform _ s _)). destruct (rok _); cbv beta iota.
  - assert (∀ h, accounts HasAnyUser s h = (Done (inl true), mkState (S (tick s)) (db s), [])) as Hany.
    { intros h'. unfold accounts. rewrite has_any_user by done. by rewrite bool_decide_false. }
    rewrite (cmd_bind_value _ _ _ _ _ _ _ (Hany _)). intros [= <- <- <-]. split; [done|]. constructor; [by left|]. constructor; [by right|constructor].
  - intros [= <- <- <-]. split; [done|]. constructor; [by left|]. constructor; [by right|constructor].
Qed.
End truth.


(** ** Witnesses *)

Module Sample.
#[local] Existing Instances HA.sample_env HA.sample_embedded HA.plain_errors ascii_unicode Pipeline.no_literals Pipeline.quiet_stderr
  Provenance.listed_order sample_outside.
#[local] Instance build : Build :=
  {| web_ui := true; odb_version := "v1.0.0"; working_dir := None; impact_json := λ _, "{}"; diff_json := λ _, "{}" |}.
Definition no_update (args : list string) : cmd unit := mret tt.
Definition one_user : state := mkState 0 (set_users [mkUserRow 7 "a@b.c" "" 0] 8 schema).
Definition two_running : World := {| answer := λ _ x,
  match x with Exec ("sudo" :: "docker" :: "ps" :: _) _ => mkReply true ("oxyn-main" +:+ str1 nl +:+ "oxyn-dev") "" 0 | _ => mkReply true "" "" 0 end |}.

Lemma main_exits_witness : (2 = 1 ∨ 2 = 2)%Z.
Proof.
  destruct (main (W := two_running) "" no_update no_update ["branch"; "frob"] one_user []) as [[o s'] t] eqn:Hr.
  assert (o = Exit 2) as -> by (vm_compute in Hr; by injection Hr as <- _ _).
  destruct (main_exits (W := two_running) "" no_update no_update ["branch"; "frob"] one_user [] 2 s' t eq_refl Hr) as [?|[? _]]; [by left|by right].
Defined.

Lemma admin_change_everywhere_witness :
  match adminCmd (W := two_running) ["grant"; "a@b.c"] one_user [] with
  | (Done tt, _, t) => ∃ u branches, ran (adminScope (W := two_running) "") branches t
      ∧ ∀ b, b ∈ branches → ran (GrantAdmin (W := two_running) false b (Email u)) tt t
  | _ => False
  end.
Proof.
  destruct (adminCmd (W := two_running) ["grant"; "a@b.c"] one_user []) as [[o s'] t] eqn:Hr.
  assert (o = Done tt) as -> by (vm_compute in Hr; by injection Hr as <- _ _).
  apply (admin_change_everywhere (W := two_running) "grant" ["a@b.c"] one_user [] s' t); [by left|exact Hr].
Defined.

Lemma integrity_exit_witness :
  match main (W := Blackbox.one_row_world) (En := Blackbox.anchor_env) "" no_update no_update ["blackbox"; "integrity"; "dev"] one_user [] with
  | (Done tt, s', t) => ∃ rep notes, ran (Blackbox.Integrity (W := Blackbox.one_row_world) (En := Blackbox.anchor_env) "dev") (rep, notes) t
      ∧ Integrity.Intact rep = true ∧ s' = one_user
  | _ => False
  end.
Proof.
  destruct (main (W := Blackbox.one_row_world) (En := Blackbox.anchor_env) "" no_update no_update ["blackbox"; "integrity"; "dev"] one_user []) as [[o s'] t] eqn:Hr.
  assert (o = Done tt) as -> by (vm_compute in Hr; by injection Hr as <- _ _).
  apply (integrity_exit (W := Blackbox.one_row_world) (En := Blackbox.anchor_env) "" no_update no_update "blackbox" "dev" one_user [] s' t);
    [right; left|reflexivity|exact Hr].
Defined.

Lemma bootstrap_first_only_witness :
  let '(_, s', t) := bootstrapLocalKey (W := two_running) one_user [] in db s' = db one_user ∧ List.length t = 2%nat.
Proof.
  destruct (bootstrapLocalKey (W := two_running) one_user []) as [[o s'] t] eqn:Hr. split.
  - apply (bootstrap_first_only (W := two_running) one_user [] o s' t); [discriminate|reflexivity|exact Hr].
  - vm_compute in Hr. by injection Hr as _ _ <-.
Defined.
End Sample.
