(* ===== verification/Forward.v ===== *)
(** * One command on every system (internal/host/host.go)

    On Linux, and in the guest, a command runs where it is; on macOS and Windows the
    engine's commands are forwarded into the VM, and a local file that is imported is
    streamed there. *)
From S2P Require Import Prelude GoStrings GoRunes GoPath Effects Storage Wsl Import Cli.
From S2P Require Lima.
Open Scope string_scope.
Open Scope list_scope.

(** ** The system a command is typed on *)

(** What the other files of the package promise this one: the system, the standard input,
    and how a command gets into the guest. *)
Class Host := { goos : string; os_Stdin : string; forwardStdin : list string → string → prog unit; hostSetup : prog unit }.

(** host_other.go, host_darwin.go and host_windows.go. *)
Definition linux_host (stdin : string) {W : World} : Host :=
  {| goos := "linux"; os_Stdin := stdin;
     forwardStdin := λ _ _, fail (Errorf "unsupported host OS %q — cannot forward to a VM" ["linux"]);
     hostSetup := ignore (Print "Linux host — no VM needed. Run `odb start`." []) |}.
Definition darwin_host (goarch stdin : string) {W : World} {En : Env} : Host :=
  {| goos := "darwin"; os_Stdin := stdin; forwardStdin := Lima.forwardStdin; hostSetup := Lima.setupDarwin goarch stdin |}.
Definition windows_host (stdin : string) {W : World} {En : Env} : Host :=
  {| goos := "windows"; os_Stdin := stdin; forwardStdin := Wsl.forwardStdin; hostSetup := Wsl.setupWindows |}.

Definition localCommands : list string := [""; "help"; "-h"; "--help"; "version"; "-v"; "--version"; "setup"; "vm"; "update"].
Definition isPostgresURL (s : string) : bool := HasPrefix s "postgres://" || HasPrefix s "postgresql://".

(** The value of the first `--from` that has one. *)
Fixpoint from_value (args : list string) : option string :=
  match args with
  | a :: ((v :: _) as t) => if String.eqb a "--from" then Some v else from_value t
  | _ => None
  end.
Definition bare_source (args : list string) : string :=
  default "" (List.find (λ a, negb (HasPrefix a "-") && negb (isPostgresURL a)) args).
(** Every `--from` with its value left out. *)
Fixpoint without_from (args : list string) : list string :=
  match args with
  | a :: ((v :: t') as t) => if String.eqb a "--from" then without_from t' else a :: without_from t
  | _ => args
  end.

Section host.
Context {W : World} {En : Env} {U : Unicode} {Ho : Host}.

Definition kind_of (path : string) : string := TrimPrefix (string_lower (Ext path)) ".".
(** The new arguments and the file's content, where a file of this machine is imported. *)
Definition importLocalFile (args : list string) : prog (option (list string * string)) :=
  match args with
  | "import" :: args =>
      let flag := default "" (from_value args) in
      let path := if String.eqb flag "" then bare_source args else flag in
      if String.eqb path "" || isPostgresURL path then mret None else
      here ← is_file (Stat path);
      if negb here then mret None else
      f ← call (ReadFile path);
      if negb (rok f) then mret None else
      let rest := match from_value args with Some _ => without_from args | None => filter (λ a, a ≠ path) args end in
      mret (Some (["import"; "--from"; "-"; "--kind"; kind_of path; "--srcname"; Base path] ++ rest, rout f))
  | _ => mret None
  end.

Definition hostForward (args : list string) : prog unit :=
  local ← importLocalFile args;
  match local with Some (args, file) => forwardStdin args file | None => forwardStdin args os_Stdin end.

(** None: the command is to run here. *)
Definition Maybe (args : list string) : prog (option (unit + error)) :=
  if String.eqb goos "linux" || negb (String.eqb (getenv envInGuest) "") then mret None else
  let sub := match args with a :: _ => a | [] => "" end in
  if existsb (String.eqb sub) localCommands then mret None else
  if String.eqb sub "start" then
    _ ← ignore (CallOut "StartUpdateNotice" []);
    r ← attempt (hostForward args);
    _ ← match r with inl _ => ignore (CallOut "notice" []) | inr _ => mret tt end;
    mret (Some r)
  else r ← attempt (hostForward args); mret (Some r).
End host.

(** ** The options of an import *)

Definition no_import : import_args := mkImportArgs "" "" "" "" false.








(** Nothing is forwarded twice: on Linux, and wherever the guest's mark is set (which
    [Wsl.guestEnv] and [Lima.guest_command] set), a command is run where it is. *)
Theorem Maybe_in_guest {W : World} {En : Env} {U : Unicode} {Ho : Host} args h :
  goos = "linux" ∨ getenv envInGuest ≠ "" → runs (Maybe args) h (Ok None) [].
Proof.
  intros Hg. unfold Maybe. assert (String.eqb goos "linux" || negb (String.eqb (getenv envInGuest) "") = true) as ->; [|by apply runs_ret].
  destruct Hg as [->|Hg]; [done|]. rewrite (proj2 (String.eqb_neq _ _) Hg). by rewrite orb_true_r.
Qed.

(** ** Examples *)

Module Sample.
Definition files : World := {| answer := λ _ x, match x with Stat "dump.sql" | Stat "/data/Orders.CSV" => mkReply true "" "" 0 | ReadFile _ => mkReply true "a,b" "" 0 | _ => mkReply false "" "" 1 end |}.


(** A source without a flag is looked for before the flags' values are: the instance's name
    is taken for the file, and the file is not streamed. *)
Example bare_source_misread :
  ISource (parse_import ["--as"; "shop"; "dump.sql"] no_import) = "dump.sql"
  ∧ bare_source ["--as"; "shop"; "dump.sql"] = "shop"
  ∧ (importLocalFile (W := files) (U := ascii_unicode) ["import"; "--as"; "shop"; "dump.sql"] []).1 = Ok None.
Proof. vm_compute. done. Qed.
End Sample.
