(* ===== verification/Verifier.v ===== *)
(** * The offline verifier (cmd/odb-verify)

    A second program that checks a ledger against its anchors with nothing of the engine but
    the ledger package: its flags, the two ways it reads the rows, its verdict as an exit
    status. What pgx makes of a query's rows is the class [ResultRows]; closing its connection is
    left out. *)
From S2P Require Import Prelude GoStrings GoNum Effects Storage Container Checksums Integrity.
From S2P Require Blackbox Texts.
Open Scope string_scope.
Open Scope list_scope.

(** ** Flags (the flag package, for this program's five) *)

Record flags : Type := mkFlags { dsn : string; export : string; anchorDir : string; asJSON : bool; showVersion : bool }.
Inductive parsed : Type := Parsed (f : flags) | BadUsage (status : Z).

Definition parse_bool (s : string) : option bool :=
  if bool_decide (s ∈ ["1"; "t"; "T"; "TRUE"; "true"; "True"]) then Some true
  else if bool_decide (s ∈ ["0"; "f"; "F"; "FALSE"; "false"; "False"]) then Some false else None.

(** An argument's flag name and value; none where the flags end. *)
Inductive arg : Type := EndOfFlags | BadSyntax | Flag (name : string) (value : option string).
Definition read_arg (s : string) : arg :=
  match s with
  | String "-" (String _ _ as t) =>
      let name := match t with String "-" t' => t' | _ => t end in
      match name with
      | EmptyString => EndOfFlags
      | String "-" _ | String "=" _ => BadSyntax
      | _ => match cut_byte "=" name with Some (n, v) => Flag n (Some v) | None => Flag name None end
      end
  | _ => EndOfFlags
  end.

Definition set_text (name value : string) (f : flags) : option flags :=
  if String.eqb name "dsn" then Some (mkFlags value (export f) (anchorDir f) (asJSON f) (showVersion f))
  else if String.eqb name "export" then Some (mkFlags (dsn f) value (anchorDir f) (asJSON f) (showVersion f))
  else if String.eqb name "anchors" then Some (mkFlags (dsn f) (export f) value (asJSON f) (showVersion f)) else None.
Definition set_bool (name : string) (value : bool) (f : flags) : option flags :=
  if String.eqb name "json" then Some (mkFlags (dsn f) (export f) (anchorDir f) value (showVersion f))
  else if String.eqb name "version" then Some (mkFlags (dsn f) (export f) (anchorDir f) (asJSON f) value) else None.

(** An undefined flag, a missing value and a bad one end the program with 2; a call for help
    with 0. *)
Fixpoint parse_flags (args : list string) (f : flags) : parsed :=
  match args with
  | [] => Parsed f
  | s :: rest =>
      match read_arg s with
      | EndOfFlags => Parsed f
      | BadSyntax => BadUsage 2
      | Flag name value =>
          match set_bool name true f with
          | Some f' =>
              match value with
              | None => parse_flags rest f'
              | Some v => match parse_bool v with Some b => parse_flags rest (default f (set_bool name b f)) | None => BadUsage 2 end
              end
          | None =>
              match set_text name "" f with
              | None => BadUsage (if String.eqb name "help" || String.eqb name "h" then 0 else 2)
              | Some _ =>
                  match value, rest with
                  | Some v, _ => parse_flags rest (default f (set_text name v f))
                  | None, v :: rest' => parse_flags rest' (default f (set_text name v f))
                  | None, [] => BadUsage 2
                  end
              end
          end
      end
  end.

(** ** An export's lines *)

(** bufio.Scanner with room for lines of 64 MiB. *)
Definition max_line : Z := 64 * 1024 * 1024.
Fixpoint scan_long (lines : list string) : list string * bool :=
  match lines with
  | [] => ([], true)
  | l :: t =>
      if (max_line <=? Z.of_nat (String.length l))%Z then ([], false)
      else match t with
           | [] => (if String.eqb l "" then [] else [strip_cr l], true)
           | _ => let '(ls, ok) := scan_long t in (strip_cr l :: ls, ok)
           end
  end.
(** Every line that is not empty is a row; an error tells the line's number. *)
Fixpoint decode_numbered (path : string) (n : Z) (lines : list string) : outcome error (list Row) :=
  match lines with
  | [] => Ok []
  | l :: t =>
      if String.eqb l "" then decode_numbered path (n + 1) t else
      match Blackbox.DecodeRowJSON l with
      | Ok r => rest ← decode_numbered path (n + 1) t; Ok (r :: rest)
      | Err e => Err (Wrapf "%s line %d: %w" [path; format_int n] e)
      | Panic w => Panic w
      end
  end.
Definition read_text (path text : string) : outcome error (list Row) :=
  let '(lines, complete) := scan_long (Split nl text) in
  rows ← decode_numbered path 1 lines;
  if complete then Ok rows else Err (Errorf "bufio.Scanner: token too long" []).

(** ** The program *)

(** The texts of a result's rows, and whether reading them ended well. *)
Class ResultRows := { row_texts : reply → list string; rows_end : reply → bool }.

Section verifier.
Context {W : World} {En : Env} {T : ErrorText} {Ro : ResultRows}.

Definition readExport (path : string) : prog (list Row) :=
  r ← call (ReadFile path);
  if negb (rok r) then fail (CommandFailed (ReadFile path)) else lift (read_text path (rout r)).

Fixpoint decode_all (lines : list string) : outcome error (list Row) :=
  match lines with
  | [] => Ok []
  | l :: t => r ← Blackbox.DecodeRowJSON l; rest ← decode_all t; Ok (r :: rest)
  end.
Definition readDatabase (dsn : string) : prog (list Row) :=
  _ ← wrap "connecting: %w" [] (perform (CallOut "pgx.Connect" [dsn]));
  let ask := CallOut "conn.QueryRow" ["SELECT to_regclass('odb.ledger_ext') IS NOT NULL"] in
  e ← call ask;
  if negb (rok e) then fail (Wrapf "reading the ledger: %w" [] (CommandFailed ask)) else
  let query := CallOut "conn.Query" [Blackbox.RowsQuery (String.eqb (rout e) "true") ""] in
  rs ← call query;
  if negb (rok rs) then fail (Wrapf "reading the ledger: %w" [] (CommandFailed query)) else
  rows ← lift (decode_all (row_texts rs));
  if rows_end rs then mret rows else fail (CommandFailed query).

Definition read_rows (f : flags) : prog (list Row) :=
  if negb (String.eqb (export f) "") then readExport (export f) else readDatabase (dsn f).

Definition usage_line : string := "usage: odb-verify (--dsn <postgres-url> | --export <file.jsonl>) --anchors <dir> [--json]".
Definition stderr (text : string) : prog unit := ignore (CallOut "stderr" [text]).
(** The program's exit status. *)
Definition main (version_ : string) (args : list string) : prog Z :=
  match parse_flags args (mkFlags (getenv "DATABASE_URL") "" "" false false) with
  | BadUsage status => _ ← stderr usage_line; mret status
  | Parsed f =>
      if showVersion f then _ ← ignore (Print "odb-verify %s" [version_]); mret 0%Z else
      if String.eqb (anchorDir f) "" || (String.eqb (dsn f) "" && String.eqb (export f) "") then _ ← stderr usage_line; mret 2%Z else
      rows ← attempt (read_rows f);
      match rows with
      | inr e => _ ← stderr ("odb-verify: " +:+ Error e); mret 2%Z
      | inl rows =>
          anchors ← attempt (Blackbox.LoadAnchors (anchorDir f));
          match anchors with
          | inr e => _ ← stderr ("odb-verify: " +:+ Error e); mret 2%Z
          | inl anchors =>
              _ ← match anchors with
                  | [] => stderr ("odb-verify: warning: no anchor files in " +:+ anchorDir f +:+ " — only the hash chain can be checked")
                  | _ => mret tt
                  end;
              rep ← Blackbox.lift_never (Verify rows anchors);
              _ ← (if asJSON f then ignore (CallOut "json.Encode" ["os.Stdout"]) else ignore (Print "%s" [Texts.Summary rep []]));
              mret (if Intact rep then 0 else 1)%Z
          end
      end
  end.
End verifier.

(** ** The exit status *)

Section status.
Context {W : World} {En : Env} {T : ErrorText} {Ro : ResultRows}.

(** The rows and the anchors were read, and [rep] is what they come to. *)
Definition checked (f : flags) (h t : history) (rep : Report) : Prop :=
  ∃ rows anchors t1 t2 t3, t = t1 ++ t2 ++ t3 ∧ runs (read_rows f) h (Ok rows) t1
    ∧ runs (Blackbox.LoadAnchors (anchorDir f)) (h ++ t1) (Ok anchors) t2 ∧ Verify rows anchors = Ok rep.
(** There was nothing to check, or something could not be read. *)
Definition unread (f : flags) (h : history) : Prop :=
  anchorDir f = "" ∨ (dsn f = "" ∧ export f = "") ∨ (∃ e t, runs (read_rows f) h (Err e) t)
  ∨ ∃ e t1 t2 rows, runs (read_rows f) h (Ok rows) t1 ∧ runs (Blackbox.LoadAnchors (anchorDir f)) (h ++ t1) (Err e) t2.

Lemma said text h (k : prog Z) o t : runs (_ ← stderr text; k) h o t → ∃ h' u, runs k h' o u.
Proof. unfold stderr. intros [(x & t1 & t2 & _ & Hk & _)|[(e & [[=] _]%runs_ignore & _)|(w & [[=] _]%runs_ignore & _)]]%runs_bind. eauto. Qed.

(** The verifier's exit status is its verdict: 0 only when the rows and the anchors were
    read and found intact, 1 only when they were read and found tampered, 2 when the command
    is incomplete or something could not be read, and nothing else. *)
Theorem main_status version_ args f h s t :
  parse_flags args (mkFlags (getenv "DATABASE_URL") "" "" false false) = Parsed f → showVersion f = false →
  runs (main version_ args) h (Ok s) t →
  (s = 0%Z ∧ ∃ rep, checked f h t rep ∧ Intact rep = true)
  ∨ (s = 1%Z ∧ ∃ rep, checked f h t rep ∧ Intact rep = false)
  ∨ (s = 2%Z ∧ unread f h).
Proof.
  intros Hp Hv Hr. unfold main in Hr. rewrite Hp, Hv in Hr.
  destruct (String.eqb (anchorDir f) "" || (String.eqb (dsn f) "" && String.eqb (export f) "")) eqn:Hu.
  { apply said in Hr as (h' & u & [[= ->] _]%runs_ret). right. right. split; [done|].
    apply orb_true_iff in Hu as [Hu%String.eqb_eq|[Hu1%String.eqb_eq Hu2%String.eqb_eq]%andb_true_iff]; [by left|right; by left]. }
  apply runs_bind_ok in Hr as ([rows|e] & t1 & t2 & Ha & Hr & ->); apply runs_attempt in Ha as [(r & Ha & [= Hx])|[(e' & Ha & [= Hx])|(w & _ & [=])]]; subst.
  2: { apply said in Hr as (h' & u & [[= ->] _]%runs_ret). right. right. split; [done|]. right. right. left. eauto. }
  apply runs_bind_ok in Hr as ([anchors|e] & t3 & t4 & Hb & Hr & ->); apply runs_attempt in Hb as [(r' & Hb & [= Hx])|[(e' & Hb & [= Hx])|(w & _ & [=])]]; subst.
  2: { apply said in Hr as (h' & u & [[= ->] _]%runs_ret). right. right. split; [done|]. right. right. right. eauto 8. }
  apply runs_bind_ok in Hr as ([] & t5 & t6 & _ & Hr & ->). apply runs_bind_ok in Hr as (rep & t7 & t8 & Hl & Hr & ->).
  assert (Verify r r' = Ok rep) as Hver by (destruct (Verify r r') as [x|[]|w]; cbn in Hl; [by apply runs_ret in Hl as [[= ->] _]|by apply runs_lift in Hl as [[=] _]]).
  apply runs_bind_ok in Hr as ([] & t9 & t10 & _ & [[= ->] _]%runs_ret & ->).
  assert (checked f h (t1 ++ t3 ++ t5 ++ t7 ++ t9 ++ t10) rep) as Hc by (exists r, r', t1, t3, (t5 ++ t7 ++ t9 ++ t10); done).
  destruct (Intact rep) eqn:Hi; [left|right; left]; eauto.
Qed.
End status.

(** ** An export is read back *)

Lemma drop_spaces_shape s2 s3 l : ∃ p, l = p ++ drop_spaces s2 s3 l ∧ match drop_spaces s2 s3 l with c :: _ => space1 c = false | [] => True end.
Proof.
  remember (List.length l) as n eqn:Hn. assert (List.length l <= n)%nat as Hl by lia. clear Hn. revert l Hl.
  induction n as [|n IH]; intros l Hl; [destruct l; [by exists []|cbn in Hl; lia]|].
  destruct l as [|c r]; [by exists []|]. cbn in Hl. cbn [drop_spaces]. destruct (space1 c) eqn:Hc.
  { destruct (IH r ltac:(lia)) as (p & Hp & Hs). exists (c :: p). split; [cbn [app]; congruence|done]. }
  destruct r as [|d r2]; [by exists []|]. cbn in Hl. destruct (s2 c d).
  { destruct (IH r2 ltac:(lia)) as (p & Hp & Hs). exists (c :: d :: p). split; [cbn [app]; congruence|done]. }
  destruct r2 as [|e r3]; [by exists []|]. cbn in Hl. destruct (s3 c d e).
  { destruct (IH r3 ltac:(lia)) as (p & Hp & Hs). exists (c :: d :: e :: p). split; [cbn [app]; congruence|done]. }
  by exists [].
Qed.

(** A trimmed line has no byte its text has not, and does not end in white space. *)
Lemma TrimSpace_bytes c s : has_byte c s = false → has_byte c (TrimSpace s) = false.
Proof.
  rewrite !has_byte_false. intros Hc. unfold TrimSpace, TrimRightSpace, TrimLeftSpace. rewrite !to_of_bytes.
  intros H. rewrite elem_of_reverse in H. destruct (drop_spaces_shape (λ d c, space2 c d) (λ e d c, space3 c d e) (reverse (drop_spaces space2 space3 (to_bytes s)))) as (p & Hp & _).
  assert (c ∈ reverse (drop_spaces space2 space3 (to_bytes s))) as H1 by (rewrite Hp; apply elem_of_app; right; exact H). rewrite elem_of_reverse in H1.
  destruct (drop_spaces_shape space2 space3 (to_bytes s)) as (q & Hq & _). apply Hc. rewrite Hq. apply elem_of_app. by right.
Qed.
Lemma TrimSpace_end c s r : space1 c = true → TrimSpace s ≠ r +:+ str1 c.
Proof.
  intros Hc Hs. apply (f_equal (reverse ∘ to_bytes)) in Hs. cbn [compose] in Hs. rewrite to_bytes_app, reverse_app in Hs.
  unfold TrimSpace, TrimRightSpace in Hs. rewrite to_of_bytes, reverse_involutive in Hs.
  destruct (drop_spaces_shape (λ d c, space2 c d) (λ e d c, space3 c d e) (reverse (to_bytes (TrimLeftSpace s)))) as (p & _ & Hp).
  rewrite Hs in Hp. cbn in Hp. congruence.
Qed.

Lemma strip_cr_trimmed s : strip_cr (TrimSpace s) = TrimSpace s.
Proof.
  unfold strip_cr, TrimSuffix. destruct (strip_suffix (str1 "013") (TrimSpace s)) as [r|] eqn:Hs; [|done].
  apply strip_suffix_Some in Hs. by apply TrimSpace_end in Hs.
Qed.

Definition whole_line (l : string) : Prop := has_byte nl l = false ∧ strip_cr l = l ∧ l ≠ "" ∧ (Z.of_nat (String.length l) < max_line)%Z.

Lemma output_lines_whole out l : l ∈ output_lines out → (Z.of_nat (String.length l) < max_line)%Z → whole_line l.
Proof.
  intros Hl Hm. unfold output_lines in Hl. apply list_elem_of_In, filter_In in Hl as [Hl Hne]. apply list_elem_of_In, list_elem_of_fmap in Hl as (x & -> & Hx).
  split_and!; [|apply strip_cr_trimmed| |done].
  - apply TrimSpace_bytes. pose proof (Split_pieces nl out) as Hall. rewrite Forall_forall in Hall. by apply Hall.
  - intros Hz. by rewrite Hz in Hne.
Qed.

Definition file_of (lines : list string) : string := String.concat "" ((λ l, l +:+ str1 nl) <$> lines).

Lemma scan_written lines : Forall whole_line lines → scan_long (Split nl (file_of lines)) = (lines, true).
Proof.
  induction 1 as [|l ls (Hn & Hc & Hne & Hm) _ IH]; [done|].
  assert (file_of (l :: ls) = l +:+ String nl (file_of ls)) as ->.
  { unfold file_of. cbn [fmap list_fmap]. destruct ((λ l, l +:+ str1 nl) <$> ls) as [|x xs]; [done|]. change (String.concat "" ((l +:+ str1 nl) :: x :: xs)) with ((l +:+ str1 nl) +:+ String.concat "" (x :: xs)). by rewrite sapp_assoc. }
  rewrite Split_app by done. cbn [scan_long]. rewrite (proj2 (Z.leb_gt _ _)) by done.
  destruct (Split nl (file_of ls)) as [|y ys] eqn:Hs; [by apply Split_nonempty in Hs|]. by rewrite IH, Hc.
Qed.

Lemma ok_bind {A B} (m m' : outcome error A) (f : A → B) b : (∀ a, m = Ok a ↔ m' = Ok a) → ((a ← m; Ok (f a)) = Ok b ↔ (a ← m'; Ok (f a)) = Ok b).
Proof.
  intros H. destruct m as [a|e|w]; [by rewrite (proj1 (H a) eq_refl)|..];
    (destruct m' as [a'|e'|w']; [by pose proof (proj2 (H a') eq_refl)|done|done]).
Qed.

Lemma decode_numbered_lines path n lines rows : Forall (λ l, l ≠ "") lines →
  decode_numbered path n lines = Ok rows ↔ decode_all lines = Ok rows.
Proof.
  intros Hl. revert n rows. induction Hl as [|l ls Hne _ IH]; intros n rows; [done|]. cbn [decode_numbered decode_all].
  rewrite (proj2 (String.eqb_neq _ _) Hne). destruct (Blackbox.DecodeRowJSON l) as [r|e|w]; [|done..]. apply (ok_bind _ _ (cons r)), IH.
Qed.

Lemma decode_lines_json lines rows :
  Blackbox.decode_lines Blackbox.DecodeRowJSON lines = Ok rows ↔ decode_all (filter (λ l, HasPrefix l "{" = true) lines) = Ok rows.
Proof.
  revert rows. induction lines as [|l ls IH]; intros rows; [done|]. cbn [Blackbox.decode_lines]. destruct (HasPrefix l "{") eqn:Hp; cbn [negb].
  - rewrite filter_cons_True by done. cbn [decode_all]. destruct (Blackbox.DecodeRowJSON l) as [r|e|w]; [|done..]. apply (ok_bind _ _ (cons r)), IH.
  - rewrite filter_cons_False by congruence. apply IH.
Qed.

(** What a run wrote to [w]. *)
Definition wrote (w : string) (e : event) : option string :=
  match e.1 with CallOut what [w'; text] => if String.eqb what "io.WriteString" && String.eqb w' w then Some text else None | _ => None end.
Definition written (w : string) (t : history) : string := String.concat "" (omap (wrote w) t).

Section export.
Context {W : World} {En : Env} {T : ErrorText}.

Lemma written_lines w lines h t : runs (for_each (λ l, when (HasPrefix l "{") (perform (CallOut "io.WriteString" [w; l +:+ str1 nl]))) lines) h (Ok tt) t →
  written w t = file_of (filter (λ l, HasPrefix l "{" = true) lines).
Proof.
  assert (∀ (x : string) xs, String.concat "" (x :: xs) = x +:+ String.concat "" xs) as Hcons by (by intros x [|y ys]; [by rewrite sapp_nil_r|]).
  unfold written, file_of. revert h t. induction lines as [|l ls IH]; intros h t; [by intros [_ ->]%runs_ret|]. cbn [for_each].
  intros ([] & t1 & t2 & H1 & H2 & ->)%runs_bind_ok. rewrite omap_app. destruct (HasPrefix l "{") eqn:Hp; cbn [when] in H1.
  - apply runs_perform in H1 as [H1 _]. rewrite H1. cbn [omap list_omap]. unfold wrote at 1. cbn [fst]. rewrite !String.eqb_refl. cbn [andb app].
    rewrite filter_cons_True by done. cbn [fmap list_fmap]. by rewrite !Hcons, (IH _ _ H2).
  - apply runs_ret in H1 as [_ ->]. rewrite filter_cons_False by congruence. apply (IH _ _ H2).
Qed.

Definition writes (a : action) : bool := match a with CallOut what _ => String.eqb what "io.WriteString" | _ => false end.
Lemma wrote_nothing w t : Forall (λ e, writes e.1 = false) t → omap (wrote w) t = [].
Proof.
  induction 1 as [|[a r] t Ha _ IH]; [done|]. cbn [omap list_omap]. rewrite IH. cbn in Ha. unfold wrote. cbn [fst].
  destruct a as [| | | | | | | | | | | | |what [|w' [|text [|]]]]; try done. cbn in Ha. by rewrite Ha.
Qed.

Lemma ledgerV2Tables_quiet name : emits (λ a, writes a = false) (Blackbox.ledgerV2Tables name).
Proof. unfold Blackbox.ledgerV2Tables, ledgerLines. emits_go; done. Qed.

Definition export_query (name : string) (withExt : bool) : action :=
  sudo (psql_c (container name) ["-X"; "-q"; "-t"; "-A"; "-v"; "ON_ERROR_STOP=1"; "-c"] (Blackbox.ExportQuery withExt)).

(** C11. An export is read back as the ledger it was made of: from what an export wrote, the
    offline verifier reads exactly the rows that the engine itself reads in the answer of the
    query, where no line reaches the verifier's 64 MiB. *)
Theorem export_read_back name w h t : runs (Blackbox.ExportLedger name w) h (Ok tt) t →
  ∃ name' withExt r, (export_query name' withExt, r) ∈ t
  ∧ ((∀ l, l ∈ output_lines (rout r) → (Z.of_nat (String.length l) < max_line)%Z) →
     ∀ path rows, read_text path (written w t) = Ok rows ↔ Blackbox.decode_lines Blackbox.DecodeRowJSON (output_lines (rout r)) = Ok rows).
Proof.
  unfold Blackbox.ExportLedger. intros (name' & t0 & t1 & Hn & Hr & ->)%runs_bind_ok. apply runs_lift in Hn as [_ ->].
  apply runs_bind_ok in Hr as ([withExt x] & t2 & t3 & H2 & Hr & ->). pose proof (emits_runs _ _ _ _ _ (ledgerV2Tables_quiet name') H2) as Hq2.
  apply runs_bind_ok in Hr as (lines & t4 & t5 & H4 & Hr & ->). unfold ledgerLines in H4.
  apply runs_call_bind in H4 as (u & Hl & ->). destruct (rok _) eqn:Hok; [|by apply runs_lift in Hl as [[=] _]].
  apply runs_ret in Hl as [[= ->] ->]. fold (export_query name' withExt) in *. set (r := answer _ _) in *.
  exists name', withExt, r. split; [cbn; rewrite elem_of_app; right; left|].
  intros Hlong path rows. set (out := output_lines _) in *.
  assert (written w ([] ++ t2 ++ ((export_query name' withExt, r) :: []) ++ t5) = file_of (filter (λ l, HasPrefix l "{" = true) out)) as Hw.
  { rewrite <-(written_lines w out _ t5 Hr). unfold written. cbn [app]. rewrite omap_app, (wrote_nothing w t2) by done. done. }
  assert (Forall whole_line (filter (λ l, HasPrefix l "{" = true) out)) as Hwhole.
  { apply Forall_forall. intros l [_ Hl]%list_elem_of_filter. apply (output_lines_whole (rout r)); [done|by apply Hlong]. }
  rewrite Hw. unfold read_text. rewrite scan_written by done. rewrite decode_lines_json, <-(decode_numbered_lines path 1).
  - by destruct (decode_numbered _ _ _).
  - eapply Forall_impl; [exact Hwhole|]. by intros l (_ & _ & ? & _).
Qed.
End export.

(** ** Examples *)

Module Sample.
#[export] Instance texts : ResultRows := {| row_texts := λ r, [rout r]; rows_end := λ _, true |}.
#[export] Instance plain_errors : ErrorText := {| failure_text := λ _, "failed" |}.
#[export] Existing Instance Blackbox.anchor_env.
(** An export of one row, no anchors; and one whose row was changed. *)
Definition exported (text : string) : World := {| answer := λ _ x,
  match x with ReadFile _ => mkReply true text "" 0 | _ => mkReply false "" "" 1 end |}.
Definition command : list string := ["--export"; "main.jsonl"; "-anchors=/a"].

Example flags_read : parse_flags ["-json"; "--anchors"; "d"; "--dsn=x=y"; "rest"; "-zz"] (mkFlags "" "" "" false false) = Parsed (mkFlags "x=y" "" "d" true false)
  ∧ parse_flags ["--nope"] (mkFlags "" "" "" false false) = BadUsage 2 ∧ parse_flags ["-h"] (mkFlags "" "" "" false false) = BadUsage 0.
Proof. done. Qed.

Lemma main_status_witness :
  match main (W := exported (Blackbox.sample_line +:+ str1 nl)) "v1" command [] with
  | (Ok s, t) => ∃ rep, checked (W := exported (Blackbox.sample_line +:+ str1 nl)) (mkFlags "" "main.jsonl" "/a" false false) [] t rep ∧ Intact rep = true
  | _ => False
  end.
Proof.
  destruct (main (W := exported (Blackbox.sample_line +:+ str1 nl)) "v1" command []) as [o t] eqn:Hr.
  assert (o = Ok 0%Z) as -> by (vm_compute in Hr; by injection Hr as <- _).
  destruct (main_status (W := exported (Blackbox.sample_line +:+ str1 nl)) "v1" command (mkFlags "" "main.jsonl" "/a" false false) [] 0 t)
    as [[_ H]|[[H _]|[H _]]]; [vm_compute; reflexivity|reflexivity|exact Hr|exact H|discriminate H..].
Defined.

Lemma export_read_back_witness :
  match Blackbox.ExportLedger (W := Blackbox.one_row_world) "dev" "os.Stdout" [] with
  | (Ok tt, t) => is_ok (read_text "f" (written "os.Stdout" t)) = true
      ∧ ∃ r, (∀ l, l ∈ output_lines (rout r) → (Z.of_nat (String.length l) < max_line)%Z) →
          ∀ path rows, read_text path (written "os.Stdout" t) = Ok rows ↔ Blackbox.decode_lines Blackbox.DecodeRowJSON (output_lines (rout r)) = Ok rows
  | _ => False
  end.
Proof.
  destruct (Blackbox.ExportLedger (W := Blackbox.one_row_world) "dev" "os.Stdout" []) as [o t] eqn:Hr.
  assert (o = Ok tt ∧ is_ok (read_text "f" (written "os.Stdout" t)) = true) as [-> Ho] by (vm_compute in Hr; by injection Hr as <- <-).
  split; [exact Ho|].
  destruct (export_read_back (W := Blackbox.one_row_world) "dev" "os.Stdout" [] t Hr) as (name' & withExt & r & _ & H). by exists r.
Defined.
End Sample.
