(* ===== verification/Injection.v ===== *)
(** * What the values of a script can do to it

    The SQL the engine sends is text made from values: names, patterns, statements,
    connection strings. For the scripts of the type [script] every value is read as one
    literal or name, whatever it holds, and so it is for the filters of the Blackbox view.
    For the scripts that put a quoted value inside a dollar-quoted block (the roles of
    branch.go and security.go), it is not: an account's e-mail can close the block. Not
    covered: the tables an import makes with a list of columns, a pipeline's models and
    custom tests, and its list of accepted values. *)
From S2P Require Import Prelude GoStrings GoNum GoRunes Sql Statement Json Effects Storage Container HA Branch Blackbox Policy Impact Documents MySQL Import Recovery Provenance Pipeline Web Server.
Open Scope string_scope.
Open Scope list_scope.

(** ** Scripts made by quoting *)

Inductive script : Type :=
| AddRule (r : PolicyRule) (actor : string)
| UpdateRule (ruleID : string) (action : option string) (enabled : option bool) (actor : string)
| RemoveRule (ruleID actor : string)
| CheckStatement (tag statement : string)
| AskAdmin (email : string)
| BlastRadius (object column : string)
| Present (object column : string)
| StartSession (s : AgentSession)
| ListTables (db : string)
| ListColumns (db table : string)
| Subscribe (source : string)
| SessionDefaults (p : Provenance.Provenance)
| MakeStage (stage : string)
| StageDocument (stage raw : string)
| StageKeys (stage : string)
| KeepDocuments (stage table : string)
| TestNotNull (model column : string)
| TestUnique (model column : string).

Definition sql_text (s : script) : string :=
  match s with
  | AddRule r actor => addRuleSQL r actor
  | UpdateRule id action enabled actor => updateRuleSQL id action enabled actor
  | RemoveRule id actor => removeRuleSQL id actor
  | CheckStatement tag stmt => checkQuery tag stmt
  | AskAdmin email => isAdminQuery email
  | BlastRadius o c => blastQuery o c
  | Present o c => presenceQuery o c
  | StartSession s => startSessionSQL s
  | ListTables db => tablesQuery db
  | ListColumns db t => columnsQuery db t
  | Subscribe source => subscription source
  | SessionDefaults p => sessionDefaultsSQL p
  | MakeStage stage => stage_sql (sqlIdent stage)
  | StageDocument stage raw => insert_doc (sqlIdent stage) raw
  | StageKeys stage => keysQuery (sqlIdent stage)
  | KeepDocuments stage table => keep_sql (sqlIdent stage) (sqlIdent table)
  | TestNotNull model column => not_null_query (in_public model) (sqlIdent column)
  | TestUnique model column => unique_query (in_public model) (sqlIdent column)
  end.

(** The name that sqlIdent quotes: the first 63 bytes. *)
Definition ident_name (s : string) : string :=
  let s := if (63 <? String.length s)%nat then substring 0 63 s else s in if String.eqb s "" then "col" else s.

(** A value that is left out when it is empty. *)
Definition given (p : option string) : bool := match p with Some s => negb (String.eqb s "") | None => false end.
Definition given_values (p : option string) : list string := if given p then [default "" p] else [].
Definition opt (b : bool) : hole := if b then TextHole else Lit "NULL".

(** What a script's template depends on: which values it has, not what they hold. *)
Inductive kind : Type :=
| KAdd (pattern hint : bool)
| KUpdate (action : bool) (enabled : option bool)
| KRemove | KCheck | KAdmin | KBlast (column : bool) | KPresent (column : bool) | KSession (parent task tool : bool)
| KTables | KColumns | KSubscribe | KDefaults (session task parent : bool)
| KMakeStage | KStage | KKeys | KKeep | KNotNull | KUnique.

Definition kind_of (s : script) : kind :=
  match s with
  | AddRule r _ => KAdd (given (Pattern r)) (given (Hint r))
  | UpdateRule _ action enabled _ => KUpdate (match action with Some _ => true | None => false end) enabled
  | RemoveRule _ _ => KRemove
  | CheckStatement _ _ => KCheck
  | AskAdmin _ => KAdmin
  | BlastRadius _ c => KBlast (given (Some c))
  | Present _ c => KPresent (given (Some c))
  | StartSession s => KSession (given (SParent s)) (given (STask s)) (given (STool s))
  | ListTables _ => KTables
  | ListColumns _ _ => KColumns
  | Subscribe _ => KSubscribe
  | SessionDefaults p => KDefaults (given (Some (VSession p))) (given (Some (VTask p))) (given (Some (VParent p)))
  | MakeStage _ => KMakeStage
  | StageDocument _ _ => KStage
  | StageKeys _ => KKeys
  | KeepDocuments _ _ => KKeep
  | TestNotNull _ _ => KNotNull
  | TestUnique _ _ => KUnique
  end.

Definition values (s : script) : list string :=
  match s with
  | AddRule r actor => [policyActor actor; RuleID r; RCommand r] ++ given_values (Pattern r) ++ [RAction r; Reason r]
                       ++ given_values (Hint r) ++ [policyActor actor]
  | UpdateRule id action _ actor => [policyActor actor] ++ (match action with Some a => [a] | None => [] end) ++ [policyActor actor; id]
  | RemoveRule id actor => [policyActor actor; id; id]
  | CheckStatement tag stmt => [tag; stmt]
  | AskAdmin email => [email]
  | BlastRadius o c => o :: given_values (Some c)
  | Present o c => given_values (Some c) ++ given_values (Some c) ++ [o]
  | StartSession s => [SSession s; SAgent s] ++ given_values (SParent s) ++ given_values (STask s) ++ given_values (STool s)
  | ListTables db => [db]
  | ListColumns db t => [db; t]
  | Subscribe source => [source]
  | SessionDefaults p => given_values (Some (VSession p)) ++ given_values (Some (VTask p)) ++ given_values (Some (VParent p))
  | MakeStage stage => [ident_name stage; ident_name stage]
  | StageDocument stage raw => [ident_name stage; raw]
  | StageKeys stage => [ident_name stage]
  | KeepDocuments stage table => [ident_name table; ident_name stage; ident_name table]
  | TestNotNull model column => [ident_name model; ident_name column]
  | TestUnique model column => [ident_name column; ident_name model; ident_name column]
  end.

Definition with_actor (t : list hole) : list hole :=
  [Lit "SELECT set_config('odb.actor', "; TextHole; Lit (", true) IS NOT NULL;" +:+ str1 nl)] ++ t.

(** One connection setting of a branch, set or reset. *)
Definition default_holes (guc : string) (b : bool) : list hole :=
  if b then [Lit ("ALTER DATABASE " +:+ pgDatabase +:+ " SET " +:+ guc +:+ " = "); TextHole; Lit (";" +:+ str1 nl)]
  else [Lit ("ALTER DATABASE " +:+ pgDatabase +:+ " RESET " +:+ guc +:+ ";" +:+ str1 nl)].

Definition template (k : kind) : list hole :=
  match k with
  | KAdd p h => with_actor
      [Lit ("WITH ins AS (" +:+ str1 nl
        +:+ "  INSERT INTO odb.policy_rules (rule_id, command_tag, pattern, action, reason, hint, enabled, updated_by)" +:+ str1 nl
        +:+ "  VALUES ("); TextHole; Lit ", "; TextHole; Lit ", "; opt p; Lit ", "; TextHole; Lit ", "; TextHole; Lit ", "; opt h;
       Lit ", true, "; TextHole;
       Lit (")" +:+ str1 nl +:+ "  ON CONFLICT (rule_id) DO NOTHING RETURNING rule_id)" +:+ str1 nl +:+ "SELECT 'added' FROM ins;")]
  | KUpdate a e => with_actor
      [Lit ("WITH u AS (" +:+ str1 nl +:+ "  UPDATE odb.policy_rules SET action = coalesce(");
       (if a then TextHole else Lit "NULL::text");
       Lit (", action), enabled = coalesce(" +:+ (match e with Some true => "true" | Some false => "false" | None => "NULL::boolean" end)
         +:+ ", enabled)," +:+ str1 nl +:+ "         updated_at = clock_timestamp(), updated_by = "); TextHole;
       Lit (str1 nl +:+ "  WHERE rule_id = "); TextHole; Lit (" RETURNING 1)" +:+ str1 nl +:+ "SELECT 'updated' FROM u;")]
  | KRemove => with_actor
      [Lit "WITH d AS (DELETE FROM odb.policy_rules WHERE rule_id = "; TextHole;
       Lit (" AND NOT builtin RETURNING 1)" +:+ str1 nl +:+ "SELECT 'removed' FROM d" +:+ str1 nl
         +:+ "UNION ALL SELECT 'builtin' FROM odb.policy_rules WHERE rule_id = "); TextHole; Lit " AND builtin;"]
  | KCheck => [Lit "SELECT odb.policy_check("; TextHole; Lit ", "; TextHole; Lit ")::text"]
  | KAdmin =>
      [Lit ("SELECT CASE WHEN to_regrole('odb_admin') IS NULL THEN false ELSE" +:+ str1 nl
        +:+ "  coalesce((SELECT rolsuper OR pg_has_role(oid, 'odb_admin', 'MEMBER') FROM pg_roles WHERE rolname = ");
       TextHole; Lit "), false) END"]
  | KBlast c => [Lit "SELECT odb.blast_radius("; TextHole; Lit ", "; opt c; Lit ", 5)::text"]
  | KPresent c =>
      [Lit "SELECT coalesce((SELECT CASE WHEN "; opt c; Lit (" IS NULL THEN true ELSE EXISTS (" +:+ str1 nl
         +:+ "    SELECT 1 FROM pg_attribute a WHERE a.attrelid = r AND a.attname = "); opt c;
       Lit (" AND a.attnum > 0 AND NOT a.attisdropped) END" +:+ str1 nl +:+ "  FROM to_regclass("); TextHole;
       Lit ") AS r WHERE r IS NOT NULL), false)"]
  | KSession p t o =>
      [Lit ("INSERT INTO odb.agent_sessions (session_id, agent_id, parent_session_id, task_id, tool)" +:+ str1 nl +:+ "VALUES (");
       TextHole; Lit ", "; TextHole; Lit ", "; opt p; Lit ", "; opt t; Lit ", "; opt o; Lit ") ON CONFLICT (session_id) DO NOTHING"]
  | KTables =>
      [Lit "SELECT table_name FROM information_schema.tables WHERE table_schema="; TextHole;
       Lit " AND table_type='BASE TABLE' ORDER BY table_name"]
  | KColumns =>
      [Lit ("SELECT column_name, data_type, column_type, is_nullable, column_key, extra "
         +:+ "FROM information_schema.columns WHERE table_schema="); TextHole; Lit " AND table_name="; TextHole;
       Lit " ORDER BY ordinal_position"]
  | KSubscribe => [Lit "CREATE SUBSCRIPTION odb_sub CONNECTION "; TextHole; Lit " PUBLICATION odb_pub;"]
  | KDefaults s t p => default_holes "odb.session" s ++ default_holes "odb.task" t ++ default_holes "odb.parent_session" p
  | KMakeStage =>
      [Lit "DROP TABLE IF EXISTS "; NameHole; Lit "; CREATE TABLE "; NameHole; Lit " (id bigserial PRIMARY KEY, doc jsonb);"]
  | KKeys =>
      [Lit "SELECT e.key || chr(9) || coalesce(jsonb_typeof(e.value),'null') FROM "; NameHole;
       Lit " s, LATERAL jsonb_each(s.doc) e WHERE jsonb_typeof(s.doc)='object' GROUP BY 1"]
  | KKeep => [Lit "DROP TABLE IF EXISTS "; NameHole; Lit "; ALTER TABLE "; NameHole; Lit " RENAME TO "; NameHole; Lit ";"]
  | KNotNull => [Lit "SELECT count(*) FROM public."; NameHole; Lit " WHERE "; NameHole; Lit " IS NULL"]
  | KUnique =>
      [Lit "SELECT count(*) FROM (SELECT "; NameHole; Lit " FROM public."; NameHole; Lit " GROUP BY "; NameHole;
       Lit " HAVING count(*)>1) x"]
  | KStage => [Lit "INSERT INTO "; NameHole; Lit "(doc) VALUES ("; TextHole; Lit ("::jsonb);" +:+ str1 nl)]
  end.

Lemma opt_text p : sqlTextOrNull p = if given p then quoteLiteral (default "" p) else "NULL".
Proof. destruct p as [s|]; [|done]. cbn. by destruct (String.eqb s ""). Qed.

Lemma set_default_text guc v :
  set_default guc v = if given (Some v) then "ALTER DATABASE " +:+ pgDatabase +:+ " SET " +:+ guc +:+ " = " +:+ quoteLiteral v +:+ ";" +:+ str1 nl
                      else "ALTER DATABASE " +:+ pgDatabase +:+ " RESET " +:+ guc +:+ ";" +:+ str1 nl.
Proof. unfold set_default, given. destruct (String.eqb v ""); cbn [negb]; by rewrite !sapp_assoc. Qed.

(** The cases a script's text depends on. *)
Ltac by_kind := repeat match goal with
  | |- context [if given ?p then _ else _] => destruct (given p)
  | o : option _ |- _ => destruct o
  | b : bool |- _ => destruct b
  end.

Lemma script_fill s : sql_text s = fill (template (kind_of s)) (values s).
Proof.
  destruct s; cbn [sql_text kind_of template values];
    unfold addRuleSQL, updateRuleSQL, removeRuleSQL, checkQuery, isAdminQuery, blastQuery, presenceQuery, startSessionSQL,
      tablesQuery, columnsQuery, subscription, sessionDefaultsSQL, default_holes, stage_sql, insert_doc, keysQuery, keep_sql,
      not_null_query, unique_query, in_public, withActor, with_actor, lines_of, given_values, opt;
    change sqlQuote with quoteLiteral; change sqlIdent with (λ s, pgIdent (ident_name s)); rewrite ?opt_text, ?set_default_text; by_kind;
    cbn [fill app List.app Join default from_option]; rewrite ?sapp_assoc, ?sapp_nil_r;
    first [reflexivity | unfold quoteLiteral; rewrite ?sapp_assoc; reflexivity].
Qed.

Lemma script_values s : List.length (values s) = holes (template (kind_of s)).
Proof. destruct s; cbn [kind_of template values]; unfold given_values, opt; by_kind; reflexivity. Qed.

Lemma template_sound k : is_Some (plug (template k) (List.repeat "" (holes (template k))) []).
Proof. destruct k; by_kind; eexists; vm_compute; reflexivity. Qed.

(** C8. No value can change what a script of the type [script] does: the script is its
    template's fixed code with each value read as one whole literal, or one whole name
    (cut to 63 bytes where sqlIdent makes it), whatever bytes the value holds. The scripts
    that make login roles are not among them ([role_sql_escapes]). *)
Theorem scripts_quote s :
  ∃ l, plug (template (kind_of s)) (values s) [] = Some l ∧ sql_read (sql_text s) = Some l.
Proof.
  destruct (plug_any (template (kind_of s)) (List.repeat "" (holes (template (kind_of s)))) (values s) []) as [l Hl].
  - apply List.repeat_length.
  - apply script_values.
  - apply template_sound.
  - exists l. split; [done|]. rewrite script_fill. exact (plug_reads _ _ [] [] l Hl).
Qed.

(** ** Scripts in a dollar-quoted block *)

Definition role_body (extra nosuper role password : string) : string :=
  str1 nl +:+ "DECLARE r text := " +:+ quoteLiteral role +:+ ";" +:+ str1 nl
  +:+ "BEGIN" +:+ str1 nl
  +:+ "  IF NOT EXISTS (SELECT 1 FROM pg_roles WHERE rolname = r) THEN" +:+ str1 nl
  +:+ "    EXECUTE format('CREATE ROLE %I LOGIN NOSUPERUSER NOCREATEROLE NOCREATEDB " +:+ extra
  +:+ "INHERIT IN ROLE odbclient', r);" +:+ str1 nl
  +:+ "  END IF;" +:+ str1 nl
  +:+ "  EXECUTE format('ALTER ROLE %I WITH LOGIN " +:+ nosuper +:+ "PASSWORD %L', r, " +:+ quoteLiteral password +:+ ");" +:+ str1 nl
  +:+ "  EXECUTE format('ALTER ROLE %I SET role = odbclient', r);" +:+ str1 nl
  +:+ "END ".

Lemma role_sql_body extra nosuper role password :
  role_sql extra nosuper role password = "DO $do$" +:+ role_body extra nosuper role password +:+ "$do$;".
Proof. unfold role_sql, role_body, lines_of. cbn [Join]. by rewrite !sapp_assoc. Qed.

(** A dollar-quoted body is taken over as it stands while it holds no dollar sign. *)
Lemma read_body_go tag s cur out : has_byte "$" s = false →
  read_more (mkReader (InBody tag) cur out) s = mkReader (InBody tag) (reverse (to_bytes s) ++ cur) out.
Proof.
  revert cur. induction s as [|c s IH]; intros cur Hs; [done|]. unfold has_byte in Hs. cbn [to_bytes existsb] in Hs.
  apply orb_false_iff in Hs as [Hc Hs]. change (read_more ?r (String c s)) with (read_more (step r c) s). cbn [step].
  assert (body_end tag (c :: cur) = None) as ->.
  { unfold body_end. rewrite bool_decide_eq_false_2; [done|].
    intros Hd. cbn [List.length take] in Hd. injection Hd as -> _. by rewrite Ascii.eqb_refl in Hc. }
  rewrite IH by done. by rewrite to_bytes_cons, reverse_cons, <- app_assoc.
Qed.

Lemma has_byte_quote c s : c ≠ "'"%char → has_byte c (quoteLiteral s) = has_byte c s.
Proof.
  intros Hc. unfold quoteLiteral. rewrite !has_byte_app.
  assert (has_byte c "'" = false) as Hq by (unfold has_byte; cbn; by rewrite (proj2 (Ascii.eqb_neq c "'"))).
  rewrite Hq, orb_false_r. cbn [orb]. induction s as [|d s IH]; [done|]. cbn [ReplaceByte]. rewrite has_byte_app, IH.
  unfold has_byte at 3. cbn [to_bytes existsb]. f_equal. destruct (Ascii.eqb_spec "'" d) as [<-|].
  - unfold has_byte. cbn. by rewrite !(proj2 (Ascii.eqb_neq c "'")).
  - unfold has_byte. cbn. by rewrite orb_false_r.
Qed.

(** A body without dollar signs ends at the tag that follows it. *)
Lemma read_do_end cur out : "$"%char ∉ cur →
  read_more (mkReader (InBody ["d"; "o"]%char) cur out) "$do$" = mkReader InCode [] (Body "do" (text_of cur) :: out).
Proof.
  intros Hc. change "$do$" with ("$" +:+ "do" +:+ "$"). rewrite !read_more_app.
  assert (read_more (mkReader (InBody ["d"; "o"]%char) cur out) "$"
          = mkReader (InBody ["d"; "o"]%char) ("$"%char :: cur) out) as ->.
  { change (read_more ?r "$") with (step r "$"). cbn [step]. unfold body_end. rewrite bool_decide_eq_false_2; [done|].
    intros H. apply Hc. cbn [List.length take reverse rev_append] in H. apply (f_equal (drop 1)) in H. cbn in H.
    destruct cur as [|a [|b [|c cur]]]; try done. injection H as -> -> ->. set_solver. }
  rewrite read_body_go by done. change (read_more ?r "$") with (step r "$"). cbn [step]. unfold body_end.
  rewrite bool_decide_eq_true_2 by done. done.
Qed.

Lemma read_block s t : has_byte "$" s = false →
  read_more start ("DO $do$" +:+ s +:+ "$do$" +:+ t) = read_more (mkReader InCode [] [Body "do" s; Code "DO "]) t.
Proof.
  intros Hs. rewrite !read_more_app.
  change (read_more start "DO $do$") with (mkReader (InBody ["d"; "o"]%char) [] [Code "DO "]).
  rewrite read_body_go, app_nil_r by done. rewrite read_do_end.
  - by rewrite text_of_bytes.
  - rewrite elem_of_reverse. by apply has_byte_false.
Qed.

Lemma role_body_plain extra nosuper role password :
  has_byte "$" (extra +:+ nosuper +:+ role +:+ password) = false → has_byte "$" (role_body extra nosuper role password) = false.
Proof.
  rewrite !has_byte_app. intros (He & (Hn & (Hr & Hp)%orb_false_iff)%orb_false_iff)%orb_false_iff.
  unfold role_body. rewrite !has_byte_app, !has_byte_quote by done. by rewrite He, Hn, Hr, Hp.
Qed.

(** The script that makes a login role is one dollar-quoted block, and the role and
    its password only text in it, when neither holds a dollar sign. *)
Theorem role_sql_block extra nosuper role password :
  has_byte "$" (extra +:+ nosuper +:+ role +:+ password) = false →
  sql_read (role_sql extra nosuper role password)
  = Some [Code "DO "; Body "do" (role_body extra nosuper role password); Code ";"].
Proof.
  intros H%role_body_plain. rewrite role_sql_body. unfold sql_read. change "$do$;" with ("$do$" +:+ ";"). by rewrite read_block.
Qed.

(** What the block holds before the role's name. *)
Definition role_head (name : string) : string := str1 nl +:+ "DECLARE r text := '" +:+ ReplaceByte "'" "''" name.

Lemma ReplaceByte_app c r a b : ReplaceByte c r (a +:+ b) = ReplaceByte c r a +:+ ReplaceByte c r b.
Proof. induction a as [|d a IH]; [done|]. cbn [String.append ReplaceByte]. by rewrite IH, sapp_assoc. Qed.

Lemma role_head_plain name : has_byte "$" name = false → has_byte "$" (role_head name) = false.
Proof.
  intros Hn. unfold role_head. rewrite <- (has_byte_quote "$" name) in Hn by done. unfold quoteLiteral in Hn.
  rewrite !has_byte_app in *. cbn in Hn. by rewrite orb_false_r in Hn.
Qed.

(** A role whose name holds the block's own tag ends the block: what follows the tag
    in the name is read as the script's code. The e-mail addresses of accounts are such
    names (EnsureUserRole), and any text that is not empty can be one (CreateUser). *)
Theorem role_sql_escapes extra nosuper name payload password :
  has_byte "$" name = false →
  ∃ rest, sql_read (role_sql extra nosuper (name +:+ "$do$" +:+ payload) password)
    = finish (read_more (mkReader InCode [] [Body "do" (role_head name); Code "DO "]) (ReplaceByte "'" "''" payload +:+ rest)).
Proof.
  intros Hn%role_head_plain.
  assert (∃ rest, role_sql extra nosuper (name +:+ "$do$" +:+ payload) password
    = "DO $do$" +:+ role_head name +:+ "$do$" +:+ ReplaceByte "'" "''" payload +:+ rest) as [rest ->].
  { rewrite role_sql_body. unfold role_body, role_head, quoteLiteral at 1. rewrite !ReplaceByte_app, !sapp_assoc.
    eexists. reflexivity. }
  exists rest. unfold sql_read. by rewrite read_block.
Qed.

(** An account's address can hold a command of psql, which is run as it is read. *)
Example role_sql_shell :
  take 3 (default [] (sql_read (role_sql "" "" ("a$do$\! id" +:+ str1 nl +:+ "SELECT $do$") "pw")))
  = [Code "DO "; Body "do" (role_head "a"); Code ("\! id" +:+ str1 nl +:+ "SELECT ")].
Proof. vm_compute. reflexivity. Qed.

(** ** A query with as many conditions as a request has filters *)

(** A character that only goes on with the code it stands in. *)
Definition plain_code (c : ascii) : bool :=
  negb (Ascii.eqb c "'" || Ascii.eqb c dquote || Ascii.eqb c "$" || Ascii.eqb c "-" || Ascii.eqb c "*").

Lemma read_plain s cur out : forallb plain_code (to_bytes s) = true →
  read_more (mkReader InCode cur out) s = mkReader InCode (reverse (to_bytes s) ++ cur) out.
Proof.
  revert cur. induction s as [|c s IH]; intros cur Hs; [done|]. cbn [to_bytes forallb] in Hs. apply andb_true_iff in Hs as [Hc Hs].
  unfold plain_code in Hc. apply negb_true_iff in Hc. repeat (apply orb_false_iff in Hc as [Hc ?]).
  change (read_more ?r (String c s)) with (read_more (step r c) s). cbn [step].
  assert (step_code cur out c = mkReader InCode (c :: cur) out) as ->.
  { unfold step_code. rewrite Hc. repeat match goal with H : Ascii.eqb c _ = false |- _ => rewrite H; clear H end.
    by destruct cur. }
  rewrite IH by done. by rewrite to_bytes_cons, reverse_cons, <- app_assoc.
Qed.

(** Plain code between its literals. *)
Definition plain_part (h : hole) : bool :=
  match h with Lit s => forallb plain_code (to_bytes s) | TextHole => true | NameHole => false end.
Definition goes_on (t : list hole) : bool := match t with [] => true | Lit (String _ _) :: _ => true | _ => false end.
Fixpoint spaced (t : list hole) : bool :=
  match t with [] => true | h :: t => (match h with Lit _ => true | _ => goes_on t end) && spaced t end.

Definition texts (l : list piece) : list string := omap (λ p, match p with Text s => Some s | _ => None end) l.

Lemma plug_plain t vs cur :
  forallb plain_part t = true → spaced t = true → List.length vs = holes t → ∃ l, plug t vs cur = Some l ∧ texts l = vs.
Proof.
  revert vs cur. induction t as [|[s| |] t IH]; intros vs cur Hp Hs Hl.
  - destruct vs; [|done]. eexists. split; [reflexivity|]. unfold finish. cbn. by destruct cur.
  - cbn [forallb] in Hp. apply andb_true_iff in Hp as [Hp1 Hp]. cbn [plug]. rewrite read_plain by done.
    destruct (IH vs (reverse (to_bytes s) ++ cur) Hp) as (l & -> & Hv); [done|done|]. by exists l.
  - cbn [forallb] in Hp. destruct vs as [|v vs]; [done|]. cbn [plug]. cbn [spaced] in Hs. apply andb_true_iff in Hs as [Hg Hs].
    assert (ends_value "'" t = true) as ->.
    { destruct t as [|[[|c s]| |] t]; try done. cbn in Hp. apply andb_true_iff in Hp as [[Hp _]%andb_true_iff _].
      unfold plain_code in Hp. apply negb_true_iff in Hp. repeat (apply orb_false_iff in Hp as [Hp ?]). cbn. by rewrite Hp. }
    destruct (IH vs [] Hp Hs) as (l & -> & Hv); [by injection Hl|]. eexists. split; [reflexivity|].
    unfold texts. rewrite omap_app. destruct cur; cbn; unfold texts in Hv; by rewrite Hv.
  - done.
Qed.

Definition filter_of (like : bool) (col op v : string) : list (string * string) :=
  let v := TrimSpace v in
  if String.eqb v "" then [] else [(col +:+ op, if like then "%" +:+ v +:+ "%" else v)].
(** The filters a request gives: what stands before each value, and the value. *)
Definition ledger_filters (q : string → string) : list (string * string) :=
  filter_of true "actor" " ILIKE " (q "actor") ++ filter_of true "object_identity" " ILIKE " (q "table")
  ++ filter_of false "risk" " = " (q "risk") ++ filter_of false "status" " = " (q "status")
  ++ filter_of false "actor_kind" " = " (q "kind") ++ filter_of false "at" " >= " (q "since") ++ filter_of false "at" " <= " (q "until").

Definition condition (f : string * string) : list hole := [Lit (" AND " +:+ fst f); TextHole].
Definition ledger_template (q : string → string) : list hole :=
  [Lit "SELECT to_char(at,"; TextHole;
   Lit (") AS at, actor, actor_kind, tool," +:+ tabs +:+ "branch, command_tag, object_identity, statement, status, risk"
     +:+ extra_columns (q "with") +:+ tabs +:+ "FROM odb.schema_ledger WHERE true")]
  ++ (ledger_filters q ≫= condition)
  ++ [Lit (" ORDER BY at DESC LIMIT " +:+ format_int (ledger_limit (q "limit")) +:+ " OFFSET " +:+ format_int (ledger_offset (q "offset")))].
Definition ledger_values (q : string → string) : list string := "YYYY-MM-DD HH24:MI:SS" :: (ledger_filters q).*2.

Lemma where_filters q : ledger_where q = "true" :: ((λ f, fst f +:+ quoteLiteral (snd f)) <$> ledger_filters q).
Proof.
  assert (∀ col v, like col v = (λ f, fst f +:+ quoteLiteral (snd f)) <$> filter_of true col " ILIKE " v) as Hl.
  { intros col v. unfold like, filter_of. destruct (String.eqb _ _); [done|]. cbn. f_equal. unfold quoteLiteral, sqlEsc.
    rewrite !ReplaceByte_app, !sapp_assoc. done. }
  assert (∀ op col v, compare_with op col v = (λ f, fst f +:+ quoteLiteral (snd f)) <$> filter_of false col op v) as He.
  { intros op col v. unfold compare_with, filter_of. destruct (String.eqb _ _); [done|]. cbn. f_equal. by rewrite !sapp_assoc. }
  unfold ledger_where, ledger_filters, eq_filter. rewrite !Hl, !He, !fmap_app. done.
Qed.

Lemma fill_conditions fs t vs :
  fill ((fs ≫= condition) ++ t) (fs.*2 ++ vs)
  = foldr (λ f s, " AND " +:+ fst f +:+ quoteLiteral (snd f) +:+ s) (fill t vs) fs.
Proof.
  induction fs as [|f fs IH]; [done|]. change ((f :: fs) ≫= condition) with (condition f ++ (fs ≫= condition)).
  change ((f :: fs).*2) with (snd f :: fs.*2). rewrite <- app_assoc.
  transitivity (" AND " +:+ fst f +:+ quoteLiteral (snd f) +:+ fill ((fs ≫= condition) ++ t) (fs.*2 ++ vs)).
  - cbn [app fill condition]. by rewrite !sapp_assoc.
  - by rewrite IH.
Qed.

Lemma join_conditions (fs : list (string * string)) s :
  Join " AND " ("true" :: ((λ f, fst f +:+ quoteLiteral (snd f)) <$> fs)) +:+ s
  = "true" +:+ foldr (λ f s, " AND " +:+ fst f +:+ quoteLiteral (snd f) +:+ s) s fs.
Proof.
  generalize "true". induction fs as [|f fs IH]; intros w; [done|]. cbn [fmap list_fmap foldr].
  change (Join " AND " (w :: ?x :: ?l)) with (w +:+ " AND " +:+ Join " AND " (x :: l)).
  rewrite !sapp_assoc, IH. by rewrite !sapp_assoc.
Qed.

Lemma ledger_fill q : ledgerSQL q = fill (ledger_template q) (ledger_values q).
Proof.
  unfold ledgerSQL, ledger_template, ledger_values. rewrite where_filters. cbn [app fill].
  rewrite <- (app_nil_r (ledger_filters q).*2), fill_conditions. cbn [fill]. rewrite !sapp_assoc, sapp_nil_r, join_conditions. reflexivity.
Qed.

Lemma plain_digits z : (0 <= z)%Z → forallb plain_code (to_bytes (format_int z)) = true.
Proof.
  intros Hz. unfold format_int. rewrite (proj2 (Z.ltb_ge z 0)) by done.
  apply forallb_forall. intros c Hc. pose proof (format_N_digits (Z.to_N z)) as Hd. unfold all_digits in Hd.
  rewrite forallb_forall in Hd. specialize (Hd c Hc). unfold plain_code. apply negb_true_iff. rewrite !orb_false_iff.
  split_and!; apply Ascii.eqb_neq; intros ->; discriminate Hd.
Qed.

Lemma ledger_limit_pos s : (0 <= ledger_limit s)%Z.
Proof. unfold ledger_limit. destruct (atoi s) as [n|]; [|done]. destruct (_ && _) eqn:H; lia. Qed.
Lemma ledger_offset_pos s : (0 <= ledger_offset s)%Z.
Proof. unfold ledger_offset. destruct (atoi s) as [n|]; [|done]. destruct (_ <? _)%Z eqn:H; lia. Qed.

Lemma filter_of_plain like col op v :
  forallb plain_code (to_bytes (col +:+ op)) = true → forallb plain_part (filter_of like col op v ≫= condition) = true.
Proof.
  intros H. unfold filter_of. destruct (String.eqb _ _); [done|]. change (forallb plain_part [Lit (" AND " +:+ (col +:+ op)); TextHole] = true).
  cbn [forallb plain_part]. rewrite to_bytes_app, forallb_app, H. done.
Qed.

Lemma spaced_conditions fs t : spaced t = true → goes_on t = true → spaced ((fs ≫= condition) ++ t) = true.
Proof.
  intros Ht Hg. induction fs as [|f fs IH]; [done|]. change ((f :: fs) ≫= condition) with (condition f ++ (fs ≫= condition)).
  unfold condition at 1. cbn [app spaced]. rewrite IH. destruct fs as [|g fs]; [|done].
  change (goes_on t && true = true). by rewrite Hg.
Qed.

Lemma holes_conditions fs t : holes ((fs ≫= condition) ++ t) = (List.length fs + holes t)%nat.
Proof.
  induction fs as [|f fs IH]; [done|]. change ((f :: fs) ≫= condition) with (condition f ++ (fs ≫= condition)).
  unfold condition at 1. unfold holes in *. cbn [app List.filter List.length]. by rewrite IH.
Qed.

(** However a client filters the Blackbox view, the query is the fixed one: its text
    literals are the date format and the filter values, each whole, in order, so that
    no filter can change what is asked. *)
Theorem ledgerSQL_reads q :
  ∃ l, sql_read (ledgerSQL q) = Some l ∧ texts l = "YYYY-MM-DD HH24:MI:SS" :: (ledger_filters q).*2.
Proof.
  destruct (plug_plain (ledger_template q) (ledger_values q) []) as (l & Hl & Ht).
  - unfold ledger_template. rewrite !forallb_app. apply andb_true_iff. split; [|apply andb_true_iff; split].
    + cbn [forallb plain_part]. rewrite !to_bytes_app, !forallb_app. unfold extra_columns.
      destruct (existsb _ _); vm_compute; reflexivity.
    + unfold ledger_filters. rewrite !bind_app, !forallb_app, !filter_of_plain by (vm_compute; reflexivity). done.
    + cbn [forallb plain_part]. rewrite !to_bytes_app, !forallb_app, !plain_digits by (apply ledger_limit_pos || apply ledger_offset_pos).
      vm_compute. reflexivity.
  - unfold ledger_template. cbn [app spaced goes_on andb]. by apply spaced_conditions.
  - unfold ledger_template, ledger_values. unfold holes at 1. cbn [app List.filter List.length]. f_equal.
    fold (holes ((ledger_filters q ≫= condition) ++ [Lit (" ORDER BY at DESC LIMIT " +:+ format_int (ledger_limit (q "limit")) +:+ " OFFSET " +:+ format_int (ledger_offset (q "offset")))])).
    rewrite holes_conditions, length_fmap. cbn. lia.
  - exists l. split; [|exact Ht]. rewrite ledger_fill. exact (plug_reads _ _ [] [] l Hl).
Qed.
