(* ===== verification/Waiting.v ===== *)
(** * The engine's waits end

    Every wait of the engine (a server that must answer, a replica that must catch up, a
    WAL segment that must be archived, a restore that must finish) is a loop with a
    deadline. On a clock that never runs behind the sleeps, the loops' fuel is enough:
    what calls them always ends, in a result or an error. *)
From S2P Require Import Prelude GoStrings GoNum GoTime GoTimeParse GoDuration Json Effects Storage Container HA Branch Blackbox Recovery.
Open Scope string_scope.
Open Scope list_scope.

(** ** Programs that do not panic *)

Lemma no_panic_ret {A} (a : A) : no_panic (mret a). Proof. done. Qed.
Lemma no_panic_fail {A} e : no_panic (fail (A := A) e). Proof. done. Qed.
Lemma no_panic_lift {A} (o : outcome error A) : panics o = false → no_panic (lift o). Proof. by intros H h. Qed.
Lemma no_panic_call {W : World} a : no_panic (call a). Proof. done. Qed.
Lemma no_panic_then {W : World} {A} a (f : reply → prog A) : (∀ r, no_panic (f r)) → no_panic (call a ≫= f).
Proof. intros H. by apply no_panic_bind. Qed.
Lemma no_panic_perform {W : World} a : no_panic (perform a).
Proof. apply no_panic_then. intros r. by destruct (rok r). Qed.
Lemma no_panic_ignore {W : World} a : no_panic (ignore a). Proof. by apply no_panic_then. Qed.
Lemma no_panic_succeeds {W : World} a : no_panic (succeeds a). Proof. by apply no_panic_then. Qed.
Lemma no_panic_not_exist {W : World} a : no_panic (not_exist a). Proof. by apply no_panic_then. Qed.
Lemma no_panic_is_file {W : World} a : no_panic (is_file a). Proof. by apply no_panic_then. Qed.
Lemma no_panic_attempt {A} (m : prog A) : no_panic m → no_panic (attempt m).
Proof. intros Hm h. specialize (Hm h). unfold attempt. by destruct (m h) as [[a|e|w] t]. Qed.
Lemma no_panic_discard {A} (m : prog A) : no_panic m → no_panic (discard m).
Proof. intros Hm. apply no_panic_bind; [by apply no_panic_attempt|done]. Qed.
Lemma no_panic_on_error {A} (m : prog A) f : no_panic m → (∀ e, no_panic (f e)) → no_panic (on_error m f).
Proof. intros Hm Hf. apply no_panic_bind; [by apply no_panic_attempt|]. by intros []. Qed.
Lemma no_panic_wrap {A} f args (m : prog A) : no_panic m → no_panic (wrap f args m).
Proof. intros Hm. unfold wrap. by apply no_panic_on_error. Qed.
Lemma no_panic_when b (m : prog unit) : no_panic m → no_panic (when b m).
Proof. intros Hm. by destruct b. Qed.
Lemma no_panic_for_each {A} (f : A → prog unit) l : (∀ x, no_panic (f x)) → no_panic (for_each f l).
Proof. intros Hf. induction l as [|x l IH]; cbn [for_each]; [done|]. by apply no_panic_bind. Qed.

Create HintDb ends.
#[export] Hint Resolve no_panic_ret no_panic_fail no_panic_call no_panic_perform no_panic_ignore no_panic_succeeds no_panic_not_exist no_panic_is_file : ends.

Ltac ends_step :=
  lazymatch goal with
  | |- no_panic (mbind _ _) => apply no_panic_bind; [|intros ?]
  | |- no_panic (attempt _) => apply no_panic_attempt
  | |- no_panic (discard _) => apply no_panic_discard
  | |- no_panic (on_error _ _) => apply no_panic_on_error; [|intros ?]
  | |- no_panic (wrap _ _ _) => apply no_panic_wrap
  | |- no_panic (when _ _) => apply no_panic_when
  | |- no_panic (for_each _ _) => apply no_panic_for_each; intros ?
  | |- no_panic (if ?b then _ else _) => destruct b
  | |- no_panic (match ?x with _ => _ end) => destruct x
  | |- no_panic (let _ := _ in _) => cbv zeta
  end.
Ltac ends_go := repeat first
  [ solve [auto with ends]
  | ends_step
  | progress unfold run, quiet, capture, captureCombined, capture_or_fail, ok_sudo, check, haQuery, pg_isready, recovered,
      allowReplication, PrimaryContainer, primaryBranch, ContainerState, startContainer, startStandbyContainer, setPrimary, containerIP,
      BackendAddr, ensureNetwork, psqlStdin, reconcileGuard, setGuard, promote, ledgerLines, Query ].

(** ** The loops *)

Section waits.
Context {W : World} {En : Env} (Hclock : clock_ok).

Lemma waitReady_ends name : no_panic (waitReady name).
Proof. intros h. by apply waitReady_answers. Qed.

Lemma pollUntil_ends what timeout ok : (0 <= timeout)%Z → emits untimed ok → no_panic ok → no_panic (pollUntil what timeout ok).
Proof.
  intros Ht Hu Ho h. unfold pollUntil, mbind, prog_bind, call. cbv zeta. cbn [fst].
  apply poll_no_panic; [done|done|done|lia| |lia]. rewrite elapsed_app. cbn.
  pose proof (Z.mod_pos_bound timeout (500 * 1000000)). pose proof (Z.div_mod timeout (500 * 1000000)). lia.
Qed.

Lemma waitRecovered_ends name : no_panic (waitRecovered name).
Proof. unfold waitRecovered. generalize 40%nat. intros n. induction n as [|n IH]; cbn [waitRecovered_go]; ends_go; done. Qed.

(** One turn of a loop: what it does before it looks at the clock, and the look itself. *)
Lemma untimed_turn {A B} (m : prog A) (f : A → prog B) h :
  emits untimed m → no_panic m → (∀ a t, elapsed (h ++ t) 0 = elapsed h 0 → panics (f a (h ++ t)).1 = false) →
  panics ((m ≫= f) h).1 = false.
Proof.
  intros Hu Hn Hf. unfold mbind, prog_bind. specialize (Hu h). specialize (Hn h).
  destruct (m h) as [[a|e|w] t]; [|done|done]. apply Hf. by rewrite elapsed_app, elapsed_untimed.
Qed.

Lemma timed_turn {B} (late again : prog B) deadline pause h : (0 <= pause)%Z →
  no_panic late →
  (∀ h', (elapsed h 0 <= deadline)%Z → (elapsed h 0 + pause <= elapsed h' 0)%Z → panics (again h').1 = false) →
  panics ((now ← call Now; if (deadline <? rnum now)%Z then late else _ ← ignore (Sleep pause); again) h).1 = false.
Proof.
  intros Hp Hl Ha. pose proof (Hclock h) as Hc.
  change (panics ((if (deadline <? rnum (answer h Now))%Z then late else _ ← ignore (Sleep pause); again) (h ++ [(Now, answer h Now)])).1 = false).
  destruct (Z.ltb_spec deadline (rnum (answer h Now))); [apply Hl|].
  change (panics (again (((h ++ [(Now, answer h Now)]) ++ [(Sleep pause, answer (h ++ [(Now, answer h Now)]) (Sleep pause))]))).1 = false).
  apply Ha; [lia|]. rewrite !elapsed_app. cbn. lia.
Qed.

Lemma ledgerLines_untimed name sql : emits untimed (ledgerLines name sql).
Proof. unfold ledgerLines. emits_go; done. Qed.

Lemma flush_loop_ends fuel primary segment deadline h :
  (deadline < elapsed h 0 + sec * (Z.of_nat fuel - 1))%Z → (1 <= fuel)%nat → panics (flush_loop fuel primary segment deadline h).1 = false.
Proof.
  revert h. induction fuel as [|fuel IH]; intros h Hd Hf; [lia|]. cbn [flush_loop].
  apply untimed_turn; [apply emits_attempt, ledgerLines_untimed|ends_go|]. intros lines t He. cbv zeta.
  destruct (walArchived _ _); [done|]. apply timed_turn; [by unfold sec| |].
  - by destruct (match lines with inl (l :: _) => Split3 "|" (l +:+ "|") | _ => [] end).
  - intros h' H1 H2. unfold sec in *. apply IH; lia.
Qed.

Lemma flushWALArchive_ends primary : (0 <= envDurationOr "OXYNDB_WAL_ARCHIVE_WAIT" (2 * minute))%Z → no_panic (flushWALArchive primary).
Proof.
  intros Hw. unfold flushWALArchive. apply no_panic_bind; [ends_go|]. intros [[|l ls]|e]; [done| |done].
  destruct (Split2 "|" l) as [|mode [|segment [|]]]; try done. destruct (String.eqb mode "off"); [done|].
  apply no_panic_bind; [ends_go|]. intros _ h. cbv zeta. unfold mbind, prog_bind, call. cbv zeta. cbn [fst].
  set (w := envDurationOr _ _) in *. pose proof (Z.div_pos w sec Hw ltac:(by unfold sec)) as Hq.
  apply flush_loop_ends; [|lia]. rewrite elapsed_app. cbn. unfold sec in *.
  pose proof (Z.mod_pos_bound w 1000000000). pose proof (Z.div_mod w 1000000000). lia.
Qed.

Lemma containerLogTail_ends name n : no_panic (containerLogTail name n).
Proof. unfold containerLogTail. ends_go. Qed.

Lemma promoted_loop_ends fuel name deadline timeout h :
  (deadline < elapsed h 0 + 2 * sec * (Z.of_nat fuel - 1))%Z → (1 <= fuel)%nat → panics (promoted_loop fuel name deadline timeout h).1 = false.
Proof.
  revert h. induction fuel as [|fuel IH]; intros h Hd Hf; [lia|]. cbn [promoted_loop].
  apply untimed_turn; [unfold ContainerState, capture; emits_go; done|ends_go|]. intros st t He.
  destruct (_ || _); [|by apply (no_panic_bind _ _ (containerLogTail_ends name 15))].
  apply untimed_turn; [by apply emits_call|done|]. intros out t' He'. destruct (String.eqb _ _); [done|].
  apply timed_turn; [by unfold sec|by apply (no_panic_bind _ _ (containerLogTail_ends name 15))|].
  intros h' H1 H2. unfold sec in *. apply IH; lia.
Qed.

Lemma waitPromoted_ends name timeout : (0 <= timeout)%Z → no_panic (waitPromoted name timeout).
Proof.
  intros Ht h. unfold waitPromoted, mbind, prog_bind, call. cbv zeta. cbn [fst].
  pose proof (Z.div_pos timeout (2 * sec) Ht ltac:(by unfold sec)) as Hq.
  apply promoted_loop_ends; [|lia]. rewrite elapsed_app. cbn. change (2 * sec)%Z with 2000000000%Z in *.
  pose proof (Z.mod_pos_bound timeout 2000000000). pose proof (Z.div_mod timeout 2000000000). lia.
Qed.

Lemma envDurationOr_pos key d : (0 <= d)%Z → (0 <= envDurationOr key d)%Z.
Proof. intros Hd. unfold envDurationOr. destruct (ParseDuration _) as [x|]; [|done]. destruct (Z.ltb_spec 0 x); lia. Qed.

(** ** What waits *)

Lemma storage_ends : (∀ b, no_panic (st_exists activeStorage b)) ∧ (∀ b, no_panic (st_createEmpty activeStorage b))
  ∧ (∀ a b, no_panic (st_clone activeStorage a b)) ∧ (∀ b, no_panic (st_destroy activeStorage b))
  ∧ no_panic (st_resetStandby activeStorage) ∧ no_panic (st_destroyStandby activeStorage).
Proof.
  unfold activeStorage. destruct (String.eqb _ _); split_and!; intros;
    cbn [st_exists st_createEmpty st_clone st_destroy st_resetStandby st_destroyStandby btrfsStorage zfsStorage];
    unfold btrfs_exists, btrfs_createEmpty, btrfs_clone, btrfs_destroy, btrfs_destroyStandby, btrfs_exists, disableCoW, zfs_createEmpty,
      zfs_clone, zfs_destroy, setBranchRefquota, datasetExists; ends_go.
Qed.

Lemma EnsureRunning_ends name : no_panic (EnsureRunning name).
Proof.
  destruct storage_ends as (He & _). unfold EnsureRunning, Resume. ends_go; first [apply He|apply waitReady_ends].
Qed.

Lemma Create_ends name parent : no_panic (Create name parent).
Proof.
  destruct storage_ends as (He & _ & Hc & _). unfold Create. ends_go; first [apply He|apply Hc|apply waitReady_ends].
Qed.

Lemma HAEnable_ends : no_panic HAEnable.
Proof. destruct storage_ends as (_ & _ & _ & _ & Hr & _). unfold HAEnable. ends_go; first [exact Hr|apply waitReady_ends]. Qed.

Lemma stopped_ends e : no_panic (stopped e).
Proof. unfold stopped. ends_go. Qed.
Lemma restart_ends e : no_panic (restart e).
Proof. unfold restart. ends_go; [apply waitReady_ends|apply stopped_ends]. Qed.

Lemma rebuild_main_ends : no_panic rebuild_main.
Proof.
  unfold rebuild_main. ends_go; [apply waitReady_ends|]. apply pollUntil_ends; [by unfold sec| |].
  - unfold caught_up, haQuery, capture. emits_go; done.
  - unfold caught_up. ends_go.
Qed.

Lemma hand_over_ends : no_panic hand_over.
Proof.
  unfold hand_over. ends_go.
  - apply no_panic_lift. unfold parseControlCheckpoint. by destruct (first_some _ _).
  - apply pollUntil_ends; [by unfold sec| |].
    + unfold replayed, haQuery, capture. emits_go; done.
    + unfold replayed. ends_go.
Qed.

Lemma after_promotion_ends : no_panic after_promotion.
Proof.
  destruct storage_ends as (_ & _ & _ & _ & _ & Hd). unfold after_promotion. ends_go. apply waitRecovered_ends.
Qed.

Lemma HAFailback_ends : no_panic HAFailback.
Proof.
  unfold HAFailback. apply no_panic_bind; [ends_go|intros p]. apply no_panic_bind; [unfold check; ends_go|intros _].
  apply no_panic_bind; [ends_go|intros cs]. destruct (negb _); [done|]. apply no_panic_bind; [done|intros _].
  apply no_panic_bind; [apply no_panic_on_error; [apply rebuild_main_ends|apply stopped_ends]|intros _].
  apply no_panic_bind; [done|intros _].
  apply no_panic_bind; [apply no_panic_on_error; [apply hand_over_ends|apply restart_ends]|intros _]. apply after_promotion_ends.
Qed.

Lemma find_entry_ends primary id : no_panic (find_entry primary id).
Proof.
  unfold find_entry, ledgerV2Tables. ends_go. apply no_panic_lift. unfold parseEntryJSON. by repeat case_match.
Qed.

Lemma find_backup_ends primary e : no_panic (find_backup primary e).
Proof.
  unfold find_backup, listBaseBackups. apply no_panic_bind; [apply flushWALArchive_ends, envDurationOr_pos; by unfold minute, sec|].
  intros _. ends_go; apply no_panic_lift; [unfold parseBackups|unfold pickBaseBackup]; by repeat case_match.
Qed.

Lemma adopt_ends script new backup kind target id : no_panic (adopt script new backup kind target id).
Proof.
  unfold adopt. apply no_panic_bind; [unfold start_restore; ends_go|intros _]. apply no_panic_bind.
  { apply waitPromoted_ends, envDurationOr_pos. by unfold minute, sec. }
  intros _. unfold absent_entry, newest_entry, reset_setting. ends_go. apply waitReady_ends.
Qed.

Lemma or_undo_ends {A} new (m : prog A) : no_panic m → no_panic (or_undo new m).
Proof. destruct storage_ends as (_ & _ & _ & Hd & _). intros Hm. unfold or_undo, undo. ends_go; first [done|apply Hd]. Qed.

Lemma branch_before_ends script started id new : no_panic (branch_before script started id new).
Proof.
  destruct storage_ends as (He & Hc & _). unfold branch_before.
  ends_go; first [apply He|apply Hc|apply find_entry_ends|apply find_backup_ends|apply or_undo_ends, adopt_ends].
Qed.

Lemma BranchBeforeEntry_ends script src id new : no_panic (BranchBeforeEntry script src id new).
Proof. unfold BranchBeforeEntry, locked. ends_go. apply branch_before_ends. Qed.

(** C28. Waking and creating a branch, enabling the standby, failing back and branching
    before a change always end, in a result or an error: on a clock that never runs
    behind the sleeps, no wait of theirs outlives its deadline, whatever the commands
    answer. The loops for the archive and for the promotion keep the deadline the
    environment sets. *)
Theorem waits_end :
  (∀ name, no_panic (EnsureRunning name)) ∧ (∀ name parent, no_panic (Create name parent))
  ∧ no_panic HAEnable ∧ no_panic HAFailback
  ∧ (∀ primary, no_panic (flushWALArchive primary))
  ∧ (∀ name timeout, (0 <= timeout)%Z → no_panic (waitPromoted name timeout))
  ∧ (∀ script src id new, no_panic (BranchBeforeEntry script src id new)).
Proof.
  split_and!; eauto using EnsureRunning_ends, Create_ends, HAEnable_ends, HAFailback_ends, waitPromoted_ends, BranchBeforeEntry_ends.
  intros primary. apply flushWALArchive_ends, envDurationOr_pos. by unfold minute, sec.
Qed.

End waits.

(** A world whose clock is moved by the sleeps and where no wait is ever met. *)
Definition silent_world : World := {| answer := λ h a,
  match a with Now => mkReply true "" "" (elapsed h 0) | _ => mkReply true "" "" 0 end |}.

Lemma waits_end_witness : no_panic (HAFailback (W := silent_world) (En := sample_env)) ∧ panics (waitPromoted (W := silent_world) (En := sample_env) "main" (3 * sec) []).1 = false.
Proof.
  assert (Hc : clock_ok (W := silent_world)) by (intros h; cbn; lia).
  destruct (waits_end (W := silent_world) (En := sample_env) Hc) as (_ & _ & _ & Hb & _ & Hp & _). split; [exact Hb|apply Hp; by unfold sec].
Defined.
