(* ===== verification/Opening.v ===== *)
(** * Opening the account store (internal/auth/auth.go: Open, initSchema, migrate)

    Several servers open one SQLite file at the same moment. What a statement's error says is
    in the reply; a query's rows are read by the class [TableInfo]. *)
From S2P Require Import Prelude GoStrings GoNum GoPath GoTime Effects Storage Container Waiting.
From S2P Require Store.
Open Scope string_scope.
Open Scope list_scope.

(** ** The schema *)

Definition schema : string := lines_of
  [""; "CREATE TABLE IF NOT EXISTS users ("; "  id INTEGER PRIMARY KEY AUTOINCREMENT,"; "  email TEXT UNIQUE NOT NULL,";
   "  pw_hash TEXT NOT NULL DEFAULT '',"; "  created INTEGER NOT NULL"; ");";
   "CREATE TABLE IF NOT EXISTS api_keys ("; "  id TEXT PRIMARY KEY, user_id INTEGER NOT NULL, name TEXT NOT NULL,";
   "  key_hash TEXT NOT NULL, prefix TEXT NOT NULL, created INTEGER NOT NULL, last_used INTEGER,"; "  scope TEXT NOT NULL DEFAULT ''"; ");";
   "CREATE TABLE IF NOT EXISTS sessions ("; "  token TEXT PRIMARY KEY, user_id INTEGER NOT NULL, expires INTEGER NOT NULL"; ");";
   "CREATE TABLE IF NOT EXISTS oauth_identities ("; "  provider TEXT NOT NULL, subject TEXT NOT NULL, user_id INTEGER NOT NULL,";
   "  PRIMARY KEY (provider, subject)"; ");";
   "CREATE TABLE IF NOT EXISTS pipelines ("; "  id TEXT PRIMARY KEY, user_id INTEGER NOT NULL, name TEXT NOT NULL,";
   "  spec TEXT NOT NULL, created INTEGER NOT NULL, updated INTEGER NOT NULL"; ");";
   "CREATE TABLE IF NOT EXISTS pipeline_runs ("; "  id TEXT PRIMARY KEY,";
   "  pipeline_id TEXT NOT NULL REFERENCES pipelines(id) ON DELETE CASCADE,"; "  user_id INTEGER NOT NULL, status TEXT NOT NULL,";
   "  started INTEGER NOT NULL, finished INTEGER, tables INTEGER NOT NULL DEFAULT 0,";
   "  tests TEXT NOT NULL DEFAULT '[]', log TEXT NOT NULL DEFAULT ''"; ");"].
Definition add_scope : string := "ALTER TABLE api_keys ADD COLUMN scope TEXT NOT NULL DEFAULT ''".

(** The names a query's rows hold, as far as they could be read, and whether all were. *)
Class TableInfo := { column_names : reply → list string; names_end : reply → bool }.

Definition sqlite (statement : string) : action := CallOut "sqlite" [statement].
Definition begin_ : action := sqlite "BEGIN IMMEDIATE".
Definition commit : action := sqlite "COMMIT".
Definition rollback : action := sqlite "ROLLBACK".
Definition connect : action := CallOut "db.Conn" [].
Definition columns (table : string) : action := CallOut "sqlite.Query" ["SELECT name FROM pragma_table_info(?)"; table].

Section opening.
Context {W : World} {En : Env} {T : ErrorText} {TI : TableInfo}.

Definition exec (a : action) : prog unit := r ← call a; if rok r then mret tt else fail (Errorf "%s" [rall r]).

Definition hasColumn (table column : string) : prog bool :=
  r ← call (columns table);
  if negb (rok r) then fail (Errorf "%s" [rall r])
  else if existsb (String.eqb column) (column_names r) then mret true
  else if names_end r then mret false else fail (Errorf "%s" [rall r]).
Definition migrate : prog unit :=
  has ← hasColumn "api_keys" "scope";
  if (has : bool) then mret tt else exec (sqlite add_scope).

(** The steps inside the transaction; an error of theirs rolls it back. *)
Definition steps : prog unit := _ ← exec (sqlite schema); migrate.
Definition initSchemaOnce : prog unit :=
  _ ← exec connect;
  _ ← exec begin_;
  _ ← on_error steps (λ e, _ ← ignore rollback; fail e);
  exec commit.

Definition isBusy (e : error) : bool := let m := Error e in Contains m "SQLITE_BUSY" || Contains m "database is locked".

Definition busy_pause (attempt_ : Z) : Z := (Z.min attempt_ 10 * 50 * 1000000)%Z.
Fixpoint init_loop (fuel : nat) (attempt_ deadline : Z) : prog unit :=
  match fuel with
  | O => raise "out of fuel"
  | S fuel =>
      r ← attempt initSchemaOnce;
      match r with
      | inl _ => mret tt
      | inr e =>
          if negb (isBusy e) then fail e else
          now ← call Now;
          if (deadline <? rnum now)%Z then fail e
          else _ ← ignore (Sleep (busy_pause attempt_)); init_loop fuel (attempt_ + 1) deadline
      end
  end.
Definition initSchema : prog unit := start ← call Now; init_loop 603 1 (rnum start + 30 * sec).

(** The store: its configuration. *)
Definition Open (path : string) (cfg : Store.Config) : prog Store.Config :=
  _ ← exec (CallOut "sql.Open" ["sqlite"; path +:+ "?_pragma=busy_timeout(5000)&_pragma=journal_mode(WAL)&_pragma=foreign_keys(ON)"]);
  _ ← on_error initSchema (λ e, _ ← ignore (CallOut "db.Close" []); fail e);
  mret cfg.
Definition auth_dir : string := JoinPath [match home_dir with Some h => if String.eqb h "" then "/tmp" else h | None => "/tmp" end; ".oxyndb"].
Definition OpenFromEnv : prog Store.Config :=
  _ ← ignore (MkdirAll auth_dir);
  let path := getenv "OXYNDB_DB" in
  Open (if String.eqb path "" then JoinPath [auth_dir; "oxyndb.db"] else path) (Store.config_from_env getenv).
End opening.

(** ** What an opening leaves *)

Section theorems.
Context {W : World} {En : Env} {T : ErrorText} {TI : TableInfo}.

Lemma exec_runs a h o t : runs (exec a) h o t ↔
  t = [(a, answer h a)] ∧ o = if rok (answer h a) then Ok tt else Err (Errorf "%s" [rall (answer h a)]).
Proof. unfold runs, exec, mbind, prog_bind, call. destruct (rok (answer h a)); cbn; naive_solver. Qed.

(** A COMMIT or ROLLBACK that SQLite carried out: it keeps the transaction when it refuses a
    COMMIT, as it does with SQLITE_BUSY. *)
Definition end_ (a : action) : bool := bool_decide (a = commit) || bool_decide (a = rollback).
Definition ends_transaction (e : event) : bool := end_ e.1 && rok e.2.
(** None was refused. *)
Definition ends_taken (t : history) : Prop := Forall (λ e, end_ e.1 = true → rok e.2 = true) t.
(** A transaction was begun and not ended since. *)
Definition open (h : history) : Prop := ∃ p b u, h = p ++ (begin_, b) :: u ∧ rok b = true ∧ existsb ends_transaction u = false.

Lemma open_app h t : open (h ++ t) → Forall (λ e, e.1 ≠ begin_ ∨ rok e.2 = false) t → open h.
Proof.
  intros (p & b & u & Heq & Hb & Hu) Ht. apply app_eq_app in Heq as [l [[-> Hl]|[-> Hl]]].
  - destruct l as [|x l]; cbn in Hl; [subst t|injection Hl as <- ->].
    + apply Forall_cons in Ht as [[Ht|Ht] _]; cbn in Ht; congruence.
    + exists p, b, l. split_and!; [done|done|]. by rewrite existsb_app in Hu; apply orb_false_iff in Hu as [? _].
  - rewrite Hl in Ht. apply Forall_app in Ht as [_ Ht]. apply Forall_cons in Ht as [[Ht|Ht] _]; cbn in Ht; congruence.
Qed.
Lemma open_ended h e : ends_transaction e = true → ¬ open (h ++ [e]).
Proof.
  intros He (p & b & u & Heq & _ & Hu). destruct u as [|x u _] using rev_ind.
  - apply app_inj_tail in Heq as [_ ->]. cbn in He. discriminate.
  - rewrite app_comm_cons, app_assoc in Heq. apply app_inj_tail in Heq as [_ ->]. rewrite existsb_app in Hu. cbn in Hu. rewrite He in Hu.
    by rewrite orb_true_r in Hu.
Qed.

(** The four ways an attempt goes. *)
Lemma once_cases h o t : runs initSchemaOnce h o t →
  (is_ok o = false ∧ Forall (λ e, e.1 ≠ begin_ ∨ rok e.2 = false) t ∧ Forall (λ e, e.1 ≠ commit) t)
  ∨ ∃ c b u e, t = (connect, c) :: (begin_, b) :: u ++ [e] ∧ rok b = true
      ∧ ((e.1 = rollback ∧ is_ok o = false ∧ ∃ er, runs steps (h ++ [(connect, c); (begin_, b)]) (Err er) u)
         ∨ (e.1 = commit ∧ runs steps (h ++ [(connect, c); (begin_, b)]) (Ok tt) u ∧ is_ok o = rok e.2)).
Proof.
  unfold initSchemaOnce. intros [([] & t1 & t2 & H1 & Hr & ->)|[(e & H1 & ->)|(w & H1 & ->)]]%runs_bind; apply exec_runs in H1 as [-> H1].
  2-3: left; split_and!; [by destruct (rok _)|apply Forall_singleton; by left|by apply Forall_singleton].
  apply runs_bind in Hr as [([] & t3 & t4 & H3 & Hr & ->)|[(e & H3 & ->)|(w & H3 & ->)]]; apply exec_runs in H3 as [-> H3].
  2-3: left; split_and!; [by destruct (rok _)|apply Forall_cons; split; [by left|apply Forall_singleton; right; apply not_true_iff_false; intros Hx; cbn in Hx; by rewrite Hx in H3]
    |apply Forall_cons; split; [done|by apply Forall_singleton]].
  destruct (rok (answer (h ++ _) begin_)) eqn:Hb; [|done]. right.
  unfold on_error in Hr. apply runs_bind in Hr as [([] & t5 & t6 & H5 & Hr & ->)|[(e & H5 & ->)|(w & H5 & ->)]].
  - apply runs_bind_ok in H5 as ([[]|e] & t7 & t8 & H7 & H8 & ->); apply runs_attempt in H7 as [(a & H7 & [= Hx])|[(e' & H7 & [= Hx])|(w & _ & [=])]]; subst.
    + apply runs_ret in H8 as [_ ->]. apply exec_runs in Hr as [-> Ho]. rewrite !app_nil_r in Ho |- *.
      eexists _, _, t7, (commit, _). split_and!; [reflexivity|exact Hb|]. right. split_and!; [done|rewrite <-app_assoc in H7; exact H7|].
      cbn [snd]. subst o. match goal with |- is_ok (if rok ?a then _ else _) = rok ?b => change b with a; by destruct (rok a) end.
    + apply runs_bind_ok in H8 as (x & t9 & t10 & _ & [[=] _]%runs_lift & _).
  - apply runs_bind in H5 as [(x & t7 & t8 & H7 & H8 & ->)|[(e' & H7 & _)|(w & _ & [=])]].
    + apply runs_attempt in H7 as [(a & H7 & [= ->])|[(e' & H7 & [= ->])|(w & _ & [=])]]; [by apply runs_ret in H8 as [[=] _]|].
      apply runs_bind in H8 as [(y & t9 & t10 & [_ ->]%runs_ignore & [_ ->]%runs_lift & ->)|[(e2 & [[=] _]%runs_ignore & _)|(w & _ & [=])]].
      rewrite app_nil_r. eexists _, _, t7, _. split_and!; [reflexivity|exact Hb|]. left. split_and!; [done|done|]. exists e'. by rewrite <-app_assoc in H7.
    + apply runs_attempt in H7 as [(a & _ & [=])|[(e2 & _ & [=])|(w & _ & [=])]].
  - exfalso. assert (no_panic (on_error steps (λ e, _ ← ignore rollback; fail e))) as Hn.
    { apply no_panic_on_error; [|intros e; apply no_panic_bind; [apply no_panic_ignore|done]]. unfold steps, migrate, hasColumn, exec. ends_go. }
    specialize (Hn ((h ++ [(connect, answer h connect)]) ++ [(begin_, answer (h ++ [(connect, answer h connect)]) begin_)])).
    unfold runs in H5. unfold on_error in Hn. rewrite H5 in Hn. discriminate.
Qed.

(** What the steps did when they succeeded: the schema is in, and the column of the keys'
    scopes is there or was added. *)
Definition prepared (u : history) : Prop := ∃ r q v, u = (sqlite schema, r) :: (columns "api_keys", q) :: v
  ∧ rok r = true ∧ rok q = true
  ∧ ((v = [] ∧ ("scope" ∈ column_names q)) ∨ ∃ a, v = [(sqlite add_scope, a)] ∧ rok a = true ∧ ("scope" ∉ column_names q) ∧ names_end q = true).

Lemma exec_succeeds a h t : runs (exec a) h (Ok tt) t ↔ t = [(a, answer h a)] ∧ rok (answer h a) = true.
Proof. rewrite exec_runs. by destruct (rok _); split; intros [-> ?]. Qed.

Lemma names_scope l : existsb (String.eqb "scope") l = true ↔ "scope" ∈ l.
Proof. rewrite existsb_exists. setoid_rewrite String.eqb_eq. setoid_rewrite <-list_elem_of_In. naive_solver. Qed.

Lemma steps_prepared h u : runs steps h (Ok tt) u → prepared u.
Proof.
  unfold steps, migrate, hasColumn. intros ([] & t1 & t2 & [-> H1]%exec_succeeds & H2 & ->)%runs_bind_ok.
  apply runs_bind_ok in H2 as (has & t3 & t4 & H3 & H4 & ->). apply runs_bind_ok in H3 as (q & t5 & t6 & H5 & H6 & ->).
  apply runs_call in H5 as [[= <-] ->]. destruct (rok q) eqn:Hq; [|by apply runs_lift in H6 as [[=] _]]. cbn [negb] in H6.
  exists (answer h (sqlite schema)), q, (t6 ++ t4). split_and!; [reflexivity|done|done|]. revert H6.
  destruct (existsb _ _) eqn:Hx; [|destruct (names_end _) eqn:Hn; [|by intros [[=] _]%runs_lift]]; intros [[= ->] ->]%runs_ret; cbn [app].
  - apply runs_ret in H4 as [_ ->]. left. by rewrite <-names_scope.
  - apply exec_succeeds in H4 as [-> H4]. right. eexists. split_and!; [reflexivity|done| |done]. by rewrite <-names_scope, Hx.
Qed.

(** An attempt leaves no transaction behind unless its end is refused. *)
Lemma once_closes h o t : ¬ open h → runs initSchemaOnce h o t → ends_taken t → ¬ open (h ++ t).
Proof.
  intros Hh [(_ & Hq & _)|(c & b & u & e & -> & _ & He)]%once_cases Ht.
  - intros Ho. by apply Hh, (open_app _ _ Ho).
  - rewrite !app_comm_cons in Ht |- *. rewrite app_assoc. apply open_ended. apply Forall_app in Ht as [_ [Ht _]%Forall_cons].
    assert (end_ e.1 = true) as Hend by (unfold end_; rewrite orb_true_iff, !bool_decide_eq_true; destruct He as [[-> _]|[-> _]]; auto).
    unfold ends_transaction. by rewrite Hend, Ht.
Qed.

(** A successful attempt ended in a COMMIT that succeeded, of prepared tables. *)
Definition committed (t : history) : Prop := ∃ c b u e, t = (connect, c) :: (begin_, b) :: u ++ [(commit, e)]
  ∧ rok b = true ∧ rok e = true ∧ prepared u.
Lemma once_committed h t : runs initSchemaOnce h (Ok tt) t → committed t.
Proof.
  intros [[[=] _]|(c & b & u & [a e] & -> & Hb & [(_ & [=] & _)|(Ha & Hs & He)])]%once_cases. cbn in Ha, He. subst a.
  exists c, b, u, e. split_and!; [done|done|done|by eapply steps_prepared].
Qed.

(** The store's tables were prepared in a transaction that nothing followed. *)
Definition ends_committed (t : history) : Prop := ∃ p q, t = p ++ q ∧ committed q.
Lemma committed_after p t : ends_committed t → ends_committed (p ++ t).
Proof. intros (q & r & -> & Hr). exists (p ++ q), r. by rewrite app_assoc. Qed.
Lemma committed_closed h t : ends_committed t → ¬ open (h ++ t).
Proof.
  intros (p & q & -> & c & b & u & e & -> & _ & He & _). rewrite !app_comm_cons, !app_assoc. by apply open_ended.
Qed.

Lemma still_closed h t : ¬ open h → Forall (λ e : event, e.1 ≠ begin_) t → ¬ open (h ++ t).
Proof. intros Hh Ht Ho. apply Hh, (open_app _ _ Ho). eapply Forall_impl; [exact Ht|]. by left. Qed.

(** What a part of the opening comes to. *)
Definition opening_ok {A} (h : history) (o : outcome error A) (t : history) : Prop :=
  (¬ open h → ends_taken t → ¬ open (h ++ t)) ∧ (is_ok o = true → ends_committed t).

(** A part that begins nothing, then one that is as it should be. *)
Lemma opening_after {A} h (o : outcome error A) t u :
  (¬ open h → ends_taken t → ¬ open (h ++ t)) → opening_ok (h ++ t) o u → opening_ok h o (t ++ u).
Proof.
  intros Ht [H1 H2]. split.
  - intros Hh [Hx Hy]%Forall_app. rewrite app_assoc. auto.
  - intros Ho. by apply committed_after, H2.
Qed.
Lemma opening_fail {A} h (o : outcome error A) t : (¬ open h → ends_taken t → ¬ open (h ++ t)) → is_ok o = false → opening_ok h o t.
Proof. intros H Ho. split; [done|by rewrite Ho]. Qed.

(** Every run of the loop is attempts, each followed by a look at the clock and a pause. *)
Lemma loop_open fuel n d h o t : runs (init_loop fuel n d) h o t → opening_ok h o t.
Proof.
  revert n h t. induction fuel as [|fuel IH]; intros n h t; cbn [init_loop].
  - intros [-> ->]%runs_lift. by apply opening_fail; [rewrite app_nil_r|].
  - intros [(r & t1 & t2 & H1 & H2 & ->)|[(e & H1 & ->)|(w & H1 & ->)]]%runs_bind.
    2-3: apply runs_attempt in H1 as [(a & _ & [=])|[(e' & _ & [=])|(w' & H1 & [= ->])]]; (apply opening_fail; [|done]); intros Hh; by eapply once_closes.
    assert ((¬ open h → ends_taken t1 → ¬ open (h ++ t1)) ∧ (r = inl tt → committed t1)) as [Hc Hr].
    { apply runs_attempt in H1 as [([] & H1 & [= ->])|[(e & H1 & [= ->])|(w & _ & [=])]]; (split; [intros Hh; by eapply once_closes|]); [|done].
      intros _. by eapply once_committed. }
    destruct r as [[]|e].
    { apply runs_ret in H2 as [-> ->]. rewrite app_nil_r. split; [done|]. intros _. exists [], t1. by split; [|apply Hr]. }
    apply opening_after; [done|]. set (g := h ++ t1) in *. clearbody g. clear Hc Hr.
    assert (∀ o' t', runs (fail (A := unit) e) g o' t' → opening_ok g o' t') as Hfail.
    { intros o' t' [-> ->]%runs_lift. by apply opening_fail; [rewrite app_nil_r|]. }
    destruct (negb _); [by apply Hfail|].
    apply runs_bind in H2 as [(now & t3 & t4 & [[= ->] ->]%runs_call & H2 & ->)|[(e' & [[=] _]%runs_call & _)|(w & [[=] _]%runs_call & _)]].
    apply opening_after; [intros Hg _; apply still_closed; [done|by apply Forall_singleton]|].
    destruct (Z.ltb _ _); [apply runs_lift in H2 as [-> ->]; by apply opening_fail; [rewrite app_nil_r|]|].
    apply runs_bind in H2 as [([] & t5 & t6 & [_ ->]%runs_ignore & H2 & ->)|[(e' & [[=] _]%runs_ignore & _)|(w & [[=] _]%runs_ignore & _)]].
    apply opening_after; [intros Hg _; apply still_closed; [done|by apply Forall_singleton]|]. by eapply IH.
Qed.

Lemma initSchema_open h o t : runs initSchema h o t → opening_ok h o t.
Proof.
  intros (u & Hu & ->)%runs_call_bind. apply (opening_after h o [_] u); [|by eapply loop_open].
  intros Hh _. apply still_closed; [done|by apply Forall_singleton].
Qed.

(** C23. However often the account store is opened, and whatever SQLite answers: a transaction
    is left open only where SQLite refused a COMMIT or a ROLLBACK; and the store is handed out
    only after a COMMIT that succeeded, in a transaction that put the schema in and found or
    added the column of the keys' scopes, nothing else being done after it. *)
Theorem Open_prepares path cfg h o t : ¬ open h → runs (Open path cfg) h o t →
  (ends_taken t → ¬ open (h ++ t)) ∧ (∀ c, o = Ok c → c = cfg ∧ ¬ open (h ++ t) ∧ ends_committed t).
Proof.
  intros Hh Hrun. assert (opening_ok h o t ∧ ∀ c, o = Ok c → c = cfg) as [[H1 H2] H3].
  2: { split; [auto|]. intros c ->. split_and!; [auto|by apply committed_closed, H2|by apply H2]. }
  revert Hrun. intros [([] & t1 & t2 & H1 & H2 & ->)|[(e & H1 & ->)|(w & H1 & ->)]]%runs_bind; apply exec_runs in H1 as [-> H1].
  2-3: split; [|done]; apply opening_fail; [intros _ _; apply still_closed; [done|by apply Forall_singleton]|done].
  enough (opening_ok (h ++ [(CallOut "sql.Open" ["sqlite"; path +:+ "?_pragma=busy_timeout(5000)&_pragma=journal_mode(WAL)&_pragma=foreign_keys(ON)"],
    answer h (CallOut "sql.Open" ["sqlite"; path +:+ "?_pragma=busy_timeout(5000)&_pragma=journal_mode(WAL)&_pragma=foreign_keys(ON)"]))]) o t2
    ∧ ∀ c, o = Ok c → c = cfg) as [Hx Hy].
  { split; [|done]. apply opening_after; [intros _ _; apply still_closed; [done|by apply Forall_singleton]|exact Hx]. }
  revert H2. set (g := h ++ _). clearbody g.
  intros [([] & t3 & t4 & H3 & [-> ->]%runs_ret & ->)|[(e & H3 & ->)|(w & H3 & ->)]]%runs_bind; rewrite ?app_nil_r.
  all: apply runs_bind in H3 as [([[]|e'] & t5 & t6 & H5 & H6 & ->)|[(e' & H5 & ?)|(w' & H5 & ?)]]; simplify_eq.
  all: apply runs_attempt in H5 as [([] & H5 & ?)|[(? & H5 & ?)|(? & H5 & ?)]]; simplify_eq; apply initSchema_open in H5 as [H7 H8]; try done.
  all: try (apply runs_ret in H6 as [? ->]; simplify_eq).
  all: try (apply runs_bind in H6 as [(? & t7 & t8 & [_ ->]%runs_ignore & [? ->]%runs_lift & ->)|[(? & [? ->]%runs_ignore & ?)|(? & [? ->]%runs_ignore & ?)]]; simplify_eq).
  - rewrite app_nil_r. split; [by split|]. by intros c [= ->].
  - rewrite app_nil_r. split; [|done]. apply opening_fail; [|done]. intros Hg [Ht _]%Forall_app. rewrite app_assoc.
    apply still_closed; [auto|by apply Forall_singleton].
Qed.

(** ** Opening ends *)

Lemma exec_untimed a : untimed a → emits untimed (exec a).
Proof. unfold exec. intros H. emits_go; done. Qed.
Lemma exec_ends a : no_panic (exec a).
Proof. unfold exec. ends_go. Qed.
#[local] Hint Resolve exec_ends : ends.
Lemma once_ends : no_panic initSchemaOnce.
Proof. unfold initSchemaOnce, steps, migrate, hasColumn. ends_go. Qed.
Lemma once_untimed : emits untimed initSchemaOnce.
Proof.
  unfold initSchemaOnce, steps, migrate, hasColumn, exec, on_error. emits_go; exact I.
Qed.

Lemma init_loop_ends fuel n d h : clock_ok → (1 <= n)%Z →
  (d < elapsed h 0 + 50000000 * (Z.of_nat fuel - 1))%Z → (1 <= fuel)%nat → panics (init_loop fuel n d h).1 = false.
Proof.
  intros Hc. revert n h. induction fuel as [|fuel IH]; intros n h Hn Hd Hf; [lia|]. cbn [init_loop].
  apply untimed_turn; [apply emits_attempt, once_untimed|apply no_panic_attempt, once_ends|]. intros [[]|e] t He; [done|].
  destruct (negb _); [done|]. apply timed_turn; [done|unfold busy_pause; lia|done|].
  intros h' H1 H2. apply IH; unfold busy_pause in *; lia.
Qed.

(** On a clock that does not run behind the pauses, the opening of the account store ends,
    in a store or an error: the retries of a busy file stop when the 30 s are over. *)
Theorem Open_ends path cfg : clock_ok → no_panic (Open path cfg).
Proof.
  intros Hc. unfold Open. apply no_panic_bind; [apply exec_ends|intros _]. apply no_panic_bind; [|done].
  apply no_panic_on_error; [|intros e; apply no_panic_bind; [apply no_panic_ignore|done]].
  intros h. unfold initSchema, mbind, prog_bind, call. cbv zeta. cbn [fst]. apply init_loop_ends; [done|done| |lia].
  rewrite elapsed_app. cbn. unfold sec. lia.
Qed.
End theorems.

Module Sample.
(** A file another server holds locked for the first two attempts, an old install's table,
    and a clock that follows the pauses. *)
Definition attempts (h : history) : nat := length (filter (λ e, e.1 = begin_) h).
#[local] Instance locked_world : World := {| answer := λ h a,
  match a with
  | Now => mkReply true "" "" (elapsed h 0)
  | _ => if bool_decide (a = begin_) && (attempts h <? 2)%nat then mkReply false "" "database is locked (5) (SQLITE_BUSY)" 0
         else mkReply true "" "" 0
  end |}.
#[local] Instance no_errors : ErrorText := {| failure_text := λ _, "" |}.
#[local] Instance old_table : TableInfo := {| column_names := λ _, ["id"; "user_id"; "name"]; names_end := λ _, true |}.
#[local] Instance no_env : Env := {| getenv := λ _, ""; pgPass := ""; minioUser := ""; minioPass := ""; home_dir := Some "/root" |}.
Definition cfg := Store.config_from_env getenv.

Lemma clock : clock_ok.
Proof. intros h. done. Qed.

(** It is opened at the third attempt, after pauses of 50 ms and 100 ms, with the column added. *)
Lemma Open_prepares_witness : ∃ t, runs (Open "/root/.oxyndb/oxyndb.db" cfg) [] (Ok cfg) t ∧ attempts t = 3%nat ∧ elapsed t 0 = 150000000%Z
  ∧ (sqlite add_scope, mkReply true "" "" 0) ∈ t ∧ ¬ open ([] ++ t) ∧ ends_committed t.
Proof.
  eexists. split; [vm_compute; reflexivity|]. split; [vm_compute; reflexivity|]. split; [vm_compute; reflexivity|].
  split; [apply list_elem_of_In; vm_compute; tauto|].
  assert (¬ open []) as Hn by (intros (p & b & u & Heq & _); by destruct p).
  match goal with |- ¬ open ([] ++ ?t) ∧ _ =>
    destruct (Open_prepares "/root/.oxyndb/oxyndb.db" cfg [] (Ok cfg) t Hn) as [_ H2]; [vm_compute; reflexivity|] end.
  exact (proj2 (H2 cfg eq_refl)).
Defined.

(** A COMMIT that SQLite refuses, as it may a busy one, is followed by no ROLLBACK: the
    attempt ends with its transaction open, on a connection that goes back to the pool. *)
Definition refusing_world : World := {| answer := λ h a,
  if bool_decide (a = commit) then mkReply false "" "database is locked (5) (SQLITE_BUSY)" 0 else mkReply true "" "" 0 |}.
Example refused_commit_stays_open :
  let run := initSchemaOnce (W := refusing_world) (TI := old_table) [] in
  is_ok run.1 = false ∧ existsb (λ e, bool_decide (e.1 = rollback)) run.2 = false ∧ open run.2.
Proof.
  split; [vm_compute; reflexivity|]. split; [vm_compute; reflexivity|].
  eexists [_], _, _. split; [vm_compute; reflexivity|]. by split; vm_compute.
Qed.

Lemma Open_ends_witness : clock_ok ∧ no_panic (Open "/root/.oxyndb/oxyndb.db" cfg).
Proof. split; [exact clock|]. apply Open_ends. exact clock. Defined.
End Sample.
