(* ===== verification/Serving.v ===== *)
(** * The servers come up (Serve of internal/controlplane, internal/agentapi and internal/proxy)

    What each server does before it answers its first request: the account store is opened
    (Opening.v), its goroutines are started (an action, with what they were given; their
    turns are definitions), the certificate is looked for (Tls.v), the port is taken. What is
    served is in Routes.v and Gateway.v. And the keys of agents' branches, which the engine
    mints in a store it opens itself (internal/branch/agent_access.go). *)
From S2P Require Import Prelude GoStrings GoNum GoRunes GoTime GoDuration Effects Guarded Storage Container Branch Recovery Blackbox.
From S2P Require Store Agents Gateway Opening Cli.
Open Scope string_scope.
Open Scope list_scope.

Definition yes_no (b : bool) : string := if b then "true" else "false".
Definition go (what : string) (args : list string) : action := CallOut ("go " +:+ what) args.
(** The pair's two paths, or why there is none. *)
Definition EnsureCert : action := CallOut "tlsutil.EnsureCert" [].
Definition ServerConfig : action := CallOut "tlsutil.ServerConfig" [].
Definition listen_plain (addr origin : string) : action := CallOut "http.ListenAndServe" [addr; origin].
Definition listen_tls (addr pair origin : string) : action := CallOut "http.ListenAndServeTLS" [addr; pair; origin].
Definition listen_tcp (addr : string) : action := CallOut "net.Listen" ["tcp"; addr].
Definition accept : action := CallOut "ln.Accept" [].
(** A client's session: with TLS offered or not, with its key asked for or not. *)
Definition go_handle (client : string) (tls noauth : bool) : action := go "handle" [client; yes_no tls; yes_no noauth].

Section serving.
Context {W : World} {En : Env} {Em : Embedded} {T : ErrorText} {TI : Opening.TableInfo} {U : Unicode}.

(** TLS when there is a certificate. *)
Definition listen (addr origin : string) : prog unit :=
  c ← call EnsureCert;
  if rok c then perform (listen_tls addr (rout c) origin) else perform (listen_plain addr origin).

(** ** The control plane *)

Definition checkpoints_off : bool :=
  let v := string_lower (TrimSpace (getenv "OXYNDB_CHECKPOINTS")) in existsb (String.eqb v) ["off"; "0"; "false"; "no"].
Definition checkpoint_interval : Z := envDurationOr "OXYNDB_CHECKPOINT_INTERVAL" (10 * minute).
Definition envIntOr (key : string) (def : Z) : Z :=
  match atoi (TrimSpace (getenv key)) with Some n => if (0 <? n)%Z then n else def | None => def end.
Definition checkpoint_tick (interval : Z) : Z := if (2 * minute <? interval)%Z then (2 * minute)%Z else interval.
Definition StartCheckpointer : prog unit :=
  if checkpoints_off then mret tt else
  let interval := checkpoint_interval in
  ignore (go "checkpointer" [format_int interval; format_int (envIntOr "OXYNDB_CHECKPOINT_ENTRIES" 500); format_int (checkpoint_tick interval)]).
(** One turn of the checkpointer, from the ticker's tick on. *)
Definition checkpointer_turn (interval threshold : Z) (last_ : gmap string time) : prog (gmap string time) :=
  _ ← ignore (Sleep (checkpoint_tick interval));
  names ← attempt RunningBranches;
  match names with inr _ => mret last_ | inl names => checkpoint_round interval threshold last_ names end.

Definition serve_control_plane (addr : string) : prog unit :=
  cfg ← Opening.OpenFromEnv;
  _ ← StartCheckpointer;
  listen addr (Store.WebOrigin cfg).

(** ** The Agent Branch API *)

Definition serve_agents (addr : string) : prog unit :=
  cfg ← Opening.OpenFromEnv;
  let ttl := Agents.agentTTL in
  _ ← when (0 <? ttl)%Z (ignore (go "reapLoop" [format_int ttl]));
  listen addr (Store.WebOrigin cfg).

(** ** The gateway *)

(** The accept loop; a failed Accept is only logged. *)
Fixpoint accepting (fuel : nat) (tls noauth : bool) : prog unit :=
  match fuel with
  | O => raise "out of fuel"
  | S fuel =>
      c ← call accept;
      _ ← when (rok c) (ignore (go_handle (rout c) tls noauth));
      accepting fuel tls noauth
  end.
Definition serve_gateway (fuel : nat) (insecureAllowed : bool) (addr : string) (idle : Z) : prog unit :=
  let noauth := Gateway.gatewayNoAuth insecureAllowed getenv in
  _ ← (if noauth then mret tt else wrap "open auth store: %w" [] (_ ← Opening.OpenFromEnv; mret tt));
  tls ← succeeds ServerConfig;
  _ ← perform (listen_tcp addr);
  _ ← when (0 <? idle)%Z (ignore (go "reaper" [format_int idle]));
  accepting fuel tls noauth.
End serving.

(** ** The key of an agent's branch *)

Section keys.
#[local] Existing Instance Cli.cmd_ret.
#[local] Existing Instance Cli.cmd_bind.
Context {W : World} {En : Env} {T : ErrorText} {TI : Opening.TableInfo} {O : Store.Outside}.

Definition no_account : error := Errorf "no account exists yet to own the key — run `odb start` first" [].
Definition mintAgentKey (branchName : string) : Cli.cmd (string + (error + Store.store_error)) :=
  opened ← Cli.engine Opening.OpenFromEnv;
  match opened with
  | inr e => mret (inr (inl e))
  | inl _ =>
      uid ← Cli.accounts Store.AnyUserID;
      match uid with
      | inl (Some uid) =>
          k ← Cli.accounts (Store.CreateScopedAPIKey uid ("agent " +:+ branchName) branchName);
          mret (match k with inl (key, _) => inl key | inr e => inr (inr e) end)
      | _ => mret (inr (inl no_account))
      end
  end.
(** What goes wrong is only logged. *)
Definition revokeAgentKeys (branchName : string) : Cli.cmd unit :=
  opened ← Cli.engine Opening.OpenFromEnv;
  match opened with
  | inr _ => mret tt
  | inl _ => _ ← Cli.accounts (Store.RevokeScopeKeys branchName); mret tt
  end.
End keys.

(** ** What comes first *)

Section order.
Context {W : World} {En : Env} {Em : Embedded} {T : ErrorText} {TI : Opening.TableInfo} {U : Unicode}.

Definition stored (e : event) : Prop := e.1 = Opening.commit ∧ rok e.2 = true.
Definition listening (a : action) : bool :=
  match a with CallOut what _ => existsb (String.eqb what) ["http.ListenAndServe"; "http.ListenAndServeTLS"; "net.Listen"] | _ => false end.
Definition serving (a : action) : bool := match a with CallOut what _ => String.eqb what "go handle" | _ => false end.
Definition opening_action (a : action) : Prop := listening a = false ∧ serving a = false.

(** Opening the store takes no port, and what it comes to is a COMMIT that succeeded. *)
Lemma once_quiet : emits opening_action Opening.initSchemaOnce.
Proof. unfold Opening.initSchemaOnce, Opening.steps, Opening.migrate, Opening.hasColumn, Opening.exec, on_error. emits_go; done. Qed.
Lemma loop_quiet fuel n d : emits opening_action (Opening.init_loop fuel n d).
Proof.
  revert n. induction fuel as [|fuel IH]; intros n; cbn [Opening.init_loop]; [apply emits_raise|].
  emits_go; first [apply once_quiet|apply IH|done].
Qed.
Lemma opening_quiet : emits opening_action Opening.OpenFromEnv.
Proof.
  unfold Opening.OpenFromEnv, Opening.Open, Opening.initSchema, Opening.exec, on_error. emits_go; first [apply loop_quiet|done].
Qed.

Lemma committed_stored t : Opening.committed t → ∃ e, e ∈ t ∧ stored e.
Proof.
  intros (c & b & u & e & -> & _ & He & _). exists (Opening.commit, e). split; [|done].
  do 2 right. apply elem_of_app. right. by left.
Qed.
Lemma loop_stored fuel n d h t : runs (Opening.init_loop fuel n d) h (Ok tt) t → ∃ e, e ∈ t ∧ stored e.
Proof.
  revert n h t. induction fuel as [|fuel IH]; intros n h t; cbn [Opening.init_loop]; [by intros [[=] _]%runs_lift|].
  intros (r & t1 & t2 & H1 & H2 & ->)%runs_bind_ok. setoid_rewrite elem_of_app. destruct r as [[]|e].
  - apply runs_attempt in H1 as [([] & H1 & _)|[(e & _ & [=])|(w & _ & [=])]].
    apply Opening.once_committed, committed_stored in H1 as (e & He & Hs). eauto.
  - destruct (negb _); [by apply runs_lift in H2 as [[=] _]|].
    apply runs_call_bind in H2 as (u & H2 & ->). destruct (Z.ltb _ _); [by apply runs_lift in H2 as [[=] _]|].
    apply runs_bind_ok in H2 as ([] & t3 & t4 & _ & H2 & ->). apply IH in H2 as (e' & He & Hs).
    exists e'. split; [|done]. right. right. apply elem_of_app. by right.
Qed.
Lemma opening_stored h cfg t : runs Opening.OpenFromEnv h (Ok cfg) t → ∃ e, e ∈ t ∧ stored e.
Proof.
  unfold Opening.OpenFromEnv, Opening.Open. intros (x & t1 & t2 & _ & H & ->)%runs_bind_ok.
  apply runs_bind_ok in H as (y & t3 & t4 & _ & H & ->). apply runs_bind_ok in H as ([] & t5 & t6 & H & _ & ->).
  apply runs_bind_ok in H as ([[]|e] & t7 & t8 & H & H' & ->).
  - apply runs_attempt in H as [([] & H & _)|[(e & _ & [=])|(w & _ & [=])]].
    apply runs_call_bind in H as (u & H & ->). apply loop_stored in H as (e & He & Hs).
    exists e. split; [|done]. rewrite !elem_of_app. do 2 right. left. left. by right.
  - apply runs_bind_ok in H' as (z & t9 & t10 & _ & [[=] _]%runs_lift & _).
Qed.

(** Where nothing but taking a port and serving needs leave, opening is free. *)
Lemma opening_seen P h0 : (∀ a h, opening_action a → P h a) →
  triple P (after h0) Opening.OpenFromEnv (λ _ h, after h0 h ∧ since h0 stored h).
Proof.
  intros HP h o t (u & ->) Hr. split.
  - intros pre a r post ->. apply HP. pose proof (emits_runs _ _ _ _ _ opening_quiet Hr) as Hall. rewrite Forall_forall in Hall.
    apply (Hall (a, r)), elem_of_app. right. by left.
  - intros cfg ->. apply opening_stored in Hr as (e & He & Hs). split; [exists (u ++ t); by rewrite app_assoc|].
    exists (u ++ t), e. rewrite app_assoc. split_and!; [done|apply elem_of_app; by right|done].
Qed.

Definition no_certificate (e : event) : Prop := e.1 = EnsureCert ∧ rok e.2 = false.
Definition certificate (pair : string) (e : event) : Prop := e.1 = EnsureCert ∧ rok e.2 = true ∧ rout e.2 = pair.

(** A web server's port is taken with the store open, in clear only without a certificate. *)
Definition web_leave (h0 h : history) (a : action) : Prop :=
  serving a = false ∧ (listening a = true → since h0 stored h
    ∧ ((∃ addr o, a = listen_plain addr o ∧ since h0 no_certificate h) ∨ ∃ addr pair o, a = listen_tls addr pair o ∧ since h0 (certificate pair) h)).

Lemma web_free h a h0 : opening_action a → web_leave h0 h a.
Proof. intros [Ha Hs]. split; [done|]. by rewrite Ha. Qed.

Lemma listen_triple h0 addr origin Q : (∀ h, Q tt h) →
  triple (web_leave h0) (λ h, after h0 h ∧ since h0 stored h) (listen addr origin) Q.
Proof.
  intros HQ. pose proof (past_and _ _ (past_after h0) (past_since h0 stored)) as Hp. unfold listen.
  eapply triple_bind; [apply (triple_seen _ h0 _ _ Hp); [by intros h [? _]|intros h _; by apply web_free]|].
  intros c. apply triple_if; intros Hc; unfold perform; (eapply triple_bind; [|intros r; apply triple_if; intros _; [by apply triple_ret|apply triple_fail]]);
    (apply (triple_call _ _ _ (λ _ _, True)); [|done]); intros h [[_ Hs] Hseen]; (split; [done|]); intros _; (split; [done|]); [right|left].
  - exists addr, (rout c), origin. split; [done|]. by apply Hseen.
  - exists addr, origin. split; [done|]. by apply Hseen.
Qed.

Lemma control_plane_triple h0 addr : triple (web_leave h0) (after h0) (serve_control_plane addr) (λ _ _, True).
Proof.
  unfold serve_control_plane. eapply triple_bind; [apply opening_seen; intros a h; apply web_free|]. intros cfg.
  apply (triple_bind _ _ _ (λ _ h, after h0 h ∧ since h0 stored h)); [|intros []; by apply listen_triple]. apply (triple_free _ _ _ (past_and _ _ (past_after h0) (past_since h0 stored))).
  unfold StartCheckpointer. emits_go. intros h. by apply web_free.
Qed.
Lemma agents_triple h0 addr : triple (web_leave h0) (after h0) (serve_agents addr) (λ _ _, True).
Proof.
  unfold serve_agents. eapply triple_bind; [apply opening_seen; intros a h; apply web_free|]. intros cfg.
  apply (triple_bind _ _ _ (λ _ h, after h0 h ∧ since h0 stored h)); [|intros []; by apply listen_triple]. apply (triple_free _ _ _ (past_and _ _ (past_after h0) (past_since h0 stored))).
  emits_go. intros h. by apply web_free.
Qed.

(** The gateway's port is taken with the store open, or with the keys switched off; a client
    is served from then on, with keys asked for as switched, with TLS only when it is there. *)
Definition listened (e : event) : Prop := listening e.1 = true ∧ rok e.2 = true.
Definition tls_loaded (e : event) : Prop := e.1 = ServerConfig ∧ rok e.2 = true.
Definition gate_leave (noauth : bool) (h0 h : history) (a : action) : Prop :=
  (listening a = true → noauth = true ∨ since h0 stored h) ∧ (∀ addr o, a ≠ listen_plain addr o)
  ∧ ∀ client tls na, a = go_handle client tls na → na = noauth ∧ since h0 listened h ∧ (tls = true → since h0 tls_loaded h).

Lemma gate_free noauth h a h0 : opening_action a → gate_leave noauth h0 h a.
Proof. intros [H1 H2]. split_and!; [by rewrite H1|by intros addr o ->|]. intros client tls na ->. discriminate. Qed.

Lemma accepting_triple noauth h0 fuel tls : 
  triple (gate_leave noauth h0) (λ h, since h0 listened h ∧ (tls = true → since h0 tls_loaded h)) (accepting fuel tls noauth) (λ _ _, True).
Proof.
  set (I := λ h, _). assert (past I) as Hp.
  { intros h t [H1 H2]. split; [by apply past_since|]. intros Ht. by apply past_since, H2. }
  induction fuel as [|fuel IH]; cbn [accepting]; [by apply triple_lift|].
  eapply triple_bind; [apply (triple_call _ I _ (λ _, I)); [intros h _; by apply gate_free|intros h Hi; by apply Hp]|]. intros c.
  apply (triple_bind _ _ _ (λ _, I)); [|intros []; exact IH]. unfold when. apply triple_if; intros _; [|by apply triple_ret].
  unfold ignore. eapply triple_bind; [apply (triple_call _ I _ (λ _, I)); [|intros h Hi; by apply Hp]|intros r; by apply triple_ret].
  intros h [H1 H2]. split_and!; [done|done|]. intros client tls' na [= _ Ht Hn].
  assert (tls' = tls) as -> by by destruct tls, tls'. assert (na = noauth) as -> by by destruct na, noauth. done.
Qed.

Lemma gateway_triple h0 fuel insecureAllowed addr idle :
  triple (gate_leave (Gateway.gatewayNoAuth insecureAllowed getenv) h0) (after h0) (serve_gateway fuel insecureAllowed addr idle) (λ _ _, True).
Proof.
  unfold serve_gateway. set (noauth := Gateway.gatewayNoAuth _ _). pose proof (past_after h0) as Ha.
  set (I := λ h, after h0 h ∧ (noauth = true ∨ since h0 stored h)).
  assert (past I) as Hp by (apply past_and; [done|apply past_or; [apply past_pure|apply past_since]]).
  apply (triple_bind _ _ _ (λ _, I)).
  { apply triple_if; intros Hn; [apply triple_ret; unfold I; tauto|]. apply triple_wrap; [done|].
    eapply triple_bind; [apply opening_seen; intros a h; apply gate_free|]. intros cfg. apply triple_ret. unfold I. tauto. }
  intros []. set (J := λ (tls : bool) h, I h ∧ (tls = true → since h0 tls_loaded h)).
  apply (triple_bind _ _ _ J).
  { unfold succeeds. eapply triple_bind; [apply (triple_seen _ h0 I _ Hp); [by intros h [? _]|intros h _; by apply gate_free]|]. intros c.
    apply triple_ret. intros h [Hi Hs]. split; [done|]. intros Hc. by apply Hs. }
  intros tls. assert (past (J tls)) as Hj by (intros h t [H1 H2]; split; [by apply Hp|intros Ht; by apply past_since, H2]).
  apply (triple_bind _ _ _ (λ _ h, J tls h ∧ since h0 listened h)).
  { unfold perform. eapply triple_bind; [apply (triple_seen _ h0 (J tls) _ Hj); [by intros h [[? _] _]|]|].
    - intros h [[_ Hs] _]. split_and!; [done|done|]. intros client tls' na. discriminate.
    - intros r. apply triple_if; intros Hr; [|apply triple_fail]. apply triple_ret. intros h [H1 Hs]. split; [done|by apply Hs]. }
  intros []. apply (triple_bind _ _ _ (λ _ h, since h0 listened h ∧ (tls = true → since h0 tls_loaded h))); [|intros []; apply accepting_triple].
  unfold when. apply triple_if; intros _; [|apply triple_ret; unfold J; tauto].
  unfold ignore. eapply triple_bind; [apply (triple_call _ _ _ (λ _ h, J tls h ∧ since h0 listened h)); [intros h _; by apply gate_free|]|].
  - intros h [H1 H2]. split; [by apply Hj|by apply past_since].
  - intros r. apply triple_ret. unfold J. tauto.
Qed.

(** ** The three servers *)

Inductive server : Type := ControlPlane (addr : string) | AgentAPI (addr : string) | GatewayServer (fuel : nat) (insecureAllowed : bool) (addr : string) (idle : Z).
Definition serve (s : server) : prog unit :=
  match s with
  | ControlPlane addr => serve_control_plane addr
  | AgentAPI addr => serve_agents addr
  | GatewayServer fuel insecureAllowed addr idle => serve_gateway fuel insecureAllowed addr idle
  end.
(** Whether a server asks nobody for a key: a gateway built and told to. *)
Definition key_free (s : server) : bool :=
  match s with GatewayServer _ insecureAllowed _ _ => Gateway.gatewayNoAuth insecureAllowed getenv | _ => false end.

(** No server takes its port before it can tell who a client is: the account store was
    opened and its migration committed before, except by a gateway whose keys are switched off;
    a web server answers in clear only after the certificate was refused; and the gateway
    serves clients only from a port it took, asks each for a key exactly when the keys are not
    switched off, and offers TLS only with a certificate loaded. *)
Theorem servers_open_first s h o t pre a r post : runs (serve s) h o t → t = pre ++ (a, r) :: post →
  (listening a = true → key_free s = true ∨ ∃ e, e ∈ pre ∧ stored e)
  ∧ (∀ addr origin, a = listen_plain addr origin → ∃ e, e ∈ pre ∧ no_certificate e)
  ∧ (∀ client tls na, a = go_handle client tls na →
       na = key_free s ∧ (∃ e, e ∈ pre ∧ listened e) ∧ (tls = true → ∃ e, e ∈ pre ∧ tls_loaded e)).
Proof.
  intros Hr Heq. pose proof (since_within h) as Hw. assert (after h h) as Hh by (exists []; by rewrite app_nil_r).
  assert (web_leave h (h ++ pre) a ∨ gate_leave (key_free s) h (h ++ pre) a) as Hl.
  { destruct s as [addr|addr|fuel ins addr idle]; [left|left|right].
    - by apply (proj1 (control_plane_triple h addr h o t Hh Hr) _ _ _ _ Heq).
    - by apply (proj1 (agents_triple h addr h o t Hh Hr) _ _ _ _ Heq).
    - by apply (proj1 (gateway_triple h fuel ins addr idle h o t Hh Hr) _ _ _ _ Heq). }
  destruct Hl as [[Hs Hl]|(Hl & Hp & Hg)]; split_and!.
  - intros Ha. right. by apply Hw, Hl.
  - intros addr origin ->. destruct Hl as [_ [(? & ? & _ & Hn)|(? & ? & ? & [=] & _)]]; [done|]. by apply Hw.
  - intros client tls na ->. discriminate.
  - intros Ha. destruct (Hl Ha) as [?|?]; [by left|]. right. by apply Hw.
  - intros addr origin ->. by destruct (Hp addr origin).
  - intros client tls na ->. destruct (Hg client tls na eq_refl) as (-> & H1 & H2). split_and!; [done|by apply Hw|]. intros Ht. by apply Hw, H2.
Qed.
End order.

(** ** An agent's key opens its branch only *)

Section minted.
Context {W : World} {En : Env} {T : ErrorText} {TI : Opening.TableInfo} {O : Store.Outside}.

(** A key that is handed to an agent is in the store, with the branch as its scope, and so is
    every key the minting added. *)
Lemma minted_scoped b s h key s' t : mintAgentKey b s h = (Cli.Done (inl key), s', t) →
  ∃ row, Store.api_keys (Store.db s') = Store.api_keys (Store.db s) ++ [row] ∧ Store.k_hash row = Store.hashKey key ∧ Store.k_scope row = TrimSpace b.
Proof.
  unfold mintAgentKey, mbind, Cli.cmd_bind, Cli.engine, Cli.accounts, mret, Cli.cmd_ret.
  destruct (Opening.OpenFromEnv h) as [[cfg|e|w] t1]; [|intros [=]|intros [=]].
  destruct (Store.AnyUserID s) as [[u|e|w] s1] eqn:Hu; [|intros [=]|intros [=]].
  assert (Store.db s1 = Store.db s) as <-.
  { revert Hu. unfold Store.AnyUserID, Store.option_of, Store.caught, Store.query, mbind, Store.op_bind, mret, Store.op_ret.
    destruct (Store.fault _); [by intros [= _ <-]|]. by destruct (Store.smallest_id _); intros [= _ <-]. }
  destruct u as [u|]; [|intros [=]].
  destruct (Store.CreateScopedAPIKey u _ b s1) as [[[k info]|e|w] s2] eqn:Hk; [|intros [=]|intros [=]].
  intros [= -> -> _]. apply Store.mint_ok in Hk as [_ ->]. cbn. eauto.
Qed.
End minted.

Module Sample.
#[local] Existing Instance Opening.Sample.locked_world.
#[local] Existing Instance Opening.Sample.no_errors.
#[local] Existing Instance Opening.Sample.old_table.
#[local] Existing Instance Opening.Sample.no_env.

#[local] Existing Instance ascii_unicode.

(** A gateway that is started while another server holds the store, up to its first client. *)
Definition gateway : server := GatewayServer 1 true ":6432" 0.
Definition trace : history := (serve gateway []).2.
Definition client : action := go_handle "" true false.
Lemma servers_open_first_witness : ∃ pre r, runs (serve gateway) [] (Panic "out of fuel") trace ∧ trace = pre ++ [(client, r)]
  ∧ false = key_free gateway ∧ (∃ e, e ∈ pre ∧ listened e) ∧ ∃ e, e ∈ pre ∧ tls_loaded e.
Proof.
  assert (runs (serve gateway) [] (Panic "out of fuel") trace) as H1 by (vm_compute; reflexivity).
  assert (trace = removelast trace ++ [(client, mkReply true "" "" 0)]) as H2 by (vm_compute; reflexivity).
  exists (removelast trace), (mkReply true "" "" 0). split; [exact H1|]. split; [exact H2|].
  destruct (servers_open_first gateway [] _ _ _ client _ [] H1 H2) as (_ & _ & H3).
  destruct (H3 "" true false eq_refl) as (H4 & H5 & H6). split; [exact H4|]. split; [exact H5|]. exact (H6 eq_refl).
Defined.
End Sample.
